(** * GigaFlair SIP2 bridge: the protocol engine, embedded and verified

    A shallow embedding of the SIP2 codec of the bridge (checksum codec,
    field sanitizer, request formatters, response parsers), of the masking
    service and of the circuit breaker of the connection manager, with the
    properties the specification states about them.

    JavaScript strings are sequences of UTF-16 code units; they are modelled
    as [list N], one number per code unit, so that [charCodeAt], the regular
    expression classes and the control-character ranges read as in the
    source.  String literals of the source are written [js "..."]. *)

From Stdlib Require Import ZArith NArith List String Ascii Lia Bool.
From stdpp Require Import base gmap list strings.

Set Warnings "-register-all".

Local Open Scope N_scope.

(** ** JavaScript strings *)

Abbreviation jsstring := (list N).

(** A source literal: each character of the (ASCII) literal is one code unit. *)
Definition js (s : string) : jsstring :=
  map N_of_ascii (list_ascii_of_string s).

(** ["\r"] and ["\n"], which the literals above cannot spell. *)
Definition CR : N := 13.
Definition LF : N := 10.

(** The errors the engine raises.  The source raises plain [Error] objects
    that differ in their message; the constructors carry the names the
    specification gives them and the data the message interpolates. *)
Inductive SipError : Type :=
  | InvalidSequence (seqNum : Z)
      (* 'SIP2 sequence number must be 0-9 (got <seqNum>)' *)
  | MalformedTrailer
      (* named by the specification; no path of the source constructs it *)
  | UnexpectedResponseCode (expected : string) (got : jsstring)
      (* 'Expected <expected>, got: <first two characters>' *)
  | MasterKeyMissing
      (* 'GIGAFLAIR_MASTER_KEY is not set. Cannot mask data securely.' *)
  | UnknownBranch (branchId : jsstring)
      (* 'Unknown branch: <branchId>' *)
  | CircuitOpen (branchId : jsstring) (nextRetryAt : option Z)
      (* 'Circuit for branch <branchId> is OPEN. Next retry at ...' *)
  | ProbeInFlight (branchId : jsstring)
      (* 'Circuit for branch <branchId> is HALF_OPEN (probe in flight)' *)
  | ClientFailure
      (* any error of the socket or of the login handshake *).

(** The result of calling a function that may [throw]. *)
Inductive outcome (A : Type) : Type :=
  | Returned (a : A)
  | Thrown (e : SipError).
Arguments Returned {A} a.
Arguments Thrown {A} e.

(** Sequencing: an error raised by the first computation propagates. *)
#[global] Instance outcome_ret : MRet outcome := fun A a => Returned a.
#[global] Instance outcome_bind : MBind outcome := fun A B k x =>
  match x with
  | Returned a => k a
  | Thrown e => Thrown e
  end.
#[global] Instance outcome_fmap : FMap outcome := fun A B f x =>
  match x with
  | Returned a => Returned (f a)
  | Thrown e => Thrown e
  end.

(** *** String primitives *)

(** [s.substring(start, end)] for non-negative integer arguments: both
    are clamped to the length and swapped when out of order. *)
Definition substring (s : jsstring) (start stop : nat) : jsstring :=
  let a := Nat.min start (length s) in
  let b := Nat.min stop (length s) in
  take (Nat.max a b - Nat.min a b) (drop (Nat.min a b) s).

(** [s.substring(start)]. *)
Definition substring_from (s : jsstring) (start : nat) : jsstring :=
  drop start s.

(** [s[i]]: a one-character string, or [undefined] past the end. *)
Definition char_at (s : jsstring) (i : nat) : option jsstring :=
  match s !! i with
  | Some c => Some [c]
  | None => None
  end.

(** [s.startsWith(p)]. *)
Fixpoint startsWith (s p : jsstring) : bool :=
  match p, s with
  | [], _ => true
  | _ :: _, [] => false
  | x :: p', y :: s' => (x =? y) && startsWith s' p'
  end.

(** [s.includes(p)]. *)
Fixpoint includes (s p : jsstring) : bool :=
  startsWith s p ||
  match s with
  | [] => false
  | _ :: s' => includes s' p
  end.

(** [s.padStart(n, pad)] and [s.padEnd(n, pad)]: the filler is [pad]
    repeated and cut to the missing length; nothing happens when [s] is long
    enough or [pad] is empty. *)
Definition pad_filler (missing : nat) (pad : jsstring) : jsstring :=
  take missing (concat (replicate missing pad)).

Definition padStart (s : jsstring) (n : nat) (pad : jsstring) : jsstring :=
  pad_filler (n - length s) pad ++ s.

Definition padEnd (s : jsstring) (n : nat) (pad : jsstring) : jsstring :=
  s ++ pad_filler (n - length s) pad.

(** [toUpperCase] and [toLowerCase] on the ASCII letters.  Code units from
    0x80 on are left as they are: the Unicode case tables of the engine are
    not part of the model. *)
Definition upper_unit (c : N) : N :=
  if (97 <=? c) && (c <=? 122) then c - 32 else c.
Definition lower_unit (c : N) : N :=
  if (65 <=? c) && (c <=? 90) then c + 32 else c.
Definition toUpperCase (s : jsstring) : jsstring := map upper_unit s.
Definition toLowerCase (s : jsstring) : jsstring := map lower_unit s.

(** White space and line terminators, as [trim] and [parseInt] skip them. *)
Definition is_space (c : N) : bool :=
  (c =? 9) || (c =? 10) || (c =? 11) || (c =? 12) || (c =? 13) || (c =? 32)
  || (c =? 160) || (c =? 5760) || ((8192 <=? c) && (c <=? 8202))
  || (c =? 8232) || (c =? 8233) || (c =? 8239) || (c =? 8287)
  || (c =? 12288) || (c =? 65279).

Fixpoint trimStart (s : jsstring) : jsstring :=
  match s with
  | c :: s' => if is_space c then trimStart s' else s
  | [] => []
  end.

Definition trimEnd (s : jsstring) : jsstring := rev (trimStart (rev s)).
Definition trim (s : jsstring) : jsstring := trimEnd (trimStart s).

(** *** Regular expressions *)

(** A character class [[...]]: a list of inclusive ranges of code units. *)
Definition char_class := list (N * N).

Definition class_matches (cls : char_class) (c : N) : bool :=
  existsb (fun r => (fst r <=? c) && (c <=? snd r)) cls.

Definition class_upper : char_class := [(65, 90)].               (* [A-Z] *)
Definition class_digit : char_class := [(48, 57)].               (* \d *)
Definition class_hex : char_class := [(48, 57); (65, 70); (97, 102)].
                                                                  (* [0-9A-Fa-f] *)

(** [s.replace(/[cls]/g, repl)] for a replacement without [$] patterns:
    every code unit in the class is replaced, left to right. *)
Fixpoint replace_class_g (cls : char_class) (repl s : jsstring) : jsstring :=
  match s with
  | [] => []
  | c :: s' =>
      (if class_matches cls c then repl else [c]) ++ replace_class_g cls repl s'
  end.

(** The leftmost match of a pattern: [attempt] tries the pattern at the
    start of a suffix; the search tries every start index from [idx] on, the
    end of the string included, and returns the first that succeeds. *)
Fixpoint regex_search {A} (attempt : jsstring -> option A) (idx : nat)
    (s : jsstring) : option (nat * A) :=
  match attempt s with
  | Some m => Some (idx, m)
  | None =>
      match s with
      | [] => None
      | _ :: s' => regex_search attempt (S idx) s'
      end
  end.

(** *** Numbers *)

(** The digits of [n >= 0] in [radix], most significant first.  [fuel]
    bounds the number of digits. *)
Fixpoint radix_digits (radix : Z) (fuel : nat) (n : Z) (acc : list Z) : list Z :=
  match fuel with
  | O => acc
  | S fuel' =>
      let acc' := (n mod radix)%Z :: acc in
      if (n / radix =? 0)%Z then acc' else radix_digits radix fuel' (n / radix)%Z acc'
  end.

(** The character of a digit: [0-9] then [a-z]. *)
Definition digit_char (d : Z) : N :=
  if (d <? 10)%Z then Z.to_N (48 + d) else Z.to_N (97 + (d - 10)).

(** [n.toString(radix)] for an integer [n] below [10^21] in absolute value.
    From [10^21] on JavaScript writes radix 10 with an exponent. *)
Definition Number_toString (radix : Z) (n : Z) : jsstring :=
  let mag := Z.abs n in
  let ds := map digit_char (radix_digits radix (S (Z.to_nat (Z.log2 mag))) mag []) in
  if (n <? 0)%Z then js "-" ++ ds else ds.

(** [ToInt32], the conversion the bitwise operators apply to their
    operands: reduction modulo 2^32 into the signed range. *)
Definition ToInt32 (x : Z) : Z :=
  let m := (x mod 2 ^ 32)%Z in
  if (2 ^ 31 <=? m)%Z then (m - 2 ^ 32)%Z else m.

(** [a & b]. *)
Definition js_bitand (a b : Z) : Z := Z.land (ToInt32 a) (ToInt32 b).

(** ** Checksum codec (utils/checksum) *)

(** The loop of [calculateChecksum]: [sum += message.charCodeAt(i)].
    The sum of a string of JavaScript is below 2^53, so the floating-point
    additions of the source are exact. *)
Definition charCodeSum (message : jsstring) : Z :=
  fold_left (fun sum c => (sum + Z.of_N c)%Z) message 0%Z.

Definition calculateChecksum (message : jsstring) : jsstring :=
  let sum := charCodeSum message in
  let checksum := js_bitand (- sum) 65535 in
  padStart (toUpperCase (Number_toString 16 checksum)) 4 (js "0").

Definition appendChecksum (message : jsstring) (seqNum : Z) : outcome jsstring :=
  if (9 <? seqNum)%Z then Thrown (InvalidSequence seqNum)
  else
    let seqStr := substring (Number_toString 10 seqNum) 0 1 in
    let partialMsg := message ++ js "AY" ++ seqStr ++ js "AZ" in
    let checksum := calculateChecksum partialMsg in
    Returned (partialMsg ++ checksum ++ [CR]).

(** One attempt of [/AZ([0-9A-Fa-f]{4})\r?$/] at the start of [s]: the
    whole match and group 1.  [$] only holds at the end of the input (the
    pattern has no [m] flag), so an attempt succeeds exactly when [s] is
    [AZ], four hex digits and at most one carriage return. *)
Definition trailer_at (s : jsstring) : option (jsstring * jsstring) :=
  match s with
  | a :: z :: h1 :: h2 :: h3 :: h4 :: rest =>
      if (a =? 65) && (z =? 90) && forallb (class_matches class_hex) [h1; h2; h3; h4]
      then
        match rest with
        | [] => Some (s, [h1; h2; h3; h4])
        | [c] => if c =? CR then Some (s, [h1; h2; h3; h4]) else None
        | _ => None
        end
      else None
  | _ => None
  end.

(** [verifyChecksum] returns a boolean on every path; it is given the type
    of the functions that may raise so that statements about it can tell a
    returned [false] from a raised error. *)
Definition verifyChecksum (message : jsstring) : outcome bool :=
  match regex_search trailer_at 0 message with
  | None => Returned false
  | Some (_, (match0, match1)) =>
      let expectedChecksum := toUpperCase match1 in
      let matchIndex := (length message - length match0)%nat in
      let msgWithoutChecksum := substring message 0 (matchIndex + 2) in
      let actualChecksum := calculateChecksum msgWithoutChecksum in
      Returned (bool_decide (actualChecksum = expectedChecksum))
  end.

(** ** Field sanitizer (utils/sip-formatter) *)

(** [value.replace(/[|\r\n\x00-\x1F]/g, '')]. *)
Definition sanitizeSipField (value : jsstring) : jsstring :=
  replace_class_g [(124, 124); (13, 13); (10, 10); (0, 31)] [] value.

(** ** Formatter (utils/sip-formatter) *)

(** The UTC fields of [new Date()], which [getSipTimestamp] reads. *)
Record Date : Type := {
  getUTCFullYear : Z;
  getUTCMonth : Z;
  getUTCDate : Z;
  getUTCHours : Z;
  getUTCMinutes : Z;
  getUTCSeconds : Z
}.

(** [String(n)] for an integer below [10^21] in absolute value. *)
Definition String_of (n : Z) : jsstring := Number_toString 10 n.

(** [getSipTimestamp], with the clock reading as an argument. *)
Definition getSipTimestamp (now : Date) : jsstring :=
  let year := String_of (getUTCFullYear now) in
  let month := padStart (String_of (getUTCMonth now + 1)) 2 (js "0") in
  let day := padStart (String_of (getUTCDate now)) 2 (js "0") in
  let hours := padStart (String_of (getUTCHours now)) 2 (js "0") in
  let mins := padStart (String_of (getUTCMinutes now)) 2 (js "0") in
  let secs := padStart (String_of (getUTCSeconds now)) 2 (js "0") in
  year ++ month ++ day ++ js "    " ++ hours ++ mins ++ secs.

(** [if (s)] on an optional string: neither [undefined] nor empty. *)
Definition truthy (s : option jsstring) : bool :=
  match s with
  | Some (_ :: _) => true
  | _ => false
  end.

(** Parameters with a default value are options: [None] is the omitted
    argument. *)
Definition formatPatronStatusRequest (now : Date) (barcode : jsstring)
    (institutionId : option jsstring) (seqNum : option Z)
    (language : option jsstring) : outcome jsstring :=
  let institutionId := default (js "GigaFlair") institutionId in
  let seqNum := default 0%Z seqNum in
  let language := default (js "001") language in
  let timestamp := getSipTimestamp now in
  let safeBarcode := sanitizeSipField barcode in
  let safeInst := sanitizeSipField institutionId in
  let msg := js "23" ++ substring language 0 3 ++ timestamp ++ js "AO" ++ safeInst
             ++ js "|AA" ++ safeBarcode ++ js "|AC|" in
  appendChecksum msg seqNum.

Definition formatLoginRequest (uid pwd : jsstring) (locationCode : option jsstring)
    (seqNum : option Z) : outcome jsstring :=
  let locationCode := default [] locationCode in
  let seqNum := default 0%Z seqNum in
  let safeUid := sanitizeSipField uid in
  let safePwd := sanitizeSipField pwd in
  let safeLoc := sanitizeSipField locationCode in
  let msg := js "9300CN" ++ safeUid ++ js "|CO" ++ safePwd ++ js "|CP" ++ safeLoc
             ++ js "|" in
  appendChecksum msg seqNum.

Definition formatCheckoutRequest (now : Date) (patronBarcode itemBarcode : jsstring)
    (institutionId : option jsstring) (seqNum : option Z)
    (patronPin : option jsstring) : outcome jsstring :=
  let institutionId := default (js "GigaFlair") institutionId in
  let seqNum := default 0%Z seqNum in
  let timestamp := getSipTimestamp now in
  let nbDueDate := padEnd [] 18 (js " ") in
  let msg := js "11YN" ++ timestamp ++ nbDueDate ++ js "AO" ++ sanitizeSipField institutionId
             ++ js "|AA" ++ sanitizeSipField patronBarcode
             ++ js "|AB" ++ sanitizeSipField itemBarcode ++ js "|AC|" in
  let msg := if truthy patronPin
             then msg ++ js "AD" ++ sanitizeSipField (default [] patronPin) ++ js "|"
             else msg in
  appendChecksum msg seqNum.

Definition formatCheckinRequest (now : Date) (itemBarcode : jsstring)
    (institutionId : option jsstring) (seqNum : option Z) : outcome jsstring :=
  let institutionId := default (js "GigaFlair") institutionId in
  let seqNum := default 0%Z seqNum in
  let timestamp := getSipTimestamp now in
  let msg := js "09N" ++ timestamp ++ timestamp ++ js "AO" ++ sanitizeSipField institutionId
             ++ js "|AB" ++ sanitizeSipField itemBarcode ++ js "|AC|" in
  appendChecksum msg seqNum.

Definition formatItemInformationRequest (now : Date) (itemBarcode : jsstring)
    (institutionId : option jsstring) (seqNum : option Z) : outcome jsstring :=
  let institutionId := default (js "GigaFlair") institutionId in
  let seqNum := default 0%Z seqNum in
  let msg := js "17" ++ getSipTimestamp now ++ js "AO" ++ sanitizeSipField institutionId
             ++ js "|AB" ++ sanitizeSipField itemBarcode ++ js "|" in
  appendChecksum msg seqNum.

Definition formatRenewRequest (now : Date) (patronBarcode itemBarcode : jsstring)
    (institutionId : option jsstring) (seqNum : option Z)
    (patronPin : option jsstring) : outcome jsstring :=
  let institutionId := default (js "GigaFlair") institutionId in
  let seqNum := default 0%Z seqNum in
  let timestamp := getSipTimestamp now in
  let nbDueDate := padEnd [] 18 (js " ") in
  let msg := js "29YN" ++ timestamp ++ nbDueDate ++ js "AO" ++ sanitizeSipField institutionId
             ++ js "|AA" ++ sanitizeSipField patronBarcode
             ++ js "|AB" ++ sanitizeSipField itemBarcode ++ js "|" in
  let msg := if truthy patronPin
             then msg ++ js "AD" ++ sanitizeSipField (default [] patronPin) ++ js "|"
             else msg in
  appendChecksum msg seqNum.

Definition formatFeePaidRequest (now : Date) (patronBarcode feeId amount : jsstring)
    (institutionId : option jsstring) (seqNum : option Z)
    (feeType paymentType currencyType : option jsstring) : outcome jsstring :=
  let institutionId := default (js "GigaFlair") institutionId in
  let seqNum := default 0%Z seqNum in
  let feeType := default (js "01") feeType in
  let paymentType := default (js "00") paymentType in
  let currencyType := default (js "USD") currencyType in
  let safeCurrency := padEnd (substring (sanitizeSipField currencyType) 0 3) 3 (js " ") in
  let msg := js "37" ++ getSipTimestamp now
             ++ substring (padEnd feeType 2 (js " ")) 0 2
             ++ substring (padEnd paymentType 2 (js " ")) 0 2
             ++ safeCurrency ++ js "AO" ++ sanitizeSipField institutionId
             ++ js "|AA" ++ sanitizeSipField patronBarcode
             ++ js "|BK" ++ sanitizeSipField feeId
             ++ js "|BV" ++ sanitizeSipField amount
             ++ js "|BH" ++ trim safeCurrency ++ js "|" in
  appendChecksum msg seqNum.

(** The [summary] argument of [formatPatronInformationRequest]. *)
Record PatronInformationSummary : Type := {
  holds : option bool;
  overdue : option bool;
  charged : option bool;
  fines : option bool;
  recall : option bool
}.

Definition formatPatronInformationRequest (now : Date) (patronBarcode : jsstring)
    (summary : option PatronInformationSummary) (startItem endItem : option Z)
    (institutionId : option jsstring) (seqNum : option Z)
    (language : option jsstring) : outcome jsstring :=
  let summary := default {| holds := None; overdue := None; charged := None;
                            fines := None; recall := None |} summary in
  let startItem := default 1%Z startItem in
  let endItem := default 5%Z endItem in
  let institutionId := default (js "GigaFlair") institutionId in
  let seqNum := default 0%Z seqNum in
  let language := default (js "001") language in
  let f (b : option bool) := if bool_decide (b = Some true) then js "Y" else js " " in
  let summaryFlags := f (holds summary) ++ f (overdue summary) ++ f (charged summary)
                      ++ f (fines summary) ++ f (recall summary) ++ js "     " in
  let start := padStart (String_of startItem) 4 (js "0") in
  let end_ := padStart (String_of endItem) 4 (js "0") in
  let msg := js "63" ++ substring language 0 3 ++ getSipTimestamp now ++ summaryFlags
             ++ js "AO" ++ sanitizeSipField institutionId
             ++ js "|AA" ++ sanitizeSipField patronBarcode
             ++ js "|BP" ++ start ++ js "|BQ" ++ end_ ++ js "|" in
  appendChecksum msg seqNum.

(** ['+' | '-' | '*']. *)
Inductive HoldMode : Type := HoldAdd | HoldDelete | HoldChange.

Definition HoldMode_str (m : HoldMode) : jsstring :=
  match m with
  | HoldAdd => js "+"
  | HoldDelete => js "-"
  | HoldChange => js "*"
  end.

Definition formatHoldRequest (now : Date) (holdMode : HoldMode) (patronBarcode : jsstring)
    (itemBarcode expiryDate pickupLocation institutionId : option jsstring)
    (seqNum : option Z) (titleId : option jsstring) : outcome jsstring :=
  let institutionId := default (js "GigaFlair") institutionId in
  let seqNum := default 0%Z seqNum in
  let timestamp := getSipTimestamp now in
  let msg := js "15" ++ HoldMode_str holdMode ++ timestamp in
  let msg := if truthy expiryDate
             then msg ++ js "BW" ++ sanitizeSipField (default [] expiryDate) ++ js "|"
             else msg in
  let msg := msg ++ js "AO" ++ sanitizeSipField institutionId
             ++ js "|AA" ++ sanitizeSipField patronBarcode ++ js "|" in
  let msg := if truthy itemBarcode
             then msg ++ js "AB" ++ sanitizeSipField (default [] itemBarcode) ++ js "|"
             else msg in
  let msg := if truthy titleId
             then msg ++ js "BT" ++ sanitizeSipField (default [] titleId) ++ js "|"
             else msg in
  let msg := if truthy pickupLocation
             then msg ++ js "BS" ++ sanitizeSipField (default [] pickupLocation) ++ js "|"
             else msg in
  let msg := msg ++ js "AC|" in
  appendChecksum msg seqNum.

Definition formatRenewAllRequest (now : Date) (patronBarcode : jsstring)
    (institutionId : option jsstring) (seqNum : option Z) : outcome jsstring :=
  let institutionId := default (js "GigaFlair") institutionId in
  let seqNum := default 0%Z seqNum in
  let timestamp := getSipTimestamp now in
  let msg := js "65" ++ timestamp ++ timestamp ++ js "AO" ++ sanitizeSipField institutionId
             ++ js "|AA" ++ sanitizeSipField patronBarcode ++ js "|AC|" in
  appendChecksum msg seqNum.

Definition formatEndSessionRequest (now : Date) (patronBarcode : jsstring)
    (institutionId : option jsstring) (seqNum : option Z) : outcome jsstring :=
  let institutionId := default (js "GigaFlair") institutionId in
  let seqNum := default 0%Z seqNum in
  let msg := js "35" ++ getSipTimestamp now ++ js "AO" ++ sanitizeSipField institutionId
             ++ js "|AA" ++ sanitizeSipField patronBarcode ++ js "|AC|" in
  appendChecksum msg seqNum.

Definition formatSCStatusRequest (seqNum : option Z) : outcome jsstring :=
  let seqNum := default 0%Z seqNum in
  let msg := js "9900802.00" in
  appendChecksum msg seqNum.

Definition formatBlockPatronRequest (now : Date) (patronBarcode : jsstring)
    (cardRetained : option bool) (blockedCardMessage institutionId : option jsstring)
    (seqNum : option Z) : outcome jsstring :=
  let cardRetained := default false cardRetained in
  let blockedCardMessage := default [] blockedCardMessage in
  let institutionId := default (js "GigaFlair") institutionId in
  let seqNum := default 0%Z seqNum in
  let retained := if cardRetained then js "Y" else js "N" in
  let msg := js "01" ++ retained ++ getSipTimestamp now
             ++ js "AO" ++ sanitizeSipField institutionId
             ++ js "|AA" ++ sanitizeSipField patronBarcode
             ++ js "|AC|AL" ++ sanitizeSipField blockedCardMessage ++ js "|" in
  appendChecksum msg seqNum.

(** ['0' | '1' | '2' | '3']. *)
Inductive SecurityMarker : Type := Marker0 | Marker1 | Marker2 | Marker3.

Definition SecurityMarker_str (m : SecurityMarker) : jsstring :=
  match m with
  | Marker0 => js "0"
  | Marker1 => js "1"
  | Marker2 => js "2"
  | Marker3 => js "3"
  end.

Definition formatItemStatusUpdateRequest (now : Date) (itemBarcode : jsstring)
    (securityMarker : option SecurityMarker) (institutionId : option jsstring)
    (seqNum : option Z) : outcome jsstring :=
  let securityMarker := default Marker2 securityMarker in
  let institutionId := default (js "GigaFlair") institutionId in
  let seqNum := default 0%Z seqNum in
  let msg := js "19" ++ SecurityMarker_str securityMarker ++ getSipTimestamp now
             ++ js "AO" ++ sanitizeSipField institutionId
             ++ js "|AB" ++ sanitizeSipField itemBarcode ++ js "|" in
  appendChecksum msg seqNum.

Definition formatPatronEnableRequest (now : Date) (patronBarcode : jsstring)
    (patronPin institutionId : option jsstring) (seqNum : option Z) : outcome jsstring :=
  let institutionId := default (js "GigaFlair") institutionId in
  let seqNum := default 0%Z seqNum in
  let msg := js "25" ++ getSipTimestamp now ++ js "AO" ++ sanitizeSipField institutionId
             ++ js "|AA" ++ sanitizeSipField patronBarcode ++ js "|AC|" in
  let msg := if truthy patronPin
             then msg ++ js "AD" ++ sanitizeSipField (default [] patronPin) ++ js "|"
             else msg in
  appendChecksum msg seqNum.

(** The fifteen supported commands with their arguments, and the formatter
    each one is sent through. *)
Inductive SipCommand : Type :=
  | CmdLogin (uid pwd : jsstring) (locationCode : option jsstring)
  | CmdPatronStatus (barcode : jsstring) (institutionId language : option jsstring)
  | CmdCheckout (patronBarcode itemBarcode : jsstring)
      (institutionId patronPin : option jsstring)
  | CmdCheckin (itemBarcode : jsstring) (institutionId : option jsstring)
  | CmdItemInformation (itemBarcode : jsstring) (institutionId : option jsstring)
  | CmdRenew (patronBarcode itemBarcode : jsstring)
      (institutionId patronPin : option jsstring)
  | CmdFeePaid (patronBarcode feeId amount : jsstring)
      (institutionId feeType paymentType currencyType : option jsstring)
  | CmdPatronInformation (patronBarcode : jsstring)
      (summary : option PatronInformationSummary) (startItem endItem : option Z)
      (institutionId language : option jsstring)
  | CmdHold (holdMode : HoldMode) (patronBarcode : jsstring)
      (itemBarcode expiryDate pickupLocation institutionId titleId : option jsstring)
  | CmdRenewAll (patronBarcode : jsstring) (institutionId : option jsstring)
  | CmdEndSession (patronBarcode : jsstring) (institutionId : option jsstring)
  | CmdSCStatus
  | CmdBlockPatron (patronBarcode : jsstring) (cardRetained : option bool)
      (blockedCardMessage institutionId : option jsstring)
  | CmdItemStatusUpdate (itemBarcode : jsstring) (securityMarker : option SecurityMarker)
      (institutionId : option jsstring)
  | CmdPatronEnable (patronBarcode : jsstring) (patronPin institutionId : option jsstring).

Definition formatCommand (now : Date) (cmd : SipCommand) (seqNum : option Z)
    : outcome jsstring :=
  match cmd with
  | CmdLogin uid pwd loc => formatLoginRequest uid pwd loc seqNum
  | CmdPatronStatus b inst lang => formatPatronStatusRequest now b inst seqNum lang
  | CmdCheckout p i inst pin => formatCheckoutRequest now p i inst seqNum pin
  | CmdCheckin i inst => formatCheckinRequest now i inst seqNum
  | CmdItemInformation i inst => formatItemInformationRequest now i inst seqNum
  | CmdRenew p i inst pin => formatRenewRequest now p i inst seqNum pin
  | CmdFeePaid p fee amt inst ft pt cur => formatFeePaidRequest now p fee amt inst seqNum ft pt cur
  | CmdPatronInformation p sm st en inst lang =>
      formatPatronInformationRequest now p sm st en inst seqNum lang
  | CmdHold m p i ex pk inst t => formatHoldRequest now m p i ex pk inst seqNum t
  | CmdRenewAll p inst => formatRenewAllRequest now p inst seqNum
  | CmdEndSession p inst => formatEndSessionRequest now p inst seqNum
  | CmdSCStatus => formatSCStatusRequest seqNum
  | CmdBlockPatron p cr msg inst => formatBlockPatronRequest now p cr msg inst seqNum
  | CmdItemStatusUpdate i sm inst => formatItemStatusUpdateRequest now i sm inst seqNum
  | CmdPatronEnable p pin inst => formatPatronEnableRequest now p pin inst seqNum
  end.

(** ** Parser (utils/sip-parser) *)

(** [s.split(sep)] for a one-character separator. *)
Fixpoint split_on (sep : N) (s : jsstring) : list jsstring :=
  match s with
  | [] => [[]]
  | c :: s' =>
      if c =? sep then [] :: split_on sep s'
      else
        match split_on sep s' with
        | part :: parts => (c :: part) :: parts
        | [] => [[c]]
        end
  end.

(** Two upper-case letters at the start of [s]: [[A-Z]{2}]. *)
Definition starts_tag (s : jsstring) : bool :=
  match s with
  | a :: b :: _ => class_matches class_upper a && class_matches class_upper b
  | _ => false
  end.

(** Group 2 and the lookahead of the tag pattern, [([^|]*?)(?=[A-Z]{2}|$)]:
    the shortest run of units other than [|] after which two upper-case
    letters or the end of the input follow.  The result is the run and the
    input left after it; the attempt fails when a [|] comes first. *)
Fixpoint lazy_value (s : jsstring) : option (jsstring * jsstring) :=
  if starts_tag s then Some ([], s)
  else
    match s with
    | [] => Some ([], [])
    | c :: s' =>
        if c =? 124 then None
        else
          match lazy_value s' with
          | Some (v, rest) => Some (c :: v, rest)
          | None => None
          end
    end.

(** One attempt of [/([A-Z]{2})([^|]*?)(?=[A-Z]{2}|$)/] at the start of [s]:
    group 1, group 2 and the input after the match. *)
Definition tag_at (s : jsstring) : option (jsstring * jsstring * jsstring) :=
  match s with
  | a :: b :: s' =>
      if class_matches class_upper a && class_matches class_upper b then
        match lazy_value s' with
        | Some (v, rest) => Some ([a; b], v, rest)
        | None => None
        end
      else None
  | _ => None
  end.

(** The loop [while ((m = tagPattern.exec(part)) !== null)] of a pattern with
    the [g] flag: each [exec] searches from [lastIndex], where the previous
    match ended.  The results are [(m.index, m[1], m[2])] in order.  [s] is
    the input from [lastIndex] on.  Every match takes at least two units, so
    [length s] rounds of [fuel] reach the end of the input. *)
Fixpoint tag_exec_all (fuel : nat) (lastIndex : nat) (s : jsstring)
    : list (nat * jsstring * jsstring) :=
  match fuel with
  | O => []
  | S fuel' =>
      match regex_search tag_at lastIndex s with
      | None => []
      | Some (index, (tag, value, rest)) =>
          (index, tag, value)
            :: tag_exec_all fuel' (index + 2 + length value)%nat rest
      end
  end.

Definition tag_matches (part : jsstring) : list (nat * jsstring * jsstring) :=
  tag_exec_all (length part) 0 part.

(** The [for] loop over [parts] with its index. *)
Fixpoint for_parts {S} (body : nat -> jsstring -> S -> S) (i : nat)
    (parts : list jsstring) (st : S) : S :=
  match parts with
  | [] => st
  | part :: parts' => for_parts body (Datatypes.S i) parts' (body i part st)
  end.

Definition fixedFieldLengths : gmap jsstring nat :=
  list_to_map
    [(js "24", 37%nat); (js "64", 63%nat); (js "98", 36%nat); (js "10", 24%nat);
     (js "12", 24%nat); (js "30", 21%nat); (js "16", 24%nat); (js "36", 21%nat);
     (js "66", 26%nat); (js "26", 37%nat); (js "20", 21%nat); (js "94", 3%nat);
     (js "93", 4%nat); (js "18", 37%nat)].

(** [/^[A-Z]{2}$/.test(tag)]. *)
Definition is_tag (tag : jsstring) : bool :=
  match tag with
  | [a; b] => class_matches class_upper a && class_matches class_upper b
  | _ => false
  end.

(** One attempt of [/AY(\d)AZ/]: group 1. *)
Definition ayaz_at (s : jsstring) : option jsstring :=
  match s with
  | a :: y :: d :: a' :: z :: _ =>
      if (a =? 65) && (y =? 89) && class_matches class_digit d && (a' =? 65) && (z =? 90)
      then Some [d] else None
  | _ => None
  end.

(** The body of the loop of [parseFields] for segment [i]. *)
Definition parseFields_part (threshold : nat) (i : nat) (part : jsstring)
    (fields : gmap jsstring jsstring) : gmap jsstring jsstring :=
  if (i =? 0)%nat then
    fold_left
      (fun fields m =>
         match m with
         | (index, tag, value) =>
             if (threshold <=? index)%nat then <[tag := value]> fields else fields
         end)
      (tag_matches part) fields
  else
    let tag := substring part 0 2 in
    if is_tag tag then <[tag := substring_from part 2]> fields else fields.

Definition parseFields (raw : jsstring) : gmap jsstring jsstring :=
  let parts := split_on 124 raw in
  let header := default [] (head parts) in
  let msgType := substring header 0 2 in
  let threshold := default 15%nat (fixedFieldLengths !! msgType) in
  let fields := for_parts (parseFields_part threshold) 0 parts ∅ in
  match regex_search ayaz_at 0 raw with
  | Some (_, digit) => <[js "AY" := digit]> fields
  | None => fields
  end.

(** [if (!fields[tag]) fields[tag] = []; fields[tag].push(value)]. *)
Definition push_field (tag value : jsstring) (fields : gmap jsstring (list jsstring))
    : gmap jsstring (list jsstring) :=
  <[tag := default [] (fields !! tag) ++ [value]]> fields.

Definition parseFieldsMulti_part (threshold : nat) (i : nat) (part : jsstring)
    (fields : gmap jsstring (list jsstring)) : gmap jsstring (list jsstring) :=
  if (i =? 0)%nat then
    fold_left
      (fun fields m =>
         match m with
         | (index, tag, value) =>
             if (threshold <=? index)%nat then push_field tag value fields else fields
         end)
      (tag_matches part) fields
  else
    let tag := substring part 0 2 in
    if is_tag tag then push_field tag (substring_from part 2) fields else fields.

Definition parseFieldsMulti (raw : jsstring) : gmap jsstring (list jsstring) :=
  let parts := split_on 124 raw in
  let msgType := substring (default [] (head parts)) 0 2 in
  let threshold := default 15%nat (fixedFieldLengths !! msgType) in
  for_parts (parseFieldsMulti_part threshold) 0 parts ∅.

Definition tag_set (tags : list string) : gset jsstring := list_to_set (map js tags).

Definition TAGS_PATRON_STATUS : gset jsstring :=
  tag_set ["AO"; "AA"; "AE"; "BL"; "BZ"; "CA"; "CB"; "AU"; "CD"; "AS"; "AF"; "AG"]%string.
Definition TAGS_CHECKOUT : gset jsstring :=
  tag_set ["AO"; "AA"; "AB"; "AJ"; "AH"; "BV"; "AF"; "AG"]%string.
Definition TAGS_CHECKIN : gset jsstring :=
  tag_set ["AO"; "AB"; "AJ"; "AQ"; "AF"; "AG"]%string.
Definition TAGS_ITEM_INFO : gset jsstring :=
  tag_set ["AO"; "AB"; "AJ"; "BG"; "BH"; "CK"; "AF"]%string.
Definition TAGS_FEE_PAID : gset jsstring :=
  tag_set ["AO"; "AA"; "BK"; "BH"; "AF"]%string.
Definition TAGS_PATRON_INFO : gset jsstring :=
  tag_set ["AO"; "AA"; "AE"; "BL"; "BE"; "BF"; "BD"; "AF"; "AT"; "AU"; "AV"; "BU";
           "BJ"; "BP"; "BQ"]%string.
Definition TAGS_HOLD : gset jsstring :=
  tag_set ["AO"; "AA"; "AB"; "AJ"; "BW"; "BS"; "MN"; "AF"; "AG"]%string.
Definition TAGS_RENEW_ALL : gset jsstring :=
  tag_set ["AO"; "AA"; "BM"; "BN"; "AF"]%string.
Definition TAGS_END_SESSION : gset jsstring :=
  tag_set ["AO"; "AA"; "AF"; "AG"]%string.
Definition TAGS_ACS_STATUS : gset jsstring :=
  tag_set ["AO"; "AM"; "BX"; "AN"; "AF"]%string.
Definition TAGS_ITEM_STATUS_UPDATE : gset jsstring :=
  tag_set ["AO"; "AB"; "AJ"; "AF"; "AG"]%string.

(** The body of the loop of [parseExtensions] over [Object.entries(all)]. *)
Definition parseExtensions_entry (knownTags : gset jsstring) (tag value : jsstring)
    (ext : gmap jsstring jsstring) : gmap jsstring jsstring :=
  if bool_decide (tag = js "AY") || bool_decide (tag = js "AZ") then ext
  else if bool_decide (tag ∈ knownTags) then ext
  else <[tag := value]> ext.

(** [undefined] is [None]. *)
Definition parseExtensions (raw : jsstring) (knownTags : gset jsstring)
    : option (gmap jsstring jsstring) :=
  let all := parseFields raw in
  let ext := map_fold (parseExtensions_entry knownTags) ∅ all in
  if bool_decide (ext = ∅) then None else Some ext.

(** The numbers the parsers produce: [NaN] or an integer.  [parseInt] reads
    decimal digits exactly; the rounding of integers beyond 2^53 to a double
    and the sign of zero are not part of the model. *)
Inductive jsnumber : Type :=
  | NaN
  | Num (z : Z).

(** The leading decimal digits of [s]. *)
Fixpoint digits_prefix (s : jsstring) : list Z :=
  match s with
  | c :: s' =>
      if class_matches class_digit c then (Z.of_N c - 48)%Z :: digits_prefix s' else []
  | [] => []
  end.

(** [parseInt(s, 10)]: leading white space is skipped, one sign is read,
    then the longest run of digits; without a digit the result is [NaN].
    The value is that of the run, as in JavaScript up to [2^53]; a longer
    run JavaScript rounds to the nearest double. *)
Definition parseInt (s : jsstring) : jsnumber :=
  let s := trimStart s in
  let signed :=
    match s with
    | c :: s' => if c =? 45 then ((-1)%Z, s') else if c =? 43 then (1%Z, s') else (1%Z, s)
    | [] => (1%Z, [])
    end in
  match digits_prefix (snd signed) with
  | [] => NaN
  | ds => Num (fst signed * fold_left (fun acc d => 10 * acc + d) ds 0)%Z
  end.

(** [v || d] on strings: [d] replaces [undefined] and the empty string. *)
Definition or_str (v : option jsstring) (d : jsstring) : jsstring :=
  match v with
  | Some (c :: s) => c :: s
  | _ => d
  end.

(** [v === 'x']. *)
Definition str_is (v : option jsstring) (x : jsstring) : bool :=
  bool_decide (v = Some x).

(** The [flags] object of the patron status, information and enable records. *)
Record PatronFlags : Type := {
  chargePrivilegesDenied : bool;
  renewalPrivilegesDenied : bool;
  recallPrivilegesDenied : bool;
  holdPrivilegesDenied : bool;
  cardReportedLost : bool;
  tooManyItemsOverdue : bool;
  excessiveFines : bool
}.

Definition parse_flags (statusMask : jsstring) : PatronFlags := {|
  chargePrivilegesDenied := str_is (char_at statusMask 0) (js "Y");
  renewalPrivilegesDenied := str_is (char_at statusMask 1) (js "Y");
  recallPrivilegesDenied := str_is (char_at statusMask 2) (js "Y");
  holdPrivilegesDenied := str_is (char_at statusMask 3) (js "Y");
  cardReportedLost := str_is (char_at statusMask 4) (js "Y");
  tooManyItemsOverdue := str_is (char_at statusMask 6) (js "Y");
  excessiveFines := str_is (char_at statusMask 10) (js "Y")
|}.

(** The response records of [types/index.ts].  An optional property that
    a parser leaves [undefined] is [None]. *)
Module PatronStatusResponse.
Record t : Type := {
  patronBarcode : jsstring;
  patronName : jsstring;
  validPatron : bool;
  holdItemsCount : jsnumber;
  overdueItemsCount : jsnumber;
  chargedItemsCount : jsnumber;
  recallItemsCount : jsnumber;
  unavailHoldsCount : jsnumber;
  flags : PatronFlags;
  screenMessages : list jsstring;
  extensions : option (gmap jsstring jsstring)
}.
End PatronStatusResponse.

Module CheckoutResponse.
Record t : Type := {
  ok : bool;
  renewalOk : bool;
  transactionDate : jsstring;
  institutionId : jsstring;
  patronBarcode : jsstring;
  itemBarcode : jsstring;
  titleId : jsstring;
  dueDate : jsstring;
  feeAmount : option jsstring;
  screenMessage : option jsstring;
  screenMessages : list jsstring;
  printLine : option jsstring;
  extensions : option (gmap jsstring jsstring)
}.
End CheckoutResponse.

Module CheckinResponse.
Record t : Type := {
  ok : bool;
  resensitize : bool;
  magneticMedia : bool;
  alert : bool;
  transactionDate : jsstring;
  institutionId : jsstring;
  itemBarcode : jsstring;
  titleId : jsstring;
  permanentLocation : option jsstring;
  screenMessage : option jsstring;
  screenMessages : list jsstring;
  printLine : option jsstring;
  extensions : option (gmap jsstring jsstring)
}.
End CheckinResponse.

Module ItemInformationResponse.
Record t : Type := {
  circulationStatus : jsstring;
  securityMarker : jsstring;
  feeType : jsstring;
  transactionDate : jsstring;
  itemBarcode : jsstring;
  titleId : jsstring;
  owner : option jsstring;
  currencyType : option jsstring;
  callNumber : option jsstring;
  extensions : option (gmap jsstring jsstring)
}.
End ItemInformationResponse.

Module FeePaidResponse.
Record t : Type := {
  ok : bool;
  transactionDate : jsstring;
  institutionId : jsstring;
  patronBarcode : jsstring;
  transactionId : option jsstring;
  screenMessage : option jsstring;
  screenMessages : list jsstring;
  extensions : option (gmap jsstring jsstring)
}.
End FeePaidResponse.

Module PatronInformationResponse.
Record t : Type := {
  patronBarcode : jsstring;
  patronName : jsstring;
  validPatron : bool;
  holdItemsCount : jsnumber;
  overdueItemsCount : jsnumber;
  chargedItemsCount : jsnumber;
  fineItemsCount : jsnumber;
  recallItemsCount : jsnumber;
  unavailHoldsCount : jsnumber;
  flags : PatronFlags;
  holdItems : list jsstring;
  overdueItems : list jsstring;
  chargedItems : list jsstring;
  fineItems : list jsstring;
  recallItems : list jsstring;
  email : option jsstring;
  phone : option jsstring;
  homeAddress : option jsstring;
  screenMessage : option jsstring;
  screenMessages : list jsstring;
  extensions : option (gmap jsstring jsstring)
}.
End PatronInformationResponse.

Module HoldResponse.
Record t : Type := {
  ok : bool;
  available : bool;
  transactionDate : jsstring;
  institutionId : jsstring;
  patronBarcode : jsstring;
  itemBarcode : option jsstring;
  titleId : option jsstring;
  expirationDate : option jsstring;
  pickupLocation : option jsstring;
  queuePosition : option jsstring;
  screenMessage : option jsstring;
  screenMessages : list jsstring;
  printLine : option jsstring;
  extensions : option (gmap jsstring jsstring)
}.
End HoldResponse.

Module RenewAllResponse.
Record t : Type := {
  ok : bool;
  renewedCount : jsnumber;
  unrenewedCount : jsnumber;
  transactionDate : jsstring;
  institutionId : jsstring;
  patronBarcode : jsstring;
  renewedItems : list jsstring;
  unrenewedItems : list jsstring;
  screenMessage : option jsstring;
  screenMessages : list jsstring;
  extensions : option (gmap jsstring jsstring)
}.
End RenewAllResponse.

Module EndSessionResponse.
Record t : Type := {
  endSession : bool;
  transactionDate : jsstring;
  institutionId : jsstring;
  patronBarcode : jsstring;
  screenMessage : option jsstring;
  screenMessages : list jsstring;
  printLine : option jsstring;
  extensions : option (gmap jsstring jsstring)
}.
End EndSessionResponse.

Module ACSStatusResponse.
Record t : Type := {
  onlineStatus : bool;
  checkinOk : bool;
  checkoutOk : bool;
  acsRenewalPolicy : bool;
  statusUpdateOk : bool;
  offlineOk : bool;
  timeoutPeriod : jsnumber;
  retriesAllowed : jsnumber;
  dateTimeSync : jsstring;
  protocolVersion : jsstring;
  institutionId : jsstring;
  libraryName : option jsstring;
  supportedMessages : option jsstring;
  terminalLocation : option jsstring;
  screenMessage : option jsstring;
  extensions : option (gmap jsstring jsstring)
}.
End ACSStatusResponse.

(** [securityMarker] is [raw[2]], which is [undefined] on a two-character
    input although the interface declares a string. *)
Module ItemStatusUpdateResponse.
Record t : Type := {
  securityMarker : option jsstring;
  transactionDate : jsstring;
  institutionId : jsstring;
  itemBarcode : jsstring;
  titleId : jsstring;
  screenMessage : option jsstring;
  screenMessages : list jsstring;
  printLine : option jsstring;
  extensions : option (gmap jsstring jsstring)
}.
End ItemStatusUpdateResponse.

(** [type PatronEnableResponse = PatronStatusResponse]. *)
Module PatronEnableResponse := PatronStatusResponse.

(** [fields['XX']]. *)
Definition field (fields : gmap jsstring jsstring) (tag : string) : option jsstring :=
  fields !! js tag.

(** [multiFields['XX'] || []]. *)
Definition field_list (multiFields : gmap jsstring (list jsstring)) (tag : string)
    : list jsstring :=
  default [] (multiFields !! js tag).

(** [parseInt(raw.substring(a, b).trim() || '0', 10)]. *)
Definition parse_count (raw : jsstring) (a b : nat) : jsnumber :=
  parseInt (or_str (Some (trim (substring raw a b))) (js "0")).

Definition parsePatronStatusResponse (raw : jsstring) : outcome PatronStatusResponse.t :=
  if negb (startsWith raw (js "24")) then
    Thrown (UnexpectedResponseCode "Patron Status Response (24)" (substring raw 0 2))
  else
    let statusMask := substring raw 2 16 in
    let fields := parseFields raw in
    let multiFields := parseFieldsMulti raw in
    Returned {|
      PatronStatusResponse.patronBarcode := or_str (field fields "AA") [];
      PatronStatusResponse.patronName := or_str (field fields "AE") (js "Unknown");
      PatronStatusResponse.validPatron :=
        bool_decide (or_str (field fields "BL") (js "N") = js "Y");
      PatronStatusResponse.holdItemsCount := parseInt (or_str (field fields "BZ") (js "0"));
      PatronStatusResponse.overdueItemsCount := parseInt (or_str (field fields "CA") (js "0"));
      PatronStatusResponse.chargedItemsCount := parseInt (or_str (field fields "CB") (js "0"));
      PatronStatusResponse.recallItemsCount := parseInt (or_str (field fields "CD") (js "0"));
      PatronStatusResponse.unavailHoldsCount := parseInt (or_str (field fields "AS") (js "0"));
      PatronStatusResponse.flags := parse_flags statusMask;
      PatronStatusResponse.screenMessages := field_list multiFields "AF";
      PatronStatusResponse.extensions := parseExtensions raw TAGS_PATRON_STATUS
    |}.

Definition parseCheckoutResponse (raw : jsstring) : outcome CheckoutResponse.t :=
  if negb (startsWith raw (js "12")) && negb (startsWith raw (js "30")) then
    Thrown (UnexpectedResponseCode "Checkout/Renew Response (12/30)" (substring raw 0 2))
  else
    let fields := parseFields raw in
    let multiFields := parseFieldsMulti raw in
    Returned {|
      CheckoutResponse.ok := str_is (char_at raw 2) (js "1");
      CheckoutResponse.renewalOk := str_is (char_at raw 3) (js "Y");
      CheckoutResponse.transactionDate := trim (substring raw 6 24);
      CheckoutResponse.institutionId := or_str (field fields "AO") [];
      CheckoutResponse.patronBarcode := or_str (field fields "AA") [];
      CheckoutResponse.itemBarcode := or_str (field fields "AB") [];
      CheckoutResponse.titleId := or_str (field fields "AJ") (js "Unknown Title");
      CheckoutResponse.dueDate := or_str (field fields "AH") [];
      CheckoutResponse.feeAmount := field fields "BV";
      CheckoutResponse.screenMessage := field fields "AF";
      CheckoutResponse.screenMessages := field_list multiFields "AF";
      CheckoutResponse.printLine := field fields "AG";
      CheckoutResponse.extensions := parseExtensions raw TAGS_CHECKOUT
    |}.

Definition parseCheckinResponse (raw : jsstring) : outcome CheckinResponse.t :=
  if negb (startsWith raw (js "10")) then
    Thrown (UnexpectedResponseCode "Checkin Response (10)" (substring raw 0 2))
  else
    let fields := parseFields raw in
    let multiFields := parseFieldsMulti raw in
    Returned {|
      CheckinResponse.ok := str_is (char_at raw 2) (js "1");
      CheckinResponse.resensitize := str_is (char_at raw 3) (js "Y");
      CheckinResponse.magneticMedia := str_is (char_at raw 4) (js "Y");
      CheckinResponse.alert := str_is (char_at raw 5) (js "Y");
      CheckinResponse.transactionDate := trim (substring raw 6 24);
      CheckinResponse.institutionId := or_str (field fields "AO") [];
      CheckinResponse.itemBarcode := or_str (field fields "AB") [];
      CheckinResponse.titleId := or_str (field fields "AJ") (js "Unknown Title");
      CheckinResponse.permanentLocation := field fields "AQ";
      CheckinResponse.screenMessage := field fields "AF";
      CheckinResponse.screenMessages := field_list multiFields "AF";
      CheckinResponse.printLine := field fields "AG";
      CheckinResponse.extensions := parseExtensions raw TAGS_CHECKIN
    |}.

Definition parseItemInformationResponse (raw : jsstring)
    : outcome ItemInformationResponse.t :=
  if negb (startsWith raw (js "18")) then
    Thrown (UnexpectedResponseCode "Item Information Response (18)" (substring raw 0 2))
  else
    let fields := parseFields raw in
    Returned {|
      ItemInformationResponse.circulationStatus := substring raw 2 4;
      ItemInformationResponse.securityMarker := substring raw 4 6;
      ItemInformationResponse.feeType := substring raw 6 8;
      ItemInformationResponse.transactionDate := trim (substring raw 8 26);
      ItemInformationResponse.itemBarcode := or_str (field fields "AB") [];
      ItemInformationResponse.titleId := or_str (field fields "AJ") (js "Unknown Title");
      ItemInformationResponse.owner := field fields "BG";
      ItemInformationResponse.currencyType := field fields "BH";
      ItemInformationResponse.callNumber := field fields "CK";
      ItemInformationResponse.extensions := parseExtensions raw TAGS_ITEM_INFO
    |}.

Definition parseFeePaidResponse (raw : jsstring) : outcome FeePaidResponse.t :=
  if negb (startsWith raw (js "38")) then
    Thrown (UnexpectedResponseCode "Fee Paid Response (38)" (substring raw 0 2))
  else
    let fields := parseFields raw in
    let multiFields := parseFieldsMulti raw in
    Returned {|
      FeePaidResponse.ok := str_is (char_at raw 2) (js "1");
      FeePaidResponse.transactionDate := trim (substring raw 3 21);
      FeePaidResponse.institutionId := or_str (field fields "AO") [];
      FeePaidResponse.patronBarcode := or_str (field fields "AA") [];
      FeePaidResponse.transactionId := field fields "BK";
      FeePaidResponse.screenMessage := field fields "AF";
      FeePaidResponse.screenMessages := field_list multiFields "AF";
      FeePaidResponse.extensions := parseExtensions raw TAGS_FEE_PAID
    |}.

Definition parsePatronInformationResponse (raw : jsstring)
    : outcome PatronInformationResponse.t :=
  if negb (startsWith raw (js "64")) then
    Thrown (UnexpectedResponseCode "Patron Information Response (64)" (substring raw 0 2))
  else
    let statusMask := substring raw 2 16 in
    let holdItemsCount := parse_count raw 37 41 in
    let overdueItemsCount := parse_count raw 41 45 in
    let chargedItemsCount := parse_count raw 45 49 in
    let fineItemsCount := parse_count raw 49 53 in
    let recallItemsCount := parse_count raw 53 57 in
    let unavailHoldsCount := parse_count raw 57 61 in
    let fields := parseFields raw in
    let multiFields := parseFieldsMulti raw in
    Returned {|
      PatronInformationResponse.patronBarcode := or_str (field fields "AA") [];
      PatronInformationResponse.patronName := or_str (field fields "AE") (js "Unknown");
      PatronInformationResponse.validPatron :=
        bool_decide (or_str (field fields "BL") (js "N") = js "Y");
      PatronInformationResponse.holdItemsCount := holdItemsCount;
      PatronInformationResponse.overdueItemsCount := overdueItemsCount;
      PatronInformationResponse.chargedItemsCount := chargedItemsCount;
      PatronInformationResponse.fineItemsCount := fineItemsCount;
      PatronInformationResponse.recallItemsCount := recallItemsCount;
      PatronInformationResponse.unavailHoldsCount := unavailHoldsCount;
      PatronInformationResponse.flags := parse_flags statusMask;
      PatronInformationResponse.holdItems := field_list multiFields "AT";
      PatronInformationResponse.overdueItems := field_list multiFields "AU";
      PatronInformationResponse.chargedItems := field_list multiFields "AV";
      PatronInformationResponse.fineItems := field_list multiFields "BU";
      PatronInformationResponse.recallItems := field_list multiFields "BJ";
      PatronInformationResponse.email := field fields "BE";
      PatronInformationResponse.phone := field fields "BF";
      PatronInformationResponse.homeAddress := field fields "BD";
      PatronInformationResponse.screenMessage := field fields "AF";
      PatronInformationResponse.screenMessages := field_list multiFields "AF";
      PatronInformationResponse.extensions := parseExtensions raw TAGS_PATRON_INFO
    |}.

Definition parseHoldResponse (raw : jsstring) : outcome HoldResponse.t :=
  if negb (startsWith raw (js "16")) then
    Thrown (UnexpectedResponseCode "Hold Response (16)" (substring raw 0 2))
  else
    let fields := parseFields raw in
    let multiFields := parseFieldsMulti raw in
    Returned {|
      HoldResponse.ok := str_is (char_at raw 2) (js "1");
      HoldResponse.available := str_is (char_at raw 3) (js "Y");
      HoldResponse.transactionDate := trim (substring raw 4 22);
      HoldResponse.institutionId := or_str (field fields "AO") [];
      HoldResponse.patronBarcode := or_str (field fields "AA") [];
      HoldResponse.itemBarcode := field fields "AB";
      HoldResponse.titleId := field fields "AJ";
      HoldResponse.expirationDate := field fields "BW";
      HoldResponse.pickupLocation := field fields "BS";
      HoldResponse.queuePosition := field fields "MN";
      HoldResponse.screenMessage := field fields "AF";
      HoldResponse.screenMessages := field_list multiFields "AF";
      HoldResponse.printLine := field fields "AG";
      HoldResponse.extensions := parseExtensions raw TAGS_HOLD
    |}.

Definition parseRenewAllResponse (raw : jsstring) : outcome RenewAllResponse.t :=
  if negb (startsWith raw (js "66")) then
    Thrown (UnexpectedResponseCode "Renew All Response (66)" (substring raw 0 2))
  else
    let ok := str_is (char_at raw 2) (js "1") in
    let renewedCount := parse_count raw 3 7 in
    let unrenewedCount := parse_count raw 7 11 in
    let transactionDate := trim (substring raw 11 29) in
    let fields := parseFields raw in
    let multiFields := parseFieldsMulti raw in
    Returned {|
      RenewAllResponse.ok := ok;
      RenewAllResponse.renewedCount := renewedCount;
      RenewAllResponse.unrenewedCount := unrenewedCount;
      RenewAllResponse.transactionDate := transactionDate;
      RenewAllResponse.institutionId := or_str (field fields "AO") [];
      RenewAllResponse.patronBarcode := or_str (field fields "AA") [];
      RenewAllResponse.renewedItems := field_list multiFields "BM";
      RenewAllResponse.unrenewedItems := field_list multiFields "BN";
      RenewAllResponse.screenMessage := field fields "AF";
      RenewAllResponse.screenMessages := field_list multiFields "AF";
      RenewAllResponse.extensions := parseExtensions raw TAGS_RENEW_ALL
    |}.

Definition parseEndSessionResponse (raw : jsstring) : outcome EndSessionResponse.t :=
  if negb (startsWith raw (js "36")) then
    Thrown (UnexpectedResponseCode "End Session Response (36)" (substring raw 0 2))
  else
    let fields := parseFields raw in
    let multiFields := parseFieldsMulti raw in
    Returned {|
      EndSessionResponse.endSession := str_is (char_at raw 2) (js "Y");
      EndSessionResponse.transactionDate := trim (substring raw 3 21);
      EndSessionResponse.institutionId := or_str (field fields "AO") [];
      EndSessionResponse.patronBarcode := or_str (field fields "AA") [];
      EndSessionResponse.screenMessage := field fields "AF";
      EndSessionResponse.screenMessages := field_list multiFields "AF";
      EndSessionResponse.printLine := field fields "AG";
      EndSessionResponse.extensions := parseExtensions raw TAGS_END_SESSION
    |}.

Definition parseACSStatusResponse (raw : jsstring) : outcome ACSStatusResponse.t :=
  if negb (startsWith raw (js "98")) then
    Thrown (UnexpectedResponseCode "ACS Status Response (98)" (substring raw 0 2))
  else
    let fields := parseFields raw in
    Returned {|
      ACSStatusResponse.onlineStatus := str_is (char_at raw 2) (js "Y");
      ACSStatusResponse.checkinOk := str_is (char_at raw 3) (js "Y");
      ACSStatusResponse.checkoutOk := str_is (char_at raw 4) (js "Y");
      ACSStatusResponse.acsRenewalPolicy := str_is (char_at raw 5) (js "Y");
      ACSStatusResponse.statusUpdateOk := str_is (char_at raw 6) (js "Y");
      ACSStatusResponse.offlineOk := str_is (char_at raw 7) (js "Y");
      ACSStatusResponse.timeoutPeriod := parse_count raw 8 11;
      ACSStatusResponse.retriesAllowed := parse_count raw 11 14;
      ACSStatusResponse.dateTimeSync := trim (substring raw 14 32);
      ACSStatusResponse.protocolVersion := trim (substring raw 32 36);
      ACSStatusResponse.institutionId := or_str (field fields "AO") [];
      ACSStatusResponse.libraryName := field fields "AM";
      ACSStatusResponse.supportedMessages := field fields "BX";
      ACSStatusResponse.terminalLocation := field fields "AN";
      ACSStatusResponse.screenMessage := field fields "AF";
      ACSStatusResponse.extensions := parseExtensions raw TAGS_ACS_STATUS
    |}.

Definition parseItemStatusUpdateResponse (raw : jsstring)
    : outcome ItemStatusUpdateResponse.t :=
  if negb (startsWith raw (js "20")) then
    Thrown (UnexpectedResponseCode "Item Status Update Response (20)" (substring raw 0 2))
  else
    let fields := parseFields raw in
    let multiFields := parseFieldsMulti raw in
    Returned {|
      ItemStatusUpdateResponse.securityMarker := char_at raw 2;
      ItemStatusUpdateResponse.transactionDate := trim (substring raw 3 21);
      ItemStatusUpdateResponse.institutionId := or_str (field fields "AO") [];
      ItemStatusUpdateResponse.itemBarcode := or_str (field fields "AB") [];
      ItemStatusUpdateResponse.titleId := or_str (field fields "AJ") [];
      ItemStatusUpdateResponse.screenMessage := field fields "AF";
      ItemStatusUpdateResponse.screenMessages := field_list multiFields "AF";
      ItemStatusUpdateResponse.printLine := field fields "AG";
      ItemStatusUpdateResponse.extensions := parseExtensions raw TAGS_ITEM_STATUS_UPDATE
    |}.

Definition parsePatronEnableResponse (raw : jsstring) : outcome PatronEnableResponse.t :=
  if negb (startsWith raw (js "26")) then
    Thrown (UnexpectedResponseCode "Patron Enable Response (26)" (substring raw 0 2))
  else
    let statusMask := substring raw 2 16 in
    let fields := parseFields raw in
    let multiFields := parseFieldsMulti raw in
    Returned {|
      PatronStatusResponse.patronBarcode := or_str (field fields "AA") [];
      PatronStatusResponse.patronName := or_str (field fields "AE") (js "Unknown");
      PatronStatusResponse.validPatron :=
        bool_decide (or_str (field fields "BL") (js "N") = js "Y");
      PatronStatusResponse.holdItemsCount := parseInt (or_str (field fields "BZ") (js "0"));
      PatronStatusResponse.overdueItemsCount := parseInt (or_str (field fields "CA") (js "0"));
      PatronStatusResponse.chargedItemsCount := parseInt (or_str (field fields "CB") (js "0"));
      PatronStatusResponse.recallItemsCount := parseInt (or_str (field fields "CD") (js "0"));
      PatronStatusResponse.unavailHoldsCount := parseInt (or_str (field fields "AS") (js "0"));
      PatronStatusResponse.flags := parse_flags statusMask;
      PatronStatusResponse.screenMessages := field_list multiFields "AF";
      PatronStatusResponse.extensions := parseExtensions raw TAGS_PATRON_STATUS
    |}.

(** The twelve response parsers under one name each, the record any of
    them returns, and the parser run by name. *)
Inductive ResponseParser : Type :=
  | PPatronStatus | PCheckout | PCheckin | PItemInformation | PFeePaid
  | PPatronInformation | PHold | PRenewAll | PEndSession | PACSStatus
  | PItemStatusUpdate | PPatronEnable.

Inductive Response : Type :=
  | RPatronStatus (r : PatronStatusResponse.t)
  | RCheckout (r : CheckoutResponse.t)
  | RCheckin (r : CheckinResponse.t)
  | RItemInformation (r : ItemInformationResponse.t)
  | RFeePaid (r : FeePaidResponse.t)
  | RPatronInformation (r : PatronInformationResponse.t)
  | RHold (r : HoldResponse.t)
  | RRenewAll (r : RenewAllResponse.t)
  | REndSession (r : EndSessionResponse.t)
  | RACSStatus (r : ACSStatusResponse.t)
  | RItemStatusUpdate (r : ItemStatusUpdateResponse.t)
  | RPatronEnable (r : PatronEnableResponse.t).

Definition run_parser (p : ResponseParser) (raw : jsstring) : outcome Response :=
  match p with
  | PPatronStatus => RPatronStatus <$> parsePatronStatusResponse raw
  | PCheckout => RCheckout <$> parseCheckoutResponse raw
  | PCheckin => RCheckin <$> parseCheckinResponse raw
  | PItemInformation => RItemInformation <$> parseItemInformationResponse raw
  | PFeePaid => RFeePaid <$> parseFeePaidResponse raw
  | PPatronInformation => RPatronInformation <$> parsePatronInformationResponse raw
  | PHold => RHold <$> parseHoldResponse raw
  | PRenewAll => RRenewAll <$> parseRenewAllResponse raw
  | PEndSession => REndSession <$> parseEndSessionResponse raw
  | PACSStatus => RACSStatus <$> parseACSStatusResponse raw
  | PItemStatusUpdate => RItemStatusUpdate <$> parseItemStatusUpdateResponse raw
  | PPatronEnable => RPatronEnable <$> parsePatronEnableResponse raw
  end.

(** The set of known tags each parser passes to [parseExtensions]. *)
Definition known_tags (p : ResponseParser) : gset jsstring :=
  match p with
  | PPatronStatus | PPatronEnable => TAGS_PATRON_STATUS
  | PCheckout => TAGS_CHECKOUT
  | PCheckin => TAGS_CHECKIN
  | PItemInformation => TAGS_ITEM_INFO
  | PFeePaid => TAGS_FEE_PAID
  | PPatronInformation => TAGS_PATRON_INFO
  | PHold => TAGS_HOLD
  | PRenewAll => TAGS_RENEW_ALL
  | PEndSession => TAGS_END_SESSION
  | PACSStatus => TAGS_ACS_STATUS
  | PItemStatusUpdate => TAGS_ITEM_STATUS_UPDATE
  end.

(** The [extensions] property of a parsed record. *)
Definition response_extensions (r : Response) : option (gmap jsstring jsstring) :=
  match r with
  | RPatronStatus r | RPatronEnable r => PatronStatusResponse.extensions r
  | RCheckout r => CheckoutResponse.extensions r
  | RCheckin r => CheckinResponse.extensions r
  | RItemInformation r => ItemInformationResponse.extensions r
  | RFeePaid r => FeePaidResponse.extensions r
  | RPatronInformation r => PatronInformationResponse.extensions r
  | RHold r => HoldResponse.extensions r
  | RRenewAll r => RenewAllResponse.extensions r
  | REndSession r => EndSessionResponse.extensions r
  | RACSStatus r => ACSStatusResponse.extensions r
  | RItemStatusUpdate r => ItemStatusUpdateResponse.extensions r
  end.

(** ** Masking service (services/MaskingService) *)

(** *** HMAC-SHA-256

    [crypto.createHmac('sha256', key).update(data).digest('hex')] of Node's
    [crypto] module, which is not code of this repository: written out here
    from FIPS 180-4 (SHA-256) and RFC 2104 (HMAC) so that [mask] computes.
    Bytes and 32-bit words are numbers in [N]. *)

Definition w32 (x : N) : N := x mod 2 ^ 32.
Definition rotr (n x : N) : N := N.lor (N.shiftr x n) (w32 (N.shiftl x (32 - n))).
Definition not32 (x : N) : N := N.lxor x 4294967295.
Definition xor3 (a b c : N) : N := N.lxor a (N.lxor b c).

Definition Ch (x y z : N) : N := N.lxor (N.land x y) (N.land (not32 x) z).
Definition Maj (x y z : N) : N := xor3 (N.land x y) (N.land x z) (N.land y z).
Definition bsig0 (x : N) : N := xor3 (rotr 2 x) (rotr 13 x) (rotr 22 x).
Definition bsig1 (x : N) : N := xor3 (rotr 6 x) (rotr 11 x) (rotr 25 x).
Definition ssig0 (x : N) : N := xor3 (rotr 7 x) (rotr 18 x) (N.shiftr x 3).
Definition ssig1 (x : N) : N := xor3 (rotr 17 x) (rotr 19 x) (N.shiftr x 10).

Definition sha256_K : list N :=
  [1116352408; 1899447441; 3049323471; 3921009573; 961987163; 1508970993;
   2453635748; 2870763221; 3624381080; 310598401; 607225278; 1426881987;
   1925078388; 2162078206; 2614888103; 3248222580; 3835390401; 4022224774;
   264347078; 604807628; 770255983; 1249150122; 1555081692; 1996064986;
   2554220882; 2821834349; 2952996808; 3210313671; 3336571891; 3584528711;
   113926993; 338241895; 666307205; 773529912; 1294757372; 1396182291;
   1695183700; 1986661051; 2177026350; 2456956037; 2730485921; 2820302411;
   3259730800; 3345764771; 3516065817; 3600352804; 4094571909; 275423344;
   430227734; 506948616; 659060556; 883997877; 958139571; 1322822218;
   1537002063; 1747873779; 1955562222; 2024104815; 2227730452; 2361852424;
   2428436474; 2756734187; 3204031479; 3329325298].

Definition sha256_H0 : list N :=
  [1779033703; 3144134277; 1013904242; 2773480762; 1359893119; 2600822924;
   528734635; 1541459225].

(** Big-endian bytes of a number, [n] of them. *)
Fixpoint be_bytes (n : nat) (x : N) : list N :=
  match n with
  | O => []
  | S n' => be_bytes n' (x / 256) ++ [x mod 256]
  end.

Definition be_word (bs : list N) : N :=
  fold_left (fun acc b => acc * 256 + b) bs 0.

(** The message followed by 0x80, zeros up to 56 modulo 64, and its length in
    bits on eight bytes. *)
Definition sha256_pad (msg : list N) : list N :=
  let len := length msg in
  let zeros := ((64 - (len + 9) mod 64) mod 64)%nat in
  msg ++ [128] ++ replicate zeros 0 ++ be_bytes 8 (N.of_nat len * 8).

(** Consecutive groups of [n] elements. *)
Fixpoint chunks {A} (fuel n : nat) (l : list A) : list (list A) :=
  match fuel, l with
  | O, _ | _, [] => []
  | S fuel', _ => take n l :: chunks fuel' n (drop n l)
  end.

(** The message schedule, latest word first: [rev_w] holds W[t-1], W[t-2], ... *)
Fixpoint sha256_schedule (rounds : nat) (rev_w : list N) : list N :=
  match rounds with
  | O => rev_w
  | S rounds' =>
      let w := w32 (ssig1 (nth 1 rev_w 0) + nth 6 rev_w 0
                    + ssig0 (nth 14 rev_w 0) + nth 15 rev_w 0) in
      sha256_schedule rounds' (w :: rev_w)
  end.

Definition sha256_round (st : list N) (kw : N * N) : list N :=
  match st with
  | [a; b; c; d; e; f; g; h] =>
      let t1 := h + bsig1 e + Ch e f g + fst kw + snd kw in
      let t2 := bsig0 a + Maj a b c in
      [w32 (t1 + t2); a; b; c; w32 (d + t1); e; f; g]
  | _ => st
  end.

Definition sha256_block (hs : list N) (block : list N) : list N :=
  let w16 := map be_word (chunks 16 4 block) in
  let w := rev (sha256_schedule 48 (rev w16)) in
  let st := fold_left sha256_round (zip sha256_K w) hs in
  zip_with (fun x y => w32 (x + y)) hs st.

Definition sha256 (msg : list N) : list N :=
  let padded := sha256_pad msg in
  let hs := fold_left sha256_block (chunks (length padded) 64 padded) sha256_H0 in
  concat (map (be_bytes 4) hs).

Definition hmac_sha256 (key msg : list N) : list N :=
  let key := if (64 <? length key)%nat then sha256 key else key in
  let key := key ++ replicate (64 - length key) 0 in
  let ipad := map (N.lxor 54) key in
  let opad := map (N.lxor 92) key in
  sha256 (opad ++ sha256 (ipad ++ msg)).

(** [digest('hex')]: two lower-case hex digits per byte. *)
Definition hex_encode (bs : list N) : jsstring :=
  concat (map (fun b => [digit_char (Z.of_N (b / 16)); digit_char (Z.of_N (b mod 16))]) bs).

(** The UTF-8 bytes of a string, as Node encodes a string key or a string
    passed to [update]: surrogate pairs make one code point, a lone surrogate
    is replaced by U+FFFD. *)
Definition utf8_of_code_point (c : N) : list N :=
  if c <? 128 then [c]
  else if c <? 2048 then [192 + c / 64; 128 + c mod 64]
  else if c <? 65536 then [224 + c / 4096; 128 + (c / 64) mod 64; 128 + c mod 64]
  else [240 + c / 262144; 128 + (c / 4096) mod 64; 128 + (c / 64) mod 64; 128 + c mod 64].

Fixpoint utf8_encode (s : jsstring) : list N :=
  match s with
  | [] => []
  | c :: s' =>
      if (55296 <=? c) && (c <=? 56319) then
        match s' with
        | d :: s'' =>
            if (56320 <=? d) && (d <=? 57343) then
              utf8_of_code_point (65536 + (c - 55296) * 1024 + (d - 56320)) ++ utf8_encode s''
            else utf8_of_code_point 65533 ++ utf8_encode s'
        | [] => utf8_of_code_point 65533
        end
      else if (56320 <=? c) && (c <=? 57343) then utf8_of_code_point 65533 ++ utf8_encode s'
      else utf8_of_code_point c ++ utf8_encode s'
  end.

(** *** The service *)

(** [process.env.GIGAFLAIR_MASTER_KEY] is an optional string; [mask] reads
    it at each call.  It is passed as [masterKey]. *)
Definition mask (masterKey : option jsstring) (data : jsstring) : outcome jsstring :=
  match data with
  | [] => Returned data
  | _ =>
      if negb (truthy masterKey) then Thrown MasterKeyMissing
      else
        let digest := hex_encode (hmac_sha256 (utf8_encode (default [] masterKey))
                                              (utf8_encode data)) in
        Returned (js "MASKED_" ++ substring digest 0 16)
  end.

(** The values [maskPayload] walks: those of JSON and [undefined].  An
    object is the list of its entries in the order [Object.entries] gives
    them. *)
Inductive jsvalue : Type :=
  | VUndefined
  | VNull
  | VBool (b : bool)
  | VNumber (n : jsnumber)
  | VString (s : jsstring)
  | VArray (items : list jsvalue)
  | VObject (entries : list (jsstring * jsvalue)).

(** [!v] is false. *)
Definition truthy_value (v : jsvalue) : bool :=
  match v with
  | VUndefined | VNull | VBool false | VNumber NaN | VNumber (Num 0) | VString [] => false
  | _ => true
  end.

(** The entries of an object after an own property [key] is written: in
    place when the object has the key, at the end otherwise. *)
Fixpoint obj_put (entries : list (jsstring * jsvalue)) (key : jsstring) (v : jsvalue)
    : list (jsstring * jsvalue) :=
  match entries with
  | [] => [(key, v)]
  | (k, w) :: entries' =>
      if bool_decide (k = key) then (k, v) :: entries' else (k, w) :: obj_put entries' key v
  end.

(** [masked[key] = v] on the entries of an object made by an object
    literal.  [__proto__] names the accessor of [Object.prototype]: the
    assignment calls its setter, which sets the prototype of the object (or
    does nothing, for a value that is neither an object nor [null]) and adds
    no entry.  Every other key is written as an own property. *)
Definition obj_set (entries : list (jsstring * jsvalue)) (key : jsstring) (v : jsvalue)
    : list (jsstring * jsvalue) :=
  if bool_decide (key = js "__proto__") then entries else obj_put entries key v.

Definition is_secret_key (key : jsstring) : bool :=
  includes (toLowerCase key) (js "password") || includes (toLowerCase key) (js "pin")
  || bool_decide (key = js "CQ") || bool_decide (key = js "CO").

Definition is_pii_key (key : jsstring) : bool :=
  includes (toLowerCase key) (js "patronidentifier")
  || includes (toLowerCase key) (js "patronbarcode")
  || includes (toLowerCase key) (js "itemidentifier")
  || includes (toLowerCase key) (js "itembarcode")
  || includes (toLowerCase key) (js "personalname")
  || bool_decide (key = js "AA") || bool_decide (key = js "AB")
  || bool_decide (key = js "AE").

Fixpoint maskPayload (masterKey : option jsstring) (payload : jsvalue) {struct payload}
    : outcome jsvalue :=
  if negb (truthy_value payload) then Returned payload
  else
    match payload with
    | VArray items =>
        VArray <$>
          (fix map_items (l : list jsvalue) : outcome (list jsvalue) :=
             match l with
             | [] => Returned []
             | item :: l' =>
                 item' ← maskPayload masterKey item;
                 rest ← map_items l';
                 mret (item' :: rest)
             end) items
    | VObject entries =>
        VObject <$>
          (fix for_entries (l : list (jsstring * jsvalue))
               (masked : list (jsstring * jsvalue)) : outcome (list (jsstring * jsvalue)) :=
             match l with
             | [] => Returned masked
             | (key, value) :: l' =>
                 if is_secret_key key then
                   for_entries l'
                     (obj_set masked key
                        match value with VString _ => VString (js "********") | _ => value end)
                 else if is_pii_key key then
                   v ← match value with
                       | VString s => VString <$> mask masterKey s
                       | _ => Returned value
                       end;
                   for_entries l' (obj_set masked key v)
                 else
                   v ← maskPayload masterKey value;
                   for_entries l' (obj_set masked key v)
             end) entries []
    | _ => Returned payload
    end.

(** ** Circuit breaker of the connection manager
       (services/SipConnectionManager, types/index) *)

Inductive CircuitState : Type := CLOSED | OPEN | HALF_OPEN.

#[global] Instance CircuitState_eq_dec : EqDecision CircuitState.
Proof. solve_decision. Defined.

(** Timestamps are milliseconds since the epoch, as [Date.now()] returns
    them; [null] is [None]. *)
Record CircuitBreaker : Type := {
  state : CircuitState;
  failureCount : nat;
  lastFailureAt : option Z;
  nextRetryAt : option Z;
  backoffIndex : nat;
  halfOpenLocked : bool
}.

Definition FAILURE_THRESHOLD : nat := 3.

(** [BACKOFF_SCHEDULE] depends on [process.env.NODE_ENV === 'test']. *)
Definition BACKOFF_SCHEDULE (node_env_test : bool) : list Z :=
  if node_env_test then [200; 400; 600]%Z
  else [5000; 10000; 20000; 40000; 60000]%Z.

Record VendorProfile : Type := {
  name : option jsstring;
  postLoginSCStatus : option bool;
  checksumRequired : option bool
}.

Record LMSConfig : Type := {
  branchId : jsstring;
  host : jsstring;
  port : Z;
  useTls : bool;
  rejectUnauthorized : option bool;
  sipUser : option jsstring;
  sipPassword : option jsstring;
  institutionId : option jsstring;
  timeoutMs : Z;
  vendorProfile : option VendorProfile
}.

(** The maps of the manager that the breaker paths read and write.  A
    client is represented by the presence of its branch in [clients]. *)
Record Manager : Type := {
  clients : gset jsstring;
  configs : gmap jsstring LMSConfig;
  breakers : gmap jsstring CircuitBreaker
}.

(** The record the constructor (and [reinitialize]) stores for a branch. *)
Definition initial_breaker : CircuitBreaker := {|
  state := CLOSED;
  failureCount := 0;
  lastFailureAt := None;
  nextRetryAt := None;
  backoffIndex := 0;
  halfOpenLocked := false
|}.

(** [new SipConnectionManager(configs)]. *)
Definition new_manager (cfgs : list LMSConfig) : Manager :=
  fold_left
    (fun m config => {|
       clients := clients m;
       configs := <[branchId config := config]> (configs m);
       breakers := <[branchId config := initial_breaker]> (breakers m)
     |})
    cfgs
    {| clients := ∅; configs := ∅; breakers := ∅ |}.

Definition getBreaker (m : Manager) (branch : jsstring) : outcome CircuitBreaker :=
  match breakers m !! branch with
  | Some breaker => Returned breaker
  | None => Thrown (UnknownBranch branch)
  end.

(** The breaker objects are mutated in place; the model stores the
    updated record back under its branch. *)
Definition set_breaker (m : Manager) (branch : jsstring) (breaker : CircuitBreaker)
    : Manager :=
  {| clients := clients m; configs := configs m;
     breakers := <[branch := breaker]> (breakers m) |}.

(** [breaker.state === 'OPEN' && breaker.nextRetryAt && Date.now() >= breaker.nextRetryAt]:
    a timestamp is truthy when it is neither [null] nor zero. *)
Definition retry_due (breaker : CircuitBreaker) (now : Z) : bool :=
  bool_decide (state breaker = OPEN) &&
  match nextRetryAt breaker with
  | Some t => negb (t =? 0)%Z && (t <=? now)%Z
  | None => false
  end.

Definition getCircuitState (m : Manager) (branch : jsstring) (now : Z)
    : outcome (CircuitState * Manager) :=
  breaker ← getBreaker m branch;
  let breaker :=
    if retry_due breaker now then
      {| state := HALF_OPEN; failureCount := failureCount breaker;
         lastFailureAt := lastFailureAt breaker; nextRetryAt := nextRetryAt breaker;
         backoffIndex := backoffIndex breaker; halfOpenLocked := halfOpenLocked breaker |}
    else breaker in
  mret (state breaker, set_breaker m branch breaker).

(** [getClient].  [now] is the reading of [Date.now()]; [login] is the
    outcome of creating the client and of its login handshake, should the
    call get that far with no client cached and credentials configured.  The
    writes to the breaker stay when the call throws, so the result is the
    manager after the call and the outcome. *)
Definition getClient (m : Manager) (branch : jsstring) (now : Z) (login : outcome ())
    : Manager * outcome () :=
  match getBreaker m branch with
  | Thrown e => (m, Thrown e)
  | Returned breaker =>
      let breaker :=
        if retry_due breaker now then
          {| state := HALF_OPEN; failureCount := failureCount breaker;
             lastFailureAt := lastFailureAt breaker; nextRetryAt := nextRetryAt breaker;
             backoffIndex := backoffIndex breaker; halfOpenLocked := false |}
        else breaker in
      let m := set_breaker m branch breaker in
      if bool_decide (state breaker = OPEN) then
        (m, Thrown (CircuitOpen branch (nextRetryAt breaker)))
      else if bool_decide (state breaker = HALF_OPEN) && halfOpenLocked breaker then
        (m, Thrown (ProbeInFlight branch))
      else
        let breaker :=
          if bool_decide (state breaker = HALF_OPEN) then
            {| state := state breaker; failureCount := failureCount breaker;
               lastFailureAt := lastFailureAt breaker; nextRetryAt := nextRetryAt breaker;
               backoffIndex := backoffIndex breaker; halfOpenLocked := true |}
          else breaker in
        let m := set_breaker m branch breaker in
        if bool_decide (branch ∈ clients m) then (m, Returned ())
        else
          let needs_login :=
            match configs m !! branch with
            | Some config => truthy (sipUser config) && truthy (sipPassword config)
            | None => false
            end in
          match (if needs_login then login else Returned ()) with
          | Returned _ =>
              ({| clients := {[branch]} ∪ clients m; configs := configs m;
                  breakers := breakers m |}, Returned ())
          | Thrown e => (m, Thrown e)
          end
  end.

Definition recordSuccess (m : Manager) (branch : jsstring) : outcome Manager :=
  breaker ← getBreaker m branch;
  mret (set_breaker m branch
          {| state := CLOSED; failureCount := 0;
             lastFailureAt := lastFailureAt breaker; nextRetryAt := None;
             backoffIndex := 0; halfOpenLocked := false |}).

(** [BACKOFF_SCHEDULE[i] || BACKOFF_SCHEDULE[BACKOFF_SCHEDULE.length - 1]]
    on a schedule that is not empty. *)
Definition backoff_at (schedule : list Z) (i : nat) : Z :=
  match schedule !! i with
  | Some b => if (b =? 0)%Z then default 0%Z (last schedule) else b
  | None => default 0%Z (last schedule)
  end.

(** [recordFailure].  [now1] and [now2] are its two readings of
    [Date.now()], in order. *)
Definition recordFailure (node_env_test : bool) (m : Manager) (branch : jsstring)
    (now1 now2 : Z) : outcome Manager :=
  breaker ← getBreaker m branch;
  let count := S (failureCount breaker) in
  if (FAILURE_THRESHOLD <=? count)%nat || bool_decide (state breaker = HALF_OPEN) then
    let schedule := BACKOFF_SCHEDULE node_env_test in
    let backoff := backoff_at schedule (backoffIndex breaker) in
    let index :=
      if (backoffIndex breaker <? length schedule - 1)%nat
      then S (backoffIndex breaker) else backoffIndex breaker in
    mret {| clients := clients m ∖ {[branch]};
            configs := configs m;
            breakers :=
              <[branch := {| state := OPEN; failureCount := count;
                             lastFailureAt := Some now1;
                             nextRetryAt := Some (now2 + backoff)%Z;
                             backoffIndex := index; halfOpenLocked := false |}]>
                (breakers m) |}
  else
    mret (set_breaker m branch
            {| state := state breaker; failureCount := count;
               lastFailureAt := Some now1; nextRetryAt := nextRetryAt breaker;
               backoffIndex := backoffIndex breaker; halfOpenLocked := false |}).

(** The calls that write a breaker, as steps of the manager.  Clock
    readings are not negative and do not go backwards within a call. *)
Inductive manager_step (node_env_test : bool) : Manager -> Manager -> Prop :=
  | step_getCircuitState m branch now st m' :
      (0 <= now)%Z ->
      getCircuitState m branch now = Returned (st, m') ->
      manager_step node_env_test m m'
  | step_getClient m branch now login :
      (0 <= now)%Z ->
      manager_step node_env_test m (fst (getClient m branch now login))
  | step_recordSuccess m branch m' :
      recordSuccess m branch = Returned m' ->
      manager_step node_env_test m m'
  | step_recordFailure m branch now1 now2 m' :
      (0 <= now1 <= now2)%Z ->
      recordFailure node_env_test m branch now1 now2 = Returned m' ->
      manager_step node_env_test m m'.

(** The managers a program can observe: those reached from a fresh one. *)
Definition reachable (node_env_test : bool) (cfgs : list LMSConfig) (m : Manager) : Prop :=
  rtc (manager_step node_env_test) (new_manager cfgs) m.

(** * Specification-side definitions

    What the statements below compare the code with. *)

(** The sum of the character codes, written as a sum over the list. *)
Definition sum_of_codes (message : jsstring) : Z :=
  foldr (fun c acc => (Z.of_N c + acc)%Z) 0%Z message.

(** An upper-case hex digit, and the four of a 16-bit value. *)
Definition hex_upper (d : Z) : N :=
  if (d <? 10)%Z then Z.to_N (48 + d) else Z.to_N (65 + (d - 10)).

Definition hex4 (v : Z) : jsstring :=
  [hex_upper (v / 4096); hex_upper (v / 256 mod 16); hex_upper (v / 16 mod 16);
   hex_upper (v mod 16)]%Z.

(** The rendering of [calculateChecksum] on every 16-bit value. *)
Definition render16 (v : Z) : jsstring :=
  padStart (toUpperCase (Number_toString 16 v)) 4 (js "0").

(** A check of every number of [bits] bits above the prefix [base]. *)
Fixpoint all_below (bits : nat) (base : Z) (P : Z -> bool) : bool :=
  match bits with
  | O => P base
  | S bits' => all_below bits' (2 * base) P && all_below bits' (2 * base + 1) P
  end.

(** A hex digit, in the words of the specification. *)
Definition is_hex (c : N) : Prop :=
  48 <= c <= 57 \/ 65 <= c <= 70 \/ 97 <= c <= 102.

(** [frame] is [p], then [AZ], then the four hex digits [h], then at most
    one carriage return. *)
Definition has_trailer (frame p h : jsstring) : Prop :=
  length h = 4%nat /\ Forall is_hex h
  /\ (frame = p ++ js "AZ" ++ h \/ frame = p ++ js "AZ" ++ h ++ [CR]).

Definition well_formed_trailer (frame : jsstring) : Prop :=
  exists p h, has_trailer frame p h.

(** The units the sanitizer removes: [|], carriage return, line feed and
    the control range 0x00-0x1F. *)
Definition reserved (c : N) : Prop :=
  c = 124 \/ c = CR \/ c = LF \/ c <= 31.

#[global] Instance reserved_dec c : Decision (reserved c).
Proof. unfold reserved. apply _. Defined.

(** The payload of the masking scenario, with the barcode left open. *)
Definition scenario_payload (barcode : jsstring) : jsvalue :=
  VObject [(js "patronBarcode", VString barcode); (js "password", VString (js "x"))].

(** The first sixteen hex digits of the HMAC of [data] under [key]. *)
Definition hmac16 (key data : jsstring) : jsstring :=
  take 16 (hex_encode (hmac_sha256 (utf8_encode key) (utf8_encode data))).

(** A lower-case hex digit. *)
Definition is_lower_hex (c : N) : Prop := 48 <= c <= 57 \/ 97 <= c <= 102.

(** The key of the examples. *)
Definition example_key : jsstring := js "0123456789abcdef0123456789abcdef".

(** The entries [maskPayload] returns on the scenario payload when the
    barcode is masked as [masked]. *)
Definition scenario_masked (masked : jsstring) : jsvalue :=
  VObject [(js "patronBarcode", VString masked); (js "password", VString (js "********"))].

(** What holds of every breaker record of a reachable manager. *)
Definition breaker_ok (node_env_test : bool) (b : CircuitBreaker) : Prop :=
  (state b = OPEN -> exists t, nextRetryAt b = Some t /\ (0 < t)%Z)
  /\ (state b = CLOSED -> (failureCount b < FAILURE_THRESHOLD)%nat)
  /\ (backoffIndex b < length (BACKOFF_SCHEDULE node_env_test))%nat.

Definition manager_ok (node_env_test : bool) (m : Manager) : Prop :=
  forall branch b, breakers m !! branch = Some b -> breaker_ok node_env_test b.

(** A branch configuration and the managers of the examples. *)
Definition example_config : LMSConfig := {|
  branchId := js "main"; host := js "127.0.0.1"; port := 9999; useTls := false;
  rejectUnauthorized := None; sipUser := None; sipPassword := None;
  institutionId := None; timeoutMs := 100; vendorProfile := None
|}.

(** The manager after [n] failures recorded at time 1000 on branch [main]. *)
Fixpoint example_failures (n : nat) : Manager :=
  match n with
  | O => new_manager [example_config]
  | S n' =>
      match recordFailure true (example_failures n') (js "main") 1000 1000 with
      | Returned m => m
      | Thrown _ => example_failures n'
      end
  end.

(** The command code of the response each parser is documented to decode. *)
Definition documented_code (p : ResponseParser) : jsstring :=
  match p with
  | PPatronStatus => js "24"
  | PCheckout => js "12"
  | PCheckin => js "10"
  | PItemInformation => js "18"
  | PFeePaid => js "38"
  | PPatronInformation => js "64"
  | PHold => js "16"
  | PRenewAll => js "66"
  | PEndSession => js "36"
  | PACSStatus => js "98"
  | PItemStatusUpdate => js "20"
  | PPatronEnable => js "26"
  end.

(** The command codes a parser lets through: the checkout parser also
    decodes the renew response, [30]. *)
Definition accepted_codes (p : ResponseParser) : list jsstring :=
  match p with
  | PCheckout => [js "12"; js "30"]
  | _ => [documented_code p]
  end.

(** A renew response, as the checkout parser is given it. *)
Definition RENEW_RAW : jsstring :=
  js "301YNN20260222    120000AOMainLib|AAP12345|ABI98765|AJTest Book|AH20260315    000000|AY1AZ5678"
  ++ [CR].

(** A tag that belongs in [extensions]: neither of the trailer nor known. *)
Definition vendor_tag (knownTags : gset jsstring) (tag : jsstring) : Prop :=
  tag <> js "AY" /\ tag <> js "AZ" /\ tag ∉ knownTags.

#[global] Instance vendor_tag_dec knownTags tag : Decision (vendor_tag knownTags tag).
Proof. unfold vendor_tag. apply _. Defined.

(** The patron status response of the parser tests with two vendor fields. *)
Definition VENDOR_EXT_RAW : jsstring :=
  js "24              00120260222    120000AOTest|AAP12345|AEJane|BZ0000|AU0000|CD0000|AS0000|BLY|XAfoo|XBbar|AY0AZ1234"
  ++ [CR].

(** [tag] occurs in [raw]. *)
Definition occurs_in (tag raw : jsstring) : Prop :=
  exists before after, raw = before ++ tag ++ after.

(** [parts.join(sep)]. *)
Fixpoint join_with (sep : N) (parts : list jsstring) : jsstring :=
  match parts with
  | [] => []
  | [part] => part
  | part :: rest => part ++ sep :: join_with sep rest
  end.

(** Every key of the map under construction is a tag that occurs in the frame. *)
Definition keys_occur {V} (raw : jsstring) (fields : gmap jsstring V) : Prop :=
  forall tag, is_Some (fields !! tag) -> occurs_in tag raw /\ is_tag tag = true.

(** The two field maps have the same keys before the [AY] entry is added. *)
Definition same_keys (f : gmap jsstring jsstring) (g : gmap jsstring (list jsstring)) : Prop :=
  forall tag, is_Some (f !! tag) <-> is_Some (g !! tag).

(** The field [tag] was not found in the frame. *)
Definition absent (raw : jsstring) (tag : string) : Prop :=
  parseFields raw !! js tag = None.

(** The frame ends at or before position [i]. *)
Definition short (raw : jsstring) (i : nat) : Prop := (length raw <= i)%nat.

(** No tag found in the frame belongs in [extensions]. *)
Definition no_vendor_tag (raw : jsstring) (knownTags : gset jsstring) : Prop :=
  forall tag, is_Some (parseFields raw !! tag) -> ~ vendor_tag knownTags tag.

(** The defaults of the status flags: [false] for a flag past the end. *)
Definition flags_defaults (raw : jsstring) (f : PatronFlags) : Prop :=
  (short raw 2 -> chargePrivilegesDenied f = false)
  /\ (short raw 3 -> renewalPrivilegesDenied f = false)
  /\ (short raw 4 -> recallPrivilegesDenied f = false)
  /\ (short raw 5 -> holdPrivilegesDenied f = false)
  /\ (short raw 6 -> cardReportedLost f = false)
  /\ (short raw 8 -> tooManyItemsOverdue f = false)
  /\ (short raw 12 -> excessiveFines f = false).

Definition PatronStatus_defaults (raw : jsstring) (r : PatronStatusResponse.t) : Prop :=
  (absent raw "AA" -> PatronStatusResponse.patronBarcode r = [])
  /\ (absent raw "AE" -> PatronStatusResponse.patronName r = js "Unknown")
  /\ (absent raw "BL" -> PatronStatusResponse.validPatron r = false)
  /\ (absent raw "BZ" -> PatronStatusResponse.holdItemsCount r = Num 0)
  /\ (absent raw "CA" -> PatronStatusResponse.overdueItemsCount r = Num 0)
  /\ (absent raw "CB" -> PatronStatusResponse.chargedItemsCount r = Num 0)
  /\ (absent raw "CD" -> PatronStatusResponse.recallItemsCount r = Num 0)
  /\ (absent raw "AS" -> PatronStatusResponse.unavailHoldsCount r = Num 0)
  /\ flags_defaults raw (PatronStatusResponse.flags r)
  /\ (absent raw "AF" -> PatronStatusResponse.screenMessages r = [])
  /\ (no_vendor_tag raw TAGS_PATRON_STATUS -> PatronStatusResponse.extensions r = None).

Definition Checkout_defaults (raw : jsstring) (r : CheckoutResponse.t) : Prop :=
  (short raw 2 -> CheckoutResponse.ok r = false)
  /\ (short raw 3 -> CheckoutResponse.renewalOk r = false)
  /\ (short raw 6 -> CheckoutResponse.transactionDate r = [])
  /\ (absent raw "AO" -> CheckoutResponse.institutionId r = [])
  /\ (absent raw "AA" -> CheckoutResponse.patronBarcode r = [])
  /\ (absent raw "AB" -> CheckoutResponse.itemBarcode r = [])
  /\ (absent raw "AJ" -> CheckoutResponse.titleId r = js "Unknown Title")
  /\ (absent raw "AH" -> CheckoutResponse.dueDate r = [])
  /\ (absent raw "BV" -> CheckoutResponse.feeAmount r = None)
  /\ (absent raw "AF" -> CheckoutResponse.screenMessage r = None)
  /\ (absent raw "AF" -> CheckoutResponse.screenMessages r = [])
  /\ (absent raw "AG" -> CheckoutResponse.printLine r = None)
  /\ (no_vendor_tag raw TAGS_CHECKOUT -> CheckoutResponse.extensions r = None).

Definition Checkin_defaults (raw : jsstring) (r : CheckinResponse.t) : Prop :=
  (short raw 2 -> CheckinResponse.ok r = false)
  /\ (short raw 3 -> CheckinResponse.resensitize r = false)
  /\ (short raw 4 -> CheckinResponse.magneticMedia r = false)
  /\ (short raw 5 -> CheckinResponse.alert r = false)
  /\ (short raw 6 -> CheckinResponse.transactionDate r = [])
  /\ (absent raw "AO" -> CheckinResponse.institutionId r = [])
  /\ (absent raw "AB" -> CheckinResponse.itemBarcode r = [])
  /\ (absent raw "AJ" -> CheckinResponse.titleId r = js "Unknown Title")
  /\ (absent raw "AQ" -> CheckinResponse.permanentLocation r = None)
  /\ (absent raw "AF" -> CheckinResponse.screenMessage r = None)
  /\ (absent raw "AF" -> CheckinResponse.screenMessages r = [])
  /\ (absent raw "AG" -> CheckinResponse.printLine r = None)
  /\ (no_vendor_tag raw TAGS_CHECKIN -> CheckinResponse.extensions r = None).

Definition ItemInformation_defaults (raw : jsstring) (r : ItemInformationResponse.t) : Prop :=
  (short raw 2 -> ItemInformationResponse.circulationStatus r = [])
  /\ (short raw 4 -> ItemInformationResponse.securityMarker r = [])
  /\ (short raw 6 -> ItemInformationResponse.feeType r = [])
  /\ (short raw 8 -> ItemInformationResponse.transactionDate r = [])
  /\ (absent raw "AB" -> ItemInformationResponse.itemBarcode r = [])
  /\ (absent raw "AJ" -> ItemInformationResponse.titleId r = js "Unknown Title")
  /\ (absent raw "BG" -> ItemInformationResponse.owner r = None)
  /\ (absent raw "BH" -> ItemInformationResponse.currencyType r = None)
  /\ (absent raw "CK" -> ItemInformationResponse.callNumber r = None)
  /\ (no_vendor_tag raw TAGS_ITEM_INFO -> ItemInformationResponse.extensions r = None).

Definition FeePaid_defaults (raw : jsstring) (r : FeePaidResponse.t) : Prop :=
  (short raw 2 -> FeePaidResponse.ok r = false)
  /\ (short raw 3 -> FeePaidResponse.transactionDate r = [])
  /\ (absent raw "AO" -> FeePaidResponse.institutionId r = [])
  /\ (absent raw "AA" -> FeePaidResponse.patronBarcode r = [])
  /\ (absent raw "BK" -> FeePaidResponse.transactionId r = None)
  /\ (absent raw "AF" -> FeePaidResponse.screenMessage r = None)
  /\ (absent raw "AF" -> FeePaidResponse.screenMessages r = [])
  /\ (no_vendor_tag raw TAGS_FEE_PAID -> FeePaidResponse.extensions r = None).

Definition PatronInformation_defaults (raw : jsstring) (r : PatronInformationResponse.t)
    : Prop :=
  (absent raw "AA" -> PatronInformationResponse.patronBarcode r = [])
  /\ (absent raw "AE" -> PatronInformationResponse.patronName r = js "Unknown")
  /\ (absent raw "BL" -> PatronInformationResponse.validPatron r = false)
  /\ (short raw 37 -> PatronInformationResponse.holdItemsCount r = Num 0)
  /\ (short raw 41 -> PatronInformationResponse.overdueItemsCount r = Num 0)
  /\ (short raw 45 -> PatronInformationResponse.chargedItemsCount r = Num 0)
  /\ (short raw 49 -> PatronInformationResponse.fineItemsCount r = Num 0)
  /\ (short raw 53 -> PatronInformationResponse.recallItemsCount r = Num 0)
  /\ (short raw 57 -> PatronInformationResponse.unavailHoldsCount r = Num 0)
  /\ flags_defaults raw (PatronInformationResponse.flags r)
  /\ (absent raw "AT" -> PatronInformationResponse.holdItems r = [])
  /\ (absent raw "AU" -> PatronInformationResponse.overdueItems r = [])
  /\ (absent raw "AV" -> PatronInformationResponse.chargedItems r = [])
  /\ (absent raw "BU" -> PatronInformationResponse.fineItems r = [])
  /\ (absent raw "BJ" -> PatronInformationResponse.recallItems r = [])
  /\ (absent raw "BE" -> PatronInformationResponse.email r = None)
  /\ (absent raw "BF" -> PatronInformationResponse.phone r = None)
  /\ (absent raw "BD" -> PatronInformationResponse.homeAddress r = None)
  /\ (absent raw "AF" -> PatronInformationResponse.screenMessage r = None)
  /\ (absent raw "AF" -> PatronInformationResponse.screenMessages r = [])
  /\ (no_vendor_tag raw TAGS_PATRON_INFO -> PatronInformationResponse.extensions r = None).

Definition Hold_defaults (raw : jsstring) (r : HoldResponse.t) : Prop :=
  (short raw 2 -> HoldResponse.ok r = false)
  /\ (short raw 3 -> HoldResponse.available r = false)
  /\ (short raw 4 -> HoldResponse.transactionDate r = [])
  /\ (absent raw "AO" -> HoldResponse.institutionId r = [])
  /\ (absent raw "AA" -> HoldResponse.patronBarcode r = [])
  /\ (absent raw "AB" -> HoldResponse.itemBarcode r = None)
  /\ (absent raw "AJ" -> HoldResponse.titleId r = None)
  /\ (absent raw "BW" -> HoldResponse.expirationDate r = None)
  /\ (absent raw "BS" -> HoldResponse.pickupLocation r = None)
  /\ (absent raw "MN" -> HoldResponse.queuePosition r = None)
  /\ (absent raw "AF" -> HoldResponse.screenMessage r = None)
  /\ (absent raw "AF" -> HoldResponse.screenMessages r = [])
  /\ (absent raw "AG" -> HoldResponse.printLine r = None)
  /\ (no_vendor_tag raw TAGS_HOLD -> HoldResponse.extensions r = None).

Definition RenewAll_defaults (raw : jsstring) (r : RenewAllResponse.t) : Prop :=
  (short raw 2 -> RenewAllResponse.ok r = false)
  /\ (short raw 3 -> RenewAllResponse.renewedCount r = Num 0)
  /\ (short raw 7 -> RenewAllResponse.unrenewedCount r = Num 0)
  /\ (short raw 11 -> RenewAllResponse.transactionDate r = [])
  /\ (absent raw "AO" -> RenewAllResponse.institutionId r = [])
  /\ (absent raw "AA" -> RenewAllResponse.patronBarcode r = [])
  /\ (absent raw "BM" -> RenewAllResponse.renewedItems r = [])
  /\ (absent raw "BN" -> RenewAllResponse.unrenewedItems r = [])
  /\ (absent raw "AF" -> RenewAllResponse.screenMessage r = None)
  /\ (absent raw "AF" -> RenewAllResponse.screenMessages r = [])
  /\ (no_vendor_tag raw TAGS_RENEW_ALL -> RenewAllResponse.extensions r = None).

Definition EndSession_defaults (raw : jsstring) (r : EndSessionResponse.t) : Prop :=
  (short raw 2 -> EndSessionResponse.endSession r = false)
  /\ (short raw 3 -> EndSessionResponse.transactionDate r = [])
  /\ (absent raw "AO" -> EndSessionResponse.institutionId r = [])
  /\ (absent raw "AA" -> EndSessionResponse.patronBarcode r = [])
  /\ (absent raw "AF" -> EndSessionResponse.screenMessage r = None)
  /\ (absent raw "AF" -> EndSessionResponse.screenMessages r = [])
  /\ (absent raw "AG" -> EndSessionResponse.printLine r = None)
  /\ (no_vendor_tag raw TAGS_END_SESSION -> EndSessionResponse.extensions r = None).

Definition ACSStatus_defaults (raw : jsstring) (r : ACSStatusResponse.t) : Prop :=
  (short raw 2 -> ACSStatusResponse.onlineStatus r = false)
  /\ (short raw 3 -> ACSStatusResponse.checkinOk r = false)
  /\ (short raw 4 -> ACSStatusResponse.checkoutOk r = false)
  /\ (short raw 5 -> ACSStatusResponse.acsRenewalPolicy r = false)
  /\ (short raw 6 -> ACSStatusResponse.statusUpdateOk r = false)
  /\ (short raw 7 -> ACSStatusResponse.offlineOk r = false)
  /\ (short raw 8 -> ACSStatusResponse.timeoutPeriod r = Num 0)
  /\ (short raw 11 -> ACSStatusResponse.retriesAllowed r = Num 0)
  /\ (short raw 14 -> ACSStatusResponse.dateTimeSync r = [])
  /\ (short raw 32 -> ACSStatusResponse.protocolVersion r = [])
  /\ (absent raw "AO" -> ACSStatusResponse.institutionId r = [])
  /\ (absent raw "AM" -> ACSStatusResponse.libraryName r = None)
  /\ (absent raw "BX" -> ACSStatusResponse.supportedMessages r = None)
  /\ (absent raw "AN" -> ACSStatusResponse.terminalLocation r = None)
  /\ (absent raw "AF" -> ACSStatusResponse.screenMessage r = None)
  /\ (no_vendor_tag raw TAGS_ACS_STATUS -> ACSStatusResponse.extensions r = None).

Definition ItemStatusUpdate_defaults (raw : jsstring) (r : ItemStatusUpdateResponse.t)
    : Prop :=
  (short raw 2 -> ItemStatusUpdateResponse.securityMarker r = None)
  /\ (short raw 3 -> ItemStatusUpdateResponse.transactionDate r = [])
  /\ (absent raw "AO" -> ItemStatusUpdateResponse.institutionId r = [])
  /\ (absent raw "AB" -> ItemStatusUpdateResponse.itemBarcode r = [])
  /\ (absent raw "AJ" -> ItemStatusUpdateResponse.titleId r = [])
  /\ (absent raw "AF" -> ItemStatusUpdateResponse.screenMessage r = None)
  /\ (absent raw "AF" -> ItemStatusUpdateResponse.screenMessages r = [])
  /\ (absent raw "AG" -> ItemStatusUpdateResponse.printLine r = None)
  /\ (no_vendor_tag raw TAGS_ITEM_STATUS_UPDATE
      -> ItemStatusUpdateResponse.extensions r = None).

(** The default each field of a parsed record takes when its tag was not
    found or its position lies past the end of the frame. *)
Definition response_defaults (raw : jsstring) (r : Response) : Prop :=
  match r with
  | RPatronStatus r | RPatronEnable r => PatronStatus_defaults raw r
  | RCheckout r => Checkout_defaults raw r
  | RCheckin r => Checkin_defaults raw r
  | RItemInformation r => ItemInformation_defaults raw r
  | RFeePaid r => FeePaid_defaults raw r
  | RPatronInformation r => PatronInformation_defaults raw r
  | RHold r => Hold_defaults raw r
  | RRenewAll r => RenewAll_defaults raw r
  | REndSession r => EndSession_defaults raw r
  | RACSStatus r => ACSStatus_defaults raw r
  | RItemStatusUpdate r => ItemStatusUpdate_defaults raw r
  end.

(** The number a list of digits, most significant first, stands for. *)
Definition digits_value (radix : Z) (ds : list Z) : Z :=
  fold_left (fun acc d => (acc * radix + d)%Z) ds 0%Z.

(** Frames of the repository's parser tests. *)
Definition PATRON_STATUS_RAW : jsstring :=
  js "24              00120260222    120000AOMainLib|AASoph12345|AEJane Smith|BZ0002|CA0001|BLY|AY3AZ1234"
  ++ [CR].

Definition MULTI_AF_RAW : jsstring :=
  js "24              00120260222    120000AOTest|AAP12345|AEJane|BZ0000|AU0000|CD0000|AS0000|BLY|AFFirst msg|AFSecond msg|AY0AZ1234"
  ++ [CR].

Definition RENEW_ALL_RAW : jsstring :=
  js "661000200020260222    120000AOTest|AAP12345|BMITEM001|BMITEM002|BNITEM003|BNITEM004|AY0AZ1234"
  ++ [CR].

(** * Further code of the bridge

    The rest of the modules above and their callers: the input pattern of
    the HTTP routes, the development mock of the library system, the
    dashboard redaction of raw frames, and the paths of the connection
    manager around the breaker. *)

(** A code unit of a JavaScript string: a 16-bit number. *)
Definition code_unit (c : N) : Prop := c < 65536.

(** Not a control character: from the space on. *)
Definition printable (c : N) : Prop := 32 <= c.

#[global] Instance printable_dec c : Decision (printable c).
Proof. unfold printable. apply _. Defined.

(** ** The wire layout of a request

    What each formatter writes, segment by segment: the header up to the
    first [|] it writes, then the fields it closes with a [|] each. *)

(** Neither a control character nor the delimiter. *)
Definition clean (c : N) : Prop := 32 <= c /\ c <> 124.

#[global] Instance clean_dec c : Decision (clean c).
Proof. unfold clean. apply _. Defined.

(** The arguments a formatter copies into the header as they are, without
    [sanitizeSipField]. *)
Definition unsanitized_fields (cmd : SipCommand) : list jsstring :=
  match cmd with
  | CmdPatronStatus _ _ language => [default (js "001") language]
  | CmdFeePaid _ _ _ _ feeType paymentType _ =>
      [default (js "01") feeType; default (js "00") paymentType]
  | CmdPatronInformation _ _ _ _ _ language => [default (js "001") language]
  | _ => []
  end.

(** The header of the frame of a command. *)
Definition wire_header (now : Date) (cmd : SipCommand) : jsstring :=
  let inst i := js "AO" ++ sanitizeSipField (default (js "GigaFlair") i) in
  let ts := getSipTimestamp now in
  match cmd with
  | CmdLogin uid _ _ => js "9300CN" ++ sanitizeSipField uid
  | CmdPatronStatus _ i language =>
      js "23" ++ substring (default (js "001") language) 0 3 ++ ts ++ inst i
  | CmdCheckout _ _ i _ => js "11YN" ++ ts ++ js "                  " ++ inst i
  | CmdCheckin _ i => js "09N" ++ ts ++ ts ++ inst i
  | CmdItemInformation _ i => js "17" ++ ts ++ inst i
  | CmdRenew _ _ i _ => js "29YN" ++ ts ++ js "                  " ++ inst i
  | CmdFeePaid _ _ _ i feeType paymentType currencyType =>
      js "37" ++ ts
      ++ substring (padEnd (default (js "01") feeType) 2 (js " ")) 0 2
      ++ substring (padEnd (default (js "00") paymentType) 2 (js " ")) 0 2
      ++ padEnd (substring (sanitizeSipField (default (js "USD") currencyType)) 0 3) 3 (js " ")
      ++ inst i
  | CmdPatronInformation _ summary _ _ i language =>
      let f (b : option bool) := if bool_decide (b = Some true) then js "Y" else js " " in
      let s := default {| holds := None; overdue := None; charged := None;
                          fines := None; recall := None |} summary in
      js "63" ++ substring (default (js "001") language) 0 3 ++ ts
      ++ f (holds s) ++ f (overdue s) ++ f (charged s) ++ f (fines s) ++ f (recall s)
      ++ js "     " ++ inst i
  | CmdHold holdMode _ _ expiryDate _ i _ =>
      js "15" ++ HoldMode_str holdMode ++ ts
      ++ (if truthy expiryDate then js "BW" ++ sanitizeSipField (default [] expiryDate)
          else inst i)
  | CmdRenewAll _ i => js "65" ++ ts ++ ts ++ inst i
  | CmdEndSession _ i => js "35" ++ ts ++ inst i
  | CmdSCStatus => js "9900802.00"
  | CmdBlockPatron _ cardRetained _ i =>
      js "01" ++ (if default false cardRetained then js "Y" else js "N") ++ ts ++ inst i
  | CmdItemStatusUpdate _ securityMarker i =>
      js "19" ++ SecurityMarker_str (default Marker2 securityMarker) ++ ts ++ inst i
  | CmdPatronEnable _ _ i => js "25" ++ ts ++ inst i
  end.

(** The fields after the header, as tag and value, in the order written. *)
Definition wire_values (cmd : SipCommand) : list (string * jsstring) :=
  let opt (tag : string) (v : option jsstring) :=
    if truthy v then [(tag, sanitizeSipField (default [] v))] else [] in
  match cmd with
  | CmdLogin _ pwd locationCode =>
      [("CO", sanitizeSipField pwd); ("CP", sanitizeSipField (default [] locationCode))]
  | CmdPatronStatus barcode _ _ => [("AA", sanitizeSipField barcode); ("AC", [])]
  | CmdCheckout p i _ pin =>
      [("AA", sanitizeSipField p); ("AB", sanitizeSipField i); ("AC", [])] ++ opt "AD" pin
  | CmdCheckin i _ => [("AB", sanitizeSipField i); ("AC", [])]
  | CmdItemInformation i _ => [("AB", sanitizeSipField i)]
  | CmdRenew p i _ pin =>
      [("AA", sanitizeSipField p); ("AB", sanitizeSipField i)] ++ opt "AD" pin
  | CmdFeePaid p feeId amount _ _ _ currencyType =>
      [("AA", sanitizeSipField p); ("BK", sanitizeSipField feeId);
       ("BV", sanitizeSipField amount);
       ("BH", trim (padEnd (substring (sanitizeSipField (default (js "USD") currencyType)) 0 3)
                      3 (js " ")))]
  | CmdPatronInformation p _ startItem endItem _ _ =>
      [("AA", sanitizeSipField p);
       ("BP", padStart (String_of (default 1%Z startItem)) 4 (js "0"));
       ("BQ", padStart (String_of (default 5%Z endItem)) 4 (js "0"))]
  | CmdHold _ p itemBarcode expiryDate pickupLocation i titleId =>
      (if truthy expiryDate
       then [("AO", sanitizeSipField (default (js "GigaFlair") i))] else [])
      ++ [("AA", sanitizeSipField p)]
      ++ opt "AB" itemBarcode ++ opt "BT" titleId ++ opt "BS" pickupLocation
      ++ [("AC", [])]
  | CmdRenewAll p _ => [("AA", sanitizeSipField p); ("AC", [])]
  | CmdEndSession p _ => [("AA", sanitizeSipField p); ("AC", [])]
  | CmdSCStatus => []
  | CmdBlockPatron p _ blockedCardMessage _ =>
      [("AA", sanitizeSipField p); ("AC", []);
       ("AL", sanitizeSipField (default [] blockedCardMessage))]
  | CmdItemStatusUpdate i _ _ => [("AB", sanitizeSipField i)]
  | CmdPatronEnable p pin _ => [("AA", sanitizeSipField p); ("AC", [])] ++ opt "AD" pin
  end.

(** A field on the wire: its tag, then its value. *)
Definition wire_field (f : string * jsstring) : jsstring := js (fst f) ++ snd f.

(** The end of a frame: [AY], the sequence character, [AZ] and the checksum
    of everything before it. *)
Definition wire_trailer (body : jsstring) (seqNum : Z) : jsstring :=
  let seqStr := substring (Number_toString 10 seqNum) 0 1 in
  js "AY" ++ seqStr ++ js "AZ" ++ calculateChecksum (body ++ js "AY" ++ seqStr ++ js "AZ").

(** The message of a command before the trailer: the segments, each field
    closed by a [|]. *)
Definition wire_body (now : Date) (cmd : SipCommand) : jsstring :=
  wire_header now cmd
  ++ concat (map (fun f => [124] ++ wire_field f) (wire_values cmd))
  ++ match cmd with CmdSCStatus => [] | _ => [124] end.

(** The clock reading of the examples: 2026-02-21 12:00:00 UTC. *)
Definition example_now : Date :=
  {| getUTCFullYear := 2026; getUTCMonth := 1; getUTCDate := 21;
     getUTCHours := 12; getUTCMinutes := 0; getUTCSeconds := 0 |}.

(** The UTC fields a [Date] of JavaScript gives, for a year of four
    digits. *)
Definition utc_fields (d : Date) : Prop :=
  (1000 <= getUTCFullYear d <= 9999 /\ 0 <= getUTCMonth d <= 11 /\ 1 <= getUTCDate d <= 31
   /\ 0 <= getUTCHours d <= 23 /\ 0 <= getUTCMinutes d <= 59 /\ 0 <= getUTCSeconds d <= 59)%Z.

(** The decimal digits of a number on two and on four places. *)
Definition dec2 (n : Z) : jsstring := [Z.to_N (48 + n / 10); Z.to_N (48 + n mod 10)]%Z.

Definition dec4 (n : Z) : jsstring :=
  [Z.to_N (48 + n / 1000); Z.to_N (48 + n / 100 mod 10); Z.to_N (48 + n / 10 mod 10);
   Z.to_N (48 + n mod 10)]%Z.

(** ** Input pattern of the routes (routes/utils) *)

(** [[a-zA-Z0-9 \-_.]]. *)
Definition class_sip2_safe : char_class :=
  [(97, 122); (65, 90); (48, 57); (32, 32); (45, 45); (95, 95); (46, 46)].

(** [SIP2_SAFE.test(s)] for [SIP2_SAFE = /^[a-zA-Z0-9 \-_.]+$/]: one unit of
    the class at least, and nothing else up to the end of the input. *)
Definition SIP2_SAFE (s : jsstring) : bool :=
  match s with
  | [] => false
  | _ :: _ => forallb (class_matches class_sip2_safe) s
  end.

(** ** Parsed records: the screen messages *)

(** [screenMessage] and [screenMessages] of the records that have both. *)
Definition response_messages (r : Response) : option (option jsstring * list jsstring) :=
  match r with
  | RCheckout r => Some (CheckoutResponse.screenMessage r, CheckoutResponse.screenMessages r)
  | RCheckin r => Some (CheckinResponse.screenMessage r, CheckinResponse.screenMessages r)
  | RFeePaid r => Some (FeePaidResponse.screenMessage r, FeePaidResponse.screenMessages r)
  | RPatronInformation r =>
      Some (PatronInformationResponse.screenMessage r,
            PatronInformationResponse.screenMessages r)
  | RHold r => Some (HoldResponse.screenMessage r, HoldResponse.screenMessages r)
  | RRenewAll r => Some (RenewAllResponse.screenMessage r, RenewAllResponse.screenMessages r)
  | REndSession r =>
      Some (EndSessionResponse.screenMessage r, EndSessionResponse.screenMessages r)
  | RItemStatusUpdate r =>
      Some (ItemStatusUpdateResponse.screenMessage r,
            ItemStatusUpdateResponse.screenMessages r)
  | RPatronStatus _ | RItemInformation _ | RACSStatus _ | RPatronEnable _ => None
  end.

(** The values of [tag] in a frame, in the order of the frame: those the
    tag pattern finds in the first segment from the fixed-field length of
    the message on, then the rest of every later segment that starts with
    [tag]. *)
Definition collected (raw tag : jsstring) : list jsstring :=
  let parts := split_on 124 raw in
  let header := default [] (head parts) in
  let threshold := default 15%nat (fixedFieldLengths !! substring header 0 2) in
  omap (fun m => match m with
                 | (index, t, value) =>
                     if (threshold <=? index)%nat && bool_decide (t = tag) then Some value
                     else None
                 end) (tag_matches header)
  ++ omap (fun part => if bool_decide (substring part 0 2 = tag) then Some (substring_from part 2)
                       else None) (tail parts).

(** The single-valued map holds, for each tag, the last value of the
    multi-valued map, whose lists are never empty. *)
Definition last_of (f : gmap jsstring jsstring) (g : gmap jsstring (list jsstring)) : Prop :=
  forall tag, f !! tag = last (default [] (g !! tag)) /\ g !! tag <> Some [].

(** ** Masking: whole payloads *)

(** A list mapped through a function that may raise: the first error stops
    the traversal, as in [Array.prototype.map] with a callback that throws. *)
Fixpoint outcome_mapM {A B} (f : A -> outcome B) (l : list A) : outcome (list B) :=
  match l with
  | [] => Returned []
  | x :: l' =>
      y ← f x;
      ys ← outcome_mapM f l';
      mret (y :: ys)
  end.

(** What [maskPayload] stores for one entry of an object: the rule of the
    key applied to the value. *)
Definition mask_entry (masterKey : option jsstring) (entry : jsstring * jsvalue)
    : outcome (jsstring * jsvalue) :=
  let (key, value) := entry in
  if is_secret_key key then
    Returned (key, match value with VString _ => VString (js "********") | _ => value end)
  else if is_pii_key key then
    match value with
    | VString s => (fun m => (key, VString m)) <$> mask masterKey s
    | _ => Returned (key, value)
    end
  else (fun v => (key, v)) <$> maskPayload masterKey value.

(** An object of JavaScript has each key once. *)
Definition distinct_keys (entries : list (jsstring * jsvalue)) : Prop :=
  NoDup (map fst entries).

(** What an object made by an object literal holds of the entries assigned
    to it one by one: all but those assigned to [__proto__]. *)
Definition own_entries (out : list (jsstring * jsvalue)) : list (jsstring * jsvalue) :=
  filter (fun e => fst e <> js "__proto__") out.

(** A payload without a sensitive key and without the key [__proto__]
    anywhere, each object with its keys once. *)
Fixpoint insensitive (v : jsvalue) : Prop :=
  match v with
  | VArray items =>
      (fix all (l : list jsvalue) : Prop :=
         match l with
         | [] => True
         | x :: l' => insensitive x /\ all l'
         end) items
  | VObject entries =>
      distinct_keys entries
      /\ (fix all (l : list (jsstring * jsvalue)) : Prop :=
            match l with
            | [] => True
            | (k, x) :: l' =>
                is_secret_key k = false /\ is_pii_key k = false /\ k <> js "__proto__"
                /\ insensitive x /\ all l'
            end) entries
  | _ => True
  end.

(** ** Connection manager: the paths around the breaker
       (services/SipConnectionManager) *)

(** [shutdown]: every client is disconnected and forgotten. *)
Definition shutdown (m : Manager) : Manager :=
  {| clients := ∅; configs := configs m; breakers := breakers m |}.

(** [reinitialize(newConfigs)], once the queues have drained: [shutdown],
    then both maps cleared and rebuilt as in the constructor. *)
Definition reinitialize (m : Manager) (newConfigs : list LMSConfig) : Manager :=
  let m := shutdown m in
  fold_left
    (fun m config => {|
       clients := clients m;
       configs := <[branchId config := config]> (configs m);
       breakers := <[branchId config := initial_breaker]> (breakers m)
     |})
    newConfigs
    {| clients := clients m; configs := ∅; breakers := ∅ |}.

(** The hooks of the tests. *)
Definition _getBreakerState (m : Manager) (branch : jsstring) : outcome CircuitBreaker :=
  getBreaker m branch.

Definition _simulateFailure (node_env_test : bool) (m : Manager) (branch : jsstring)
    (now1 now2 : Z) : outcome Manager :=
  recordFailure node_env_test m branch now1 now2.

Definition _simulateSuccess (m : Manager) (branch : jsstring) : outcome Manager :=
  recordSuccess m branch.


(** *** Error messages

    The texts of the errors, which [_executeInner] and the routes search.
    [new Date(t).toISOString()] is not modelled: [iso] stands for it.  The
    errors of the socket and of the login handshake are raised outside these
    sources: [failure] stands for their text. *)
Definition error_message (iso : option Z -> jsstring) (failure : jsstring) (e : SipError)
    : jsstring :=
  match e with
  | InvalidSequence seqNum =>
      js "SIP2 sequence number must be 0-9 (got " ++ String_of seqNum ++ js ")"
  | MalformedTrailer => failure
  | UnexpectedResponseCode expected got => js "Expected " ++ js expected ++ js ", got: " ++ got
  | MasterKeyMissing => js "GIGAFLAIR_MASTER_KEY is not set. Cannot mask data securely."
  | UnknownBranch branchId => js "Unknown branch: " ++ branchId
  | CircuitOpen branchId nextRetryAt =>
      js "Circuit for branch " ++ branchId ++ js " is OPEN. Next retry at " ++ iso nextRetryAt
  | ProbeInFlight branchId =>
      js "Circuit for branch " ++ branchId ++ js " is HALF_OPEN (probe in flight)"
  | ClientFailure => failure
  end.

(** [error.message.includes('is OPEN') || error.message.includes('probe in flight')]. *)
Definition isCircuitGate (message : jsstring) : bool :=
  includes message (js "is OPEN") || includes message (js "probe in flight").

(** The object [_executeInner] hands to [maskPayload] for the log. *)
Definition transaction_log (actionName branchId : jsstring) (requestPayload result : jsvalue)
    (timestamp : jsstring) : jsvalue :=
  VObject [(js "action", VString actionName); (js "branchId", VString branchId);
           (js "request", requestPayload); (js "response", result);
           (js "timestamp", VString timestamp)].

(** [catch (err) { this.recordFailure(branchId); throw err; }]: an error of
    [recordFailure] itself replaces [err]. *)
Definition record_and_rethrow {A} (node_env_test : bool) (m : Manager) (branchId : jsstring)
    (now1 now2 : Z) (err : SipError) : Manager * outcome A * option jsvalue :=
  match recordFailure node_env_test m branchId now1 now2 with
  | Returned m' => (m', Thrown err, None)
  | Thrown err' => (m, Thrown err', None)
  end.

(** [_executeInner].  [now] is the clock reading of [getClient] and [login]
    the outcome of the login handshake, as for [getClient]; [action] is the
    outcome of the action on the client; [timestamp] is the text of
    [new Date().toISOString()]; [now1] and [now2] are the clock readings of
    [recordFailure], should it be called.  The result is the manager after
    the call, the outcome, and the payload given to [EventHub.emitLog], if
    any. *)
Definition _executeInner (node_env_test : bool) (masterKey : option jsstring)
    (iso : option Z -> jsstring) (failure : jsstring)
    (m : Manager) (branchId actionName : jsstring) (requestPayload : jsvalue)
    (now : Z) (login : outcome ()) (action : outcome jsvalue)
    (timestamp : jsstring) (now1 now2 : Z)
    : Manager * outcome jsvalue * option jsvalue :=
  match getClient m branchId now login with
  | (m, Thrown error) =>
      if isCircuitGate (error_message iso failure error) then (m, Thrown error, None)
      else record_and_rethrow node_env_test m branchId now1 now2 error
  | (m, Returned _) =>
      match action with
      | Thrown err => record_and_rethrow node_env_test m branchId now1 now2 err
      | Returned result =>
          match recordSuccess m branchId with
          | Thrown err => record_and_rethrow node_env_test m branchId now1 now2 err
          | Returned m =>
              match maskPayload masterKey
                      (transaction_log actionName branchId requestPayload result timestamp) with
              | Thrown err => record_and_rethrow node_env_test m branchId now1 now2 err
              | Returned log => (m, Returned result, Some log)
              end
          end
      end
  end.

(** [performLogin], from attempt [attempt] on with [remaining] retries left.
    [sendRaw] and [scStatus] are the client: the response to the frame sent
    in an attempt, and the outcome of the status request after a login.  The
    error of a rejected login, [SIP2 Login rejected (response: ...)], is a
    [ClientFailure].  The pause between two attempts is not modelled. *)
Fixpoint performLogin_from (sendRaw : nat -> jsstring -> outcome jsstring)
    (scStatus : nat -> outcome ()) (sipUser sipPassword locationCode : jsstring)
    (postLoginSCStatus : bool) (remaining attempt : nat) : outcome () :=
  let tried :=
    loginStr ← formatLoginRequest sipUser sipPassword (Some locationCode) (Some 0%Z);
    response ← sendRaw attempt loginStr;
    if startsWith response (js "941") then
      if postLoginSCStatus then scStatus attempt else Returned ()
    else Thrown ClientFailure in
  match tried with
  | Returned _ => Returned ()
  | Thrown err =>
      match remaining with
      | O => Thrown err
      | S remaining' =>
          performLogin_from sendRaw scStatus sipUser sipPassword locationCode
            postLoginSCStatus remaining' (S attempt)
      end
  end.

Definition performLogin (sendRaw : nat -> jsstring -> outcome jsstring)
    (scStatus : nat -> outcome ()) (sipUser sipPassword locationCode : jsstring)
    (postLoginSCStatus : bool) (retries : option nat) : outcome () :=
  performLogin_from sendRaw scStatus sipUser sipPassword locationCode postLoginSCStatus
    (default 2%nat retries) 0.

(** ** Errors of the routes (routes/utils) *)

(** What a route handler catches: a validation error of the schema, or an
    error of the manager. *)
Inductive RouteError : Type :=
  | ZodError
  | ManagerError (e : SipError).

(** The reply of [handleSipError]: status code, [error] and [message]. *)
Definition handleSipError (iso : option Z -> jsstring) (failure : jsstring) (err : RouteError)
    : Z * jsstring * jsstring :=
  match err with
  | ZodError => (400%Z, js "Bad Request", js "Validation failed")
  | ManagerError e =>
      let message := error_message iso failure e in
      if includes message (js "Circuit") then
        (503%Z, js "Service Unavailable", js "Connection to LMS is currently suspended")
      else if includes message (js "Unknown branch") then
        (404%Z, js "Not Found", message)
      else if includes (toLowerCase message) (js "timeout") then
        (504%Z, js "Gateway Timeout", js "LMS failed to respond in time")
      else (502%Z, js "Bad Gateway", js "Communication with the LMS failed")
  end.

(** *** Steps of a manager, the hooks and the teardown included *)




(** ** Development mock of the library system (mock-lms) *)

(** The longest prefix without a [|]: what [[^|]*] takes, greedily. *)
Fixpoint field_run (s : jsstring) : jsstring :=
  match s with
  | [] => []
  | c :: s' => if c =? 124 then [] else c :: field_run s'
  end.

(** One attempt of [/AA([^|]+)\|/]: group 1.  The group is the whole run
    after [AA]; giving back a part of it leaves a character of the run where
    the [|] is expected, so the attempt succeeds exactly when the run is not
    empty and a [|] follows it. *)
Definition aa_at (s : jsstring) : option jsstring :=
  match s with
  | a :: a' :: rest =>
      if (a =? 65) && (a' =? 65) then
        let value := field_run rest in
        match value, drop (length value) rest with
        | _ :: _, _ :: _ => Some value
        | _, _ => None
        end
      else None
  | _ => None
  end.

(** The handler of the [data] event, on a chunk that holds one request:
    the text written to the socket, if any. *)
Definition mock_lms (request : jsstring) : option jsstring :=
  let command := substring request 0 2 in
  if bool_decide (command = js "23") then
    let barcode :=
      match regex_search aa_at 0 request with
      | Some (_, group) => group
      | None => js "UNKNOWN"
      end in
    let status := js "Y Y           " in
    let lang := js "001" in
    let date := js "20260221    120000" in
    let inst := js "GigaFlair" in
    let name := js "Alice Patron" in
    let seqNum :=
      match regex_search ayaz_at 0 request with
      | Some (_, digit) => digit
      | None => js "0"
      end in
    let msg := js "24" ++ status ++ lang ++ date ++ js "AO" ++ inst ++ js "|AA" ++ barcode
               ++ js "|AE" ++ name ++ js "|BZ0002|AU0000|AY" ++ seqNum ++ js "AZ" in
    Some (msg ++ calculateChecksum msg ++ [CR])
  else if bool_decide (command = js "93") then
    let seqNum :=
      match regex_search ayaz_at 0 request with
      | Some (_, digit) => digit
      | None => js "0"
      end in
    let msg := js "941AY" ++ seqNum ++ js "AZ" in
    Some (msg ++ calculateChecksum msg ++ [CR])
  else None.

(** The mock as the peer of a client.  It reads the bytes it receives as
    UTF-8 text ([data.toString()]) and writes its answer as UTF-8
    ([socket.write] of a string).  The decoder of Node is not modelled:
    [utf8_decode] stands for it. *)
Definition mock_peer (utf8_decode : list N -> jsstring) (bytes : list N) : option (list N) :=
  utf8_encode <$> mock_lms (utf8_decode bytes).

(** ** The client (services/sip-client)

    One request on a client whose connection is up, whose buffer is empty
    and which has no other request pending.  The peer is a function from
    the bytes written to the bytes that come back before the timer of the
    request fires, if any; the frame reaches the peer in one chunk.  The
    package [unidecode] is not in the sources: [unidecode] stands for its
    function. *)

(** No text [AY], digit, [AZ] in [s]: [/AY(\d)AZ/] does not match. *)
Definition seq_free (s : jsstring) : Prop := regex_search ayaz_at 0 s = None.

(** [Buffer.from(s, 'ascii')]: one byte for each unit, its low eight
    bits. *)
Definition ascii_bytes (s : jsstring) : list N := map (fun c => N.land c 255) s.

(** [processBuffer] after [this.buffer += data.toString('latin1')], where
    each byte is one unit: the messages handed to [handleMessage], in
    order.  A message is the text up to a carriage return and that carriage
    return, without the white space at its start; what follows the last
    carriage return stays in the buffer.  The line feed the loop drops after
    a carriage return would be white space at the start of the next
    message. *)
Definition processBuffer (buffer : jsstring) : list jsstring :=
  map (fun part => trimStart (part ++ [CR])) (removelast (split_on CR buffer)).

(** [handleMessage] while the request [seqNum] is the one pending: [None]
    when the message settles nothing (it is dropped or discarded), else the
    outcome the request is settled with.  [Thrown ClientFailure] is the
    rejection [SIP2 Checksum Mismatch]. *)
Definition handleMessage (checksumRequired : bool) (seqNum : Z) (message : jsstring)
    : option (outcome jsstring) :=
  let verified :=
    match verifyChecksum message with
    | Returned b => b
    | Thrown _ => false
    end in
  let pending_has (digit : jsstring) : bool :=
    match parseInt digit with
    | Num n => (n =? seqNum)%Z
    | NaN => false
    end in
  if negb verified && checksumRequired then
    match regex_search ayaz_at 0 message with
    | Some (_, digit) => if pending_has digit then Some (Thrown ClientFailure) else None
    | None => None
    end
  else
    match regex_search ayaz_at 0 message with
    | Some (_, digit) => if pending_has digit then Some (Returned message) else None
    | None => Some (Returned message)
    end.

(** The messages in turn, until one settles the request; when none does the
    timer fires and the request is rejected with [SIP Request Timeout]. *)
Fixpoint deliver (checksumRequired : bool) (seqNum : Z) (messages : list jsstring)
    : outcome jsstring :=
  match messages with
  | [] => Thrown ClientFailure
  | message :: rest =>
      match handleMessage checksumRequired seqNum message with
      | Some settled => settled
      | None => deliver checksumRequired seqNum rest
      end
  end.

(** [sendRaw(raw, seqNum)]. *)
Definition SipClient_sendRaw (unidecode : jsstring -> jsstring)
    (peer : list N -> option (list N)) (checksumRequired : bool)
    (raw : jsstring) (seqNum : Z) : outcome jsstring :=
  let normalized := unidecode raw in
  match peer (ascii_bytes normalized) with
  | Some reply => deliver checksumRequired seqNum (processBuffer reply)
  | None => Thrown ClientFailure
  end.

(** [patronStatus(barcode, language)] on a client made for [institutionId];
    [seqNum] is the number [getAvailableSeqNum] gives, [nextSeqNum] when
    nothing is pending. *)
Definition SipClient_patronStatus (unidecode : jsstring -> jsstring)
    (peer : list N -> option (list N)) (checksumRequired : bool)
    (now : Date) (institutionId : jsstring) (seqNum : Z)
    (barcode : jsstring) (language : option jsstring)
    : outcome PatronStatusResponse.t :=
  rawRequest ← formatPatronStatusRequest now barcode (Some institutionId) (Some seqNum)
                 (Some (default (js "001") language));
  rawResponse ← SipClient_sendRaw unidecode peer checksumRequired rawRequest seqNum;
  parsePatronStatusResponse rawResponse.

(** The [sendRaw] of [performLogin]: the login frame is sent with the
    sequence number 0 at every attempt. *)
Definition login_sendRaw (unidecode : jsstring -> jsstring)
    (peer : list N -> option (list N)) (checksumRequired : bool)
    (attempt : nat) (frame : jsstring) : outcome jsstring :=
  SipClient_sendRaw unidecode peer checksumRequired frame 0.

(** ** Dashboard redaction of raw frames (utils/events) *)

Definition credentialFields : list jsstring := [js "CN"; js "CO"; js "AD"].
Definition piiFields : list jsstring := [js "AA"; js "AE"; js "AB"].
Definition allSensitiveFields : list jsstring := credentialFields ++ piiFields.

(** [s.replace(re, (_match, value) => repl(value))] for the global pattern
    [re] made of [field] and a group [[^|]*].  The matches are found from
    left to right and do not overlap: after a match the search goes on behind
    the run it took.  [skip] counts the characters of the current match still
    to pass. *)
Fixpoint replace_field_from (field : jsstring) (repl : jsstring -> jsstring)
    (skip : nat) (s : jsstring) : jsstring :=
  match s with
  | [] => []
  | c :: s' =>
      match skip with
      | S skip' => replace_field_from field repl skip' s'
      | O =>
          if startsWith s field then
            let value := field_run (drop (length field) s) in
            repl value ++ replace_field_from field repl (length field + length value - 1) s'
          else c :: replace_field_from field repl 0 s'
      end
  end.

Definition replace_field_g (field : jsstring) (repl : jsstring -> jsstring) (s : jsstring)
    : jsstring :=
  replace_field_from field repl 0 s.

(** The replacer of [maskPii] for [field]: stars for a credential; for the
    others the mask, or stars when [mask] raises. *)
Definition redact (masterKey : option jsstring) (field value : jsstring) : jsstring :=
  if bool_decide (field ∈ credentialFields) then field ++ js "********"
  else
    match mask masterKey value with
    | Returned masked => field ++ masked
    | Thrown _ => field ++ js "********"
    end.

(** The inner loop of [maskPii]: one replacement pass for each field code,
    each on the result of the pass before. *)
Definition maskPii_text (masterKey : option jsstring) (text : jsstring) : jsstring :=
  fold_left (fun masked field => replace_field_g field (redact masterKey field) masked)
    allSensitiveFields text.

(** [obj[key]] on the entries of an object. *)
Fixpoint obj_get (entries : list (jsstring * jsvalue)) (key : jsstring) : jsvalue :=
  match entries with
  | [] => VUndefined
  | (k, v) :: entries' => if bool_decide (k = key) then v else obj_get entries' key
  end.

(** [maskPii].  The spread of an array gives an object with the indices as
    keys. *)
Definition maskPii (masterKey : option jsstring) (data : jsvalue) : jsvalue :=
  let for_keys (obj : list (jsstring * jsvalue)) :=
    fold_left
      (fun obj key =>
         match obj_get obj key with
         | VString text => obj_set obj key (VString (maskPii_text masterKey text))
         | _ => obj
         end)
      [js "raw"; js "message"] obj in
  if negb (truthy_value data) then data
  else
    match data with
    | VObject entries => VObject (for_keys entries)
    | VArray items =>
        VObject (for_keys (imap (fun i item => (String_of (Z.of_nat i), item)) items))
    | _ => data
    end.

(** * Properties *)

(** ** Checksum codec *)

Lemma charCodeSum_sum_of_codes message : charCodeSum message = sum_of_codes message.
Proof.
  unfold charCodeSum, sum_of_codes.
  assert (H : forall acc, fold_left (fun sum c => (sum + Z.of_N c)%Z) message acc
                        = (acc + foldr (fun c a => (Z.of_N c + a)%Z) 0%Z message)%Z).
  { induction message as [|c m IH]; intros acc; simpl; [lia|]. rewrite IH. lia. }
  rewrite H. lia.
Qed.

Lemma ToInt32_mod x : (ToInt32 x mod 2 ^ 16 = x mod 2 ^ 16)%Z.
Proof.
  unfold ToInt32.
  change (2 ^ 32)%Z with 4294967296%Z. change (2 ^ 31)%Z with 2147483648%Z.
  change (2 ^ 16)%Z with 65536%Z.
  destruct (2147483648 <=? x mod 4294967296)%Z; Z.div_mod_to_equations; lia.
Qed.

Lemma js_bitand_65535 x : js_bitand x 65535 = (x mod 65536)%Z.
Proof.
  unfold js_bitand.
  replace (ToInt32 65535) with (Z.ones 16) by reflexivity.
  rewrite Z.land_ones by lia. apply ToInt32_mod.
Qed.

Lemma all_below_spec bits : forall base P v,
  all_below bits base P = true ->
  (base * 2 ^ Z.of_nat bits <= v < (base + 1) * 2 ^ Z.of_nat bits)%Z -> P v = true.
Proof.
  induction bits as [|bits IH]; intros base P v H Hv.
  - simpl in *. replace v with base by lia. exact H.
  - simpl in H. apply andb_prop in H as [H0 H1].
    rewrite Nat2Z.inj_succ, Z.pow_succ_r in Hv by lia.
    destruct (Z_lt_le_dec v ((2 * base + 1) * 2 ^ Z.of_nat bits)).
    + apply (IH (2 * base)%Z); [exact H0|]. lia.
    + apply (IH (2 * base + 1)%Z); [exact H1|]. lia.
Qed.

Lemma render16_all :
  all_below 16 0 (fun v => bool_decide (render16 v = hex4 v)) = true.
Proof. vm_compute. reflexivity. Qed.

Lemma render16_hex4 v : (0 <= v < 65536)%Z -> render16 v = hex4 v.
Proof.
  intros Hv.
  pose proof (all_below_spec 16 0 _ v render16_all) as H.
  cbv beta in H. rewrite bool_decide_eq_true in H. apply H.
  change (2 ^ Z.of_nat 16)%Z with 65536%Z. lia.
Qed.

Lemma calculateChecksum_hex4 message :
  calculateChecksum message = hex4 ((- sum_of_codes message) mod 65536).
Proof.
  unfold calculateChecksum. rewrite js_bitand_65535, charCodeSum_sum_of_codes.
  apply render16_hex4, Z.mod_pos_bound. lia.
Qed.

(** ** C7 *)

(** C7. [calculateChecksum] renders, as four upper-case hex digits, the
    negated sum of the character codes modulo 65536; [appendChecksum]
    with a sequence number from 0 to 9 returns the body, [AY], the digit,
    [AZ], the checksum of all that, and a carriage return; with a sequence
    number above 9 it raises [InvalidSequence]. *)
Theorem checksum_codec_spec (body : jsstring) (seqNum : Z) :
  calculateChecksum body = hex4 ((- sum_of_codes body) mod 65536)
  /\ ((0 <= seqNum <= 9)%Z ->
      let partialMsg := body ++ js "AY" ++ [Z.to_N (48 + seqNum)] ++ js "AZ" in
      appendChecksum body seqNum
      = Returned (partialMsg ++ calculateChecksum partialMsg ++ [CR]))
  /\ ((9 < seqNum)%Z -> appendChecksum body seqNum = Thrown (InvalidSequence seqNum)).
Proof.
  split; [apply calculateChecksum_hex4|]. split.
  - intros Hseq. unfold appendChecksum.
    destruct (9 <? seqNum)%Z eqn:E; [apply Z.ltb_lt in E; lia|].
    assert (Hd : substring (Number_toString 10 seqNum) 0 1 = [Z.to_N (48 + seqNum)]).
    { assert (Hc : (seqNum = 0 \/ seqNum = 1 \/ seqNum = 2 \/ seqNum = 3 \/ seqNum = 4
                   \/ seqNum = 5 \/ seqNum = 6 \/ seqNum = 7 \/ seqNum = 8 \/ seqNum = 9)%Z)
        by lia.
      destruct Hc as [->|[->|[->|[->|[->|[->|[->|[->|[->| ->]]]]]]]]]; reflexivity. }
    cbv zeta. rewrite Hd. reflexivity.
  - intros Hseq. unfold appendChecksum.
    destruct (9 <? seqNum)%Z eqn:E; [reflexivity|apply Z.ltb_ge in E; lia].
Qed.

Lemma checksum_codec_spec_witness :
  appendChecksum (js "9300CNadmin|COpassword|CPMainLib|") 0
  = Returned (js "9300CNadmin|COpassword|CPMainLib|AY0AZF28D" ++ [CR])
  /\ appendChecksum (js "99") 10 = Thrown (InvalidSequence 10).
Proof.
  destruct (checksum_codec_spec (js "9300CNadmin|COpassword|CPMainLib|") 0) as (_ & H & _).
  destruct (checksum_codec_spec (js "99") 10) as (_ & _ & H').
  split; [rewrite H by lia; vm_compute; reflexivity | apply H'; lia].
Defined.

(** *** Leftmost search *)

Lemma regex_search_Some {A} (attempt : jsstring -> option A) s : forall i j r,
  regex_search attempt i s = Some (j, r) ->
  exists p t, s = p ++ t /\ attempt t = Some r /\ j = (i + length p)%nat.
Proof.
  induction s as [|c s IH]; intros i j r H; simpl in H.
  - destruct (attempt []) eqn:E; [|discriminate].
    injection H as <- <-. exists [], []. split; [reflexivity|]. split; [exact E|simpl; lia].
  - destruct (attempt (c :: s)) eqn:E.
    + injection H as <- <-. exists [], (c :: s). split; [reflexivity|]. split; [exact E|simpl; lia].
    + apply IH in H as (p & t & -> & Ht & ->).
      exists (c :: p), t. split; [reflexivity|]. split; [exact Ht|simpl; lia].
Qed.

Lemma regex_search_None {A} (attempt : jsstring -> option A) s : forall i,
  regex_search attempt i s = None -> forall p t, s = p ++ t -> attempt t = None.
Proof.
  induction s as [|c s IH]; intros i H p t Hs; simpl in H.
  - destruct (attempt []) eqn:E; [discriminate|].
    symmetry in Hs. apply app_eq_nil in Hs as [_ ->]. exact E.
  - destruct (attempt (c :: s)) eqn:E; [discriminate|].
    destruct p as [|c' p]; simpl in Hs.
    + subst t. exact E.
    + injection Hs as _ Hs. exact (IH _ H p t Hs).
Qed.

Lemma regex_search_app {A} (attempt : jsstring -> option A) t r :
  attempt t = Some r ->
  (forall c q, attempt (c :: q ++ t) = None) ->
  forall p i, regex_search attempt i (p ++ t) = Some ((i + length p)%nat, r).
Proof.
  intros Ht Hlong p. induction p as [|c p IH]; intros i; simpl.
  - destruct t; simpl; rewrite Ht; f_equal; f_equal; lia.
  - rewrite Hlong, IH. f_equal. f_equal. lia.
Qed.

(** *** The trailer pattern *)

Lemma js_AZ : js "AZ" = [65; 90].
Proof. reflexivity. Qed.

Lemma class_hex_is_hex c : class_matches class_hex c = true <-> is_hex c.
Proof.
  unfold class_matches, class_hex, is_hex. simpl.
  rewrite !orb_true_iff, !andb_true_iff, !N.leb_le. intuition lia.
Qed.

Lemma trailer_at_long s : (7 < length s)%nat -> trailer_at s = None.
Proof.
  intros H. do 8 (destruct s as [|? s]; [simpl in H; lia|]).
  unfold trailer_at. destruct (_ && _); reflexivity.
Qed.

Lemma trailer_at_intro h t :
  length h = 4%nat -> Forall is_hex h ->
  t = js "AZ" ++ h \/ t = js "AZ" ++ h ++ [CR] ->
  trailer_at t = Some (t, h).
Proof.
  intros Hlen Hhex Ht.
  do 4 (destruct h as [|? h]; [discriminate|]). destruct h; [|discriminate].
  assert (Hall : forallb (class_matches class_hex) [n; n0; n1; n2] = true).
  { apply forallb_forall. intros x Hx. apply class_hex_is_hex.
    rewrite Forall_forall in Hhex. apply Hhex. apply list_elem_of_In, Hx. }
  destruct Ht as [-> | ->]; rewrite js_AZ; unfold trailer_at; cbn [app];
    rewrite Hall; reflexivity.
Qed.

Lemma trailer_at_elim t m0 m1 :
  trailer_at t = Some (m0, m1) ->
  m0 = t /\ length m1 = 4%nat /\ Forall is_hex m1
  /\ (t = js "AZ" ++ m1 \/ t = js "AZ" ++ m1 ++ [CR]).
Proof.
  unfold trailer_at. intros H.
  do 6 (destruct t as [|? t]; [discriminate|]).
  destruct (_ && _) eqn:E; [|discriminate].
  apply andb_prop in E as [E Hall]. apply andb_prop in E as [Ea Ez].
  apply N.eqb_eq in Ea, Ez. subst.
  assert (Hhex : Forall is_hex [n1; n2; n3; n4]).
  { apply Forall_forall. intros x Hx. apply class_hex_is_hex.
    rewrite forallb_forall in Hall. apply Hall. apply list_elem_of_In, Hx. }
  destruct t as [|c t].
  - injection H as <- <-. split; [reflexivity|]. split; [reflexivity|]. split; [exact Hhex|].
    left. reflexivity.
  - destruct t; [|discriminate]. destruct (c =? CR) eqn:Ec; [|discriminate].
    apply N.eqb_eq in Ec. subst c.
    injection H as <- <-. split; [reflexivity|]. split; [reflexivity|]. split; [exact Hhex|].
    right. reflexivity.
Qed.

Lemma trailer_search_has_trailer frame p h :
  has_trailer frame p h ->
  exists m0, regex_search trailer_at 0 frame = Some (length p, (m0, h))
             /\ frame = p ++ m0 /\ (2 <= length m0)%nat /\ take 2 m0 = js "AZ".
Proof.
  intros (Hlen & Hhex & Hf).
  set (t := drop (length p) frame).
  assert (Ht : frame = p ++ t /\ (t = js "AZ" ++ h \/ t = js "AZ" ++ h ++ [CR])).
  { unfold t. destruct Hf as [-> | ->]; rewrite drop_app_length; auto. }
  destruct Ht as [Hft Ht]. exists t.
  pose proof (trailer_at_intro h t Hlen Hhex Ht) as Hat.
  rewrite Hft at 1.
  rewrite (regex_search_app trailer_at t (t, h) Hat).
  - split; [reflexivity|]. split; [exact Hft|].
    destruct Ht as [-> | ->]; rewrite js_AZ; split; simpl; try lia; reflexivity.
  - intros c q.
    do 4 (destruct h as [|? h]; [discriminate|]). destruct h; [|discriminate].
    destruct Ht as [-> | ->]; rewrite js_AZ.
    + destruct q as [|c' q]; [unfold trailer_at; simpl; destruct (c =? 65); reflexivity|].
      apply trailer_at_long. simpl. rewrite length_app. simpl. lia.
    + apply trailer_at_long. simpl. rewrite length_app. simpl. lia.
Qed.

Lemma trailer_search_None frame :
  regex_search trailer_at 0 frame = None <-> ~ well_formed_trailer frame.
Proof.
  split.
  - intros H (p & h & Hw).
    destruct (trailer_search_has_trailer frame p h Hw) as (m0 & Hs & _). congruence.
  - intros Hn. destruct (regex_search trailer_at 0 frame) as [[j [m0 m1]]|] eqn:E; [|reflexivity].
    exfalso. apply Hn.
    apply regex_search_Some in E as (p & t & -> & Ht & _).
    apply trailer_at_elim in Ht as (_ & Hlen & Hhex & Ht).
    exists p, m1. split; [exact Hlen|]. split; [exact Hhex|].
    destruct Ht as [-> | ->]; auto.
Qed.

Lemma substring_0 s n : substring s 0 n = take n s.
Proof.
  unfold substring. rewrite Nat.min_0_l, Nat.max_0_l, Nat.min_0_l, Nat.sub_0_r, drop_0.
  destruct (Nat.le_ge_cases n (length s)).
  - rewrite Nat.min_l by lia. reflexivity.
  - rewrite Nat.min_r by lia. rewrite !take_ge by lia. reflexivity.
Qed.

Lemma verifyChecksum_has_trailer frame p h :
  has_trailer frame p h ->
  verifyChecksum frame
  = Returned (bool_decide (calculateChecksum (p ++ js "AZ") = toUpperCase h)).
Proof.
  intros Hw. destruct (trailer_search_has_trailer frame p h Hw) as (m0 & Hs & Hf & Hlen & Htk).
  unfold verifyChecksum. rewrite Hs. cbv zeta.
  rewrite substring_0. subst frame.
  rewrite length_app, Nat.add_sub.
  rewrite take_app_add'; [|reflexivity]. rewrite Htk. reflexivity.
Qed.

Lemma hex_upper_facts d : (0 <= d < 16)%Z ->
  is_hex (hex_upper d) /\ upper_unit (hex_upper d) = hex_upper d.
Proof.
  intros Hd.
  assert (Hc : (d = 0 \/ d = 1 \/ d = 2 \/ d = 3 \/ d = 4 \/ d = 5 \/ d = 6 \/ d = 7 \/ d = 8
               \/ d = 9 \/ d = 10 \/ d = 11 \/ d = 12 \/ d = 13 \/ d = 14 \/ d = 15)%Z) by lia.
  unfold is_hex.
  repeat (destruct Hc as [-> | Hc]; [split; [vm_compute; intuition discriminate | reflexivity]|]).
  subst d. split; [vm_compute; intuition discriminate | reflexivity].
Qed.

Lemma hex4_facts v : (0 <= v < 65536)%Z ->
  length (hex4 v) = 4%nat /\ Forall is_hex (hex4 v) /\ toUpperCase (hex4 v) = hex4 v.
Proof.
  intros Hv. split; [reflexivity|].
  assert (H1 : (0 <= v / 4096 < 16)%Z) by (Z.div_mod_to_equations; lia).
  assert (H2 : (0 <= v / 256 mod 16 < 16)%Z) by (apply Z.mod_pos_bound; lia).
  assert (H3 : (0 <= v / 16 mod 16 < 16)%Z) by (apply Z.mod_pos_bound; lia).
  assert (H4 : (0 <= v mod 16 < 16)%Z) by (apply Z.mod_pos_bound; lia).
  apply hex_upper_facts in H1 as [? E1], H2 as [? E2], H3 as [? E3], H4 as [? E4].
  split.
  - unfold hex4. repeat (apply Forall_cons_2; [assumption|]). apply Forall_nil_2.
  - unfold hex4, toUpperCase. cbn [map]. rewrite E1, E2, E3, E4. reflexivity.
Qed.

Lemma calculateChecksum_facts message :
  length (calculateChecksum message) = 4%nat
  /\ Forall is_hex (calculateChecksum message)
  /\ toUpperCase (calculateChecksum message) = calculateChecksum message.
Proof.
  rewrite calculateChecksum_hex4. apply hex4_facts, Z.mod_pos_bound. lia.
Qed.

Lemma Returned_inj {A} (a b : A) : Returned a = Returned b -> a = b.
Proof. congruence. Qed.

Lemma appendChecksum_verifies message seqNum frame :
  appendChecksum message seqNum = Returned frame ->
  verifyChecksum frame = Returned true.
Proof.
  unfold appendChecksum. destruct (9 <? seqNum)%Z; [discriminate|].
  cbv zeta. intros H. apply Returned_inj in H. subst frame.
  set (seqStr := substring (Number_toString 10 seqNum) 0 1).
  set (cs := calculateChecksum (message ++ js "AY" ++ seqStr ++ js "AZ")).
  destruct (calculateChecksum_facts (message ++ js "AY" ++ seqStr ++ js "AZ"))
    as (Hlen & Hhex & Hup). fold cs in Hlen, Hhex, Hup.
  rewrite (verifyChecksum_has_trailer _ (message ++ js "AY" ++ seqStr) cs).
  - rewrite Hup. f_equal. apply bool_decide_eq_true. unfold cs. f_equal.
    rewrite <- !app_assoc. reflexivity.
  - split; [exact Hlen|]. split; [exact Hhex|]. right. rewrite <- !app_assoc. reflexivity.
Qed.

Lemma appendChecksum_frame message seqNum :
  (seqNum <= 9)%Z ->
  exists frame, appendChecksum message seqNum = Returned frame
                /\ verifyChecksum frame = Returned true.
Proof.
  intros Hseq.
  destruct (appendChecksum message seqNum) as [frame|e] eqn:E.
  - exists frame. split; [reflexivity|]. exact (appendChecksum_verifies _ _ _ E).
  - unfold appendChecksum in E. destruct (9 <? seqNum)%Z eqn:E'; [|discriminate].
    apply Z.ltb_lt in E'. lia.
Qed.

(** ** C1 *)

(** C1. For every supported command, every choice of its arguments (the
    sanitized ones among them) and every sequence number from 0 to 9 (the
    omitted one is 0), the formatter returns a frame, and [verifyChecksum]
    of that frame is true. *)
Theorem formatted_frame_verifies (now : Date) (cmd : SipCommand) (seqNum : option Z) :
  (0 <= default 0 seqNum <= 9)%Z ->
  exists frame, formatCommand now cmd seqNum = Returned frame
                /\ verifyChecksum frame = Returned true.
Proof.
  intros Hseq.
  destruct cmd; cbn [formatCommand];
    unfold formatLoginRequest, formatPatronStatusRequest, formatCheckoutRequest,
      formatCheckinRequest, formatItemInformationRequest, formatRenewRequest,
      formatFeePaidRequest, formatPatronInformationRequest, formatHoldRequest,
      formatRenewAllRequest, formatEndSessionRequest, formatSCStatusRequest,
      formatBlockPatronRequest, formatItemStatusUpdateRequest, formatPatronEnableRequest;
    cbv zeta; apply appendChecksum_frame; lia.
Qed.

Lemma formatted_frame_verifies_witness :
  exists frame,
    formatCommand
      {| getUTCFullYear := 2026; getUTCMonth := 1; getUTCDate := 21;
         getUTCHours := 12; getUTCMinutes := 0; getUTCSeconds := 0 |}
      (CmdCheckout (js "P12345") (js "ITEM|789") None (Some (js "1234"))) (Some 7%Z)
    = Returned frame
    /\ verifyChecksum frame = Returned true.
Proof.
  apply formatted_frame_verifies. simpl. lia.
Defined.

(** ** C8 *)

Lemma class_reserved c :
  class_matches [(124, 124); (13, 13); (10, 10); (0, 31)] c = true <-> reserved c.
Proof.
  unfold class_matches, reserved, CR, LF. simpl.
  rewrite !orb_true_iff, !andb_true_iff, !N.leb_le. intuition lia.
Qed.

Lemma sanitizeSipField_filter x :
  sanitizeSipField x = filter (fun c => ~ reserved c) x.
Proof.
  unfold sanitizeSipField. induction x as [|c x IH]; [reflexivity|].
  cbn [replace_class_g]. rewrite IH.
  destruct (class_matches _ c) eqn:E.
  - apply class_reserved in E. rewrite filter_cons_False; [reflexivity|tauto].
  - rewrite filter_cons_True; [reflexivity|]. intros Hr. apply class_reserved in Hr. congruence.
Qed.

(** C8. [sanitizeSipField x] is [x] without its [|], carriage returns,
    line feeds and units in 0x00-0x1F, the other units kept in order; so
    sanitizing twice is sanitizing once, and the output has none of the
    removed units. *)
Theorem sanitizeSipField_spec (x : jsstring) :
  sanitizeSipField x = filter (fun c => ~ reserved c) x
  /\ sanitizeSipField (sanitizeSipField x) = sanitizeSipField x
  /\ Forall (fun c => ~ reserved c) (sanitizeSipField x)
  /\ sublist (sanitizeSipField x) x
  /\ (forall c, 32 <= c -> c <> 124 -> ~ reserved c).
Proof.
  split; [apply sanitizeSipField_filter|]. split; [|split; [|split]].
  - rewrite !sanitizeSipField_filter. apply list_filter_filter_l. tauto.
  - rewrite sanitizeSipField_filter. apply Forall_forall. intros c Hc.
    apply list_elem_of_filter in Hc. tauto.
  - rewrite sanitizeSipField_filter. apply sublist_filter.
  - unfold reserved, CR, LF. lia.
Qed.

(** ** C3 *)

(** C3, as stated, fails: on a frame without a well-formed trailer
    [verifyChecksum] returns [false]; it does not raise. *)
Lemma verifyChecksum_malformed_trailer_counterexample :
  let frame := js "2300120260221    120000AOInstitution|AA123|AC|AY1AX1234" ++ [CR] in
  ~ well_formed_trailer frame
  /\ verifyChecksum frame = Returned false
  /\ verifyChecksum frame <> Thrown MalformedTrailer.
Proof.
  cbv zeta. split; [|split].
  - apply trailer_search_None. vm_compute. reflexivity.
  - vm_compute. reflexivity.
  - vm_compute. discriminate.
Qed.

(** C3, amended.  [verifyChecksum] never raises.  It returns [false] when
    the frame does not end (an optional carriage return apart) with [AZ] and
    four hex digits; when it does, it returns whether the checksum recomputed
    over the frame up to and including [AZ] equals the four digits in upper
    case, so a differing checksum gives [false] and the case of the digits
    does not matter. *)
Theorem verifyChecksum_spec (frame : jsstring) :
  (forall e, verifyChecksum frame <> Thrown e)
  /\ (~ well_formed_trailer frame -> verifyChecksum frame = Returned false)
  /\ (forall p h, has_trailer frame p h ->
        verifyChecksum frame
        = Returned (bool_decide (calculateChecksum (p ++ js "AZ") = toUpperCase h))).
Proof.
  split; [|split].
  - intros e. unfold verifyChecksum.
    destruct (regex_search trailer_at 0 frame) as [[? [? ?]]|]; discriminate.
  - intros Hn. apply trailer_search_None in Hn. unfold verifyChecksum. rewrite Hn. reflexivity.
  - apply verifyChecksum_has_trailer.
Qed.

Lemma verifyChecksum_spec_witness :
  verifyChecksum (js "9300CNadmin|COpassword|CPMainLib|AY0AX") = Returned false
  /\ verifyChecksum (js "9300CNadmin|COpassword|CPMainLib|AY0AZf28d" ++ [CR]) = Returned true
  /\ verifyChecksum (js "9300CNadmin|COPassword|CPMainLib|AY0AZF28D") = Returned false.
Proof.
  split; [|split].
  - apply (verifyChecksum_spec (js "9300CNadmin|COpassword|CPMainLib|AY0AX")).
    apply trailer_search_None. vm_compute. reflexivity.
  - destruct (verifyChecksum_spec (js "9300CNadmin|COpassword|CPMainLib|AY0AZf28d" ++ [CR]))
      as (_ & _ & H).
    rewrite (H (js "9300CNadmin|COpassword|CPMainLib|AY0") (js "f28d")).
    + vm_compute. reflexivity.
    + split; [reflexivity|]. split; [|right; reflexivity].
      repeat (apply Forall_cons_2; [vm_compute; intuition discriminate|]). apply Forall_nil_2.
  - destruct (verifyChecksum_spec (js "9300CNadmin|COPassword|CPMainLib|AY0AZF28D"))
      as (_ & _ & H).
    rewrite (H (js "9300CNadmin|COPassword|CPMainLib|AY0") (js "F28D")).
    + vm_compute. reflexivity.
    + split; [reflexivity|]. split; [|left; reflexivity].
      repeat (apply Forall_cons_2; [vm_compute; intuition discriminate|]). apply Forall_nil_2.
Defined.

(** ** C10 *)

(** C10. [mask] returns the empty string unchanged whatever the master
    key is, unset included; it raises [MasterKeyMissing], and nothing else,
    exactly when the input is not empty and the key is unset or empty. *)
Theorem mask_empty_and_missing_key (masterKey : option jsstring) (data : jsstring) :
  mask masterKey [] = Returned []
  /\ (mask masterKey data = Thrown MasterKeyMissing
      <-> data <> [] /\ (masterKey = None \/ masterKey = Some []))
  /\ (forall e, mask masterKey data = Thrown e -> e = MasterKeyMissing).
Proof.
  split; [reflexivity|]. unfold mask. split.
  - destruct data as [|c data]; [split; [discriminate|intros [H _]; congruence]|].
    destruct masterKey as [[|k key]|]; cbn [truthy negb].
    + split; [intros _; split; [discriminate|auto]|reflexivity].
    + split; [discriminate|intros [_ [H|H]]; discriminate].
    + split; [intros _; split; [discriminate|auto]|reflexivity].
  - intros e. destruct data as [|c data]; [discriminate|].
    destruct (negb (truthy masterKey)); [congruence|discriminate].
Qed.

Lemma mask_empty_and_missing_key_witness :
  mask None (js "P12345") = Thrown MasterKeyMissing /\ mask None [] = Returned [].
Proof.
  destruct (mask_empty_and_missing_key None (js "P12345")) as (H0 & H & _).
  split; [apply H; split; [discriminate|left; reflexivity]|exact H0].
Defined.

(** ** Masking: the shape of a mask *)

Lemma be_bytes_length n : forall x, length (be_bytes n x) = n.
Proof.
  induction n as [|n IH]; intros x; simpl; [reflexivity|].
  rewrite length_app, IH. simpl. lia.
Qed.

Lemma be_bytes_bound n : forall x, Forall (fun b => b < 256) (be_bytes n x).
Proof.
  induction n as [|n IH]; intros x; cbn [be_bytes]; [apply Forall_nil_2|].
  apply Forall_app. split; [apply IH|].
  apply Forall_cons_2; [|apply Forall_nil_2]. apply N.mod_lt. discriminate.
Qed.

Lemma sha256_round_length st kw : length st = 8%nat -> length (sha256_round st kw) = 8%nat.
Proof.
  intros H. do 8 (destruct st as [|? st]; [discriminate|]). destruct st; [|discriminate].
  reflexivity.
Qed.

Lemma sha256_block_length hs block : length hs = 8%nat -> length (sha256_block hs block) = 8%nat.
Proof.
  intros H. unfold sha256_block.
  set (kws := zip sha256_K _). clearbody kws.
  assert (Hst : length (fold_left sha256_round kws hs) = 8%nat).
  { revert hs H. induction kws as [|kw kws IH]; intros hs H; simpl; [exact H|].
    apply IH, sha256_round_length, H. }
  rewrite length_zip_with. lia.
Qed.

Lemma sha256_length msg : length (sha256 msg) = 32%nat.
Proof.
  unfold sha256.
  set (blocks := chunks _ 64 _). clearbody blocks.
  assert (H : length (fold_left sha256_block blocks sha256_H0) = 8%nat).
  { assert (H0 : length sha256_H0 = 8%nat) by reflexivity.
    revert H0. generalize sha256_H0.
    induction blocks as [|b blocks IH]; intros hs H; simpl; [exact H|].
    apply IH, sha256_block_length, H. }
  revert H. generalize (fold_left sha256_block blocks sha256_H0). intros hs H.
  do 8 (destruct hs as [|? hs]; [discriminate|]). destruct hs; [|discriminate].
  cbn [map concat]. rewrite !length_app, !be_bytes_length. reflexivity.
Qed.

Lemma sha256_bytes msg : Forall (fun b => b < 256) (sha256 msg).
Proof.
  unfold sha256. generalize (fold_left sha256_block (chunks (length (sha256_pad msg)) 64
                                                      (sha256_pad msg)) sha256_H0).
  intros hs. induction hs as [|h hs IH]; cbn [map concat]; [apply Forall_nil_2|].
  apply Forall_app. split; [apply be_bytes_bound|exact IH].
Qed.

Lemma digit_char_lower_hex d : (0 <= d < 16)%Z -> is_lower_hex (digit_char d).
Proof.
  intros Hd.
  assert (Hc : (d = 0 \/ d = 1 \/ d = 2 \/ d = 3 \/ d = 4 \/ d = 5 \/ d = 6 \/ d = 7 \/ d = 8
               \/ d = 9 \/ d = 10 \/ d = 11 \/ d = 12 \/ d = 13 \/ d = 14 \/ d = 15)%Z) by lia.
  unfold is_lower_hex.
  repeat (destruct Hc as [-> | Hc]; [vm_compute; intuition discriminate|]).
  subst d. vm_compute; intuition discriminate.
Qed.

Lemma hex_encode_facts bs :
  Forall (fun b => b < 256) bs ->
  length (hex_encode bs) = (2 * length bs)%nat /\ Forall is_lower_hex (hex_encode bs).
Proof.
  unfold hex_encode. induction bs as [|b bs IH]; intros H.
  - split; [reflexivity|apply Forall_nil_2].
  - apply Forall_cons in H as [Hb H]. cbv beta in Hb. destruct (IH H) as [IHl IHf].
    cbn [map concat app length]. split; [rewrite IHl; lia|].
    apply Forall_cons_2; [|apply Forall_cons_2; [|exact IHf]]; apply digit_char_lower_hex.
    + assert (Hq : b / 16 < 16) by (apply N.Div0.div_lt_upper_bound; lia).
      apply N2Z.inj_lt in Hq. split; [apply N2Z.is_nonneg|exact Hq].
    + assert (Hr : b mod 16 < 16) by (apply N.mod_lt; discriminate).
      apply N2Z.inj_lt in Hr. split; [apply N2Z.is_nonneg|exact Hr].
Qed.

Lemma hmac16_facts key data :
  length (hmac16 key data) = 16%nat /\ Forall is_lower_hex (hmac16 key data).
Proof.
  unfold hmac16. set (bs := hmac_sha256 _ _).
  assert (Hb : Forall (fun b => b < 256) bs) by (unfold bs, hmac_sha256; apply sha256_bytes).
  assert (Hlen : length bs = 32%nat) by (unfold bs, hmac_sha256; apply sha256_length).
  destruct (hex_encode_facts bs Hb) as [Hl Hf].
  split; [rewrite length_take, Hl, Hlen; reflexivity|apply Forall_take, Hf].
Qed.

Lemma mask_configured key data :
  key <> [] -> data <> [] ->
  mask (Some key) data = Returned (js "MASKED_" ++ hmac16 key data).
Proof.
  intros Hk Hd. unfold mask. destruct data as [|c data]; [congruence|].
  destruct key as [|k key]; [congruence|]. cbn [truthy negb default from_option id].
  rewrite substring_0. reflexivity.
Qed.

Lemma maskPayload_scenario_entries masterKey value masked :
  value <> [] ->
  mask masterKey value = Returned masked ->
  maskPayload masterKey (scenario_payload value) = Returned (scenario_masked masked).
Proof.
  intros Hv Hm. destruct value as [|c value]; [congruence|].
  unfold scenario_payload, scenario_masked.
  cbn [maskPayload truthy_value negb].
  change (is_secret_key (js "patronBarcode")) with false.
  change (is_pii_key (js "patronBarcode")) with true.
  change (is_secret_key (js "password")) with true.
  cbv iota. rewrite Hm. reflexivity.
Qed.

(** ** C6 *)

Lemma utf8_of_code_point_nonempty c : utf8_of_code_point c <> [].
Proof.
  unfold utf8_of_code_point.
  destruct (c <? 128); [discriminate|]. destruct (c <? 2048); [discriminate|].
  destruct (c <? 65536); discriminate.
Qed.

Lemma utf8_encode_nonempty s : s <> [] -> utf8_encode s <> [].
Proof.
  destruct s as [|c s]; [congruence|]. intros _ E. cbn [utf8_encode] in E.
  assert (Happ : forall c' (l : list N), utf8_of_code_point c' ++ l <> []).
  { intros c' l H. apply app_eq_nil in H as [H _]. exact (utf8_of_code_point_nonempty c' H). }
  destruct ((55296 <=? c) && (c <=? 56319)).
  - destruct s as [|d s]; [exact (utf8_of_code_point_nonempty _ E)|].
    destruct ((56320 <=? d) && (d <=? 57343)); exact (Happ _ _ E).
  - destruct ((56320 <=? c) && (c <=? 57343)); exact (Happ _ _ E).
Qed.

(** C6, as stated, fails in both parts.  Masking the masked payload again
    hashes the mask of the barcode once more, so the barcode of the second
    result differs from the barcode of the first.  And two distinct barcodes
    can have one mask: the HMAC is taken over the UTF-8 bytes of the barcode,
    in which every lone surrogate is written as U+FFFD, so the barcodes
    [\uD800] and [\uD801] are masked alike. *)
Lemma maskPayload_twice_counterexample :
  let masterKey := Some example_key in
  let once := scenario_masked (js "MASKED_77f9028c7078acb5") in
  let twice := scenario_masked (js "MASKED_315e775b84e1643e") in
  maskPayload masterKey (scenario_payload (js "P12345")) = Returned once
  /\ maskPayload masterKey once = Returned twice
  /\ twice <> once
  /\ [55296] <> [55297]
  /\ mask masterKey [55296] = mask masterKey [55297]
  /\ maskPayload masterKey (scenario_payload [55296])
     = maskPayload masterKey (scenario_payload [55297]).
Proof.
  cbv zeta. split; [|split; [|split; [|split; [|split]]]].
  - vm_compute. reflexivity.
  - vm_compute. reflexivity.
  - vm_compute. discriminate.
  - discriminate.
  - vm_compute. reflexivity.
  - vm_compute. reflexivity.
Qed.

(** C6, amended.  With the master key configured, [maskPayload] maps the
    payload [{patronBarcode, password: "x"}] to the barcode masked as
    [MASKED_] and the first sixteen (lower-case hex) digits of the HMAC of
    its UTF-8 bytes, and the password ["********"]: the result is a function
    of key and payload, the same at every call.  Masking that result again
    keeps the password ["********"] and masks the mask of the barcode once
    more.  Barcodes with the same UTF-8 bytes get the same mask.  Under the
    example key, [P12345] is masked as [MASKED_77f9028c7078acb5], masked
    again as the different [MASKED_315e775b84e1643e], and [P12345] and
    [P67890] get distinct masks. *)
Theorem maskPayload_scenario (key barcode : jsstring) :
  key <> [] -> barcode <> [] ->
  let masked := js "MASKED_" ++ hmac16 key barcode in
  maskPayload (Some key) (scenario_payload barcode) = Returned (scenario_masked masked)
  /\ length (hmac16 key barcode) = 16%nat
  /\ Forall is_lower_hex (hmac16 key barcode)
  /\ maskPayload (Some key) (scenario_masked masked)
     = Returned (scenario_masked (js "MASKED_" ++ hmac16 key masked))
  /\ (forall barcode',
        utf8_encode barcode' = utf8_encode barcode ->
        maskPayload (Some key) (scenario_payload barcode')
        = maskPayload (Some key) (scenario_payload barcode))
  /\ maskPayload (Some example_key) (scenario_payload (js "P12345"))
     = Returned (scenario_masked (js "MASKED_77f9028c7078acb5"))
  /\ maskPayload (Some example_key) (scenario_masked (js "MASKED_77f9028c7078acb5"))
     = Returned (scenario_masked (js "MASKED_315e775b84e1643e"))
  /\ js "MASKED_315e775b84e1643e" <> js "MASKED_77f9028c7078acb5"
  /\ mask (Some example_key) (js "P12345") <> mask (Some example_key) (js "P67890").
Proof.
  intros Hk Hb. cbv zeta.
  split; [|split; [|split; [|split; [|split; [|split; [|split; [|split]]]]]]].
  - apply maskPayload_scenario_entries; [exact Hb|]. apply mask_configured; assumption.
  - apply hmac16_facts.
  - apply hmac16_facts.
  - apply (maskPayload_scenario_entries (Some key) (js "MASKED_" ++ hmac16 key barcode)).
    + discriminate.
    + apply mask_configured; [exact Hk|discriminate].
  - intros barcode' E.
    assert (Hb' : barcode' <> []).
    { intros ->. symmetry in E. exact (utf8_encode_nonempty barcode Hb E). }
    rewrite (maskPayload_scenario_entries (Some key) barcode'
               (js "MASKED_" ++ hmac16 key barcode') Hb' (mask_configured _ _ Hk Hb')).
    rewrite (maskPayload_scenario_entries (Some key) barcode
               (js "MASKED_" ++ hmac16 key barcode) Hb (mask_configured _ _ Hk Hb)).
    unfold hmac16. rewrite E. reflexivity.
  - vm_compute. reflexivity.
  - vm_compute. reflexivity.
  - discriminate.
  - vm_compute. discriminate.
Qed.

Lemma maskPayload_scenario_witness :
  maskPayload (Some example_key) (scenario_payload (js "P12345"))
  = Returned (scenario_masked (js "MASKED_" ++ hmac16 example_key (js "P12345")))
  /\ maskPayload (Some example_key) (scenario_payload [55297])
     = maskPayload (Some example_key) (scenario_payload [55296]).
Proof.
  split.
  - destruct (maskPayload_scenario example_key (js "P12345")) as (H1 & _);
      [discriminate|discriminate|exact H1].
  - destruct (maskPayload_scenario example_key [55296]) as (_ & _ & _ & _ & H5 & _);
      [discriminate|discriminate|].
    apply H5. vm_compute. reflexivity.
Defined.

(** ** Circuit breaker *)

Lemma new_manager_breakers cfgs :
  (forall branch b, breakers (new_manager cfgs) !! branch = Some b -> b = initial_breaker)
  /\ (forall config, config ∈ cfgs ->
        breakers (new_manager cfgs) !! branchId config = Some initial_breaker).
Proof.
  unfold new_manager.
  set (f := fun m config => {| clients := clients m;
                               configs := <[branchId config := config]> (configs m);
                               breakers := <[branchId config := initial_breaker]> (breakers m) |}).
  assert (H : forall cfgs m,
    (forall branch b, breakers m !! branch = Some b -> b = initial_breaker) ->
    (forall branch b, breakers (fold_left f cfgs m) !! branch = Some b -> b = initial_breaker)
    /\ (forall config, config ∈ cfgs \/ breakers m !! branchId config = Some initial_breaker ->
          breakers (fold_left f cfgs m) !! branchId config = Some initial_breaker)).
  { clear cfgs. induction cfgs as [|c cfgs IH]; intros m Hm; simpl.
    - split; [exact Hm|]. intros config [Hin|Hc]; [inversion Hin|exact Hc].
    - assert (Hm' : forall branch b, breakers (f m c) !! branch = Some b -> b = initial_breaker).
      { intros branch b. unfold f. simpl. rewrite lookup_insert.
        case_decide; [congruence|apply Hm]. }
      destruct (IH (f m c) Hm') as [IH1 IH2]. split; [exact IH1|].
      intros config Hc. apply IH2.
      destruct (decide (branchId c = branchId config)) as [E|E].
      + right. unfold f. simpl. rewrite E. apply lookup_insert_eq.
      + destruct Hc as [Hin|Hc].
        * apply elem_of_cons in Hin as [->|Hin]; [congruence|left; exact Hin].
        * right. unfold f. simpl. rewrite lookup_insert_ne by exact E. exact Hc. }
  destruct (H cfgs {| clients := ∅; configs := ∅; breakers := ∅ |}) as [H1 H2].
  { intros branch b. simpl. rewrite lookup_empty. discriminate. }
  split; [exact H1|]. intros config Hin. apply H2. left. exact Hin.
Qed.

Lemma backoff_at_pos node_env_test i : (0 < backoff_at (BACKOFF_SCHEDULE node_env_test) i)%Z.
Proof.
  unfold backoff_at.
  destruct node_env_test; simpl;
    do 6 (destruct i as [|i]; simpl; try lia).
Qed.

Lemma BACKOFF_SCHEDULE_length node_env_test :
  (0 < length (BACKOFF_SCHEDULE node_env_test))%nat.
Proof. destruct node_env_test; simpl; lia. Qed.

Lemma set_breaker_ok node_env_test m branch b :
  manager_ok node_env_test m -> breaker_ok node_env_test b ->
  manager_ok node_env_test (set_breaker m branch b).
Proof.
  intros Hm Hb branch' b'. unfold set_breaker. simpl. rewrite lookup_insert.
  case_decide; [intros [= <-]; exact Hb|apply Hm].
Qed.

Lemma half_open_ok node_env_test b locked :
  breaker_ok node_env_test b ->
  breaker_ok node_env_test
    {| state := HALF_OPEN; failureCount := failureCount b; lastFailureAt := lastFailureAt b;
       nextRetryAt := nextRetryAt b; backoffIndex := backoffIndex b;
       halfOpenLocked := locked |}.
Proof.
  intros (_ & _ & H). split; [discriminate|]. split; [discriminate|exact H].
Qed.

Lemma manager_step_ok node_env_test m m' :
  manager_step node_env_test m m' -> manager_ok node_env_test m -> manager_ok node_env_test m'.
Proof.
  intros Hstep Hm. destruct Hstep as [m branch now st m' Hnow H | m branch now login Hnow
                                     | m branch m' H | m branch now1 now2 m' Hnow H].
  - unfold getCircuitState, getBreaker in H.
    destruct (breakers m !! branch) as [b|] eqn:Eb; [|discriminate].
    simpl in H. apply Returned_inj in H. injection H as _ <-.
    apply set_breaker_ok; [exact Hm|].
    destruct (retry_due b now); [apply half_open_ok|]; exact (Hm _ _ Eb).
  - unfold getClient, getBreaker.
    destruct (breakers m !! branch) as [b|] eqn:Eb; [|exact Hm].
    pose proof (Hm _ _ Eb) as Hb. cbv zeta.
    set (b1 := if retry_due b now then _ else b).
    assert (Hb1 : breaker_ok node_env_test b1).
    { unfold b1. destruct (retry_due b now); [apply half_open_ok|]; exact Hb. }
    clearbody b1.
    pose proof (set_breaker_ok _ m branch b1 Hm Hb1) as Hm1.
    destruct (bool_decide (state b1 = OPEN)); [exact Hm1|].
    destruct (bool_decide (state b1 = HALF_OPEN) && halfOpenLocked b1) eqn:El; [exact Hm1|].
    match goal with
    | |- context [if bool_decide (state b1 = HALF_OPEN) then ?x else b1] =>
        set (b2 := if bool_decide (state b1 = HALF_OPEN) then x else b1)
    end.
    assert (Hb2 : breaker_ok node_env_test b2).
    { unfold b2. case_bool_decide as Es; [|exact Hb1].
      destruct Hb1 as (H1 & H2 & H3). rewrite Es. split; [discriminate|].
      split; [discriminate|exact H3]. }
    clearbody b2.
    pose proof (set_breaker_ok _ _ branch b2 Hm1 Hb2) as Hm2.
    destruct (bool_decide (branch ∈ clients _)); [exact Hm2|].
    match goal with
    | |- context [if ?c then login else Returned ()] =>
        destruct (if c then login else Returned ()); exact Hm2
    end.
  - unfold recordSuccess, getBreaker in H.
    destruct (breakers m !! branch) as [b|] eqn:Eb; [|discriminate].
    simpl in H. apply Returned_inj in H. subst m'.
    apply set_breaker_ok; [exact Hm|].
    split; [discriminate|]. split; [simpl; unfold FAILURE_THRESHOLD; lia|].
    apply BACKOFF_SCHEDULE_length.
  - unfold recordFailure, getBreaker in H.
    destruct (breakers m !! branch) as [b|] eqn:Eb; [|discriminate].
    destruct (Hm _ _ Eb) as (H1 & H2 & H3).
    cbn [mbind outcome_bind] in H.
    destruct ((FAILURE_THRESHOLD <=? S (failureCount b))%nat
              || bool_decide (state b = HALF_OPEN)) eqn:Eo;
      apply Returned_inj in H; subst m'.
    + intros branch' b'. cbn [breakers]. rewrite lookup_insert.
      destruct (decide (branch = branch')); [|apply Hm]. intros [= <-].
      split; [intros _; eexists; split; [reflexivity|]|split; [discriminate|]]; simpl.
      * pose proof (backoff_at_pos node_env_test (backoffIndex b)). lia.
      * destruct (backoffIndex b <? _)%nat eqn:Ei; [apply Nat.ltb_lt in Ei; lia|exact H3].
    + apply set_breaker_ok; [exact Hm|].
      apply orb_false_iff in Eo as [Eo _]. apply Nat.leb_gt in Eo.
      split; [exact H1|]. split; [intros _; exact Eo|exact H3].
Qed.

Lemma reachable_ok node_env_test cfgs m :
  reachable node_env_test cfgs m -> manager_ok node_env_test m.
Proof.
  unfold reachable. intros H.
  assert (H0 : manager_ok node_env_test (new_manager cfgs)).
  { intros branch b Hb. apply new_manager_breakers in Hb. subst b.
    split; [discriminate|]. split; [intros _; unfold FAILURE_THRESHOLD; simpl; lia|].
    apply BACKOFF_SCHEDULE_length. }
  revert H0. induction H as [|m1 m2 m3 Hstep _ IH]; [auto|].
  intros H1. apply IH. exact (manager_step_ok _ _ _ Hstep H1).
Qed.

Lemma recordFailure_below_threshold node_env_test m branch b now1 now2 :
  breakers m !! branch = Some b ->
  state b <> HALF_OPEN -> (S (failureCount b) < FAILURE_THRESHOLD)%nat ->
  exists m' b',
    recordFailure node_env_test m branch now1 now2 = Returned m'
    /\ breakers m' !! branch = Some b'
    /\ state b' = state b /\ failureCount b' = S (failureCount b).
Proof.
  intros Hb Hs Hc. unfold recordFailure, getBreaker. rewrite Hb.
  cbn [mbind outcome_bind].
  apply Nat.leb_gt in Hc. rewrite Hc.
  rewrite bool_decide_eq_false_2 by exact Hs. cbn [orb].
  eexists _, _. split; [reflexivity|]. split; [apply lookup_insert_eq|]. split; reflexivity.
Qed.

Lemma recordFailure_opens node_env_test m branch b now1 now2 :
  breakers m !! branch = Some b ->
  (FAILURE_THRESHOLD <= S (failureCount b))%nat \/ state b = HALF_OPEN ->
  exists m' b',
    recordFailure node_env_test m branch now1 now2 = Returned m'
    /\ breakers m' !! branch = Some b'
    /\ state b' = OPEN
    /\ backoffIndex b'
       = (if (backoffIndex b <? length (BACKOFF_SCHEDULE node_env_test) - 1)%nat
          then S (backoffIndex b) else backoffIndex b)
    /\ nextRetryAt b'
       = Some (now2 + backoff_at (BACKOFF_SCHEDULE node_env_test) (backoffIndex b))%Z.
Proof.
  intros Hb Hs. unfold recordFailure, getBreaker. rewrite Hb.
  cbn [mbind outcome_bind].
  assert (E : (FAILURE_THRESHOLD <=? S (failureCount b))%nat
              || bool_decide (state b = HALF_OPEN) = true).
  { apply orb_true_iff. destruct Hs as [Hs|Hs]; [left; apply Nat.leb_le, Hs|].
    right. apply bool_decide_eq_true_2, Hs. }
  rewrite E. eexists _, _. split; [reflexivity|]. split; [apply lookup_insert_eq|].
  split; [reflexivity|]. split; reflexivity.
Qed.

Lemma getClient_half_open m branch b t now login :
  breakers m !! branch = Some b ->
  state b = OPEN -> nextRetryAt b = Some t -> (0 < t)%Z -> (t <= now)%Z ->
  exists b', breakers (fst (getClient m branch now login)) !! branch = Some b'
             /\ state b' = HALF_OPEN.
Proof.
  intros Hb Hs Ht Hpos Hnow. unfold getClient, getBreaker. rewrite Hb.
  assert (E : retry_due b now = true).
  { unfold retry_due. rewrite Ht, bool_decide_eq_true_2 by exact Hs.
    apply andb_true_iff. split; [reflexivity|]. apply andb_true_iff.
    split; [apply negb_true_iff, Z.eqb_neq; lia|apply Z.leb_le, Hnow]. }
  rewrite E. cbv zeta. cbn [state halfOpenLocked].
  rewrite (bool_decide_eq_false_2 (HALF_OPEN = OPEN)) by discriminate.
  rewrite (bool_decide_eq_true_2 (HALF_OPEN = HALF_OPEN)) by reflexivity.
  cbn [andb].
  match goal with
  | |- context [bool_decide (branch ∈ ?s)] => destruct (bool_decide (branch ∈ s))
  end.
  - eexists. split; [apply lookup_insert_eq|reflexivity].
  - match goal with
    | |- context [if ?c then login else Returned ()] =>
        destruct (if c then login else Returned ())
    end; (eexists; split; [apply lookup_insert_eq|reflexivity]).
Qed.

(** ** C2 *)

(** C2. For every branch the breaker record starts [CLOSED] with no
    failure counted; three consecutive recorded failures open it; once the
    clock has reached the retry time of an open breaker, the next [getClient]
    makes it [HALF_OPEN]; a success recorded in [HALF_OPEN] closes it and
    zeroes failure count and backoff index; a failure recorded in [HALF_OPEN]
    opens it again and moves the backoff index one slot further, the last
    slot of the schedule being the limit. *)
Theorem circuit_breaker_state_machine (node_env_test : bool) (cfgs : list LMSConfig)
    (m : Manager) (branch : jsstring) (b : CircuitBreaker) :
  (forall config, config ∈ cfgs ->
     exists b0, breakers (new_manager cfgs) !! branchId config = Some b0
                /\ state b0 = CLOSED /\ failureCount b0 = 0%nat)
  /\ (breakers m !! branch = Some b -> state b = CLOSED -> failureCount b = 0%nat ->
      forall t1 t1' t2 t2' t3 t3',
      exists m1 m2 m3 b1 b2 b3,
        recordFailure node_env_test m branch t1 t1' = Returned m1
        /\ recordFailure node_env_test m1 branch t2 t2' = Returned m2
        /\ recordFailure node_env_test m2 branch t3 t3' = Returned m3
        /\ breakers m1 !! branch = Some b1 /\ state b1 = CLOSED
        /\ breakers m2 !! branch = Some b2 /\ state b2 = CLOSED
        /\ breakers m3 !! branch = Some b3 /\ state b3 = OPEN)
  /\ (reachable node_env_test cfgs m -> breakers m !! branch = Some b -> state b = OPEN ->
      exists t, nextRetryAt b = Some t
        /\ forall now login, (t <= now)%Z ->
           exists b', breakers (fst (getClient m branch now login)) !! branch = Some b'
                      /\ state b' = HALF_OPEN)
  /\ (breakers m !! branch = Some b -> state b = HALF_OPEN ->
      exists m' b', recordSuccess m branch = Returned m'
                    /\ breakers m' !! branch = Some b'
                    /\ state b' = CLOSED /\ failureCount b' = 0%nat
                    /\ backoffIndex b' = 0%nat)
  /\ (reachable node_env_test cfgs m -> breakers m !! branch = Some b ->
      state b = HALF_OPEN ->
      forall now1 now2,
      exists m' b', recordFailure node_env_test m branch now1 now2 = Returned m'
                    /\ breakers m' !! branch = Some b'
                    /\ state b' = OPEN
                    /\ backoffIndex b'
                       = Nat.min (S (backoffIndex b))
                                 (length (BACKOFF_SCHEDULE node_env_test) - 1)).
Proof.
  split; [|split; [|split; [|split]]].
  - intros config Hin. exists initial_breaker.
    split; [apply new_manager_breakers, Hin|]. split; reflexivity.
  - intros Hb Hs Hc t1 t1' t2 t2' t3 t3'.
    destruct (recordFailure_below_threshold node_env_test m branch b t1 t1' Hb)
      as (m1 & b1 & R1 & L1 & S1 & C1);
      [rewrite Hs; discriminate|rewrite Hc; unfold FAILURE_THRESHOLD; lia|].
    destruct (recordFailure_below_threshold node_env_test m1 branch b1 t2 t2' L1)
      as (m2 & b2 & R2 & L2 & S2 & C2);
      [rewrite S1, Hs; discriminate|rewrite C1, Hc; unfold FAILURE_THRESHOLD; lia|].
    destruct (recordFailure_opens node_env_test m2 branch b2 t3 t3' L2)
      as (m3 & b3 & R3 & L3 & S3 & _);
      [left; rewrite C2, C1, Hc; unfold FAILURE_THRESHOLD; lia|].
    exists m1, m2, m3, b1, b2, b3.
    repeat split; try assumption; congruence.
  - intros Hr Hb Hs.
    destruct (reachable_ok _ _ _ Hr branch b Hb) as (H1 & _ & _).
    destruct (H1 Hs) as (t & Ht & Hpos). exists t. split; [exact Ht|].
    intros now login Hnow. exact (getClient_half_open m branch b t now login Hb Hs Ht Hpos Hnow).
  - intros Hb Hs. unfold recordSuccess, getBreaker. rewrite Hb. cbn [mbind outcome_bind mret outcome_ret].
    eexists _, _. split; [reflexivity|]. split; [apply lookup_insert_eq|].
    repeat split; reflexivity.
  - intros Hr Hb Hs now1 now2.
    destruct (reachable_ok _ _ _ Hr branch b Hb) as (_ & _ & H3).
    destruct (recordFailure_opens node_env_test m branch b now1 now2 Hb)
      as (m' & b' & R & L & S' & I & _); [right; exact Hs|].
    exists m', b'. split; [exact R|]. split; [exact L|]. split; [exact S'|].
    rewrite I. destruct (backoffIndex b <? _)%nat eqn:E.
    + apply Nat.ltb_lt in E. lia.
    + apply Nat.ltb_ge in E. lia.
Qed.

Lemma example_failures_reachable n :
  reachable true [example_config] (example_failures n).
Proof.
  unfold reachable. induction n as [|n IH]; [apply rtc_refl|].
  cbn [example_failures].
  destruct (recordFailure true (example_failures n) (js "main") 1000 1000) as [m|e] eqn:E;
    [|exact IH].
  eapply rtc_r; [exact IH|].
  apply (step_recordFailure true _ (js "main") 1000 1000 m); [lia|exact E].
Qed.

Lemma circuit_breaker_state_machine_witness :
  let m3 := example_failures 3 in
  let probing := fst (getClient m3 (js "main") 1200 (Returned ())) in
  (exists b0, breakers (new_manager [example_config]) !! js "main" = Some b0
              /\ state b0 = CLOSED /\ failureCount b0 = 0%nat)
  /\ (exists b3, breakers m3 !! js "main" = Some b3 /\ state b3 = OPEN)
  /\ (exists b', breakers probing !! js "main" = Some b' /\ state b' = HALF_OPEN)
  /\ (exists m' b', recordSuccess probing (js "main") = Returned m'
                    /\ breakers m' !! js "main" = Some b'
                    /\ state b' = CLOSED /\ failureCount b' = 0%nat
                    /\ backoffIndex b' = 0%nat)
  /\ (exists m' b', recordFailure true probing (js "main") 1300 1300 = Returned m'
                    /\ breakers m' !! js "main" = Some b'
                    /\ state b' = OPEN /\ backoffIndex b' = 2%nat).
Proof.
  cbv zeta.
  set (m0 := new_manager [example_config]).
  set (m3 := example_failures 3).
  set (probing := fst (getClient m3 (js "main") 1200 (Returned ()))).
  set (b3 := default initial_breaker (breakers m3 !! js "main")).
  set (bp := default initial_breaker (breakers probing !! js "main")).
  assert (L0 : breakers m0 !! js "main" = Some initial_breaker) by (vm_compute; reflexivity).
  assert (L3 : breakers m3 !! js "main" = Some b3) by (vm_compute; reflexivity).
  assert (Lp : breakers probing !! js "main" = Some bp) by (vm_compute; reflexivity).
  assert (R3 : reachable true [example_config] m3) by apply example_failures_reachable.
  assert (Rp : reachable true [example_config] probing).
  { eapply rtc_r; [exact R3|]. apply step_getClient. lia. }
  split; [|split; [|split; [|split]]].
  - destruct (circuit_breaker_state_machine true [example_config] m0 (js "main") initial_breaker)
      as (H & _).
    apply (H example_config). apply list_elem_of_singleton. reflexivity.
  - destruct (circuit_breaker_state_machine true [example_config] m0 (js "main") initial_breaker)
      as (_ & H & _).
    destruct (H L0 eq_refl eq_refl 1000 1000 1000 1000 1000 1000)%Z
      as (m1 & m2 & m3' & b1 & b2 & b3' & E1 & E2 & E3 & _ & _ & _ & _ & L & S).
    assert (m3' = m3); [|subst m3'; eauto].
    unfold m3. cbn [example_failures]. fold m0. rewrite E1, E2, E3. reflexivity.
  - destruct (circuit_breaker_state_machine true [example_config] m3 (js "main") b3)
      as (_ & _ & H & _).
    destruct (H R3 L3 eq_refl) as (t & Ht & Hprobe).
    apply Hprobe. vm_compute in Ht. injection Ht as <-. vm_compute. discriminate.
  - destruct (circuit_breaker_state_machine true [example_config] probing (js "main") bp)
      as (_ & _ & _ & H & _).
    exact (H Lp eq_refl).
  - destruct (circuit_breaker_state_machine true [example_config] probing (js "main") bp)
      as (_ & _ & _ & _ & H).
    exact (H Rp Lp eq_refl 1300 1300)%Z.
Defined.

(** ** Parsers: the command-code check *)

Lemma startsWith_nil s : startsWith s [] = true.
Proof. destruct s; reflexivity. Qed.

Lemma startsWith_code raw a b :
  startsWith raw [a; b] = bool_decide (substring raw 0 2 = [a; b]).
Proof.
  rewrite substring_0.
  destruct raw as [|x [|y raw]]; cbn [startsWith take firstn].
  - symmetry. apply bool_decide_eq_false_2. discriminate.
  - destruct (a =? x); symmetry; apply bool_decide_eq_false_2; discriminate.
  - rewrite startsWith_nil. change (take 0 raw) with (@nil N).
    destruct (a =? x) eqn:Ea, (b =? y) eqn:Eb; cbn [andb]; symmetry;
      rewrite ?N.eqb_eq, ?N.eqb_neq in *;
      [apply bool_decide_eq_true_2; congruence | | |];
      apply bool_decide_eq_false_2; congruence.
Qed.

Lemma bool_decide_elem_of_1 (x c : jsstring) :
  bool_decide (x ∈ [c]) = bool_decide (x = c).
Proof. apply bool_decide_ext. rewrite list_elem_of_singleton. reflexivity. Qed.

Lemma bool_decide_elem_of_2 (x c1 c2 : jsstring) :
  bool_decide (x ∈ [c1; c2]) = bool_decide (x = c1) || bool_decide (x = c2).
Proof.
  rewrite <- bool_decide_or. apply bool_decide_ext.
  rewrite elem_of_cons, list_elem_of_singleton. reflexivity.
Qed.

Lemma run_parser_code p raw :
  if bool_decide (substring raw 0 2 ∈ accepted_codes p)
  then exists r, run_parser p raw = Returned r
  else exists expected,
         run_parser p raw = Thrown (UnexpectedResponseCode expected (substring raw 0 2)).
Proof.
  destruct p; cbn [run_parser accepted_codes documented_code];
    rewrite ?bool_decide_elem_of_1, ?bool_decide_elem_of_2;
    unfold parsePatronStatusResponse, parseCheckoutResponse, parseCheckinResponse,
      parseItemInformationResponse, parseFeePaidResponse, parsePatronInformationResponse,
      parseHoldResponse, parseRenewAllResponse, parseEndSessionResponse,
      parseACSStatusResponse, parseItemStatusUpdateResponse, parsePatronEnableResponse;
    change (js "24") with [50; 52]; change (js "12") with [49; 50];
    change (js "30") with [51; 48]; change (js "10") with [49; 48];
    change (js "18") with [49; 56]; change (js "38") with [51; 56];
    change (js "64") with [54; 52]; change (js "16") with [49; 54];
    change (js "66") with [54; 54]; change (js "36") with [51; 54];
    change (js "98") with [57; 56]; change (js "20") with [50; 48];
    change (js "26") with [50; 54];
    rewrite !startsWith_code;
    repeat match goal with
           | |- context [bool_decide ?P] => destruct (bool_decide P)
           end;
    cbn [negb andb orb fmap outcome_fmap]; eexists; reflexivity.
Qed.

(** ** C9 *)

(** C9, as stated with one expected code per parser, fails: the checkout
    parser is documented for the checkout response [12], and a renew
    response, whose first two characters [30] differ from [12], is parsed
    into a record. *)
Lemma parser_single_code_counterexample :
  substring RENEW_RAW 0 2 <> documented_code PCheckout
  /\ exists r, run_parser PCheckout RENEW_RAW = Returned r.
Proof.
  split; [vm_compute; discriminate|].
  pose proof (run_parser_code PCheckout RENEW_RAW) as H.
  replace (bool_decide (substring RENEW_RAW 0 2 ∈ accepted_codes PCheckout)) with true in H
    by (vm_compute; reflexivity).
  exact H.
Qed.

(** C9, amended.  Each parser raises [UnexpectedResponseCode] exactly on
    the inputs whose first two characters are none of the codes it accepts,
    and raises nothing else; the checkout parser accepts [12] and [30], every
    other parser the one code of its response. *)
Theorem parser_code_check (p : ResponseParser) (raw : jsstring) :
  (substring raw 0 2 ∈ accepted_codes p -> exists r, run_parser p raw = Returned r)
  /\ (substring raw 0 2 ∉ accepted_codes p ->
      exists expected,
        run_parser p raw = Thrown (UnexpectedResponseCode expected (substring raw 0 2)))
  /\ (forall e, run_parser p raw = Thrown e ->
      (substring raw 0 2 ∉ accepted_codes p)
      /\ exists expected, e = UnexpectedResponseCode expected (substring raw 0 2)).
Proof.
  pose proof (run_parser_code p raw) as H.
  destruct (bool_decide_reflect (substring raw 0 2 ∈ accepted_codes p)) as [Hin|Hout].
  - destruct H as [r Hr]. split; [eauto|]. split; [contradiction|].
    intros e He. congruence.
  - destruct H as [expected Hx]. split; [contradiction|]. split; [eauto|].
    intros e He. split; [exact Hout|]. exists expected. congruence.
Qed.

Lemma parser_code_check_witness :
  (exists r, run_parser PCheckout RENEW_RAW = Returned r)
  /\ (exists expected,
        run_parser PFeePaid RENEW_RAW
        = Thrown (UnexpectedResponseCode expected (js "30"))).
Proof.
  split.
  - apply (parser_code_check PCheckout RENEW_RAW).
    apply (bool_decide_eq_true_1 (substring RENEW_RAW 0 2 ∈ accepted_codes PCheckout)).
    vm_compute. reflexivity.
  - apply (parser_code_check PFeePaid RENEW_RAW).
    intros Hin.
    apply (bool_decide_eq_true_2 (substring RENEW_RAW 0 2 ∈ accepted_codes PFeePaid)) in Hin.
    vm_compute in Hin. discriminate.
Defined.

(** ** Parsers: extensions *)

Lemma parseExtensions_fold (knownTags : gset jsstring) (all : gmap jsstring jsstring) :
  forall tag v,
    map_fold (parseExtensions_entry knownTags) ∅ all !! tag = Some v
    <-> all !! tag = Some v /\ vendor_tag knownTags tag.
Proof.
  apply (map_fold_weak_ind (fun ext (all : gmap jsstring jsstring) =>
    forall tag v, ext !! tag = Some v <-> all !! tag = Some v /\ vendor_tag knownTags tag)).
  - intros tag v. rewrite !lookup_empty. split; [discriminate|intros [? _]; discriminate].
  - intros i x m ext Hi IH tag v.
    assert (Hentry : parseExtensions_entry knownTags i x ext
                     = if decide (vendor_tag knownTags i) then <[i := x]> ext else ext).
    { unfold parseExtensions_entry, vendor_tag.
      destruct (bool_decide_reflect (i = js "AY")), (bool_decide_reflect (i = js "AZ")),
        (bool_decide_reflect (i ∈ knownTags)); cbn [orb];
        destruct (decide _) as [Hd|Hd]; try reflexivity; tauto. }
    rewrite Hentry.
    destruct (decide (vendor_tag knownTags i)) as [Hv|Hv]; destruct (decide (i = tag)) as [<-|Hne].
    + rewrite !lookup_insert_eq. tauto.
    + rewrite !lookup_insert_ne by exact Hne. apply IH.
    + rewrite lookup_insert_eq, IH, Hi. split; [intros [? _]; discriminate|tauto].
    + rewrite lookup_insert_ne by exact Hne. apply IH.
Qed.

Lemma parseExtensions_spec (raw : jsstring) (knownTags : gset jsstring) :
  match parseExtensions raw knownTags with
  | Some ext =>
      ext <> ∅
      /\ forall tag v, ext !! tag = Some v
                       <-> parseFields raw !! tag = Some v /\ vendor_tag knownTags tag
  | None => forall tag v, parseFields raw !! tag = Some v -> ~ vendor_tag knownTags tag
  end.
Proof.
  unfold parseExtensions. cbv zeta.
  pose proof (parseExtensions_fold knownTags (parseFields raw)) as H.
  destruct (bool_decide_reflect
              (map_fold (parseExtensions_entry knownTags) ∅ (parseFields raw) = ∅)) as [E|E].
  - intros tag v Hv Hvt. rewrite E in H.
    specialize (H tag v). rewrite lookup_empty in H. destruct H as [_ H].
    specialize (H (conj Hv Hvt)). discriminate.
  - split; [exact E|exact H].
Qed.

Lemma run_parser_extensions p raw r :
  run_parser p raw = Returned r ->
  response_extensions r = parseExtensions raw (known_tags p).
Proof.
  destruct p; cbn [run_parser known_tags];
    unfold parsePatronStatusResponse, parseCheckoutResponse, parseCheckinResponse,
      parseItemInformationResponse, parseFeePaidResponse, parsePatronInformationResponse,
      parseHoldResponse, parseRenewAllResponse, parseEndSessionResponse,
      parseACSStatusResponse, parseItemStatusUpdateResponse, parsePatronEnableResponse;
    match goal with
    | |- context [if ?c then Thrown _ else _] => destruct c
    end;
    cbn [fmap outcome_fmap]; intros H; try discriminate;
    apply Returned_inj in H; subst r; reflexivity.
Qed.

(** *** What [parseFields] finds *)

Lemma parseFields_part_preserves (threshold i : nat) (part : jsstring)
    (fields : gmap jsstring jsstring) (tag : jsstring) :
  is_Some (fields !! tag) -> is_Some (parseFields_part threshold i part fields !! tag).
Proof.
  unfold parseFields_part. destruct (i =? 0)%nat.
  - generalize (tag_matches part). intros ms. revert fields.
    induction ms as [|[[index t] value] ms IH]; intros fields H; cbn [fold_left]; [exact H|].
    apply IH. destruct (threshold <=? index)%nat; [|exact H].
    rewrite lookup_insert. destruct (decide (t = tag)); [eauto|exact H].
  - intros H. cbv zeta. destruct (is_tag _); [|exact H].
    rewrite lookup_insert. destruct (decide _); [eauto|exact H].
Qed.

Lemma for_parts_preserves (threshold : nat) (parts : list jsstring) :
  forall (i : nat) (fields : gmap jsstring jsstring) (tag : jsstring),
  is_Some (fields !! tag) ->
  is_Some (for_parts (parseFields_part threshold) i parts fields !! tag).
Proof.
  induction parts as [|part parts IH]; intros i fields tag H; cbn [for_parts]; [exact H|].
  apply IH, parseFields_part_preserves, H.
Qed.

Lemma for_parts_segment (threshold : nat) (parts : list jsstring) :
  forall (k i : nat) (part : jsstring) (fields : gmap jsstring jsstring),
  parts !! i = Some part -> (0 < k + i)%nat ->
  is_tag (substring part 0 2) = true ->
  is_Some (for_parts (parseFields_part threshold) k parts fields !! substring part 0 2).
Proof.
  induction parts as [|p parts IH]; intros k i part fields Hp Hk Ht; [discriminate|].
  cbn [for_parts]. destruct i as [|i]; simpl in Hp.
  - injection Hp as ->. apply for_parts_preserves.
    unfold parseFields_part. destruct (k =? 0)%nat eqn:E; [apply Nat.eqb_eq in E; lia|].
    cbv zeta. rewrite Ht. rewrite lookup_insert_eq. eauto.
  - apply (IH (S k) i part); [exact Hp|lia|exact Ht].
Qed.

Lemma parseFields_segment (raw : jsstring) (i : nat) (part : jsstring) :
  split_on 124 raw !! i = Some part -> (0 < i)%nat ->
  is_tag (substring part 0 2) = true ->
  is_Some (parseFields raw !! substring part 0 2).
Proof.
  intros Hp Hi Ht. unfold parseFields. cbv zeta.
  assert (H : is_Some (for_parts
                (parseFields_part
                   (default 15%nat
                      (fixedFieldLengths !! substring (default [] (head (split_on 124 raw))) 0 2)))
                0 (split_on 124 raw) ∅ !! substring part 0 2)).
  { apply (for_parts_segment _ _ 0%nat i part); [exact Hp|lia|exact Ht]. }
  destruct (regex_search ayaz_at 0 raw) as [[? digit]|]; [|exact H].
  rewrite lookup_insert. destruct (decide _); [eauto|exact H].
Qed.

(** ** C5 *)

(** C5. In the record a parser returns, [extensions] holds no tag of the
    known set of that parser and neither [AY] nor [AZ]; every other tag found
    in the variable fields of the frame is in [extensions] with its value, and
    nothing else is, so that every field after the first [|] that starts
    with two upper-case letters, unknown and not of the trailer, has its tag in
    [extensions]; [extensions] is [undefined] exactly when no such tag was
    found, and so is never an empty map. *)
Theorem extensions_spec (p : ResponseParser) (raw : jsstring) (r : Response) :
  run_parser p raw = Returned r ->
  (forall ext tag,
     response_extensions r = Some ext ->
     tag ∈ known_tags p \/ tag = js "AY" \/ tag = js "AZ" -> ext !! tag = None)
  /\ (forall tag v,
        parseFields raw !! tag = Some v ->
        tag ∉ known_tags p -> tag <> js "AY" -> tag <> js "AZ" ->
        exists ext, response_extensions r = Some ext /\ ext !! tag = Some v)
  /\ (forall ext tag v,
        response_extensions r = Some ext -> ext !! tag = Some v ->
        parseFields raw !! tag = Some v)
  /\ (forall i part,
        split_on 124 raw !! i = Some part -> (0 < i)%nat ->
        is_tag (substring part 0 2) = true ->
        substring part 0 2 ∉ known_tags p ->
        substring part 0 2 <> js "AY" -> substring part 0 2 <> js "AZ" ->
        exists ext, response_extensions r = Some ext
                    /\ is_Some (ext !! substring part 0 2))
  /\ response_extensions r <> Some ∅
  /\ (response_extensions r = None
      <-> forall tag, is_Some (parseFields raw !! tag) ->
                      tag ∈ known_tags p \/ tag = js "AY" \/ tag = js "AZ").
Proof.
  intros Hr. rewrite (run_parser_extensions p raw r Hr).
  pose proof (parseExtensions_spec raw (known_tags p)) as H.
  assert (Hseg : forall i part,
    split_on 124 raw !! i = Some part -> (0 < i)%nat ->
    is_tag (substring part 0 2) = true ->
    exists v, parseFields raw !! substring part 0 2 = Some v).
  { intros i part Hp Hi Ht. exact (parseFields_segment raw i part Hp Hi Ht). }
  destruct (parseExtensions raw (known_tags p)) as [ext|].
  - destruct H as [Hne H]. split; [|split; [|split; [|split; [|split]]]].
    + intros ext' tag [= <-] Hk. apply eq_None_not_Some. intros [v Hv].
      apply H in Hv as (_ & Hy & Hz & Hn). tauto.
    + intros tag v Hv Hk Hy Hz. exists ext. split; [reflexivity|].
      apply H. unfold vendor_tag. tauto.
    + intros ext' tag v [= <-] Hv. apply H in Hv. tauto.
    + intros i part Hp Hi Ht Hk Hy Hz. destruct (Hseg i part Hp Hi Ht) as [v Hv].
      exists ext. split; [reflexivity|]. exists v. apply H. unfold vendor_tag. tauto.
    + congruence.
    + split; [discriminate|]. intros Hall. exfalso. apply Hne.
      apply map_empty. intros tag. apply eq_None_not_Some. intros [v Hv].
      apply H in Hv as (Hv & Hy & Hz & Hn).
      destruct (Hall tag) as [?|[?|?]]; [eauto|tauto..].
  - split; [|split; [|split; [|split; [|split]]]]; try discriminate.
    + intros tag v Hv Hk Hy Hz. exfalso. apply (H tag v Hv). unfold vendor_tag. tauto.
    + intros i part Hp Hi Ht Hk Hy Hz. destruct (Hseg i part Hp Hi Ht) as [v Hv].
      exfalso. apply (H _ v Hv). unfold vendor_tag. tauto.
    + split; [|reflexivity]. intros _ tag [v Hv].
      pose proof (H tag v Hv) as Hn. unfold vendor_tag in Hn.
      destruct (decide (tag ∈ known_tags p)); [tauto|].
      destruct (decide (tag = js "AY")); [tauto|].
      destruct (decide (tag = js "AZ")); [tauto|]. tauto.
Qed.

Lemma extensions_spec_witness :
  exists r ext,
    run_parser PPatronStatus VENDOR_EXT_RAW = Returned r
    /\ response_extensions r = Some ext
    /\ ext !! js "XA" = Some (js "foo") /\ ext !! js "XB" = Some (js "bar")
    /\ ext !! js "AA" = None /\ ext !! js "AY" = None.
Proof.
  pose proof (run_parser_code PPatronStatus VENDOR_EXT_RAW) as Hcode.
  replace (bool_decide (substring VENDOR_EXT_RAW 0 2 ∈ accepted_codes PPatronStatus))
    with true in Hcode by (vm_compute; reflexivity).
  destruct Hcode as [r Hr].
  destruct (extensions_spec PPatronStatus VENDOR_EXT_RAW r Hr) as (H1 & H2 & _).
  destruct (H2 (js "XA") (js "foo")) as (ext & He & Ha);
    [vm_compute; reflexivity|apply (bool_decide_eq_false_1 (js "XA" ∈ known_tags PPatronStatus));
     vm_compute; reflexivity|discriminate|discriminate|].
  destruct (H2 (js "XB") (js "bar")) as (ext' & He' & Hb);
    [vm_compute; reflexivity|apply (bool_decide_eq_false_1 (js "XB" ∈ known_tags PPatronStatus));
     vm_compute; reflexivity|discriminate|discriminate|].
  assert (ext' = ext) by congruence. subst ext'.
  exists r, ext. split; [exact Hr|]. split; [exact He|]. split; [exact Ha|]. split; [exact Hb|].
  split; apply (H1 ext _ He).
  - left. apply (bool_decide_eq_true_1 (js "AA" ∈ known_tags PPatronStatus)).
    vm_compute. reflexivity.
  - right. left. reflexivity.
Defined.

(** ** Parsers: the fields found come from the frame *)

Lemma occurs_in_app_r (tag s before : jsstring) :
  occurs_in tag s -> occurs_in tag (before ++ s).
Proof.
  intros (p & q & ->). exists (before ++ p), q. rewrite <- app_assoc. reflexivity.
Qed.

Lemma occurs_in_app_l (tag s after : jsstring) :
  occurs_in tag s -> occurs_in tag (s ++ after).
Proof.
  intros (p & q & ->). exists p, (q ++ after). rewrite <- !app_assoc. reflexivity.
Qed.

Lemma join_with_cons sep (a b : jsstring) (l : list jsstring) :
  join_with sep (a :: b :: l) = (a ++ [sep]) ++ join_with sep (b :: l).
Proof. rewrite <- app_assoc. reflexivity. Qed.

Lemma split_on_join sep (raw : jsstring) :
  split_on sep raw <> [] /\ join_with sep (split_on sep raw) = raw.
Proof.
  induction raw as [|c raw [IHn IHj]]; cbn [split_on]; [split; [discriminate|reflexivity]|].
  destruct (c =? sep) eqn:E.
  - apply N.eqb_eq in E. subst c. split; [discriminate|].
    destruct (split_on sep raw) as [|first parts]; [congruence|].
    rewrite join_with_cons, IHj. reflexivity.
  - destruct (split_on sep raw) as [|first parts]; [congruence|].
    split; [discriminate|]. destruct parts as [|second parts].
    + cbn [join_with] in *. congruence.
    + rewrite join_with_cons in *. rewrite <- IHj. reflexivity.
Qed.

Lemma join_with_occurs sep (parts : list jsstring) (part : jsstring) :
  part ∈ parts -> occurs_in part (join_with sep parts).
Proof.
  induction parts as [|first parts IH]; intros Hin; [inversion Hin|].
  apply elem_of_cons in Hin as [->|Hin].
  - destruct parts as [|second parts].
    + exists [], []. rewrite app_nil_r. reflexivity.
    + rewrite join_with_cons. exists [], ([sep] ++ join_with sep (second :: parts)).
      rewrite <- app_assoc. reflexivity.
  - specialize (IH Hin). destruct parts as [|second parts]; [inversion Hin|].
    rewrite join_with_cons. apply occurs_in_app_r, IH.
Qed.

Lemma split_on_occurs sep (raw part : jsstring) :
  part ∈ split_on sep raw -> occurs_in part raw.
Proof.
  intros Hin. destruct (split_on_join sep raw) as [_ Hj].
  pose proof (join_with_occurs sep _ part Hin) as H. rewrite Hj in H. exact H.
Qed.

Lemma occurs_in_trans (tag part raw : jsstring) :
  occurs_in tag part -> occurs_in part raw -> occurs_in tag raw.
Proof.
  intros Ht (p & q & ->). apply occurs_in_app_r, occurs_in_app_l, Ht.
Qed.

Lemma lazy_value_split s : forall v rest, lazy_value s = Some (v, rest) -> s = v ++ rest.
Proof.
  induction s as [|c s IH]; intros v rest H.
  - cbn in H. injection H as <- <-. reflexivity.
  - cbn [lazy_value] in H. destruct (starts_tag (c :: s)).
    + injection H as <- <-. reflexivity.
    + destruct (c =? 124); [discriminate|].
      destruct (lazy_value s) as [[v1 rest1]|]; [|discriminate].
      injection H as <- <-. rewrite (IH v1 rest1 eq_refl). reflexivity.
Qed.

Lemma tag_at_split s tag v rest :
  tag_at s = Some (tag, v, rest) ->
  s = tag ++ v ++ rest /\ is_tag tag = true.
Proof.
  unfold tag_at. destruct s as [|a [|b s]]; try discriminate.
  destruct (class_matches class_upper a && class_matches class_upper b) eqn:E; [|discriminate].
  destruct (lazy_value s) as [[v1 rest1]|] eqn:El; [|discriminate].
  intros [= <- <- <-]. apply lazy_value_split in El. subst s.
  split; [reflexivity|exact E].
Qed.

Lemma tag_exec_all_occurs fuel : forall lastIndex s index tag v,
  (index, tag, v) ∈ tag_exec_all fuel lastIndex s ->
  occurs_in tag s /\ is_tag tag = true.
Proof.
  induction fuel as [|fuel IH]; intros lastIndex s index tag v Hin; [inversion Hin|].
  cbn [tag_exec_all] in Hin.
  destruct (regex_search tag_at lastIndex s) as [[i [[t value] rest]]|] eqn:E; [|inversion Hin].
  apply regex_search_Some in E as (p & u & -> & Hat & _).
  apply tag_at_split in Hat as [-> Htag].
  apply elem_of_cons in Hin as [[= -> -> ->]|Hin].
  - split; [|exact Htag]. exists p, (value ++ rest). reflexivity.
  - apply IH in Hin as [Ho Ht]. split; [|exact Ht].
    apply occurs_in_app_r, occurs_in_app_r, occurs_in_app_r, Ho.
Qed.

Lemma keys_occur_insert {V} (raw : jsstring) (fields : gmap jsstring V) (tag : jsstring) (v : V) :
  occurs_in tag raw -> is_tag tag = true ->
  keys_occur raw fields -> keys_occur raw (<[tag := v]> fields).
Proof.
  intros Ho Ht Hk key. rewrite lookup_insert.
  destruct (decide (tag = key)) as [<-|_]; [intros _; split; assumption|apply Hk].
Qed.

Lemma is_tag_prefix (part : jsstring) :
  is_tag (substring part 0 2) = true -> occurs_in (substring part 0 2) part.
Proof.
  rewrite substring_0. intros _. exists [], (drop 2 part). cbn [app].
  symmetry. apply take_drop.
Qed.

Lemma for_parts_keys {V} (raw : jsstring) (body : nat -> jsstring -> gmap jsstring V -> gmap jsstring V) :
  (forall i part fields,
     occurs_in part raw -> keys_occur raw fields -> keys_occur raw (body i part fields)) ->
  forall (parts : list jsstring) i fields,
    (forall part, part ∈ parts -> occurs_in part raw) ->
    keys_occur raw fields -> keys_occur raw (for_parts body i parts fields).
Proof.
  intros Hbody parts. induction parts as [|part parts IH]; intros i fields Hparts Hk;
    cbn [for_parts]; [exact Hk|].
  apply IH; [intros q Hq; apply Hparts; right; exact Hq|].
  apply Hbody; [apply Hparts; left|exact Hk].
Qed.

Lemma fold_matches_keys {V} (raw part : jsstring) (threshold : nat)
    (put : jsstring -> jsstring -> gmap jsstring V -> gmap jsstring V) :
  (forall tag value fields,
     occurs_in tag raw -> is_tag tag = true ->
     keys_occur raw fields -> keys_occur raw (put tag value fields)) ->
  occurs_in part raw ->
  forall (ms : list (nat * jsstring * jsstring)) fields,
    (forall m, m ∈ ms -> m ∈ tag_matches part) ->
    keys_occur raw fields ->
    keys_occur raw
      (fold_left (fun fields m =>
                    match m with
                    | (index, tag, value) =>
                        if (threshold <=? index)%nat then put tag value fields else fields
                    end) ms fields).
Proof.
  intros Hput Hpart ms. induction ms as [|[[index tag] value] ms IH]; intros fields Hms Hk;
    cbn [fold_left]; [exact Hk|].
  apply IH; [intros m Hm; apply Hms; right; exact Hm|].
  destruct (threshold <=? index)%nat; [|exact Hk].
  assert (Hin : (index, tag, value) ∈ tag_matches part) by (apply Hms; left).
  apply tag_exec_all_occurs in Hin as [Ho Ht].
  apply Hput; [exact (occurs_in_trans _ _ _ Ho Hpart)|exact Ht|exact Hk].
Qed.

Lemma parseFields_keys (raw : jsstring) : keys_occur raw (parseFields raw).
Proof.
  unfold parseFields. cbv zeta.
  set (threshold := default 15%nat _).
  assert (H : keys_occur raw (for_parts (parseFields_part threshold) 0 (split_on 124 raw) ∅)).
  { apply for_parts_keys.
    - intros i part fields Hpart Hk. unfold parseFields_part. destruct (i =? 0)%nat.
      + apply (fold_matches_keys raw part threshold (fun tag value f => <[tag := value]> f));
          [intros; apply keys_occur_insert; assumption|exact Hpart|auto|exact Hk].
      + cbv zeta. destruct (is_tag (substring part 0 2)) eqn:Et; [|exact Hk].
        apply keys_occur_insert; [|exact Et|exact Hk].
        exact (occurs_in_trans _ _ _ (is_tag_prefix part Et) Hpart).
    - intros part. apply split_on_occurs.
    - intros tag. rewrite lookup_empty. intros [? ?]. discriminate. }
  destruct (regex_search ayaz_at 0 raw) as [[j digit]|] eqn:E; [|exact H].
  apply keys_occur_insert; [|reflexivity|exact H].
  apply regex_search_Some in E as (p & t & -> & Ht & _).
  unfold ayaz_at in Ht. destruct t as [|a [|y [|d [|a' [|z t]]]]]; try discriminate.
  destruct (_ && _) eqn:Ec; [|discriminate].
  repeat (apply andb_prop in Ec as [Ec ?]).
  repeat match goal with H : (_ =? _) = true |- _ => apply N.eqb_eq in H end. subst.
  exists p, (d :: 65 :: 90 :: t). reflexivity.
Qed.

Lemma same_keys_insert f g (tag value : jsstring) :
  same_keys f g -> same_keys (<[tag := value]> f) (push_field tag value g).
Proof.
  intros H key. unfold push_field. rewrite !lookup_insert.
  destruct (decide (tag = key)); [split; eauto|apply H].
Qed.

Lemma parts_same_keys threshold (parts : list jsstring) : forall i f g,
  same_keys f g ->
  same_keys (for_parts (parseFields_part threshold) i parts f)
            (for_parts (parseFieldsMulti_part threshold) i parts g).
Proof.
  induction parts as [|part parts IH]; intros i f g H; cbn [for_parts]; [exact H|].
  apply IH. unfold parseFields_part, parseFieldsMulti_part. destruct (i =? 0)%nat.
  - generalize (tag_matches part). intros ms. revert f g H.
    induction ms as [|[[index tag] value] ms IHm]; intros f g H; cbn [fold_left]; [exact H|].
    apply IHm. destruct (threshold <=? index)%nat; [apply same_keys_insert|]; exact H.
  - cbv zeta. destruct (is_tag _); [apply same_keys_insert|]; exact H.
Qed.

Lemma parseFieldsMulti_absent (raw tag : jsstring) :
  parseFields raw !! tag = None -> parseFieldsMulti raw !! tag = None.
Proof.
  unfold parseFields, parseFieldsMulti. cbv zeta.
  set (threshold := default 15%nat _).
  assert (H0 : same_keys ∅ ∅).
  { intros key. rewrite !lookup_empty. split; intros [? ?]; discriminate. }
  pose proof (parts_same_keys threshold (split_on 124 raw) 0 ∅ ∅ H0) as H.
  intros Hnone. apply eq_None_not_Some. intros Hsome. apply H in Hsome.
  destruct (regex_search ayaz_at 0 raw) as [[j digit]|].
  - rewrite lookup_insert in Hnone. destruct (decide _); [discriminate|].
    rewrite Hnone in Hsome. destruct Hsome. discriminate.
  - rewrite Hnone in Hsome. destruct Hsome. discriminate.
Qed.

Lemma parseFields_absent (raw tag : jsstring) :
  ~ occurs_in tag raw -> parseFields raw !! tag = None.
Proof.
  intros Hn. apply eq_None_not_Some. intros Hs.
  apply parseFields_keys in Hs as [Ho _]. contradiction.
Qed.

(** ** Parsers: defaults *)

Lemma or_str_absent (fields : gmap jsstring jsstring) tag d :
  fields !! js tag = None -> or_str (field fields tag) d = d.
Proof. unfold field. intros ->. reflexivity. Qed.

Lemma count_absent (fields : gmap jsstring jsstring) tag :
  fields !! js tag = None -> parseInt (or_str (field fields tag) (js "0")) = Num 0.
Proof. unfold field. intros ->. reflexivity. Qed.

Lemma valid_absent (fields : gmap jsstring jsstring) :
  fields !! js "BL" = None ->
  bool_decide (or_str (field fields "BL") (js "N") = js "Y") = false.
Proof. unfold field. intros ->. reflexivity. Qed.

Lemma field_absent (fields : gmap jsstring jsstring) tag :
  fields !! js tag = None -> field fields tag = None.
Proof. unfold field. intros ->. reflexivity. Qed.

Lemma field_list_absent (raw : jsstring) tag :
  absent raw tag -> field_list (parseFieldsMulti raw) tag = [].
Proof.
  unfold absent, field_list. intros H. apply parseFieldsMulti_absent in H. rewrite H. reflexivity.
Qed.

Lemma char_at_short (raw : jsstring) i : short raw i -> char_at raw i = None.
Proof. unfold short, char_at. intros H. rewrite lookup_ge_None_2 by exact H. reflexivity. Qed.

Lemma str_is_short (raw : jsstring) i x : short raw i -> str_is (char_at raw i) x = false.
Proof. intros H. rewrite (char_at_short raw i H). reflexivity. Qed.

Lemma substring_short (raw : jsstring) a b : short raw a -> (a <= b)%nat -> substring raw a b = [].
Proof.
  unfold short, substring. intros Ha Hb.
  rewrite (Nat.min_r a) by lia. rewrite (Nat.min_r b) by lia.
  rewrite Nat.max_id, Nat.min_id, Nat.sub_diag. reflexivity.
Qed.

Lemma trim_substring_short (raw : jsstring) a b :
  short raw a -> (a <= b)%nat -> trim (substring raw a b) = [].
Proof. intros Ha Hb. rewrite substring_short by assumption. reflexivity. Qed.

Lemma parse_count_short (raw : jsstring) a b :
  short raw a -> (a <= b)%nat -> parse_count raw a b = Num 0.
Proof. intros Ha Hb. unfold parse_count. rewrite trim_substring_short by assumption. reflexivity. Qed.

Lemma parse_flags_defaults (raw : jsstring) : flags_defaults raw (parse_flags (substring raw 2 16)).
Proof.
  assert (H : forall i x, short raw (2 + i) -> str_is (char_at (substring raw 2 16) i) x = false).
  { intros i x Hs. apply str_is_short. unfold short in *. unfold substring.
    rewrite length_take, length_drop. lia. }
  unfold flags_defaults, parse_flags. cbn [chargePrivilegesDenied renewalPrivilegesDenied
    recallPrivilegesDenied holdPrivilegesDenied cardReportedLost tooManyItemsOverdue
    excessiveFines].
  repeat split; intros Hs; apply H; exact Hs.
Qed.

Lemma parseExtensions_none (raw : jsstring) (knownTags : gset jsstring) :
  no_vendor_tag raw knownTags -> parseExtensions raw knownTags = None.
Proof.
  intros Hn. pose proof (parseExtensions_spec raw knownTags) as H.
  destruct (parseExtensions raw knownTags) as [ext|]; [|reflexivity].
  destruct H as [Hne H]. exfalso. apply Hne. apply map_empty. intros tag.
  apply eq_None_not_Some. intros [v Hv]. apply H in Hv as [Hv Hvt].
  exact (Hn tag (ex_intro _ v Hv) Hvt).
Qed.

(** One field of a record at its default. *)
Ltac default_field H :=
  first [ exact (or_str_absent _ _ _ H) | exact (count_absent _ _ H)
        | exact (valid_absent _ H) | exact (field_absent _ _ H)
        | exact (field_list_absent _ _ H) | exact (parseExtensions_none _ _ H)
        | exact (str_is_short _ _ _ H) | exact (char_at_short _ _ H)
        | refine (trim_substring_short _ _ _ H _); lia
        | refine (substring_short _ _ _ H _); lia
        | refine (parse_count_short _ _ _ H _); lia ].

Ltac default_fields :=
  unfold absent;
  repeat match goal with |- _ /\ _ => split end;
  try apply parse_flags_defaults;
  let H := fresh "H" in intros H; default_field H.

Lemma run_parser_defaults (p : ResponseParser) (raw : jsstring) (r : Response) :
  run_parser p raw = Returned r -> response_defaults raw r.
Proof.
  destruct p; cbn [run_parser];
    unfold parsePatronStatusResponse, parseCheckoutResponse, parseCheckinResponse,
      parseItemInformationResponse, parseFeePaidResponse, parsePatronInformationResponse,
      parseHoldResponse, parseRenewAllResponse, parseEndSessionResponse,
      parseACSStatusResponse, parseItemStatusUpdateResponse, parsePatronEnableResponse;
    match goal with
    | |- context [if ?c then Thrown _ else _] => destruct c
    end;
    cbn [fmap outcome_fmap]; intros Hr; try discriminate;
    apply Returned_inj in Hr; subst r; cbv zeta; cbn [response_defaults];
    unfold PatronStatus_defaults, Checkout_defaults, Checkin_defaults,
      ItemInformation_defaults, FeePaid_defaults, PatronInformation_defaults,
      Hold_defaults, RenewAll_defaults, EndSession_defaults, ACSStatus_defaults,
      ItemStatusUpdate_defaults;
    default_fields.
Qed.

(** The rounds of [tag_matches] suffice: more fuel finds the same matches. *)
Lemma tag_exec_all_enough fuel : forall fuel' lastIndex s,
  (length s <= fuel)%nat -> (length s <= fuel')%nat ->
  tag_exec_all fuel lastIndex s = tag_exec_all fuel' lastIndex s.
Proof.
  induction fuel as [|fuel IH]; intros fuel' lastIndex s Hf Hf'.
  - destruct s; [|simpl in Hf; lia]. destruct fuel'; reflexivity.
  - destruct fuel' as [|fuel'].
    + destruct s; [reflexivity|simpl in Hf'; lia].
    + cbn [tag_exec_all].
      destruct (regex_search tag_at lastIndex s) as [[i [[tag v] rest]]|] eqn:E; [|reflexivity].
      f_equal. apply regex_search_Some in E as (p & t & -> & Hat & _).
      apply tag_at_split in Hat as [-> Htag].
      destruct tag as [|a [|b [|c tag]]]; try discriminate.
      rewrite !length_app in Hf, Hf'. simpl in Hf, Hf'.
      apply IH; lia.
Qed.

Lemma includes_occurs (tag raw : jsstring) : occurs_in tag raw -> includes raw tag = true.
Proof.
  intros (before & after & ->).
  assert (Hs : forall t s : jsstring, startsWith (t ++ s) t = true).
  { induction t as [|c t IHt]; intros s; [apply startsWith_nil|].
    cbn [app startsWith]. rewrite N.eqb_refl, IHt. reflexivity. }
  induction before as [|c before IH].
  - cbn [app]. destruct (tag ++ after) eqn:E; cbn [includes]; rewrite <- E, Hs; reflexivity.
  - cbn [app includes]. rewrite IH. apply orb_true_r.
Qed.

(** ** C4 *)

(** C4, as stated, fails on the defaults: with no [AE] field the patron
    status parser names the patron ["Unknown"], not [""]; with no [AJ] and no
    [BV] field the checkout parser gives the title ["Unknown Title"] and
    leaves the fee amount [undefined]. *)
Lemma parser_default_counterexample :
  (~ occurs_in (js "AE") (js "24")
   /\ absent (js "24") "AE"
   /\ exists r, parsePatronStatusResponse (js "24") = Returned r
                /\ PatronStatusResponse.patronName r = js "Unknown"
                /\ PatronStatusResponse.patronName r <> [])
  /\ (absent (js "12") "AJ" /\ absent (js "12") "BV"
      /\ exists r, parseCheckoutResponse (js "12") = Returned r
                   /\ CheckoutResponse.titleId r = js "Unknown Title"
                   /\ CheckoutResponse.feeAmount r = None
                   /\ CheckoutResponse.feeAmount r <> Some []).
Proof.
  split; [split; [|split]|split; [|split]].
  - intros H. apply includes_occurs in H. vm_compute in H. discriminate.
  - vm_compute. reflexivity.
  - eexists. split; [vm_compute; reflexivity|]. split; [reflexivity|discriminate].
  - vm_compute. reflexivity.
  - vm_compute. reflexivity.
  - eexists. split; [vm_compute; reflexivity|]. split; [reflexivity|].
    split; [reflexivity|discriminate].
Qed.

(** C4, amended.  On every input whose first two characters are a code
    the parser accepts, each of the twelve parsers returns a record and does
    not raise, whatever follows the code.  A field whose tag is not found (in
    particular when the tag does not occur in the input) or whose position
    lies past the end of the input takes the default of that field: the empty
    string, 0 or [false], the empty list for a list, ["Unknown"] for the
    patron name, ["Unknown Title"] for the title of a checkout, checkin or
    item information record, and [undefined] for an optional field and for
    [extensions]. *)
Theorem parser_total_with_defaults (p : ResponseParser) (raw : jsstring) :
  substring raw 0 2 ∈ accepted_codes p ->
  (exists r, run_parser p raw = Returned r /\ response_defaults raw r)
  /\ (forall tag, ~ occurs_in (js tag) raw -> absent raw tag)
  /\ (forall tag, absent raw tag -> parseFieldsMulti raw !! js tag = None).
Proof.
  intros Hin. split; [|split].
  - pose proof (run_parser_code p raw) as H.
    rewrite bool_decide_eq_true_2 in H by exact Hin.
    destruct H as [r Hr]. exists r. split; [exact Hr|].
    exact (run_parser_defaults p raw r Hr).
  - intros tag. apply parseFields_absent.
  - intros tag. apply parseFieldsMulti_absent.
Qed.

Lemma parser_total_with_defaults_witness :
  exists r, run_parser PPatronStatus (js "24") = Returned (RPatronStatus r)
            /\ PatronStatusResponse.patronBarcode r = []
            /\ PatronStatusResponse.patronName r = js "Unknown"
            /\ PatronStatusResponse.holdItemsCount r = Num 0
            /\ PatronStatusResponse.validPatron r = false
            /\ PatronStatusResponse.extensions r = None.
Proof.
  destruct (parser_total_with_defaults PPatronStatus (js "24")) as ((r & Hr & Hd) & Ha & _).
  { apply (bool_decide_eq_true_1 (substring (js "24") 0 2 ∈ accepted_codes PPatronStatus)).
    vm_compute. reflexivity. }
  assert (Habs : forall tag, includes (js "24") (js tag) = false -> absent (js "24") tag).
  { intros tag Hi. apply Ha. intros Ho. apply includes_occurs in Ho. congruence. }
  destruct r as [r| | | | | | | | | | |r']; cbn [run_parser] in Hr;
    try (destruct (parsePatronStatusResponse (js "24")); discriminate).
  exists r. split; [exact Hr|].
  destruct Hd as (HAA & HAE & HBL & HBZ & _ & _ & _ & _ & _ & _ & Hext).
  split; [apply HAA, Habs; reflexivity|]. split; [apply HAE, Habs; reflexivity|].
  split; [apply HBZ, Habs; reflexivity|]. split; [apply HBL, Habs; reflexivity|].
  apply Hext. intros tag [v Hv]. vm_compute in Hv. discriminate.
Defined.

(** ** Numbers: the digits of [toString] *)

Lemma digits_value_snoc radix ds d :
  digits_value radix (ds ++ [d]) = (digits_value radix ds * radix + d)%Z.
Proof. unfold digits_value. rewrite fold_left_app. reflexivity. Qed.

Lemma radix_digits_spec radix fuel : forall n acc,
  (2 <= radix)%Z -> (0 <= n < 2 ^ Z.of_nat fuel)%Z ->
  exists ds, radix_digits radix fuel n acc = ds ++ acc
             /\ digits_value radix ds = n
             /\ Forall (fun d => (0 <= d < radix)%Z) ds.
Proof.
  induction fuel as [|fuel IH]; intros n acc Hr Hn.
  - exists []. simpl in *. split; [reflexivity|]. split; [unfold digits_value; simpl; lia|].
    apply Forall_nil_2.
  - cbn [radix_digits].
    assert (Hd : (0 <= n mod radix < radix)%Z) by (apply Z.mod_pos_bound; lia).
    destruct (n / radix =? 0)%Z eqn:E.
    + apply Z.eqb_eq in E. exists [(n mod radix)%Z]. split; [reflexivity|].
      split; [|apply Forall_cons_2; [exact Hd|apply Forall_nil_2]].
      unfold digits_value. simpl. apply Z.mod_small.
      apply Z.div_small_iff in E; lia.
    + rewrite Nat2Z.inj_succ, Z.pow_succ_r in Hn by lia.
      destruct (IH (n / radix)%Z ((n mod radix)%Z :: acc) Hr) as (ds & Hds & Hv & Hf).
      { split; [apply Z.div_pos; lia|].
        apply Z.div_lt_upper_bound; [lia|]. nia. }
      exists (ds ++ [(n mod radix)%Z]). rewrite Hds, <- app_assoc. split; [reflexivity|].
      split.
      * rewrite digits_value_snoc, Hv. pose proof (Z.div_mod n radix). lia.
      * apply Forall_app. split; [exact Hf|]. apply Forall_cons_2; [exact Hd|apply Forall_nil_2].
Qed.

(** The fuel [Number_toString] gives is enough: the digits it renders are
    those of the magnitude of its argument. *)
Lemma Number_toString_digits radix n :
  (2 <= radix)%Z ->
  exists ds, radix_digits radix (S (Z.to_nat (Z.log2 (Z.abs n)))) (Z.abs n) [] = ds
             /\ digits_value radix ds = Z.abs n
             /\ Forall (fun d => (0 <= d < radix)%Z) ds.
Proof.
  intros Hr.
  destruct (radix_digits_spec radix (S (Z.to_nat (Z.log2 (Z.abs n)))) (Z.abs n) [] Hr)
    as (ds & Hds & Hv & Hf).
  - split; [lia|]. rewrite Nat2Z.inj_succ, Z2Nat.id by apply Z.log2_nonneg.
    destruct (Z.eq_dec (Z.abs n) 0%Z) as [->|Hne]; [simpl; lia|].
    apply Z.log2_spec. lia.
  - exists ds. rewrite Hds, app_nil_r. auto.
Qed.

(** ** The repository's tests, replayed on the model *)

Example test_checksum_known_value :
  calculateChecksum (js "9300CNadmin|COpassword|CPMainLib|AY0AZ") = js "F28D"
  /\ verifyChecksum (js "9300CNadmin|COpassword|CPMainLib|AY0AZF28D" ++ [CR]) = Returned true.
Proof. split; vm_compute; reflexivity. Qed.

Example test_checksum_corruption :
  verifyChecksum (js "9300CNadmin|COPassword|CPMainLib|AY0AZF28D" ++ [CR]) = Returned false.
Proof. vm_compute. reflexivity. Qed.

Example test_append_sequence_number :
  appendChecksum (js "2300120260221    120000AOInstitution|AA123|AC|") 5
  = Returned (js "2300120260221    120000AOInstitution|AA123|AC|AY5AZF224" ++ [CR]).
Proof. vm_compute. reflexivity. Qed.

Example test_sanitize :
  sanitizeSipField (js "ABC|DEF") = js "ABCDEF"
  /\ sanitizeSipField (js "EVIL|AOfakeInst" ++ [CR]) = js "EVILAOfakeInst"
  /\ sanitizeSipField ([124; CR; LF; 0; 1; 31]) = [].
Proof. repeat split; vm_compute; reflexivity. Qed.

Example test_patron_status_fixture :
  exists r, parsePatronStatusResponse PATRON_STATUS_RAW = Returned r
    /\ PatronStatusResponse.patronBarcode r = js "Soph12345"
    /\ PatronStatusResponse.patronName r = js "Jane Smith"
    /\ PatronStatusResponse.validPatron r = true
    /\ PatronStatusResponse.holdItemsCount r = Num 2
    /\ PatronStatusResponse.overdueItemsCount r = Num 1
    /\ PatronStatusResponse.chargedItemsCount r = Num 0
    /\ PatronStatusResponse.extensions r = None.
Proof. eexists. split; [vm_compute; reflexivity|]. repeat split. Qed.

Example test_multiple_screen_messages :
  parseFieldsMulti MULTI_AF_RAW !! js "AF" = Some [js "First msg"; js "Second msg"].
Proof. vm_compute. reflexivity. Qed.

Example test_renew_all_fixture :
  exists r, parseRenewAllResponse RENEW_ALL_RAW = Returned r
    /\ RenewAllResponse.ok r = true
    /\ RenewAllResponse.renewedCount r = Num 2
    /\ RenewAllResponse.unrenewedCount r = Num 2
    /\ RenewAllResponse.renewedItems r = [js "ITEM001"; js "ITEM002"]
    /\ RenewAllResponse.unrenewedItems r = [js "ITEM003"; js "ITEM004"].
Proof. eexists. split; [vm_compute; reflexivity|]. repeat split. Qed.

Example test_parseFields_minimal :
  parseFields [] = ∅ /\ parseFields (js "24") = ∅.
Proof. split; vm_compute; reflexivity. Qed.

(** * Further properties *)

(** ** Checksum codec: corruption *)

Lemma hex_upper_inj d e :
  (0 <= d < 16)%Z -> (0 <= e < 16)%Z -> hex_upper d = hex_upper e -> d = e.
Proof.
  intros Hd He. unfold hex_upper.
  destruct (d <? 10)%Z eqn:Ed, (e <? 10)%Z eqn:Ee;
    rewrite ?Z.ltb_lt, ?Z.ltb_ge in *; intros H; apply (f_equal Z.of_N) in H;
    rewrite !Z2N.id in H by lia; lia.
Qed.

Lemma hex4_inj v w :
  (0 <= v < 65536)%Z -> (0 <= w < 65536)%Z -> hex4 v = hex4 w -> v = w.
Proof.
  intros Hv Hw. unfold hex4. intros [= H1 H2 H3 H4].
  apply hex_upper_inj in H1; [|Z.div_mod_to_equations; lia..].
  apply hex_upper_inj in H2; [|apply Z.mod_pos_bound; lia..].
  apply hex_upper_inj in H3; [|apply Z.mod_pos_bound; lia..].
  apply hex_upper_inj in H4; [|apply Z.mod_pos_bound; lia..].
  Z.div_mod_to_equations. lia.
Qed.

(** Two messages have the same checksum exactly when their character codes
    have the same sum modulo 65536. *)
Lemma calculateChecksum_eq_iff a b :
  calculateChecksum a = calculateChecksum b
  <-> (sum_of_codes a mod 65536 = sum_of_codes b mod 65536)%Z.
Proof.
  rewrite !calculateChecksum_hex4. split.
  - intros H. apply hex4_inj in H; [|apply Z.mod_pos_bound; lia..].
    Z.div_mod_to_equations. lia.
  - intros H. f_equal. Z.div_mod_to_equations. lia.
Qed.

Lemma sum_of_codes_app a b : sum_of_codes (a ++ b) = (sum_of_codes a + sum_of_codes b)%Z.
Proof.
  unfold sum_of_codes. induction a as [|c a IH]; simpl; [reflexivity|].
  rewrite IH. lia.
Qed.

Lemma sum_of_codes_cons c a : sum_of_codes (c :: a) = (Z.of_N c + sum_of_codes a)%Z.
Proof. reflexivity. Qed.

(** The frame [appendChecksum] returns, in its parts. *)
Lemma appendChecksum_Returned message seqNum frame :
  appendChecksum message seqNum = Returned frame ->
  exists seqStr,
    frame = message ++ js "AY" ++ seqStr ++ js "AZ"
            ++ calculateChecksum (message ++ js "AY" ++ seqStr ++ js "AZ") ++ [CR]
    /\ seqStr = substring (Number_toString 10 seqNum) 0 1.
Proof.
  unfold appendChecksum. destruct (9 <? seqNum)%Z; [discriminate|].
  cbv zeta. intros H. apply Returned_inj in H. subst frame.
  eexists. split; [|reflexivity]. rewrite <- !app_assoc. reflexivity.
Qed.

Lemma drop_middle (pre rest : jsstring) (c : N) :
  drop (S (length pre)) (pre ++ c :: rest) = rest.
Proof.
  rewrite cons_middle, app_assoc. apply drop_app_length'.
  rewrite length_app. simpl. lia.
Qed.

(** X1. A frame made by [appendChecksum] in which one code unit of the
    message has been replaced by a different one no longer verifies. *)
Theorem verifyChecksum_detects_corruption (pre post : jsstring) (c c' : N) (seqNum : Z)
    (frame : jsstring) :
  appendChecksum (pre ++ c :: post) seqNum = Returned frame ->
  code_unit c -> code_unit c' -> c <> c' ->
  verifyChecksum (pre ++ c' :: drop (S (length pre)) frame) = Returned false.
Proof.
  intros Hf Hc Hc' Hne. unfold code_unit in *.
  apply appendChecksum_Returned in Hf as (seqStr & -> & _).
  set (cs := calculateChecksum ((pre ++ c :: post) ++ js "AY" ++ seqStr ++ js "AZ")).
  rewrite <- (app_assoc pre), <- app_comm_cons, drop_middle.
  destruct (calculateChecksum_facts ((pre ++ c :: post) ++ js "AY" ++ seqStr ++ js "AZ"))
    as (Hlen & Hhex & Hup). fold cs in Hlen, Hhex, Hup.
  rewrite (verifyChecksum_has_trailer _ (pre ++ c' :: post ++ js "AY" ++ seqStr) cs).
  - f_equal. apply bool_decide_eq_false_2. rewrite Hup. unfold cs.
    rewrite calculateChecksum_eq_iff.
    rewrite <- !app_assoc, <- !app_comm_cons.
    rewrite !sum_of_codes_app, !sum_of_codes_cons, !sum_of_codes_app.
    intros H. apply Hne. apply N2Z.inj.
    assert (Hr : (0 <= Z.of_N c < 65536)%Z) by lia.
    assert (Hr' : (0 <= Z.of_N c' < 65536)%Z) by lia.
    Z.div_mod_to_equations. lia.
  - split; [exact Hlen|]. split; [exact Hhex|]. right.
    rewrite <- !app_assoc, <- !app_comm_cons, <- !app_assoc. reflexivity.
Qed.

Lemma verifyChecksum_detects_corruption_witness :
  appendChecksum (js "9300CNadmin|COpassword|CPMainLib|") 0
  = Returned (js "9300CNadmin|COpassword|CPMainLib|AY0AZF28D" ++ [CR])
  /\ verifyChecksum (js "9300CNadmin|COPassword|CPMainLib|AY0AZF28D" ++ [CR]) = Returned false.
Proof.
  split; [vm_compute; reflexivity|].
  apply (verifyChecksum_detects_corruption (js "9300CNadmin|CO") (js "assword|CPMainLib|")
           112 80 0 (js "9300CNadmin|COpassword|CPMainLib|AY0AZF28D" ++ [CR])).
  - vm_compute. reflexivity.
  - unfold code_unit. lia.
  - unfold code_unit. lia.
  - discriminate.
Defined.

(** ** Formatters: the layout of a frame *)

Lemma not_reserved_clean c : ~ reserved c -> clean c.
Proof. unfold reserved, clean, CR, LF. lia. Qed.

Lemma clean_printable c : clean c -> printable c.
Proof. unfold clean, printable. tauto. Qed.

Lemma sanitize_clean x : Forall clean (sanitizeSipField x).
Proof.
  rewrite sanitizeSipField_filter. apply Forall_forall. intros c Hc.
  apply list_elem_of_filter in Hc as [Hc _]. exact (not_reserved_clean c Hc).
Qed.

Lemma literal_clean (l : jsstring) : bool_decide (Forall clean l) = true -> Forall clean l.
Proof. apply bool_decide_eq_true_1. Qed.

Lemma substring_Forall (P : N -> Prop) s a b : Forall P s -> Forall P (substring s a b).
Proof. intros H. unfold substring. apply Forall_take, Forall_drop, H. Qed.

Lemma pad_filler_Forall (P : N -> Prop) n pad : Forall P pad -> Forall P (pad_filler n pad).
Proof.
  intros H. unfold pad_filler. apply Forall_take, Forall_concat, Forall_replicate, H.
Qed.

Lemma padStart_Forall (P : N -> Prop) s n pad :
  Forall P s -> Forall P pad -> Forall P (padStart s n pad).
Proof. intros Hs Hp. apply Forall_app_2; [apply pad_filler_Forall, Hp|exact Hs]. Qed.

Lemma padEnd_Forall (P : N -> Prop) s n pad :
  Forall P s -> Forall P pad -> Forall P (padEnd s n pad).
Proof. intros Hs Hp. apply Forall_app_2; [exact Hs|apply pad_filler_Forall, Hp]. Qed.

Lemma trimStart_Forall (P : N -> Prop) s : Forall P s -> Forall P (trimStart s).
Proof.
  induction s as [|c s IH]; intros H; [exact H|].
  cbn [trimStart]. destruct (is_space c); [|exact H].
  apply IH. apply Forall_cons in H. tauto.
Qed.

Lemma trim_Forall (P : N -> Prop) s : Forall P s -> Forall P (trim s).
Proof.
  intros H. unfold trim, trimEnd.
  apply Forall_rev, trimStart_Forall, Forall_rev, trimStart_Forall, H.
Qed.

Lemma digit_char_clean d : (0 <= d < 10)%Z -> clean (digit_char d).
Proof.
  intros Hd. unfold digit_char, clean.
  destruct (d <? 10)%Z eqn:E; [|apply Z.ltb_ge in E; lia].
  split; [|intros H; apply (f_equal Z.of_N) in H; rewrite Z2N.id in H by lia; lia].
  apply N2Z.inj_le. rewrite Z2N.id by lia. lia.
Qed.

Lemma Number_toString_clean n : Forall clean (Number_toString 10 n).
Proof.
  unfold Number_toString.
  destruct (Number_toString_digits 10 n) as (ds & Hds & _ & Hf); [lia|].
  rewrite Hds.
  assert (Hm : Forall clean (map digit_char ds)).
  { apply Forall_map. eapply Forall_impl; [exact Hf|]. intros d Hd. apply digit_char_clean, Hd. }
  destruct (n <? 0)%Z; [|exact Hm].
  apply Forall_app_2; [|exact Hm]. apply literal_clean. vm_compute. reflexivity.
Qed.

Lemma getSipTimestamp_clean now : Forall clean (getSipTimestamp now).
Proof.
  unfold getSipTimestamp, String_of. cbv zeta.
  repeat match goal with
         | |- Forall clean (Number_toString 10 _) => apply Number_toString_clean
         | |- Forall clean (js _) => apply literal_clean; vm_compute; reflexivity
         | |- Forall _ (padStart _ _ _) => apply padStart_Forall
         | |- Forall _ (_ ++ _) => apply Forall_app_2
         end.
Qed.

Lemma is_hex_clean c : is_hex c -> clean c.
Proof. unfold is_hex, clean. lia. Qed.

Lemma calculateChecksum_clean message : Forall clean (calculateChecksum message).
Proof.
  destruct (calculateChecksum_facts message) as (_ & H & _).
  eapply Forall_impl; [exact H|]. exact is_hex_clean.
Qed.

(** The pieces of a frame that are clean whatever the arguments are. *)
Ltac solve_clean :=
  repeat match goal with
         | |- Forall _ _ => assumption
         | |- Forall _ [] => apply Forall_nil_2
         | |- Forall clean (sanitizeSipField _) => apply sanitize_clean
         | |- Forall clean (getSipTimestamp _) => apply getSipTimestamp_clean
         | |- Forall clean (Number_toString 10 _) => apply Number_toString_clean
         | |- Forall clean (String_of _) => apply Number_toString_clean
         | |- Forall clean (calculateChecksum _) => apply calculateChecksum_clean
         | |- Forall clean (js _) => apply literal_clean; vm_compute; reflexivity
         | |- Forall _ (substring _ _ _) => apply substring_Forall
         | |- Forall _ (padStart _ _ _) => apply padStart_Forall
         | |- Forall _ (padEnd _ _ _) => apply padEnd_Forall
         | |- Forall _ (trim _) => apply trim_Forall
         | |- Forall clean (HoldMode_str ?m) =>
             destruct m; apply literal_clean; vm_compute; reflexivity
         | |- Forall clean (SecurityMarker_str ?m) =>
             destruct m; apply literal_clean; vm_compute; reflexivity
         | |- Forall _ (if ?c then _ else _) => destruct c
         | |- Forall clean (_ :: _) => apply Forall_cons_2; [unfold clean; lia|]
         | |- Forall _ (_ ++ _) => apply Forall_app_2
         end.

(** Each formatter appends the trailer to the layout of its command. *)
Lemma formatCommand_layout now cmd seqNum :
  formatCommand now cmd seqNum = appendChecksum (wire_body now cmd) (default 0%Z seqNum).
Proof.
  destruct cmd; cbn [formatCommand];
    unfold formatLoginRequest, formatPatronStatusRequest, formatCheckoutRequest,
      formatCheckinRequest, formatItemInformationRequest, formatRenewRequest,
      formatFeePaidRequest, formatPatronInformationRequest, formatHoldRequest,
      formatRenewAllRequest, formatEndSessionRequest, formatSCStatusRequest,
      formatBlockPatronRequest, formatItemStatusUpdateRequest, formatPatronEnableRequest;
    cbv zeta; f_equal;
    unfold wire_body, wire_values, wire_header, wire_field;
    repeat match goal with
           | |- context [truthy ?v] => destruct (truthy v)
           end;
    cbn [map concat app fst snd];
    repeat (rewrite <- ?app_assoc, ?app_nil_r; cbn [app]); reflexivity.
Qed.

Lemma clean_Forall_impl (P : N -> Prop) (l : jsstring) :
  (forall c, clean c -> P c) -> Forall clean l -> Forall P l.
Proof. intros HP H. eapply Forall_impl; [exact H|exact HP]. Qed.

(** A piece of a header: clean, or built from an argument that satisfies [P]. *)
Ltac solve_piece HP :=
  repeat match goal with
         | |- Forall _ _ => assumption
         | |- Forall _ (substring _ _ _) => apply substring_Forall
         | |- Forall _ (padStart _ _ _) => apply padStart_Forall
         | |- Forall _ (padEnd _ _ _) => apply padEnd_Forall
         | |- Forall _ (if ?c then _ else _) => destruct c
         | |- Forall _ (_ ++ _) => apply Forall_app_2
         | |- Forall _ _ => apply (clean_Forall_impl _ _ HP); solve [solve_clean]
         end.

Lemma wire_header_Forall (P : N -> Prop) now cmd :
  (forall c, clean c -> P c) ->
  Forall (Forall P) (unsanitized_fields cmd) -> Forall P (wire_header now cmd).
Proof.
  intros HP Hu.
  destruct cmd; cbn [unsanitized_fields] in Hu; cbn [wire_header]; cbv zeta;
    repeat match goal with
           | H : Forall _ (_ :: _) |- _ => apply Forall_cons in H as [? H]
           end;
    solve_piece HP.
Qed.

Lemma wire_values_clean cmd : Forall (fun f => Forall clean (wire_field f)) (wire_values cmd).
Proof.
  destruct cmd; cbn [wire_values]; cbv zeta;
    repeat match goal with
           | |- context [truthy ?v] => destruct (truthy v)
           end;
    cbn [app];
    repeat (apply Forall_cons_2; [unfold wire_field; cbn [fst snd]; solve_clean|]);
    apply Forall_nil_2.
Qed.

Lemma wire_values_tags cmd :
  NoDup (map (fun f => js (fst f)) (wire_values cmd))
  /\ Forall (fun f => is_tag (js (fst f)) = true /\ js (fst f) <> js "AY") (wire_values cmd).
Proof.
  destruct cmd; cbn [wire_values]; cbv zeta;
    repeat match goal with
           | |- context [truthy ?v] => destruct (truthy v)
           end;
    cbn [app map fst];
    (split; [match goal with
             | |- NoDup ?l => apply (bool_decide_eq_true_1 (NoDup l)); vm_compute; reflexivity
             end|]);
    repeat (apply Forall_cons_2; [cbn [fst]; split; [reflexivity|discriminate]|]);
    apply Forall_nil_2.
Qed.

Lemma wire_trailer_clean body seqNum : Forall clean (wire_trailer body seqNum).
Proof. unfold wire_trailer. cbv zeta. solve_clean. Qed.

(** The frame a formatter returns: the layout of the command, its trailer
    and a carriage return. *)
Lemma formatCommand_frame now cmd seqNum frame :
  formatCommand now cmd seqNum = Returned frame ->
  frame = wire_body now cmd ++ wire_trailer (wire_body now cmd) (default 0%Z seqNum) ++ [CR].
Proof.
  rewrite formatCommand_layout. intros H.
  apply appendChecksum_Returned in H as (seqStr & -> & ->).
  unfold wire_trailer. cbv zeta. rewrite <- !app_assoc. reflexivity.
Qed.

Lemma wire_body_printable now cmd :
  Forall (Forall printable) (unsanitized_fields cmd) -> Forall printable (wire_body now cmd).
Proof.
  intros Hu. unfold wire_body. apply Forall_app_2; [|apply Forall_app_2].
  - apply wire_header_Forall; [exact clean_printable|exact Hu].
  - apply Forall_concat, Forall_map.
    eapply Forall_impl; [apply wire_values_clean|]. intros f Hf. cbv beta.
    apply Forall_app_2; [apply Forall_cons_2; [unfold printable; lia|apply Forall_nil_2]|].
    eapply Forall_impl; [exact Hf|exact clean_printable].
  - destruct cmd; try apply Forall_nil_2;
      (apply Forall_cons_2; [unfold printable; lia|apply Forall_nil_2]).
Qed.

(** X2. A frame is one line: whatever the sanitized arguments are, the
    frame a formatter returns is a body without any control character (so
    without a carriage return or a line feed) followed by one carriage
    return, provided the arguments copied as they are (the language code,
    the fee type and the payment type) hold no control character. *)
Theorem formatted_frame_one_line (now : Date) (cmd : SipCommand) (seqNum : option Z)
    (frame : jsstring) :
  formatCommand now cmd seqNum = Returned frame ->
  Forall (Forall printable) (unsanitized_fields cmd) ->
  exists body, frame = body ++ [CR] /\ Forall printable body.
Proof.
  intros Hf Hu. apply formatCommand_frame in Hf.
  exists (wire_body now cmd ++ wire_trailer (wire_body now cmd) (default 0%Z seqNum)).
  split; [rewrite Hf, <- app_assoc; reflexivity|].
  apply Forall_app_2; [exact (wire_body_printable now cmd Hu)|].
  eapply Forall_impl; [apply wire_trailer_clean|exact clean_printable].
Qed.

Lemma formatted_frame_one_line_witness :
  exists frame body,
    formatCommand example_now
      (CmdPatronStatus (js "P1" ++ [CR] ++ js "9300CNroot|COtoor|") None (Some (js "001")))
      (Some 3%Z)
    = Returned frame
    /\ frame = body ++ [CR] /\ Forall printable body.
Proof.
  pose proof (formatted_frame_one_line example_now
                (CmdPatronStatus (js "P1" ++ [CR] ++ js "9300CNroot|COtoor|") None
                   (Some (js "001")))
                (Some 3%Z)) as H.
  destruct (formatCommand _ _ _) as [frame|e] eqn:E; [|vm_compute in E; discriminate].
  destruct (H frame eq_refl) as (body & Hb & Hp).
  - apply (bool_decide_eq_true_1 (Forall (Forall printable) _)). vm_compute. reflexivity.
  - exists frame, body. auto.
Defined.

(** *** Splitting a frame at its delimiters *)

Lemma split_on_nosep sep (s : jsstring) :
  Forall (fun c => c <> sep) s -> split_on sep s = [s].
Proof.
  induction s as [|c s IH]; intros H; [reflexivity|].
  apply Forall_cons in H as [Hc H]. cbn [split_on].
  destruct (c =? sep) eqn:E; [apply N.eqb_eq in E; contradiction|].
  rewrite (IH H). reflexivity.
Qed.

Lemma split_on_app_sep sep (a b : jsstring) :
  split_on sep (a ++ sep :: b) = split_on sep a ++ split_on sep b.
Proof.
  induction a as [|c a IH]; cbn [app split_on].
  - rewrite N.eqb_refl. reflexivity.
  - rewrite IH. destruct (c =? sep); [reflexivity|].
    destruct (split_on sep a) as [|first parts] eqn:E; [|reflexivity].
    destruct (split_on_join sep a) as [Hn _]. congruence.
Qed.

Lemma split_on_field sep (f rest : jsstring) (parts : list jsstring) :
  Forall (fun c => c <> sep) f -> split_on sep rest = [] :: parts ->
  split_on sep (sep :: f ++ rest) = [] :: f :: parts.
Proof.
  intros Hf Hr. cbn [split_on]. rewrite N.eqb_refl. f_equal.
  induction f as [|c f IHf]; cbn [app split_on]; [exact Hr|].
  apply Forall_cons in Hf as [Hc Hf].
  destruct (c =? sep) eqn:E; [apply N.eqb_eq in E; contradiction|].
  rewrite (IHf Hf). reflexivity.
Qed.

(** Fields that hold no delimiter, each written after a delimiter, and a
    last segment: splitting gives the fields back. *)
Lemma split_on_fields sep (fields : list jsstring) (last : jsstring) :
  Forall (Forall (fun c => c <> sep)) fields -> Forall (fun c => c <> sep) last ->
  split_on sep (concat (map (fun f => [sep] ++ f) fields) ++ sep :: last)
  = [] :: fields ++ [last].
Proof.
  intros Hf Hl. induction fields as [|f fields IH].
  - cbn [map concat app split_on]. rewrite N.eqb_refl, (split_on_nosep sep last Hl). reflexivity.
  - apply Forall_cons in Hf as [Hf Hfs]. specialize (IH Hfs).
    cbn [map concat]. rewrite <- !app_assoc.
    exact (split_on_field sep f _ (fields ++ [last]) Hf IH).
Qed.

Lemma split_on_app_first sep (h x : jsstring) (parts : list jsstring) :
  split_on sep x = [] :: parts -> split_on sep (h ++ x) = split_on sep h ++ parts.
Proof.
  intros Hx. induction h as [|c h IH]; cbn [app split_on]; [exact Hx|].
  rewrite IH. destruct (c =? sep); [reflexivity|].
  destruct (split_on sep h) as [|first rest] eqn:E; [|reflexivity].
  destruct (split_on_join sep h) as [Hn _]. congruence.
Qed.

(** The body of a command other than the status request, as header and
    fields. *)
Lemma wire_body_fields now cmd :
  cmd <> CmdSCStatus ->
  wire_body now cmd
  = wire_header now cmd ++ concat (map (fun f => [124] ++ f) (map wire_field (wire_values cmd)))
    ++ [124].
Proof.
  intros Hc. unfold wire_body. rewrite map_map.
  destruct cmd; try reflexivity. congruence.
Qed.

Lemma frame_split now cmd seqNum frame :
  formatCommand now cmd seqNum = Returned frame ->
  cmd <> CmdSCStatus ->
  split_on 124 frame
  = split_on 124 (wire_header now cmd)
    ++ map wire_field (wire_values cmd)
    ++ [wire_trailer (wire_body now cmd) (default 0%Z seqNum) ++ [CR]].
Proof.
  intros Hf Hc. apply formatCommand_frame in Hf. rewrite Hf at 1.
  rewrite (wire_body_fields now cmd Hc) at 1.
  rewrite <- !app_assoc. cbn [app].
  apply split_on_app_first, split_on_fields.
  - apply Forall_map. eapply Forall_impl; [apply wire_values_clean|].
    intros f H. eapply Forall_impl; [exact H|]. unfold clean. tauto.
  - apply Forall_app_2.
    + eapply Forall_impl; [apply wire_trailer_clean|]. unfold clean. tauto.
    + apply Forall_cons_2; [discriminate|apply Forall_nil_2].
Qed.

(** X3. Splitting a frame at [|] gives back what the formatter wrote and
    nothing else: the header, the fields of the command in order, and the
    trailer with the carriage return; no argument adds or removes a
    field.  This holds when the arguments copied as they are (language
    code, fee type, payment type) hold no [|]; the status request, which has
    no field, is one segment. *)
Theorem formatted_frame_segments (now : Date) (cmd : SipCommand) (seqNum : option Z)
    (frame : jsstring) :
  formatCommand now cmd seqNum = Returned frame ->
  Forall (Forall (fun c => c <> 124)) (unsanitized_fields cmd) ->
  split_on 124 frame
  = match cmd with
    | CmdSCStatus => [frame]
    | _ => wire_header now cmd :: map wire_field (wire_values cmd)
           ++ [wire_trailer (wire_body now cmd) (default 0%Z seqNum) ++ [CR]]
    end.
Proof.
  intros Hf Hu.
  assert (Hh : Forall (fun c => c <> 124) (wire_header now cmd)).
  { apply wire_header_Forall; [unfold clean; tauto|exact Hu]. }
  assert (Hcmd : cmd = CmdSCStatus \/ cmd <> CmdSCStatus)
    by (destruct cmd; first [left; reflexivity|right; discriminate]).
  destruct Hcmd as [->|Hc].
  - apply split_on_nosep. apply formatCommand_frame in Hf. rewrite Hf.
    apply Forall_app_2; [unfold wire_body; cbn [wire_values map concat app]; rewrite app_nil_r;
                         exact Hh|].
    apply Forall_app_2.
    + eapply Forall_impl; [apply wire_trailer_clean|]. unfold clean. tauto.
    + apply Forall_cons_2; [discriminate|apply Forall_nil_2].
  - rewrite (frame_split now cmd seqNum frame Hf Hc), (split_on_nosep 124 _ Hh).
    destruct cmd; try reflexivity. congruence.
Qed.

Lemma formatted_frame_segments_witness :
  exists frame trailer,
    formatCommand example_now
      (CmdCheckout (js "P123|AB999") (js "ITEM|789") None (Some (js "1234"))) None
    = Returned frame
    /\ split_on 124 frame
       = [js "11YN20260221    120000                  AOGigaFlair"; js "AAP123AB999";
          js "ABITEM789"; js "AC"; js "AD1234"; trailer].
Proof.
  pose proof (formatted_frame_segments example_now
                (CmdCheckout (js "P123|AB999") (js "ITEM|789") None (Some (js "1234"))) None)
    as H.
  destruct (formatCommand _ _ _) as [frame|e] eqn:E; [|vm_compute in E; discriminate].
  eexists frame, _. split; [reflexivity|].
  rewrite (H frame eq_refl); [|apply Forall_nil_2].
  vm_compute. reflexivity.
Defined.

(** ** Formatters and [parseFields]: the fields of a request parse back *)

Lemma for_parts_app {S} (body : nat -> jsstring -> S -> S) (l1 l2 : list jsstring) :
  forall i st,
    for_parts body i (l1 ++ l2) st = for_parts body (i + length l1) l2 (for_parts body i l1 st).
Proof.
  induction l1 as [|p l1 IH]; intros i st; cbn [app for_parts length].
  - rewrite Nat.add_0_r. reflexivity.
  - rewrite IH. f_equal. lia.
Qed.

Lemma parseFields_part_later (threshold i : nat) (part : jsstring)
    (fields : gmap jsstring jsstring) :
  (0 < i)%nat ->
  parseFields_part threshold i part fields
  = if is_tag (substring part 0 2) then <[substring part 0 2 := substring_from part 2]> fields
    else fields.
Proof.
  intros Hi. unfold parseFields_part.
  destruct (i =? 0)%nat eqn:E; [apply Nat.eqb_eq in E; lia|reflexivity].
Qed.

Lemma for_parts_other (threshold : nat) (tag : jsstring) (parts : list jsstring) :
  forall i (fields : gmap jsstring jsstring),
    (0 < i)%nat -> Forall (fun p => substring p 0 2 <> tag) parts ->
    for_parts (parseFields_part threshold) i parts fields !! tag = fields !! tag.
Proof.
  induction parts as [|p parts IH]; intros i fields Hi Hp; cbn [for_parts]; [reflexivity|].
  apply Forall_cons in Hp as [Hp Hps].
  rewrite IH by (lia || exact Hps).
  rewrite parseFields_part_later by exact Hi.
  destruct (is_tag _); [|reflexivity]. apply lookup_insert_ne, Hp.
Qed.

Lemma is_tag_length (tag : jsstring) : is_tag tag = true -> length tag = 2%nat.
Proof. destruct tag as [|a [|b [|c tag]]]; try discriminate. reflexivity. Qed.

Lemma substring_tag (tag v : jsstring) :
  length tag = 2%nat -> substring (tag ++ v) 0 2 = tag /\ substring_from (tag ++ v) 2 = v.
Proof.
  intros Hl. rewrite substring_0. unfold substring_from.
  rewrite <- Hl, take_app_length, drop_app_length. auto.
Qed.

(** A segment after the first that starts with [tag], no later segment
    starting with it: the field [tag] is the rest of that segment. *)
Lemma for_parts_field (threshold : nat) (tag v : jsstring) (before after : list jsstring) :
  forall i (fields : gmap jsstring jsstring),
    (0 < i)%nat -> is_tag tag = true ->
    Forall (fun p => substring p 0 2 <> tag) after ->
    for_parts (parseFields_part threshold) i (before ++ (tag ++ v) :: after) fields !! tag
    = Some v.
Proof.
  intros i fields Hi Ht Ha.
  rewrite for_parts_app. cbn [for_parts].
  rewrite for_parts_other by (lia || exact Ha).
  rewrite parseFields_part_later by lia.
  destruct (substring_tag tag v (is_tag_length tag Ht)) as [-> ->].
  rewrite Ht. apply lookup_insert_eq.
Qed.

Lemma wire_values_parse_back (now : Date) (cmd : SipCommand) (seqNum : option Z)
    (frame : jsstring) (tag : string) (v : jsstring) :
  formatCommand now cmd seqNum = Returned frame ->
  (tag, v) ∈ wire_values cmd ->
  parseFields frame !! js tag = Some v.
Proof.
  intros Hf Hin.
  assert (Hc : cmd <> CmdSCStatus) by (intros ->; inversion Hin).
  destruct (wire_values_tags cmd) as [Hnd Htags].
  pose proof (frame_split now cmd seqNum frame Hf Hc) as Hs.
  apply list_elem_of_split in Hin as (v1 & v2 & Hv).
  rewrite Hv in Hs, Hnd, Htags.
  rewrite map_app in Hs, Hnd. cbn [map] in Hs, Hnd.
  apply Forall_app in Htags as [_ Htags]. apply Forall_cons in Htags as [[Ht Hay] Htags2].
  cbn [fst] in Ht, Hay.
  apply NoDup_app in Hnd as (_ & _ & Hnd). apply NoDup_cons in Hnd as [Hnd _]. cbn [fst] in Hnd.
  unfold parseFields. cbv zeta. rewrite Hs.
  set (threshold := default 15%nat _). clearbody threshold.
  assert (H : for_parts (parseFields_part threshold) 0
                (split_on 124 (wire_header now cmd)
                 ++ map wire_field v1
                 ++ wire_field (tag, v) :: map wire_field v2
                 ++ [wire_trailer (wire_body now cmd) (default 0%Z seqNum) ++ [CR]]) ∅
              !! js tag = Some v).
  { rewrite for_parts_app.
    apply (for_parts_field threshold (js tag) v (map wire_field v1)).
    - destruct (split_on_join 124 (wire_header now cmd)) as [Hn _].
      destruct (split_on 124 (wire_header now cmd)); [congruence|simpl; lia].
    - exact Ht.
    - apply Forall_app_2.
      + apply Forall_map. apply Forall_forall. intros f Hfin.
        rewrite Forall_forall in Htags2. destruct (Htags2 f Hfin) as [Hft _].
        unfold wire_field. destruct (substring_tag (js (fst f)) (snd f) (is_tag_length _ Hft))
          as [-> _].
        intros E. apply Hnd. rewrite <- E. apply list_elem_of_fmap. exists f. auto.
      + apply Forall_cons_2; [|apply Forall_nil_2].
        unfold wire_trailer. cbv zeta. rewrite <- !app_assoc.
        destruct (substring_tag (js "AY")
                    (substring (Number_toString 10 (default 0%Z seqNum)) 0 1 ++ js "AZ"
                     ++ calculateChecksum
                          (wire_body now cmd ++ js "AY"
                           ++ substring (Number_toString 10 (default 0%Z seqNum)) 0 1 ++ js "AZ")
                     ++ [CR]) eq_refl) as [-> _].
        congruence. }
  rewrite <- (app_assoc (map wire_field v1)), <- app_comm_cons.
  destruct (regex_search ayaz_at 0 frame) as [[j digit]|]; [|exact H].
  rewrite lookup_insert_ne by congruence. exact H.
Qed.

(** X4. The fields of a request parse back: in the frame a formatter
    returns, [parseFields] finds every field the formatter wrote after the
    header under its tag, with the sanitized value the formatter wrote,
    whatever the arguments are. *)
Theorem formatted_fields_parse_back (now : Date) (cmd : SipCommand) (seqNum : option Z)
    (frame : jsstring) (tag : string) (v : jsstring) :
  formatCommand now cmd seqNum = Returned frame ->
  (tag, v) ∈ wire_values cmd ->
  parseFields frame !! js tag = Some v.
Proof. apply wire_values_parse_back. Qed.

Lemma formatted_fields_parse_back_witness :
  exists frame,
    formatCommand example_now
      (CmdCheckout (js "P123|AB999") (js "ITEM|789") None (Some (js "1234"))) None
    = Returned frame
    /\ parseFields frame !! js "AA" = Some (js "P123AB999")
    /\ parseFields frame !! js "AB" = Some (js "ITEM789")
    /\ parseFields frame !! js "AD" = Some (js "1234").
Proof.
  pose proof (formatted_fields_parse_back example_now
                (CmdCheckout (js "P123|AB999") (js "ITEM|789") None (Some (js "1234"))) None)
    as H.
  destruct (formatCommand _ _ _) as [frame|e] eqn:E; [|vm_compute in E; discriminate].
  exists frame. split; [reflexivity|].
  split; [|split]; apply (H frame); try reflexivity;
    apply (bool_decide_eq_true_1 (_ ∈ _)); vm_compute; reflexivity.
Defined.

(** ** The timestamp *)

Lemma dec2_all :
  all_below 7 0 (fun n => negb (n <? 100)%Z
                          || bool_decide (padStart (String_of n) 2 (js "0") = dec2 n)) = true.
Proof. vm_compute. reflexivity. Qed.

Lemma dec4_all :
  all_below 14 0 (fun n => negb ((1000 <=? n) && (n <? 10000))%Z
                           || bool_decide (String_of n = dec4 n)) = true.
Proof. vm_compute. reflexivity. Qed.

Lemma padStart_dec2 n : (0 <= n < 100)%Z -> padStart (String_of n) 2 (js "0") = dec2 n.
Proof.
  intros Hn. pose proof (all_below_spec 7 0 _ n dec2_all) as H. cbv beta in H.
  assert (Hr : (0 * 2 ^ Z.of_nat 7 <= n < (0 + 1) * 2 ^ Z.of_nat 7)%Z)
    by (change (2 ^ Z.of_nat 7)%Z with 128%Z; lia).
  specialize (H Hr). apply orb_true_iff in H as [H|H].
  - apply negb_true_iff, Z.ltb_ge in H. lia.
  - revert H. apply bool_decide_eq_true_1.
Qed.

Lemma String_of_dec4 n : (1000 <= n <= 9999)%Z -> String_of n = dec4 n.
Proof.
  intros Hn. pose proof (all_below_spec 14 0 _ n dec4_all) as H. cbv beta in H.
  assert (Hr : (0 * 2 ^ Z.of_nat 14 <= n < (0 + 1) * 2 ^ Z.of_nat 14)%Z)
    by (change (2 ^ Z.of_nat 14)%Z with 16384%Z; lia).
  specialize (H Hr). apply orb_true_iff in H as [H|H].
  - apply negb_true_iff, andb_false_iff in H as [H|H];
      [apply Z.leb_gt in H|apply Z.ltb_ge in H]; lia.
  - revert H. apply bool_decide_eq_true_1.
Qed.

(** X5. The timestamp has the fixed layout of the protocol: for the UTC
    fields of a date with a four-digit year, [getSipTimestamp] is the year
    on four digits, the month (counted from 1) and the day on two each, four
    spaces, and hours, minutes and seconds on two digits each: eighteen
    characters. *)
Theorem getSipTimestamp_layout (now : Date) :
  utc_fields now ->
  getSipTimestamp now
  = dec4 (getUTCFullYear now) ++ dec2 (getUTCMonth now + 1) ++ dec2 (getUTCDate now)
    ++ js "    "
    ++ dec2 (getUTCHours now) ++ dec2 (getUTCMinutes now) ++ dec2 (getUTCSeconds now)
  /\ length (getSipTimestamp now) = 18%nat.
Proof.
  intros (Hy & Hm & Hd & Hh & Hmi & Hs).
  assert (E : getSipTimestamp now
              = dec4 (getUTCFullYear now) ++ dec2 (getUTCMonth now + 1) ++ dec2 (getUTCDate now)
                ++ js "    "
                ++ dec2 (getUTCHours now) ++ dec2 (getUTCMinutes now)
                ++ dec2 (getUTCSeconds now)).
  { unfold getSipTimestamp. cbv zeta.
    rewrite String_of_dec4 by exact Hy. rewrite !padStart_dec2 by lia. reflexivity. }
  split; [exact E|]. rewrite E. reflexivity.
Qed.

Lemma getSipTimestamp_layout_witness :
  getSipTimestamp example_now = js "20260221    120000"
  /\ length (getSipTimestamp example_now) = 18%nat.
Proof.
  destruct (getSipTimestamp_layout example_now) as [H1 H2].
  - unfold utc_fields, example_now. simpl. lia.
  - split; [rewrite H1; reflexivity|exact H2].
Defined.

(** ** Validated input and the sanitizer *)

Lemma class_sip2_safe_clean c : class_matches class_sip2_safe c = true -> ~ reserved c.
Proof.
  unfold class_matches, class_sip2_safe, reserved, CR, LF. simpl.
  rewrite !orb_true_iff, !andb_true_iff, !N.leb_le. lia.
Qed.

Lemma sanitize_clean_id (x : jsstring) :
  Forall (fun c => ~ reserved c) x -> sanitizeSipField x = x.
Proof.
  rewrite sanitizeSipField_filter. induction x as [|c x IH]; intros H; [reflexivity|].
  apply Forall_cons in H as [Hc H].
  rewrite filter_cons_True by exact Hc. rewrite (IH H). reflexivity.
Qed.

(** X6. What the routes accept reaches the wire as it is: a value that
    matches [SIP2_SAFE] is not empty and [sanitizeSipField] leaves it
    unchanged, so that the field of a frame holds the value the caller
    gave. *)
Theorem SIP2_SAFE_unchanged (x : jsstring) :
  SIP2_SAFE x = true ->
  x <> [] /\ sanitizeSipField x = x.
Proof.
  intros H. destruct x as [|c x]; [discriminate|].
  split; [discriminate|].
  unfold SIP2_SAFE in H. rewrite forallb_forall in H.
  apply sanitize_clean_id, Forall_forall. intros d Hd.
  apply class_sip2_safe_clean, H, list_elem_of_In, Hd.
Qed.

Lemma SIP2_SAFE_unchanged_witness :
  sanitizeSipField (js "Main-Lib_01 a.b") = js "Main-Lib_01 a.b".
Proof. apply SIP2_SAFE_unchanged. reflexivity. Defined.

(** ** Parsers: one parser per frame *)

Lemma run_parser_accepts p raw r :
  run_parser p raw = Returned r -> substring raw 0 2 ∈ accepted_codes p.
Proof.
  intros Hr. pose proof (run_parser_code p raw) as H.
  destruct (bool_decide_reflect (substring raw 0 2 ∈ accepted_codes p)) as [Hin|Hout];
    [exact Hin|].
  destruct H as [expected H]. congruence.
Qed.

Lemma accepted_codes_disjoint (p q : ResponseParser) (code : jsstring) :
  code ∈ accepted_codes p -> code ∈ accepted_codes q -> p = q.
Proof.
  intros Hp Hq.
  destruct p, q; try reflexivity; exfalso;
    cbn [accepted_codes documented_code] in Hp, Hq;
    repeat match goal with
           | H : _ ∈ [_] |- _ => apply list_elem_of_singleton in H
           | H : _ ∈ _ :: _ |- _ => apply elem_of_cons in H as [H|H]
           end;
    rewrite Hp in Hq; vm_compute in Hq; discriminate.
Qed.

(** X7. A frame is decoded by one parser at most: when a parser returns
    a record for a frame, every other parser raises
    [UnexpectedResponseCode] on that frame. *)
Theorem parsers_exclusive (p q : ResponseParser) (raw : jsstring) (r : Response) :
  run_parser p raw = Returned r -> q <> p ->
  exists expected,
    run_parser q raw = Thrown (UnexpectedResponseCode expected (substring raw 0 2)).
Proof.
  intros Hp Hne. apply run_parser_accepts in Hp.
  pose proof (run_parser_code q raw) as H.
  destruct (bool_decide_reflect (substring raw 0 2 ∈ accepted_codes q)) as [Hin|Hout];
    [|exact H].
  exfalso. apply Hne. exact (accepted_codes_disjoint q p _ Hin Hp).
Qed.

Lemma parsers_exclusive_witness :
  exists expected,
    run_parser PPatronEnable PATRON_STATUS_RAW
    = Thrown (UnexpectedResponseCode expected (js "24")).
Proof.
  destruct (run_parser PPatronStatus PATRON_STATUS_RAW) as [r|e] eqn:E;
    [|vm_compute in E; discriminate].
  apply (parsers_exclusive PPatronStatus PPatronEnable PATRON_STATUS_RAW r E). discriminate.
Defined.

(** ** Parsers: single and repeated fields *)


Lemma last_of_insert f g (tag value : jsstring) :
  last_of f g -> last_of (<[tag := value]> f) (push_field tag value g).
Proof.
  intros H key. unfold push_field. rewrite !lookup_insert.
  destruct (decide (tag = key)) as [_|_]; [|apply H].
  cbn [default from_option id]. rewrite last_snoc. split; [reflexivity|].
  intros [= E]. apply app_eq_nil in E as [_ E]. discriminate.
Qed.

Lemma parts_last_of threshold (parts : list jsstring) : forall i f g,
  last_of f g ->
  last_of (for_parts (parseFields_part threshold) i parts f)
          (for_parts (parseFieldsMulti_part threshold) i parts g).
Proof.
  induction parts as [|part parts IH]; intros i f g H; cbn [for_parts]; [exact H|].
  apply IH. unfold parseFields_part, parseFieldsMulti_part. destruct (i =? 0)%nat.
  - generalize (tag_matches part). intros ms. revert f g H.
    induction ms as [|[[index tag] value] ms IHm]; intros f g H; cbn [fold_left]; [exact H|].
    apply IHm. destruct (threshold <=? index)%nat; [apply last_of_insert|]; exact H.
  - cbv zeta. destruct (is_tag _); [apply last_of_insert|]; exact H.
Qed.

Lemma parseFields_last_of (raw tag : jsstring) :
  tag <> js "AY" ->
  parseFields raw !! tag = last (default [] (parseFieldsMulti raw !! tag))
  /\ parseFieldsMulti raw !! tag <> Some [].
Proof.
  intros Hay. unfold parseFields, parseFieldsMulti. cbv zeta.
  set (threshold := default 15%nat _).
  assert (H0 : last_of ∅ ∅).
  { intros key. rewrite !lookup_empty. split; [reflexivity|discriminate]. }
  pose proof (parts_last_of threshold (split_on 124 raw) 0 ∅ ∅ H0 tag) as H.
  destruct (regex_search ayaz_at 0 raw) as [[j digit]|]; [|exact H].
  rewrite lookup_insert_ne by congruence. exact H.
Qed.

Lemma run_parser_messages p raw r m ms :
  run_parser p raw = Returned r -> response_messages r = Some (m, ms) ->
  m = parseFields raw !! js "AF" /\ ms = default [] (parseFieldsMulti raw !! js "AF").
Proof.
  destruct p; cbn [run_parser];
    unfold parsePatronStatusResponse, parseCheckoutResponse, parseCheckinResponse,
      parseItemInformationResponse, parseFeePaidResponse, parsePatronInformationResponse,
      parseHoldResponse, parseRenewAllResponse, parseEndSessionResponse,
      parseACSStatusResponse, parseItemStatusUpdateResponse, parsePatronEnableResponse;
    match goal with
    | |- context [if ?c then Thrown _ else _] => destruct c
    end;
    cbn [fmap outcome_fmap]; intros H; try discriminate;
    apply Returned_inj in H; subst r; cbv zeta; cbn [response_messages];
    intros [= <- <-]; split; reflexivity.
Qed.

(** X8. The single screen message of a record is the last of its screen
    messages: in every record that has both, [screenMessage] is the last
    element of [screenMessages], and [undefined] exactly when the list is
    empty.  More generally [parseFields] gives for every tag but [AY] the
    last of the values [parseFieldsMulti] collects, whose lists are never
    empty. *)
Theorem screenMessage_is_last (p : ResponseParser) (raw : jsstring) (r : Response)
    (m : option jsstring) (ms : list jsstring) :
  run_parser p raw = Returned r ->
  response_messages r = Some (m, ms) ->
  m = last ms
  /\ (m = None <-> ms = [])
  /\ (forall tag, tag <> js "AY" ->
        parseFields raw !! tag = last (default [] (parseFieldsMulti raw !! tag))
        /\ parseFieldsMulti raw !! tag <> Some []).
Proof.
  intros Hr Hm. destruct (run_parser_messages p raw r m ms Hr Hm) as [-> ->].
  destruct (parseFields_last_of raw (js "AF")) as [H _]; [discriminate|].
  split; [exact H|]. split; [|intros tag; apply parseFields_last_of].
  rewrite H. apply last_None.
Qed.

Lemma screenMessage_is_last_witness :
  exists r,
    run_parser PCheckout
      (js "121NNY20260222    120000AOTest|AAP1|ABI1|AJTitle|AH|AFFirst msg|AFSecond msg|AY0AZ1234")
    = Returned (RCheckout r)
    /\ CheckoutResponse.screenMessages r = [js "First msg"; js "Second msg"]
    /\ CheckoutResponse.screenMessage r = Some (js "Second msg").
Proof.
  set (raw := js "121NNY20260222    120000AOTest|AAP1|ABI1|AJTitle|AH|AFFirst msg|AFSecond msg|AY0AZ1234").
  destruct (parseCheckoutResponse raw) as [r|e] eqn:E; [|vm_compute in E; discriminate].
  assert (Hr : run_parser PCheckout raw = Returned (RCheckout r))
    by (cbn [run_parser]; rewrite E; reflexivity).
  assert (Hms : CheckoutResponse.screenMessages r = [js "First msg"; js "Second msg"]).
  { vm_compute in E. apply Returned_inj in E. subst r. reflexivity. }
  exists r. split; [exact Hr|]. split; [exact Hms|].
  destruct (screenMessage_is_last PCheckout raw (RCheckout r) _ _ Hr eq_refl) as (H & _).
  rewrite H, Hms. reflexivity.
Defined.

(** ** Parsers: what [parseFieldsMulti] collects *)

Lemma push_field_values (t v tag : jsstring) (g : gmap jsstring (list jsstring)) :
  default [] (push_field t v g !! tag)
  = default [] (g !! tag) ++ (if bool_decide (t = tag) then [v] else []).
Proof.
  unfold push_field. rewrite lookup_insert.
  destruct (decide (t = tag)) as [->|Hne].
  - rewrite bool_decide_eq_true_2 by reflexivity. reflexivity.
  - rewrite bool_decide_eq_false_2 by exact Hne. rewrite app_nil_r. reflexivity.
Qed.

Lemma header_values (threshold : nat) (tag : jsstring)
    (ms : list (nat * jsstring * jsstring)) : forall g : gmap jsstring (list jsstring),
  default [] (fold_left
                (fun fields m =>
                   match m with
                   | (index, t, value) =>
                       if (threshold <=? index)%nat then push_field t value fields else fields
                   end) ms g !! tag)
  = default [] (g !! tag)
    ++ omap (fun m => match m with
                      | (index, t, value) =>
                          if (threshold <=? index)%nat && bool_decide (t = tag) then Some value
                          else None
                      end) ms.
Proof.
  induction ms as [|[[index t] value] ms IH]; intros g; cbn [fold_left omap list_omap].
  - rewrite app_nil_r. reflexivity.
  - rewrite IH. destruct (threshold <=? index)%nat; cbn [andb].
    + rewrite push_field_values. rewrite <- app_assoc.
      destruct (bool_decide (t = tag)); reflexivity.
    + reflexivity.
Qed.

Lemma later_values (threshold : nat) (tag : jsstring) (parts : list jsstring) :
  is_tag tag = true ->
  forall i (g : gmap jsstring (list jsstring)), (0 < i)%nat ->
    default [] (for_parts (parseFieldsMulti_part threshold) i parts g !! tag)
    = default [] (g !! tag)
      ++ omap (fun part => if bool_decide (substring part 0 2 = tag)
                           then Some (substring_from part 2) else None) parts.
Proof.
  intros Ht. induction parts as [|part parts IH]; intros i g Hi;
    cbn [for_parts omap list_omap].
  - rewrite app_nil_r. reflexivity.
  - rewrite IH by lia. unfold parseFieldsMulti_part.
    destruct (i =? 0)%nat eqn:E; [apply Nat.eqb_eq in E; lia|]. cbv zeta.
    destruct (bool_decide_reflect (substring part 0 2 = tag)) as [Hp|Hp].
    + rewrite Hp, Ht, push_field_values, bool_decide_eq_true_2 by reflexivity.
      rewrite <- app_assoc. reflexivity.
    + destruct (is_tag (substring part 0 2)); [|reflexivity].
      rewrite push_field_values, bool_decide_eq_false_2 by exact Hp.
      rewrite app_nil_r. reflexivity.
Qed.

(** X9. [parseFieldsMulti] collects every value of a tag, in the order of
    the frame: under a tag of two upper-case letters it holds the values the
    tag pattern finds in the first segment from the fixed-field length on,
    followed by the rest of each later segment that starts with the tag, none
    left out and none added; the tag has no entry exactly when there is no
    such value. *)
Theorem parseFieldsMulti_collects (raw tag : jsstring) :
  is_tag tag = true ->
  default [] (parseFieldsMulti raw !! tag) = collected raw tag
  /\ (parseFieldsMulti raw !! tag = None <-> collected raw tag = []).
Proof.
  intros Ht.
  assert (E : default [] (parseFieldsMulti raw !! tag) = collected raw tag).
  { unfold parseFieldsMulti, collected. cbv zeta.
    set (threshold := default 15%nat _).
    destruct (split_on 124 raw) as [|header parts] eqn:Es.
    { destruct (split_on_join 124 raw) as [Hn _]. congruence. }
    cbn [head default from_option id tail for_parts].
    rewrite later_values by (exact Ht || lia).
    unfold parseFieldsMulti_part at 1. cbn [Nat.eqb].
    rewrite header_values, lookup_empty. reflexivity. }
  split; [exact E|]. rewrite <- E.
  destruct (parseFieldsMulti raw !! tag) as [l|] eqn:El; cbn [default from_option id].
  - split; [discriminate|]. intros ->. exfalso.
    assert (Hne : parseFieldsMulti raw !! tag <> Some []).
    { destruct (decide (tag = js "AY")) as [->|Hay].
      - unfold parseFieldsMulti. cbv zeta.
        assert (H0 : last_of ∅ ∅).
        { intros key. rewrite !lookup_empty. split; [reflexivity|discriminate]. }
        exact (proj2 (parts_last_of _ (split_on 124 raw) 0 ∅ ∅ H0 (js "AY"))).
      - exact (proj2 (parseFields_last_of raw tag Hay)). }
    congruence.
  - split; reflexivity.
Qed.

Lemma parseFieldsMulti_collects_witness :
  parseFieldsMulti MULTI_AF_RAW !! js "AF" = Some [js "First msg"; js "Second msg"]
  /\ collected MULTI_AF_RAW (js "AF") = [js "First msg"; js "Second msg"].
Proof.
  destruct (parseFieldsMulti_collects MULTI_AF_RAW (js "AF") eq_refl) as [H _].
  split; [vm_compute; reflexivity|]. rewrite <- H. vm_compute. reflexivity.
Defined.

(** ** Numbers: what the formatter writes, [parseInt] reads *)

Lemma radix_digits_suffix radix fuel : forall n acc,
  exists ds, radix_digits radix fuel n acc = ds ++ acc.
Proof.
  induction fuel as [|fuel IH]; intros n acc; cbn [radix_digits].
  - exists []. reflexivity.
  - destruct (n / radix =? 0)%Z.
    + exists [(n mod radix)%Z]. reflexivity.
    + destruct (IH (n / radix)%Z ((n mod radix)%Z :: acc)) as [ds Hds].
      exists (ds ++ [(n mod radix)%Z]). rewrite Hds, <- app_assoc. reflexivity.
Qed.

Lemma String_of_nonneg n :
  (0 <= n)%Z ->
  exists ds, String_of n = map digit_char ds /\ ds <> []
             /\ digits_value 10 ds = n /\ Forall (fun d => (0 <= d < 10)%Z) ds.
Proof.
  intros Hn. unfold String_of, Number_toString.
  destruct (n <? 0)%Z eqn:E; [apply Z.ltb_lt in E; lia|].
  rewrite Z.abs_eq by exact Hn.
  destruct (Number_toString_digits 10 n) as (ds & Hds & Hv & Hf); [lia|].
  rewrite Z.abs_eq in Hds, Hv by exact Hn.
  exists ds. split; [rewrite Hds; reflexivity|]. split; [|split; [exact Hv|exact Hf]].
  intros ->. cbn [radix_digits] in Hds.
  destruct (n / 10 =? 0)%Z; [discriminate|].
  destruct (radix_digits_suffix 10 (Z.to_nat (Z.log2 n)) (n / 10)%Z [(n mod 10)%Z])
    as (ds' & Hds').
  rewrite Hds' in Hds. destruct ds'; discriminate.
Qed.

Lemma pad_filler_zeros (k : nat) : pad_filler k (js "0") = replicate k 48.
Proof.
  unfold pad_filler. change (js "0") with [48].
  assert (H : concat (replicate k [48]) = replicate k 48).
  { induction k as [|k IH]; [reflexivity|]. cbn [replicate concat app]. rewrite IH. reflexivity. }
  rewrite H. apply take_ge. rewrite length_replicate. lia.
Qed.

Lemma digits_prefix_digits (ds : list Z) (rest : jsstring) :
  Forall (fun d => (0 <= d < 10)%Z) ds ->
  digits_prefix (map digit_char ds ++ rest) = ds ++ digits_prefix rest.
Proof.
  induction ds as [|d ds IH]; intros H; [reflexivity|].
  apply Forall_cons in H as [Hd H]. cbn [map app digits_prefix].
  assert (Hc : exists c, digit_char d = c /\ 48 <= c <= 57 /\ (Z.of_N c - 48 = d)%Z).
  { unfold digit_char. destruct (d <? 10)%Z eqn:E; [|apply Z.ltb_ge in E; lia].
    eexists. split; [reflexivity|]. rewrite Z2N.id by lia. split; [|lia].
    split; [apply N2Z.inj_le|apply N2Z.inj_le]; rewrite Z2N.id by lia; lia. }
  destruct Hc as (c & -> & Hr & Hv).
  assert (Hm : class_matches class_digit c = true).
  { unfold class_matches, class_digit. simpl. rewrite orb_false_r.
    apply andb_true_iff. rewrite !N.leb_le. lia. }
  rewrite Hm, Hv, (IH H). reflexivity.
Qed.

Lemma fold_digits_value (ds : list Z) : forall acc,
  fold_left (fun acc d => (10 * acc + d)%Z) ds acc
  = (acc * 10 ^ Z.of_nat (length ds) + digits_value 10 ds)%Z.
Proof.
  unfold digits_value.
  induction ds as [|d ds IH] using rev_ind; intros acc.
  - simpl. lia.
  - rewrite !fold_left_app. cbn [fold_left]. rewrite IH.
    rewrite length_app, Nat2Z.inj_add. cbn [length].
    rewrite Z.pow_add_r by lia. change (10 ^ Z.of_nat 1)%Z with 10%Z. lia.
Qed.

(** A number that is not negative, written by [String] and padded with
    zeros, is read back by [parseInt]. *)
Lemma parseInt_padStart (n : Z) (k : nat) :
  (0 <= n)%Z -> parseInt (padStart (String_of n) k (js "0")) = Num n.
Proof.
  intros Hn. destruct (String_of_nonneg n Hn) as (ds & Hs & Hne & Hv & Hf).
  unfold padStart. rewrite pad_filler_zeros, Hs.
  set (z := (k - length (map digit_char ds))%nat).
  assert (Hz : replicate z 48 = map digit_char (replicate z 0%Z)).
  { induction z as [|z IH]; [reflexivity|]. cbn [replicate map]. rewrite IH. reflexivity. }
  rewrite Hz, <- map_app.
  set (all := replicate z 0%Z ++ ds).
  assert (Hall : Forall (fun d => (0 <= d < 10)%Z) all).
  { apply Forall_app_2; [apply Forall_replicate; lia|exact Hf]. }
  assert (Hnn : all <> []).
  { unfold all. intros E. apply app_eq_nil in E as [_ E]. contradiction. }
  assert (Hval : digits_value 10 all = n).
  { unfold all, digits_value. rewrite fold_left_app.
    assert (H0 : fold_left (fun acc d => (acc * 10 + d)%Z) (replicate z 0%Z) 0%Z = 0%Z).
    { clear. induction z as [|z IH]; [reflexivity|]. cbn [replicate fold_left]. exact IH. }
    rewrite H0. exact Hv. }
  clearbody all. clear Hz z Hs Hne Hv Hf ds.
  unfold parseInt. cbv zeta.
  destruct all as [|d all]; [congruence|].
  assert (Hd : (0 <= d < 10)%Z) by (apply Forall_cons in Hall; tauto).
  assert (Hts : trimStart (map digit_char (d :: all)) = map digit_char (d :: all)).
  { cbn [map trimStart]. unfold digit_char.
    destruct (d <? 10)%Z eqn:E; [|apply Z.ltb_ge in E; lia].
    assert (Hc : (d = 0 \/ d = 1 \/ d = 2 \/ d = 3 \/ d = 4 \/ d = 5 \/ d = 6 \/ d = 7
                  \/ d = 8 \/ d = 9)%Z) by lia.
    destruct Hc as [->|[->|[->|[->|[->|[->|[->|[->|[->| ->]]]]]]]]]; reflexivity. }
  rewrite Hts.
  assert (Hsign : match map digit_char (d :: all) with
                  | c :: s' => if c =? 45 then ((-1)%Z, s')
                               else if c =? 43 then (1%Z, s') else (1%Z, map digit_char (d :: all))
                  | [] => (1%Z, [])
                  end = (1%Z, map digit_char (d :: all))).
  { cbn [map]. unfold digit_char at 1 2.
    destruct (d <? 10)%Z eqn:E; [|apply Z.ltb_ge in E; lia].
    assert (Hc : (d = 0 \/ d = 1 \/ d = 2 \/ d = 3 \/ d = 4 \/ d = 5 \/ d = 6 \/ d = 7
                  \/ d = 8 \/ d = 9)%Z) by lia.
    destruct Hc as [->|[->|[->|[->|[->|[->|[->|[->|[->| ->]]]]]]]]]; reflexivity. }
  rewrite Hsign. cbn [fst snd].
  pose proof (digits_prefix_digits (d :: all) [] Hall) as Hp.
  rewrite !app_nil_r in Hp. rewrite Hp.
  rewrite fold_digits_value, Hval. f_equal. lia.
Qed.

(** X10. The item range of a patron information request parses back as
    the numbers given: in the frame of the request [parseFields] finds the
    [BP] and [BQ] fields, and [parseInt] reads from them the start and the
    end item (1 and 5 when omitted), provided they are integers from 0 to
    [2^53 - 1], the range in which [String] writes every digit of a number
    and [parseInt] reads every digit back. *)
Theorem item_range_parses_back (now : Date) (patronBarcode : jsstring)
    (summary : option PatronInformationSummary) (startItem endItem : option Z)
    (institutionId language : option jsstring) (seqNum : option Z) (frame : jsstring) :
  formatCommand now
    (CmdPatronInformation patronBarcode summary startItem endItem institutionId language)
    seqNum = Returned frame ->
  (0 <= default 1 startItem <= 9007199254740991)%Z ->
  (0 <= default 5 endItem <= 9007199254740991)%Z ->
  exists bp bq,
    parseFields frame !! js "BP" = Some bp /\ parseInt bp = Num (default 1%Z startItem)
    /\ parseFields frame !! js "BQ" = Some bq /\ parseInt bq = Num (default 5%Z endItem).
Proof.
  intros Hf [Hs _] [He _].
  exists (padStart (String_of (default 1%Z startItem)) 4 (js "0")),
         (padStart (String_of (default 5%Z endItem)) 4 (js "0")).
  split; [|split; [|split]].
  - apply (wire_values_parse_back _ _ _ _ "BP" _ Hf). cbn [wire_values].
    apply elem_of_cons. right. apply elem_of_cons. left. reflexivity.
  - apply parseInt_padStart, Hs.
  - apply (wire_values_parse_back _ _ _ _ "BQ" _ Hf). cbn [wire_values].
    apply elem_of_cons. right. apply elem_of_cons. right. apply elem_of_cons. left. reflexivity.
  - apply parseInt_padStart, He.
Qed.

Lemma item_range_parses_back_witness :
  exists frame bp bq,
    formatCommand example_now
      (CmdPatronInformation (js "P12345") None (Some 3%Z) (Some 12%Z) None None) None
    = Returned frame
    /\ parseFields frame !! js "BP" = Some bp /\ parseInt bp = Num 3
    /\ parseFields frame !! js "BQ" = Some bq /\ parseInt bq = Num 12.
Proof.
  destruct (formatCommand example_now
              (CmdPatronInformation (js "P12345") None (Some 3%Z) (Some 12%Z) None None) None)
    as [frame|e] eqn:E; [|vm_compute in E; discriminate].
  destruct (item_range_parses_back _ _ _ _ _ _ _ _ frame E) as (bp & bq & H);
    [simpl; lia|simpl; lia|].
  exists frame, bp, bq. split; [reflexivity|exact H].
Defined.

(** ** Masking: whole payloads *)

(** Induction on the values of JSON. *)
Lemma jsvalue_induction (P : jsvalue -> Prop) :
  P VUndefined -> P VNull -> (forall b, P (VBool b)) -> (forall n, P (VNumber n)) ->
  (forall s, P (VString s)) ->
  (forall items, Forall P items -> P (VArray items)) ->
  (forall entries, Forall (fun e => P (snd e)) entries -> P (VObject entries)) ->
  forall v, P v.
Proof.
  intros HU HN HB HNum HS HA HO.
  fix IH 1. intros [| |b|n|s|items|entries].
  - exact HU.
  - exact HN.
  - apply HB.
  - apply HNum.
  - apply HS.
  - apply HA. induction items as [|x items IHitems]; [apply Forall_nil_2|].
    apply Forall_cons_2; [apply IH|exact IHitems].
  - apply HO. induction entries as [|[k x] entries IHentries]; [apply Forall_nil_2|].
    apply Forall_cons_2; [apply IH|exact IHentries].
Qed.

Lemma maskPayload_array masterKey items :
  maskPayload masterKey (VArray items)
  = VArray <$> outcome_mapM (maskPayload masterKey) items.
Proof.
  cbn [maskPayload truthy_value negb]. f_equal.
  induction items as [|x items IH]; [reflexivity|].
  cbn [outcome_mapM]. rewrite <- IH. reflexivity.
Qed.

Lemma obj_put_fresh (masked : list (jsstring * jsvalue)) (key : jsstring) (v : jsvalue) :
  key ∉ map fst masked -> obj_put masked key v = masked ++ [(key, v)].
Proof.
  induction masked as [|[k w] masked IH]; intros Hk; [reflexivity|].
  cbn [obj_put app]. cbn [map fst] in Hk.
  apply not_elem_of_cons in Hk as [Hne Hk].
  rewrite bool_decide_eq_false_2 by congruence. rewrite (IH Hk). reflexivity.
Qed.

(** An assignment to a key the object does not have adds the entry at the
    end, unless the key is [__proto__], which adds nothing. *)
Lemma obj_set_fresh (masked : list (jsstring * jsvalue)) (key : jsstring) (v : jsvalue) :
  key ∉ map fst masked -> obj_set masked key v = masked ++ own_entries [(key, v)].
Proof.
  intros Hk. unfold obj_set, own_entries.
  destruct (bool_decide_reflect (key = js "__proto__")) as [E|E].
  - rewrite filter_cons_False by (cbn [fst]; intros H; exact (H E)).
    rewrite filter_nil, app_nil_r. reflexivity.
  - rewrite filter_cons_True by exact E. rewrite filter_nil. apply obj_put_fresh, Hk.
Qed.

Lemma own_entries_cons (e : jsstring * jsvalue) (out : list (jsstring * jsvalue)) :
  own_entries (e :: out) = own_entries [e] ++ own_entries out.
Proof. unfold own_entries. apply (filter_app _ [e] out). Qed.

Lemma own_entries_keys (out : list (jsstring * jsvalue)) :
  map fst (own_entries out) = filter (fun k => k <> js "__proto__") (map fst out).
Proof.
  unfold own_entries. induction out as [|[k v] out IH]; [reflexivity|]. cbn [map fst].
  destruct (decide (k = js "__proto__")) as [E|E].
  - rewrite !filter_cons_False by (cbn [fst]; intros H; exact (H E)). exact IH.
  - rewrite !filter_cons_True by exact E. cbn [map fst]. rewrite IH. reflexivity.
Qed.

Lemma own_entries_id (out : list (jsstring * jsvalue)) :
  Forall (fun e => fst e <> js "__proto__") out -> own_entries out = out.
Proof.
  intros H. unfold own_entries. induction H as [|e out He _ IH]; [reflexivity|].
  rewrite filter_cons_True by exact He. rewrite IH. reflexivity.
Qed.

Lemma own_entries_elem (e : jsstring * jsvalue) (out : list (jsstring * jsvalue)) :
  e ∈ out -> fst e <> js "__proto__" -> e ∈ own_entries out.
Proof. intros Hin Hne. apply list_elem_of_filter. split; assumption. Qed.

Lemma mask_entry_key masterKey entry out :
  mask_entry masterKey entry = Returned out -> fst out = fst entry.
Proof.
  destruct entry as [k v]. unfold mask_entry.
  destruct (is_secret_key k); [intros [= <-]; reflexivity|].
  destruct (is_pii_key k).
  - destruct v as [| |b|n|s|items|es]; try (intros [= <-]; reflexivity).
    destruct (mask masterKey s); cbn [fmap outcome_fmap]; [intros [= <-]; reflexivity|discriminate].
  - destruct (maskPayload masterKey v); cbn [fmap outcome_fmap];
      [intros [= <-]; reflexivity|discriminate].
Qed.

(** The loop over the entries of an object with their keys once: each
    entry is stored after those before it, but for [__proto__]. *)
Lemma maskPayload_object masterKey entries :
  distinct_keys entries ->
  maskPayload masterKey (VObject entries)
  = (fun out => VObject (own_entries out)) <$> outcome_mapM (mask_entry masterKey) entries.
Proof.
  intros Hnd. cbn [maskPayload truthy_value negb].
  match goal with
  | |- VObject <$> ?F' entries [] = _ => set (F := F')
  end.
  assert (H : forall l masked,
            NoDup (map fst l) -> (forall k, k ∈ map fst l -> k ∉ map fst masked) ->
            F l masked
            = (fun out => masked ++ own_entries out) <$> outcome_mapM (mask_entry masterKey) l).
  { clear Hnd. induction l as [|[k v] l IH]; intros masked Hnd Hfresh.
    - cbn [outcome_mapM fmap outcome_fmap]. rewrite app_nil_r. reflexivity.
    - cbn [map fst] in Hnd, Hfresh. apply NoDup_cons in Hnd as [Hk Hnd].
      assert (Hkm : k ∉ map fst masked) by (apply Hfresh; left).
      assert (Hstep : forall v',
                (forall k', k' ∈ map fst l -> k' ∉ map fst (obj_set masked k v'))).
      { intros v' k' Hk'. rewrite (obj_set_fresh masked k v' Hkm), map_app.
        intros Hin. apply elem_of_app in Hin as [Hin|Hin].
        - apply (Hfresh k'); [right; exact Hk'|exact Hin].
        - rewrite own_entries_keys in Hin. apply list_elem_of_filter in Hin as [_ Hin].
          cbn [map fst] in Hin. apply list_elem_of_singleton in Hin. subst k'. contradiction. }
      assert (Hrest : forall v',
                F l (obj_set masked k v')
                = (fun out => masked ++ own_entries out)
                    <$> ((fun ys => (k, v') :: ys) <$> outcome_mapM (mask_entry masterKey) l)).
      { intros v'. rewrite (IH _ Hnd (Hstep v')), (obj_set_fresh masked k v' Hkm).
        destruct (outcome_mapM (mask_entry masterKey) l) as [ys|e]; cbn [fmap outcome_fmap];
          [|reflexivity].
        rewrite (own_entries_cons (k, v') ys), <- app_assoc. reflexivity. }
      unfold F at 1. fold F. cbn [outcome_mapM mask_entry].
      destruct (is_secret_key k).
      + cbn [mbind outcome_bind]. rewrite Hrest.
        destruct (outcome_mapM (mask_entry masterKey) l); reflexivity.
      + destruct (is_pii_key k).
        * destruct v as [| |b|n|s|items|es];
            try (cbn [mbind outcome_bind]; rewrite Hrest;
                 destruct (outcome_mapM (mask_entry masterKey) l); reflexivity).
          destruct (mask masterKey s) as [m|e]; cbn [fmap outcome_fmap mbind outcome_bind];
            [|reflexivity].
          rewrite Hrest. destruct (outcome_mapM (mask_entry masterKey) l); reflexivity.
        * destruct (maskPayload masterKey v) as [v'|e];
            cbn [fmap outcome_fmap mbind outcome_bind]; [|reflexivity].
          rewrite Hrest. destruct (outcome_mapM (mask_entry masterKey) l); reflexivity. }
  rewrite (H entries [] Hnd).
  - destruct (outcome_mapM (mask_entry masterKey) entries); reflexivity.
  - intros k _ Hin. inversion Hin.
Qed.

Lemma outcome_mapM_Returned {A B} (f : A -> outcome B) (l : list A) (out : list B) :
  outcome_mapM f l = Returned out <-> Forall2 (fun x y => f x = Returned y) l out.
Proof.
  revert out. induction l as [|x l IH]; intros out; cbn [outcome_mapM].
  - split; [intros [= <-]; apply Forall2_nil_2|intros H; inversion H; reflexivity].
  - split.
    + destruct (f x) as [y|e] eqn:E; cbn [mbind outcome_bind]; [|discriminate].
      destruct (outcome_mapM f l) as [ys|e] eqn:El; cbn [mbind outcome_bind mret outcome_ret];
        [|discriminate].
      intros [= <-]. apply Forall2_cons_2; [exact E|]. apply IH. reflexivity.
    + intros H. inversion H as [|x' y l' ys Hy Hys]; subst.
      rewrite Hy. cbn [mbind outcome_bind]. apply IH in Hys. rewrite Hys. reflexivity.
Qed.

Lemma outcome_mapM_Thrown {A B} (f : A -> outcome B) (l : list A) (e : SipError) :
  outcome_mapM f l = Thrown e -> exists x, x ∈ l /\ f x = Thrown e.
Proof.
  induction l as [|x l IH]; cbn [outcome_mapM]; [discriminate|].
  destruct (f x) as [y|e'] eqn:E; cbn [mbind outcome_bind].
  - destruct (outcome_mapM f l) as [ys|e'] eqn:El; cbn [mbind outcome_bind mret outcome_ret];
      [discriminate|].
    intros [= ->]. destruct (IH eq_refl) as (x' & Hin & Hx'). exists x'. split; [right|]; assumption.
  - intros [= ->]. exists x. split; [left|exact E].
Qed.

Lemma mask_Thrown masterKey data e :
  mask masterKey data = Thrown e -> e = MasterKeyMissing /\ truthy masterKey = false.
Proof.
  unfold mask. destruct data as [|c data]; [discriminate|].
  destruct (truthy masterKey); cbn [negb]; [discriminate|]. intros [= <-]. auto.
Qed.

(** Whatever the payload is, the one error [maskPayload] can raise is that
    of [mask], and only without a master key. *)
Lemma maskPayload_Thrown masterKey payload :
  forall e, maskPayload masterKey payload = Thrown e ->
            e = MasterKeyMissing /\ truthy masterKey = false.
Proof.
  induction payload as [| |b|n|s|items IH|entries IH] using jsvalue_induction; intros e;
    try (cbn [maskPayload]; destruct (negb _); discriminate).
  - rewrite maskPayload_array.
    destruct (outcome_mapM (maskPayload masterKey) items) as [out|e'] eqn:E;
      cbn [fmap outcome_fmap]; [discriminate|].
    intros [= ->]. apply outcome_mapM_Thrown in E as (x & Hin & Hx).
    rewrite Forall_forall in IH. exact (IH x Hin e Hx).
  - cbn [maskPayload truthy_value negb].
    match goal with
    | |- context [?F' entries []] => set (F := F')
    end.
    assert (H : forall masked, F entries masked = Thrown e ->
                               e = MasterKeyMissing /\ truthy masterKey = false).
    { induction entries as [|[k v] entries IHe]; intros masked; [discriminate|].
      apply Forall_cons in IH as [IHv IH]. cbn [snd] in IHv. specialize (IHe IH).
      unfold F at 1. fold F.
      destruct (is_secret_key k); [apply IHe|].
      destruct (is_pii_key k).
      - destruct v as [| |b|n|s|items|es]; cbn [mbind outcome_bind]; try apply IHe.
        destruct (mask masterKey s) as [m|e'] eqn:Em; cbn [fmap outcome_fmap mbind outcome_bind];
          [apply IHe|].
        intros [= ->]. exact (mask_Thrown _ _ _ Em).
      - destruct (maskPayload masterKey v) as [v'|e'] eqn:Ev; cbn [mbind outcome_bind];
          [apply IHe|].
        intros [= ->]. exact (IHv e eq_refl). }
    destruct (F entries []) as [out|e'] eqn:E; cbn [fmap outcome_fmap]; [discriminate|].
    intros [= ->]. exact (H [] E).
Qed.

(** X11. With a master key configured [maskPayload] returns a value for
    every payload; without one the only error it raises is
    [MasterKeyMissing]. *)
Theorem maskPayload_total_with_key (masterKey : option jsstring) (payload : jsvalue) :
  (truthy masterKey = true -> exists v, maskPayload masterKey payload = Returned v)
  /\ (forall e, maskPayload masterKey payload = Thrown e -> e = MasterKeyMissing).
Proof.
  split.
  - intros Hk. destruct (maskPayload masterKey payload) as [v|e] eqn:E; [eauto|].
    apply maskPayload_Thrown in E as [_ E]. congruence.
  - intros e E. apply maskPayload_Thrown in E. tauto.
Qed.

Lemma maskPayload_total_with_key_witness :
  exists v,
    maskPayload (Some example_key)
      (VObject [(js "request", VObject [(js "patronBarcode", VString (js "P12345"))]);
                (js "items", VArray [VString (js "a"); VNull])])
    = Returned v.
Proof.
  apply (maskPayload_total_with_key (Some example_key)). reflexivity.
Defined.

Lemma secret_key_not_proto (k : jsstring) : is_secret_key k = true -> k <> js "__proto__".
Proof. intros H ->. vm_compute in H. discriminate. Qed.

Lemma pii_key_not_proto (k : jsstring) : is_pii_key k = true -> k <> js "__proto__".
Proof. intros H ->. vm_compute in H. discriminate. Qed.

(** X12. [maskPayload] applies to each value of an object the rule of its
    key and keeps the entries in their order, but for an entry under
    [__proto__], which the object it builds does not keep: on an object with
    its keys once, the result is the entries mapped by [mask_entry], without
    the one under [__proto__]; so the keys of the result are the keys of the
    payload other than [__proto__], a string under a password or PIN key
    becomes ["********"], and a string under a patron, item or name key
    becomes its mask. *)
Theorem maskPayload_entrywise (masterKey : option jsstring)
    (entries : list (jsstring * jsvalue)) :
  distinct_keys entries ->
  maskPayload masterKey (VObject entries)
  = (fun out => VObject (own_entries out)) <$> outcome_mapM (mask_entry masterKey) entries
  /\ (forall v, maskPayload masterKey (VObject entries) = Returned v ->
      exists out,
        v = VObject out
        /\ map fst out = filter (fun k => k <> js "__proto__") (map fst entries)
        /\ (forall k s, (k, VString s) ∈ entries -> is_secret_key k = true ->
              (k, VString (js "********")) ∈ out)
        /\ (forall k s, (k, VString s) ∈ entries ->
              is_secret_key k = false -> is_pii_key k = true ->
              exists m, mask masterKey s = Returned m /\ (k, VString m) ∈ out)).
Proof.
  intros Hnd. pose proof (maskPayload_object masterKey entries Hnd) as E.
  split; [exact E|]. intros v Hv. rewrite E in Hv.
  destruct (outcome_mapM (mask_entry masterKey) entries) as [out|e] eqn:Em;
    cbn [fmap outcome_fmap] in Hv; [|discriminate].
  apply Returned_inj in Hv. subst v. exists (own_entries out). split; [reflexivity|].
  apply outcome_mapM_Returned in Em.
  assert (Hall : forall entry, entry ∈ entries ->
                   exists o, o ∈ out /\ mask_entry masterKey entry = Returned o).
  { intros entry Hin. apply list_elem_of_lookup in Hin as [i Hi].
    destruct (Forall2_lookup_l _ _ _ _ _ Em Hi) as (o & Ho & Hm).
    exists o. split; [exact (list_elem_of_lookup_2 _ _ _ Ho)|exact Hm]. }
  split; [|split].
  - rewrite own_entries_keys. f_equal.
    clear Hall Hnd E. induction Em as [|x y l ys Hy _ IH]; [reflexivity|].
    cbn [map]. rewrite IH, (mask_entry_key _ _ _ Hy). reflexivity.
  - intros k s Hin Hs. destruct (Hall _ Hin) as (o & Ho & Hm).
    unfold mask_entry in Hm. rewrite Hs in Hm. apply Returned_inj in Hm. subst o.
    apply own_entries_elem; [exact Ho|exact (secret_key_not_proto k Hs)].
  - intros k s Hin Hs Hp. destruct (Hall _ Hin) as (o & Ho & Hm).
    unfold mask_entry in Hm. rewrite Hs, Hp in Hm.
    destruct (mask masterKey s) as [m|e]; cbn [fmap outcome_fmap] in Hm; [|discriminate].
    apply Returned_inj in Hm. subst o. exists m. split; [reflexivity|].
    apply own_entries_elem; [exact Ho|exact (pii_key_not_proto k Hp)].
Qed.

Lemma maskPayload_entrywise_witness :
  maskPayload (Some example_key)
    (VObject [(js "branchId", VString (js "main")); (js "patronPin", VString (js "1234"));
              (js "__proto__", VObject [(js "b", VString (js "x"))]);
              (js "AA", VString (js "P12345"))])
  = Returned
      (VObject [(js "branchId", VString (js "main"));
                (js "patronPin", VString (js "********"));
                (js "AA", VString (js "MASKED_77f9028c7078acb5"))]).
Proof.
  destruct (maskPayload_entrywise (Some example_key)
              [(js "branchId", VString (js "main")); (js "patronPin", VString (js "1234"));
               (js "__proto__", VObject [(js "b", VString (js "x"))]);
               (js "AA", VString (js "P12345"))]) as [H _].
  - apply (bool_decide_eq_true_1 (NoDup _)). vm_compute. reflexivity.
  - rewrite H. vm_compute. reflexivity.
Defined.

(** *** Payloads without a sensitive key *)

Lemma insensitive_array items :
  insensitive (VArray items) <-> Forall insensitive items.
Proof.
  cbn [insensitive]. induction items as [|x items IH].
  - split; [intros _; apply Forall_nil_2|auto].
  - rewrite Forall_cons, <- IH. reflexivity.
Qed.

Lemma insensitive_object entries :
  insensitive (VObject entries)
  <-> distinct_keys entries
      /\ Forall (fun e => is_secret_key (fst e) = false /\ is_pii_key (fst e) = false
                          /\ fst e <> js "__proto__" /\ insensitive (snd e)) entries.
Proof.
  cbn [insensitive]. apply and_iff_compat_l.
  induction entries as [|[k x] entries IH].
  - split; [intros _; apply Forall_nil_2|auto].
  - rewrite Forall_cons, <- IH. cbn [fst snd]. tauto.
Qed.

Lemma outcome_mapM_id {A} (f : A -> outcome A) (l : list A) :
  Forall (fun x => f x = Returned x) l -> outcome_mapM f l = Returned l.
Proof.
  intros H. apply outcome_mapM_Returned.
  induction H; [apply Forall2_nil_2|apply Forall2_cons_2; assumption].
Qed.

Lemma maskPayload_insensitive masterKey payload :
  insensitive payload -> maskPayload masterKey payload = Returned payload.
Proof.
  induction payload as [| |b|n|s|items IH|entries IH] using jsvalue_induction; intros Hi;
    try (cbn [maskPayload]; destruct (negb _); reflexivity).
  - apply insensitive_array in Hi. rewrite maskPayload_array, outcome_mapM_id; [reflexivity|].
    rewrite Forall_forall in *. intros x Hx. exact (IH x Hx (Hi x Hx)).
  - apply insensitive_object in Hi as [Hnd Hi].
    rewrite (maskPayload_object masterKey entries Hnd), outcome_mapM_id.
    + cbn [fmap outcome_fmap]. rewrite own_entries_id; [reflexivity|].
      eapply Forall_impl; [exact Hi|]. intros e (_ & _ & He & _). exact He.
    + rewrite Forall_forall in *. intros [k x] Hx.
      destruct (Hi _ Hx) as (Hs & Hp & _ & Hx'). pose proof (IH _ Hx Hx') as E.
      cbn [fst snd] in Hs, Hp, E.
      unfold mask_entry. rewrite Hs, Hp, E. reflexivity.
Qed.

(** X13. [maskPayload] leaves alone what has no sensitive key: a payload
    in which no object has a password, PIN, patron, item or name key, nor
    the key [__proto__], comes back unchanged, with or without a master
    key. *)
Theorem maskPayload_keeps_insensitive (masterKey : option jsstring) (payload : jsvalue) :
  insensitive payload -> maskPayload masterKey payload = Returned payload.
Proof. apply maskPayload_insensitive. Qed.

Lemma maskPayload_keeps_insensitive_witness :
  let payload :=
    VObject [(js "action", VString (js "SCStatus")); (js "branchId", VString (js "main"));
             (js "response", VObject [(js "onlineStatus", VBool true);
                                      (js "retriesAllowed", VNumber (Num 3))])] in
  maskPayload None payload = Returned payload.
Proof.
  cbv zeta. apply maskPayload_keeps_insensitive.
  cbn [insensitive]. unfold distinct_keys.
  repeat split; try reflexivity; try discriminate;
    apply (bool_decide_eq_true_1 (NoDup _)); vm_compute; reflexivity.
Defined.

(** ** Connection manager: what every reachable manager satisfies *)









(** ** Connection manager: the rejections of [getClient] *)

Lemma set_breaker_id (m : Manager) (branch : jsstring) (b : CircuitBreaker) :
  breakers m !! branch = Some b -> set_breaker m branch b = m.
Proof.
  intros Hb. destruct m as [cl cf br]. unfold set_breaker. cbn [clients configs breakers] in *.
  f_equal. apply insert_id, Hb.
Qed.

Lemma getClient_open_early m branch b t now login :
  breakers m !! branch = Some b -> state b = OPEN -> nextRetryAt b = Some t -> (now < t)%Z ->
  getClient m branch now login = (m, Thrown (CircuitOpen branch (Some t))).
Proof.
  intros Hb Hs Ht Hnow. unfold getClient, getBreaker. rewrite Hb.
  assert (E : retry_due b now = false).
  { unfold retry_due. rewrite Ht. apply andb_false_iff. right.
    apply andb_false_iff. right. apply Z.leb_gt, Hnow. }
  rewrite E. cbv zeta. rewrite (bool_decide_eq_true_2 _ Hs), Ht.
  rewrite (set_breaker_id m branch b Hb). reflexivity.
Qed.

Lemma getClient_probe_locked m branch b now login :
  breakers m !! branch = Some b -> state b = HALF_OPEN -> halfOpenLocked b = true ->
  getClient m branch now login = (m, Thrown (ProbeInFlight branch)).
Proof.
  intros Hb Hs Hl. unfold getClient, getBreaker. rewrite Hb.
  assert (E : retry_due b now = false).
  { unfold retry_due. rewrite bool_decide_eq_false_2; [reflexivity|]. rewrite Hs. discriminate. }
  rewrite E. cbv zeta.
  rewrite (bool_decide_eq_false_2 (state b = OPEN)) by (rewrite Hs; discriminate).
  rewrite (bool_decide_eq_true_2 _ Hs), Hl. cbn [andb].
  rewrite (set_breaker_id m branch b Hb). reflexivity.
Qed.

(** The breaker in [HALF_OPEN] after a [getClient] that found the retry due. *)
Lemma getClient_probe_first m branch b t now login :
  breakers m !! branch = Some b -> state b = OPEN -> nextRetryAt b = Some t ->
  (0 < t)%Z -> (t <= now)%Z ->
  breakers (fst (getClient m branch now login)) !! branch
  = Some {| state := HALF_OPEN; failureCount := failureCount b;
            lastFailureAt := lastFailureAt b; nextRetryAt := nextRetryAt b;
            backoffIndex := backoffIndex b; halfOpenLocked := true |}
  /\ forall e, snd (getClient m branch now login) = Thrown e ->
               (branch ∉ clients m) /\ login = Thrown e.
Proof.
  intros Hb Hs Ht Hpos Hnow. unfold getClient, getBreaker. rewrite Hb.
  assert (E : retry_due b now = true).
  { unfold retry_due. rewrite Ht, bool_decide_eq_true_2 by exact Hs.
    apply andb_true_iff. split; [reflexivity|]. apply andb_true_iff.
    split; [apply negb_true_iff, Z.eqb_neq; lia|apply Z.leb_le, Hnow]. }
  rewrite E. cbv zeta. cbn [state halfOpenLocked failureCount lastFailureAt nextRetryAt
                              backoffIndex].
  rewrite (bool_decide_eq_false_2 (HALF_OPEN = OPEN)) by discriminate.
  rewrite (bool_decide_eq_true_2 (HALF_OPEN = HALF_OPEN)) by reflexivity.
  cbn [andb].
  match goal with
  | |- context [bool_decide (branch ∈ ?s)] =>
      destruct (bool_decide_reflect (branch ∈ s)) as [Hin|Hin]
  end.
  - cbn [fst snd]. split; [apply lookup_insert_eq|discriminate].
  - match goal with
    | |- context [if ?c then login else Returned ()] => destruct c
    end.
    + destruct login as [[]|e']; cbn [fst snd breakers]; (split; [apply lookup_insert_eq|]);
        [discriminate|]. intros e [= ->]. auto.
    + cbn [fst snd breakers]. split; [apply lookup_insert_eq|discriminate].
Qed.

(** X15. One probe at a time: once the retry time of an open breaker has
    come, the first [getClient] puts the breaker in [HALF_OPEN] and locks it,
    whether the login succeeds or not; every further [getClient] raises
    [ProbeInFlight] and leaves the manager as it is, until a success or a
    failure is recorded. *)
Theorem half_open_single_probe (m : Manager) (branch : jsstring) (b : CircuitBreaker)
    (t now : Z) (login : outcome ()) :
  breakers m !! branch = Some b -> state b = OPEN -> nextRetryAt b = Some t ->
  (0 < t)%Z -> (t <= now)%Z ->
  let m1 := fst (getClient m branch now login) in
  (exists b1, breakers m1 !! branch = Some b1
              /\ state b1 = HALF_OPEN /\ halfOpenLocked b1 = true)
  /\ (forall now' login',
        getClient m1 branch now' login' = (m1, Thrown (ProbeInFlight branch))).
Proof.
  intros Hb Hs Ht Hpos Hnow. cbv zeta.
  destruct (getClient_probe_first m branch b t now login Hb Hs Ht Hpos Hnow) as [H1 _].
  split; [eexists; split; [exact H1|split; reflexivity]|].
  intros now' login'. exact (getClient_probe_locked _ branch _ now' login' H1 eq_refl eq_refl).
Qed.

Lemma half_open_single_probe_witness :
  let m1 := fst (getClient (example_failures 3) (js "main") 1200 (Returned ())) in
  (exists b1, breakers m1 !! js "main" = Some b1
              /\ state b1 = HALF_OPEN /\ halfOpenLocked b1 = true)
  /\ getClient m1 (js "main") 1201 (Returned ()) = (m1, Thrown (ProbeInFlight (js "main"))).
Proof.
  cbv zeta.
  set (b3 := default initial_breaker (breakers (example_failures 3) !! js "main")).
  assert (L3 : breakers (example_failures 3) !! js "main" = Some b3) by (vm_compute; reflexivity).
  destruct (half_open_single_probe (example_failures 3) (js "main") b3 1200 1200 (Returned ()) L3)
    as [H1 H2]; [reflexivity|reflexivity|lia|lia|].
  split; [exact H1|apply H2].
Defined.

(** ** Connection manager: one transaction, [_executeInner] *)

Lemma gate_message_open iso failure branch t :
  isCircuitGate (error_message iso failure (CircuitOpen branch t)) = true.
Proof.
  unfold isCircuitGate, error_message. apply orb_true_iff. left.
  apply includes_occurs.
  exists (js "Circuit for branch " ++ branch ++ js " "), (js ". Next retry at " ++ iso t).
  rewrite <- !app_assoc. reflexivity.
Qed.

Lemma gate_message_probe iso failure branch :
  isCircuitGate (error_message iso failure (ProbeInFlight branch)) = true.
Proof.
  unfold isCircuitGate, error_message. apply orb_true_iff. right.
  apply includes_occurs.
  exists (js "Circuit for branch " ++ branch ++ js " is HALF_OPEN ("), (js ")").
  rewrite <- !app_assoc. reflexivity.
Qed.

(** What a [getClient] that returns a client leaves behind. *)
Lemma getClient_Returned m branch now login m1 :
  getClient m branch now login = (m1, Returned ()) ->
  exists b1, breakers m1 !! branch = Some b1 /\ state b1 <> OPEN /\ branch ∈ clients m1.
Proof.
  unfold getClient, getBreaker. destruct (breakers m !! branch) as [b|]; [|discriminate].
  cbv zeta.
  set (b0 := if retry_due b now then _ else b).
  destruct (bool_decide_reflect (state b0 = OPEN)) as [|Hopen]; [discriminate|].
  destruct (bool_decide (state b0 = HALF_OPEN) && halfOpenLocked b0); [discriminate|].
  set (b1 := if bool_decide (state b0 = HALF_OPEN) then _ else b0).
  assert (Hb1 : state b1 <> OPEN).
  { subst b1. destruct (bool_decide (state b0 = HALF_OPEN)); exact Hopen. }
  match goal with
  | |- context [bool_decide (branch ∈ ?s)] =>
      destruct (bool_decide_reflect (branch ∈ s)) as [Hin|Hin]
  end.
  - intros [= <-]. exists b1. split; [apply lookup_insert_eq|]. split; assumption.
  - match goal with
    | |- context [if ?c then login else Returned ()] =>
        destruct (if c then login else Returned ()) as [[]|e]
    end; [|discriminate].
    intros [= <-]. exists b1. cbn [breakers clients].
    split; [apply lookup_insert_eq|]. split; [assumption|]. set_solver.
Qed.

Lemma recordSuccess_Returned m branch b :
  breakers m !! branch = Some b ->
  exists m', recordSuccess m branch = Returned m'
             /\ clients m' = clients m
             /\ breakers m' !! branch
                = Some {| state := CLOSED; failureCount := 0;
                          lastFailureAt := lastFailureAt b; nextRetryAt := None;
                          backoffIndex := 0; halfOpenLocked := false |}.
Proof.
  intros Hb. unfold recordSuccess, getBreaker. rewrite Hb. cbn [mbind outcome_bind mret outcome_ret].
  eexists. split; [reflexivity|]. split; [reflexivity|]. apply lookup_insert_eq.
Qed.

Lemma transaction_log_masked masterKey actionName branchId requestPayload result timestamp :
  maskPayload masterKey (transaction_log actionName branchId requestPayload result timestamp)
  = request' ← maskPayload masterKey requestPayload;
    response' ← maskPayload masterKey result;
    Returned (transaction_log actionName branchId request' response' timestamp).
Proof.
  unfold transaction_log. rewrite maskPayload_object.
  2:{ unfold distinct_keys.
      match goal with
      | |- NoDup ?l => apply (bool_decide_eq_true_1 (NoDup l)); vm_compute; reflexivity
      end. }
  cbn [outcome_mapM].
  assert (Hs : forall key s, is_secret_key key = false -> is_pii_key key = false ->
                 mask_entry masterKey (key, VString s) = Returned (key, VString s)).
  { intros key s H1 H2. unfold mask_entry. rewrite H1, H2.
    destruct s; reflexivity. }
  assert (Hv : forall key v, is_secret_key key = false -> is_pii_key key = false ->
                 mask_entry masterKey (key, v)
                 = (fun v' => (key, v')) <$> maskPayload masterKey v).
  { intros key v H1 H2. unfold mask_entry. rewrite H1, H2. reflexivity. }
  rewrite !Hs by (vm_compute; reflexivity).
  rewrite !Hv by (vm_compute; reflexivity).
  cbn [mbind outcome_bind].
  destruct (maskPayload masterKey requestPayload) as [q|e]; cbn [fmap outcome_fmap mbind outcome_bind];
    [|reflexivity].
  destruct (maskPayload masterKey result) as [r|e]; cbn [fmap outcome_fmap mbind outcome_bind];
    reflexivity.
Qed.

(** X16. Fail fast: while the breaker of a branch is open and its retry time
    has not come, or while a probe is in flight, [_executeInner] raises the
    gate error without consulting the login or the action, records no
    failure (the manager is unchanged, so the backoff is not extended) and
    logs nothing. *)
Theorem rejected_transaction_changes_nothing (node_env_test : bool)
    (masterKey : option jsstring) (iso : option Z -> jsstring) (failure : jsstring)
    (m : Manager) (branchId actionName : jsstring) (requestPayload : jsvalue)
    (now : Z) (login : outcome ()) (action : outcome jsvalue) (timestamp : jsstring)
    (now1 now2 : Z) (b : CircuitBreaker) :
  breakers m !! branchId = Some b ->
  (state b = OPEN -> exists t, nextRetryAt b = Some t /\ (now < t)%Z) ->
  (state b = HALF_OPEN -> halfOpenLocked b = true) ->
  state b <> CLOSED ->
  _executeInner node_env_test masterKey iso failure m branchId actionName requestPayload
    now login action timestamp now1 now2
  = (m, Thrown (match state b with
                | OPEN => CircuitOpen branchId (nextRetryAt b)
                | _ => ProbeInFlight branchId
                end), None).
Proof.
  intros Hb Hopen Hhalf Hclosed. unfold _executeInner.
  destruct (state b) eqn:Hs; [congruence| |].
  - destruct (Hopen eq_refl) as (t & Ht & Hnow).
    rewrite (getClient_open_early m branchId b t now login Hb Hs Ht Hnow).
    rewrite gate_message_open, Ht. reflexivity.
  - rewrite (getClient_probe_locked m branchId b now login Hb Hs (Hhalf eq_refl)).
    rewrite gate_message_probe. reflexivity.
Qed.

Lemma rejected_transaction_changes_nothing_witness :
  _executeInner true None (fun _ => js "1970-01-01T00:00:01.200Z") (js "timeout")
    (example_failures 3) (js "main") (js "Checkout") VNull
    1050 (Returned ()) (Returned VNull) (js "2026-02-21T12:00:00.000Z") 1050 1050
  = (example_failures 3, Thrown (CircuitOpen (js "main") (Some 1200%Z)), None).
Proof.
  set (b3 := default initial_breaker (breakers (example_failures 3) !! js "main")).
  assert (L3 : breakers (example_failures 3) !! js "main" = Some b3) by (vm_compute; reflexivity).
  etransitivity;
    [refine (rejected_transaction_changes_nothing true None _ _ _ _ _ _ 1050 _ _ _ 1050 1050 b3
               L3 _ _ _)|vm_compute; reflexivity].
  - intros _. exists 1200%Z. split; [reflexivity|lia].
  - intros H. vm_compute in H. discriminate.
  - intros H. vm_compute in H. discriminate.
Defined.

(** X17. A transaction that succeeds: when [getClient] hands out a client,
    the action returns and a master key is configured, [_executeInner]
    returns the result of the action, closes the breaker of the branch
    (failure count and backoff index zero, no retry time, probe lock
    released) and logs the action name, the branch and the timestamp in
    clear with the masked request and the masked response. *)
Theorem successful_transaction (node_env_test : bool)
    (masterKey : option jsstring) (iso : option Z -> jsstring) (failure : jsstring)
    (m m1 : Manager) (branchId actionName : jsstring) (requestPayload result : jsvalue)
    (now : Z) (login : outcome ()) (timestamp : jsstring) (now1 now2 : Z) :
  getClient m branchId now login = (m1, Returned ()) ->
  truthy masterKey = true ->
  exists m2 b2 request' response',
    _executeInner node_env_test masterKey iso failure m branchId actionName requestPayload
      now login (Returned result) timestamp now1 now2
    = (m2, Returned result,
       Some (transaction_log actionName branchId request' response' timestamp))
    /\ maskPayload masterKey requestPayload = Returned request'
    /\ maskPayload masterKey result = Returned response'
    /\ breakers m2 !! branchId = Some b2
    /\ state b2 = CLOSED /\ failureCount b2 = 0%nat /\ backoffIndex b2 = 0%nat
    /\ nextRetryAt b2 = None /\ halfOpenLocked b2 = false
    /\ branchId ∈ clients m2.
Proof.
  intros Hg Hk. unfold _executeInner. rewrite Hg.
  destruct (getClient_Returned _ _ _ _ _ Hg) as (b1 & Hb1 & _ & Hin).
  destruct (recordSuccess_Returned m1 branchId b1 Hb1) as (m2 & -> & Hcl & Hb2).
  rewrite transaction_log_masked.
  destruct (maskPayload masterKey requestPayload) as [q|e] eqn:Eq.
  2:{ apply maskPayload_Thrown in Eq as [_ Eq]. congruence. }
  destruct (maskPayload masterKey result) as [r|e] eqn:Er.
  2:{ apply maskPayload_Thrown in Er as [_ Er]. congruence. }
  cbn [mbind outcome_bind].
  eexists m2, _, q, r. split; [reflexivity|]. split; [reflexivity|]. split; [reflexivity|].
  split; [exact Hb2|]. cbn [state failureCount backoffIndex nextRetryAt halfOpenLocked].
  rewrite Hcl. tauto.
Qed.

Lemma successful_transaction_witness :
  exists m2 masked,
    _executeInner true (Some example_key) (fun _ => []) (js "timeout")
      (new_manager [example_config]) (js "main") (js "Checkout")
      (VObject [(js "patronBarcode", VString (js "P12345"));
                (js "itemBarcode", VString (js "I67890"))])
      1000 (Returned ()) (Returned (VObject [(js "ok", VBool true)]))
      (js "2026-02-21T12:00:00.000Z") 1000 1000
    = (m2, Returned (VObject [(js "ok", VBool true)]),
       Some (transaction_log (js "Checkout") (js "main") masked
               (VObject [(js "ok", VBool true)]) (js "2026-02-21T12:00:00.000Z"))).
Proof.
  destruct (successful_transaction true (Some example_key) (fun _ => []) (js "timeout")
              (new_manager [example_config])
              (fst (getClient (new_manager [example_config]) (js "main") 1000 (Returned ())))
              (js "main") (js "Checkout")
              (VObject [(js "patronBarcode", VString (js "P12345"));
                        (js "itemBarcode", VString (js "I67890"))])
              (VObject [(js "ok", VBool true)])
              1000 (Returned ()) (js "2026-02-21T12:00:00.000Z") 1000 1000)
    as (m2 & b2 & q & r & H & _ & Hr & _).
  - vm_compute. reflexivity.
  - reflexivity.
  - exists m2, q. rewrite H. vm_compute in Hr. injection Hr as <-. reflexivity.
Defined.

Lemma recordFailure_closed node_env_test m branch b now1 now2 :
  breakers m !! branch = Some b -> state b = CLOSED ->
  exists m' b',
    recordFailure node_env_test m branch now1 now2 = Returned m'
    /\ breakers m' !! branch = Some b'
    /\ failureCount b' = S (failureCount b)
    /\ if (FAILURE_THRESHOLD <=? S (failureCount b))%nat
       then state b' = OPEN
            /\ nextRetryAt b'
               = Some (now2 + backoff_at (BACKOFF_SCHEDULE node_env_test) (backoffIndex b))%Z
            /\ branch ∉ clients m'
       else state b' = CLOSED /\ clients m' = clients m.
Proof.
  intros Hb Hs. unfold recordFailure, getBreaker. rewrite Hb.
  cbn [mbind outcome_bind].
  rewrite (bool_decide_eq_false_2 (state b = HALF_OPEN)) by (rewrite Hs; discriminate).
  rewrite orb_false_r.
  destruct (FAILURE_THRESHOLD <=? S (failureCount b))%nat.
  - eexists _, _. split; [reflexivity|]. cbn [breakers clients].
    split; [apply lookup_insert_eq|]. split; [reflexivity|].
    split; [reflexivity|]. split; [reflexivity|].
    intros Hin. apply elem_of_difference in Hin as [_ Hin]. apply Hin, elem_of_singleton.
    reflexivity.
  - eexists _, _. split; [reflexivity|]. cbn [breakers clients].
    split; [apply lookup_insert_eq|]. split; [reflexivity|].
    split; [exact Hs|reflexivity].
Qed.

(** A [getClient] on a closed breaker changes no breaker record. *)
Lemma getClient_closed m branch b now login :
  breakers m !! branch = Some b -> state b = CLOSED ->
  breakers (fst (getClient m branch now login)) = breakers m
  /\ forall e, snd (getClient m branch now login) = Thrown e -> login = Thrown e.
Proof.
  intros Hb Hs. unfold getClient, getBreaker. rewrite Hb.
  assert (E : retry_due b now = false).
  { unfold retry_due. rewrite bool_decide_eq_false_2; [reflexivity|]. rewrite Hs. discriminate. }
  rewrite E. cbv zeta.
  rewrite (bool_decide_eq_false_2 (state b = OPEN)) by (rewrite Hs; discriminate).
  rewrite (bool_decide_eq_false_2 (state b = HALF_OPEN)) by (rewrite Hs; discriminate).
  cbn [andb]. rewrite !(set_breaker_id m branch b Hb).
  destruct (bool_decide (branch ∈ clients m)); [split; [reflexivity|discriminate]|].
  match goal with
  | |- context [if ?c then login else Returned ()] => destruct c
  end.
  - destruct login as [[]|e']; cbn [fst snd breakers]; (split; [reflexivity|]);
      [discriminate|]. intros e [= ->]. reflexivity.
  - cbn [fst snd breakers]. split; [reflexivity|discriminate].
Qed.

(** X18. A failed transaction is counted: on a closed breaker, when the
    action raises an error (or the login does, with a text that
    [isCircuitGate] does not match), [_executeInner] raises that error, logs
    nothing, and adds one to the failure count of the branch; when the count reaches
    [FAILURE_THRESHOLD] the breaker opens, its retry time is the clock plus
    the backoff of its index, and the client of the branch is dropped. *)
Theorem failed_transaction_is_counted (node_env_test : bool)
    (masterKey : option jsstring) (iso : option Z -> jsstring) (failure : jsstring)
    (m : Manager) (branchId actionName : jsstring) (requestPayload : jsvalue)
    (now : Z) (login : outcome ()) (err : SipError) (timestamp : jsstring)
    (now1 now2 : Z) (b : CircuitBreaker) :
  breakers m !! branchId = Some b -> state b = CLOSED ->
  (forall e, login = Thrown e -> isCircuitGate (error_message iso failure e) = false) ->
  exists m' b' e',
    _executeInner node_env_test masterKey iso failure m branchId actionName requestPayload
      now login (Thrown err) timestamp now1 now2
    = (m', Thrown e', None)
    /\ (e' = err \/ login = Thrown e')
    /\ breakers m' !! branchId = Some b'
    /\ failureCount b' = S (failureCount b)
    /\ if (FAILURE_THRESHOLD <=? S (failureCount b))%nat
       then state b' = OPEN
            /\ nextRetryAt b'
               = Some (now2 + backoff_at (BACKOFF_SCHEDULE node_env_test) (backoffIndex b))%Z
            /\ branchId ∉ clients m'
       else state b' = CLOSED.
Proof.
  intros Hb Hs Hlogin. unfold _executeInner.
  destruct (getClient_closed m branchId b now login Hb Hs) as [Hbr Herr].
  destruct (getClient m branchId now login) as [m1 [[]|e]]; cbn [fst snd] in Hbr, Herr.
  - assert (Hb1 : breakers m1 !! branchId = Some b) by (rewrite Hbr; exact Hb).
    destruct (recordFailure_closed node_env_test m1 branchId b now1 now2 Hb1 Hs)
      as (m' & b' & Hr & Hb' & Hc & Hst).
    unfold record_and_rethrow. rewrite Hr. exists m', b', err.
    split; [reflexivity|]. split; [left; reflexivity|]. split; [exact Hb'|].
    split; [exact Hc|]. destruct (FAILURE_THRESHOLD <=? S (failureCount b))%nat; tauto.
  - rewrite (Hlogin e (Herr e eq_refl)).
    assert (Hb1 : breakers m1 !! branchId = Some b) by (rewrite Hbr; exact Hb).
    destruct (recordFailure_closed node_env_test m1 branchId b now1 now2 Hb1 Hs)
      as (m' & b' & Hr & Hb' & Hc & Hst).
    unfold record_and_rethrow. rewrite Hr. exists m', b', e.
    split; [reflexivity|]. split; [right; exact (Herr e eq_refl)|]. split; [exact Hb'|].
    split; [exact Hc|]. destruct (FAILURE_THRESHOLD <=? S (failureCount b))%nat; tauto.
Qed.

Lemma failed_transaction_is_counted_witness :
  exists m' b',
    _executeInner true None (fun _ => []) (js "timeout")
      (example_failures 2) (js "main") (js "Checkout") VNull
      1000 (Returned ()) (Thrown ClientFailure) (js "2026-02-21T12:00:00.000Z") 1000 1000
    = (m', Thrown ClientFailure, None)
    /\ breakers m' !! js "main" = Some b'
    /\ failureCount b' = 3%nat /\ state b' = OPEN /\ nextRetryAt b' = Some 1200%Z
    /\ (js "main" ∉ clients m').
Proof.
  set (b2 := default initial_breaker (breakers (example_failures 2) !! js "main")).
  assert (L2 : breakers (example_failures 2) !! js "main" = Some b2) by (vm_compute; reflexivity).
  destruct (failed_transaction_is_counted true None (fun _ => []) (js "timeout")
              (example_failures 2) (js "main") (js "Checkout") VNull
              1000 (Returned ()) ClientFailure (js "2026-02-21T12:00:00.000Z") 1000 1000 b2 L2)
    as (m' & b' & e' & H & [->|He] & Hb' & Hc & Hst); [reflexivity|discriminate| |discriminate].
  exists m', b'. split; [exact H|]. split; [exact Hb'|]. split; [exact Hc|].
  change (state b' = OPEN /\ nextRetryAt b' = Some 1200%Z /\ (js "main" ∉ clients m')) in Hst.
  exact Hst.
Defined.

(** X19. The log is part of the transaction: when the client is handed out
    and the action returns, but masking the request for the log raises an
    error (a payload with a patron or item string and no master key),
    [_executeInner] raises [MasterKeyMissing] in place of returning the
    result, logs nothing, and records a failure after the success: the
    breaker of the branch ends closed with a failure count of one. *)
Theorem unmaskable_log_fails_transaction (node_env_test : bool)
    (masterKey : option jsstring) (iso : option Z -> jsstring) (failure : jsstring)
    (m m1 : Manager) (branchId actionName : jsstring) (requestPayload result : jsvalue)
    (now : Z) (login : outcome ()) (timestamp : jsstring) (now1 now2 : Z) (e : SipError) :
  getClient m branchId now login = (m1, Returned ()) ->
  maskPayload masterKey requestPayload = Thrown e ->
  exists m3 b3,
    _executeInner node_env_test masterKey iso failure m branchId actionName requestPayload
      now login (Returned result) timestamp now1 now2
    = (m3, Thrown MasterKeyMissing, None)
    /\ breakers m3 !! branchId = Some b3
    /\ state b3 = CLOSED /\ failureCount b3 = 1%nat.
Proof.
  intros Hg Hmask. unfold _executeInner. rewrite Hg.
  destruct (getClient_Returned _ _ _ _ _ Hg) as (b1 & Hb1 & _ & Hin).
  destruct (recordSuccess_Returned m1 branchId b1 Hb1) as (m2 & -> & Hcl & Hb2).
  rewrite transaction_log_masked, Hmask. cbn [mbind outcome_bind].
  apply maskPayload_Thrown in Hmask as [-> _].
  destruct (recordFailure_closed node_env_test m2 branchId _ now1 now2 Hb2 eq_refl)
    as (m3 & b3 & Hr & Hb3 & Hc & Hst).
  unfold record_and_rethrow. rewrite Hr. exists m3, b3.
  split; [reflexivity|]. split; [exact Hb3|].
  cbn [failureCount] in Hc, Hst.
  change (state b3 = CLOSED /\ clients m3 = clients m2) in Hst. tauto.
Qed.

Lemma unmaskable_log_fails_transaction_witness :
  exists m3 b3,
    _executeInner true None (fun _ => []) (js "timeout")
      (new_manager [example_config]) (js "main") (js "Checkout")
      (VObject [(js "patronBarcode", VString (js "P12345"));
                (js "itemBarcode", VString (js "I67890"))])
      1000 (Returned ()) (Returned (VObject [(js "ok", VBool true)]))
      (js "2026-02-21T12:00:00.000Z") 1000 1000
    = (m3, Thrown MasterKeyMissing, None)
    /\ breakers m3 !! js "main" = Some b3
    /\ state b3 = CLOSED /\ failureCount b3 = 1%nat.
Proof.
  apply (unmaskable_log_fails_transaction true None (fun _ => []) (js "timeout")
           (new_manager [example_config])
           (fst (getClient (new_manager [example_config]) (js "main") 1000 (Returned ())))
           (js "main") (js "Checkout") _ _ 1000 (Returned ()) _ 1000 1000 MasterKeyMissing).
  - vm_compute. reflexivity.
  - vm_compute. reflexivity.
Defined.

(** ** Login handshake, [performLogin] *)

Lemma performLogin_from_spec sendRaw scStatus sipUser sipPassword locationCode
    (postLoginSCStatus : bool) frame (remaining attempt : nat) :
  formatLoginRequest sipUser sipPassword (Some locationCode) (Some 0%Z) = Returned frame ->
  performLogin_from sendRaw scStatus sipUser sipPassword locationCode postLoginSCStatus
    remaining attempt = Returned ()
  <-> exists (a : nat) (response : jsstring),
        (attempt <= a <= attempt + remaining)%nat
        /\ sendRaw a frame = Returned response
        /\ startsWith response (js "941") = true
        /\ (postLoginSCStatus = true -> scStatus a = Returned ()).
Proof.
  intros Hf. revert attempt.
  induction remaining as [|remaining IH]; intros attempt; cbn [performLogin_from];
    rewrite Hf; cbn [mbind outcome_bind].
  - destruct (sendRaw attempt frame) as [response|e] eqn:Es; cbn [mbind outcome_bind].
    + destruct (startsWith response (js "941")) eqn:E9.
      * destruct postLoginSCStatus.
        -- destruct (scStatus attempt) as [[]|e] eqn:Ec.
           ++ split; [intros _|reflexivity]. exists attempt, response.
              split; [lia|]. auto.
           ++ split; [discriminate|]. intros (a & r & Ha & Hs & _ & Hc).
              replace a with attempt in Hc by lia. specialize (Hc eq_refl). congruence.
        -- split; [intros _|reflexivity]. exists attempt, response.
           split; [lia|]. split; [exact Es|]. split; [exact E9|discriminate].
      * split; [discriminate|]. intros (a & r & Ha & Hs & H9 & _).
        replace a with attempt in Hs by lia. congruence.
    + split; [discriminate|]. intros (a & r & Ha & Hs & _).
      replace a with attempt in Hs by lia. congruence.
  - assert (Hlater :
      (exists (a : nat) (response : jsstring),
         (S attempt <= a <= S attempt + remaining)%nat
         /\ sendRaw a frame = Returned response
         /\ startsWith response (js "941") = true
         /\ (postLoginSCStatus = true -> scStatus a = Returned ()))
      -> exists (a : nat) (response : jsstring),
         (attempt <= a <= attempt + S remaining)%nat
         /\ sendRaw a frame = Returned response
         /\ startsWith response (js "941") = true
         /\ (postLoginSCStatus = true -> scStatus a = Returned ())).
    { intros (a & r & Ha & H). exists a, r. split; [lia|exact H]. }
    assert (Hnow : forall response,
      sendRaw attempt frame = Returned response ->
      startsWith response (js "941") = true ->
      (postLoginSCStatus = true -> scStatus attempt = Returned ()) ->
      exists (a : nat) (response : jsstring),
         (attempt <= a <= attempt + S remaining)%nat
         /\ sendRaw a frame = Returned response
         /\ startsWith response (js "941") = true
         /\ (postLoginSCStatus = true -> scStatus a = Returned ())).
    { intros r H1 H2 H3. exists attempt, r. split; [lia|]. auto. }
    assert (Hsplit : forall P : nat -> Prop,
      (exists a, (attempt <= a <= attempt + S remaining)%nat /\ P a) ->
      P attempt \/ exists a, (S attempt <= a <= S attempt + remaining)%nat /\ P a).
    { intros P (a & Ha & HP). destruct (decide (a = attempt)) as [->|Hne]; [left; exact HP|].
      right. exists a. split; [lia|exact HP]. }
    assert (Hback :
      (exists (a : nat) (response : jsstring),
         (attempt <= a <= attempt + S remaining)%nat
         /\ sendRaw a frame = Returned response
         /\ startsWith response (js "941") = true
         /\ (postLoginSCStatus = true -> scStatus a = Returned ()))
      -> (exists response, sendRaw attempt frame = Returned response
            /\ startsWith response (js "941") = true
            /\ (postLoginSCStatus = true -> scStatus attempt = Returned ()))
         \/ exists (a : nat) (response : jsstring),
              (S attempt <= a <= S attempt + remaining)%nat
              /\ sendRaw a frame = Returned response
              /\ startsWith response (js "941") = true
              /\ (postLoginSCStatus = true -> scStatus a = Returned ())).
    { intros (a & r & Ha & H). destruct (decide (a = attempt)) as [->|Hne].
      - left. exists r. exact H.
      - right. exists a, r. split; [lia|exact H]. }
    clear Hsplit.
    destruct (sendRaw attempt frame) as [response|e] eqn:Es; cbn [mbind outcome_bind].
    + destruct (startsWith response (js "941")) eqn:E9.
      * destruct postLoginSCStatus.
        -- destruct (scStatus attempt) as [[]|e] eqn:Ec.
           ++ split; [intros _|reflexivity]. apply (Hnow response); auto.
           ++ rewrite IH. split; [exact Hlater|]. intros H.
              destruct (Hback H) as [(r & _ & _ & Hc)|H']; [|exact H'].
              specialize (Hc eq_refl). congruence.
        -- split; [intros _|reflexivity]. apply (Hnow response); auto. discriminate.
      * rewrite IH. split; [exact Hlater|]. intros H.
        destruct (Hback H) as [(r & Hs & H9 & _)|H']; [|exact H']. congruence.
    + rewrite IH. split; [exact Hlater|]. intros H.
      destruct (Hback H) as [(r & Hs & _)|H']; [|exact H']. congruence.
Qed.

(** X20. The login handshake sends one and the same frame at every attempt,
    a login request with sequence number 0 whose checksum verifies, and makes
    at most [retries + 1] attempts (three by default): [performLogin]
    returns exactly when one of these attempts gets a response starting with
    [941] and, for a profile with [postLoginSCStatus], the status request
    after it succeeds. *)
Theorem performLogin_attempts (sendRaw : nat -> jsstring -> outcome jsstring)
    (scStatus : nat -> outcome ()) (sipUser sipPassword locationCode : jsstring)
    (postLoginSCStatus : bool) (retries : option nat) :
  exists frame,
    formatLoginRequest sipUser sipPassword (Some locationCode) (Some 0%Z) = Returned frame
    /\ verifyChecksum frame = Returned true
    /\ (performLogin sendRaw scStatus sipUser sipPassword locationCode postLoginSCStatus retries
        = Returned ()
        <-> exists (attempt : nat) (response : jsstring),
              (attempt <= default 2%nat retries)%nat
              /\ sendRaw attempt frame = Returned response
              /\ startsWith response (js "941") = true
              /\ (postLoginSCStatus = true -> scStatus attempt = Returned ())).
Proof.
  destruct (appendChecksum_frame
              (js "9300CN" ++ sanitizeSipField sipUser ++ js "|CO"
               ++ sanitizeSipField sipPassword ++ js "|CP"
               ++ sanitizeSipField locationCode ++ js "|") 0%Z) as (frame & Hf & Hv); [lia|].
  change (formatLoginRequest sipUser sipPassword (Some locationCode) (Some 0%Z)
          = Returned frame) in Hf.
  exists frame. split; [exact Hf|]. split; [exact Hv|].
  unfold performLogin.
  rewrite (performLogin_from_spec sendRaw scStatus sipUser sipPassword locationCode
             postLoginSCStatus frame (default 2%nat retries) 0%nat Hf).
  split; intros (a & r & Ha & H); exists a, r; (split; [lia|exact H]).
Qed.

(** ** Replies of the routes to an error, [handleSipError] *)

Lemma includes_after_unknown_branch (branch : jsstring) :
  includes (js "Unknown branch: " ++ branch) (js "Circuit") = includes branch (js "Circuit").
Proof.
  change (js "Unknown branch: ")
    with [85; 110; 107; 110; 111; 119; 110; 32; 98; 114; 97; 110; 99; 104; 58; 32].
  change (js "Circuit") with [67; 105; 114; 99; 117; 105; 116].
  cbn [app]. 
  repeat match goal with
         | |- includes (?c :: ?s) ?p = _ =>
             change (includes (c :: s) p) with (startsWith (c :: s) p || includes s p);
             change (startsWith (c :: s) p) with false; cbn [orb]
         end.
  reflexivity.
Qed.

(** X21. What a client of the bridge sees of a manager error: a rejection
    by the circuit breaker is answered 503 with a fixed text that names
    neither the branch nor the retry time; an unknown branch is answered 404
    with the text of the error, which names the branch, unless the branch
    identifier itself contains [Circuit], in which case the reply is the 503
    of the breaker; a missing master key is answered 502. *)
Theorem manager_errors_replied (iso : option Z -> jsstring) (failure branch : jsstring)
    (t : option Z) :
  handleSipError iso failure (ManagerError (CircuitOpen branch t))
  = (503%Z, js "Service Unavailable", js "Connection to LMS is currently suspended")
  /\ handleSipError iso failure (ManagerError (ProbeInFlight branch))
     = (503%Z, js "Service Unavailable", js "Connection to LMS is currently suspended")
  /\ handleSipError iso failure (ManagerError (UnknownBranch branch))
     = (if includes branch (js "Circuit")
        then (503%Z, js "Service Unavailable", js "Connection to LMS is currently suspended")
        else (404%Z, js "Not Found", js "Unknown branch: " ++ branch))
  /\ handleSipError iso failure (ManagerError MasterKeyMissing)
     = (502%Z, js "Bad Gateway", js "Communication with the LMS failed").
Proof.
  assert (Hc : forall rest, includes (js "Circuit for branch " ++ rest) (js "Circuit") = true).
  { intros rest. apply includes_occurs. exists [], (js " for branch " ++ rest). reflexivity. }
  split; [|split; [|split]].
  - unfold handleSipError, error_message. rewrite Hc. reflexivity.
  - unfold handleSipError, error_message. rewrite Hc. reflexivity.
  - unfold handleSipError, error_message. rewrite includes_after_unknown_branch.
    destruct (includes branch (js "Circuit")); [reflexivity|].
    rewrite (includes_occurs (js "Unknown branch") (js "Unknown branch: " ++ branch));
      [reflexivity|].
    exists [], (js ": " ++ branch). reflexivity.
  - vm_compute. reflexivity.
Qed.

(** ** Re-initialization *)

Lemma fold_configs_lookup (cfgs : list LMSConfig) : forall (m : Manager) (branch : jsstring),
  let m' := fold_left
              (fun m config => {|
                 clients := clients m;
                 configs := <[branchId config := config]> (configs m);
                 breakers := <[branchId config := initial_breaker]> (breakers m)
               |}) cfgs m in
  clients m' = clients m
  /\ breakers m' !! branch
     = (if bool_decide (branch ∈ map branchId cfgs) then Some initial_breaker
        else breakers m !! branch)
  /\ (branch ∉ map branchId cfgs -> configs m' !! branch = configs m !! branch).
Proof.
  induction cfgs as [|c cfgs IH]; intros m branch; cbn [fold_left map]; cbv zeta.
  - split; [reflexivity|]. split; [|reflexivity].
    rewrite bool_decide_eq_false_2; [reflexivity|]. intros H. inversion H.
  - match goal with
    | |- context [fold_left ?f cfgs ?m0] => destruct (IH m0 branch) as (H1 & H2 & H3)
    end.
    cbv zeta in H1, H2, H3. cbn [clients configs breakers] in H1, H2, H3.
    split; [exact H1|]. split.
    + rewrite H2.
      destruct (bool_decide_reflect (branch ∈ map branchId cfgs)) as [Hin|Hin].
      * rewrite bool_decide_eq_true_2; [reflexivity|]. right. exact Hin.
      * destruct (decide (branchId c = branch)) as [E|E].
        -- rewrite E, lookup_insert_eq, bool_decide_eq_true_2; [reflexivity|]. left.
        -- rewrite lookup_insert_ne by exact E.
           rewrite bool_decide_eq_false_2; [reflexivity|].
           intros H. apply elem_of_cons in H as [H|H]; [congruence|contradiction].
    + intros Hn. rewrite H3.
      * apply lookup_insert_ne. intros E. apply Hn. rewrite E. left.
      * intros H. apply Hn. right. exact H.
Qed.

(** X22. Re-initialization forgets everything: whatever the manager was
    (open circuits, failure counts, cached clients), [reinitialize] leaves the
    manager a constructor call with the new configurations gives: no client,
    a closed initial breaker for each branch of the new configurations, and
    neither breaker nor configuration for any other branch, which [getClient]
    then rejects as unknown without consulting the login. *)
Theorem reinitialize_resets (m : Manager) (newConfigs : list LMSConfig) (branch : jsstring) :
  reinitialize m newConfigs = new_manager newConfigs
  /\ clients (reinitialize m newConfigs) = ∅
  /\ breakers (reinitialize m newConfigs) !! branch
     = (if bool_decide (branch ∈ map branchId newConfigs) then Some initial_breaker else None)
  /\ (branch ∉ map branchId newConfigs ->
      configs (reinitialize m newConfigs) !! branch = None
      /\ forall now login,
           getClient (reinitialize m newConfigs) branch now login
           = (reinitialize m newConfigs, Thrown (UnknownBranch branch))).
Proof.
  split; [reflexivity|].
  unfold reinitialize, shutdown. cbv zeta. cbn [clients].
  match goal with
  | |- context [fold_left ?f newConfigs ?m0] =>
      destruct (fold_configs_lookup newConfigs m0 branch) as (H1 & H2 & H3)
  end.
  cbv zeta in H1, H2, H3. cbn [clients configs breakers] in H1, H2, H3.
  rewrite lookup_empty in H2.
  split; [exact H1|]. split; [exact H2|].
  intros Hn. split; [rewrite (H3 Hn); apply lookup_empty|].
  intros now login. unfold getClient, getBreaker. rewrite H2.
  rewrite bool_decide_eq_false_2 by exact Hn. reflexivity.
Qed.

Lemma reinitialize_resets_witness :
  breakers (reinitialize (example_failures 3) [example_config]) !! js "main"
  = Some initial_breaker
  /\ getClient (reinitialize (example_failures 3) []) (js "main") 1000 (Returned ())
     = (reinitialize (example_failures 3) [], Thrown (UnknownBranch (js "main"))).
Proof.
  split.
  - destruct (reinitialize_resets (example_failures 3) [example_config] (js "main"))
      as (_ & _ & H & _). rewrite H. reflexivity.
  - destruct (reinitialize_resets (example_failures 3) [] (js "main")) as (_ & _ & _ & H).
    apply H. intros Hin. inversion Hin.
Defined.

(** ** A probe that fails *)

Lemma recordFailure_half_open node_env_test m branch b now1 now2 :
  breakers m !! branch = Some b -> state b = HALF_OPEN ->
  exists m' b',
    recordFailure node_env_test m branch now1 now2 = Returned m'
    /\ breakers m' !! branch = Some b'
    /\ state b' = OPEN /\ halfOpenLocked b' = false
    /\ failureCount b' = S (failureCount b)
    /\ nextRetryAt b'
       = Some (now2 + backoff_at (BACKOFF_SCHEDULE node_env_test) (backoffIndex b))%Z
    /\ backoffIndex b'
       = (if (backoffIndex b <? length (BACKOFF_SCHEDULE node_env_test) - 1)%nat
          then S (backoffIndex b) else backoffIndex b)
    /\ (branch ∉ clients m').
Proof.
  intros Hb Hs. unfold recordFailure, getBreaker. rewrite Hb.
  cbn [mbind outcome_bind].
  rewrite (bool_decide_eq_true_2 (state b = HALF_OPEN)) by exact Hs.
  rewrite orb_true_r.
  eexists _, _. split; [reflexivity|]. cbn [breakers clients].
  split; [apply lookup_insert_eq|].
  cbn [state halfOpenLocked failureCount nextRetryAt backoffIndex].
  repeat (split; [reflexivity|]).
  intros Hin. apply elem_of_difference in Hin as [_ Hin]. apply Hin, elem_of_singleton.
  reflexivity.
Qed.

(** X28. A probe that fails re-opens the circuit: once the retry time of an
    open breaker has come, a transaction whose action raises an error (or
    whose login does, with a text that [isCircuitGate] does not match) raises
    that error, logs nothing, and leaves the breaker open again with the
    probe lock released, one more failure counted, the retry time at the
    clock plus the backoff of its index, the index advanced by one up to the
    end of the schedule, and no client cached. *)
Theorem failed_probe_reopens (node_env_test : bool)
    (masterKey : option jsstring) (iso : option Z -> jsstring) (failure : jsstring)
    (m : Manager) (branchId actionName : jsstring) (requestPayload : jsvalue)
    (now : Z) (login : outcome ()) (err : SipError) (timestamp : jsstring)
    (now1 now2 : Z) (b : CircuitBreaker) (t : Z) :
  breakers m !! branchId = Some b -> state b = OPEN -> nextRetryAt b = Some t ->
  (0 < t)%Z -> (t <= now)%Z ->
  (forall e, login = Thrown e -> isCircuitGate (error_message iso failure e) = false) ->
  exists m' b' e',
    _executeInner node_env_test masterKey iso failure m branchId actionName requestPayload
      now login (Thrown err) timestamp now1 now2
    = (m', Thrown e', None)
    /\ (e' = err \/ login = Thrown e')
    /\ breakers m' !! branchId = Some b'
    /\ state b' = OPEN /\ halfOpenLocked b' = false
    /\ failureCount b' = S (failureCount b)
    /\ nextRetryAt b'
       = Some (now2 + backoff_at (BACKOFF_SCHEDULE node_env_test) (backoffIndex b))%Z
    /\ backoffIndex b'
       = (if (backoffIndex b <? length (BACKOFF_SCHEDULE node_env_test) - 1)%nat
          then S (backoffIndex b) else backoffIndex b)
    /\ (branchId ∉ clients m').
Proof.
  intros Hb Hs Ht Hpos Hnow Hlogin. unfold _executeInner.
  destruct (getClient_probe_first m branchId b t now login Hb Hs Ht Hpos Hnow) as [Hb1 Herr].
  destruct (getClient m branchId now login) as [m1 [[]|e]]; cbn [fst snd] in Hb1, Herr.
  - destruct (recordFailure_half_open node_env_test m1 branchId _ now1 now2 Hb1 eq_refl)
      as (m' & b' & Hr & H).
    unfold record_and_rethrow. rewrite Hr. exists m', b', err.
    split; [reflexivity|]. split; [left; reflexivity|]. exact H.
  - destruct (Herr e eq_refl) as [_ He]. rewrite (Hlogin e He).
    destruct (recordFailure_half_open node_env_test m1 branchId _ now1 now2 Hb1 eq_refl)
      as (m' & b' & Hr & H).
    unfold record_and_rethrow. rewrite Hr. exists m', b', e.
    split; [reflexivity|]. split; [right; exact He|]. exact H.
Qed.

Lemma failed_probe_reopens_witness :
  exists m' b',
    _executeInner true None (fun _ => []) (js "timeout")
      (example_failures 3) (js "main") (js "Checkout") VNull
      1200 (Returned ()) (Thrown ClientFailure) (js "2026-02-21T12:00:00.000Z") 1250 1250
    = (m', Thrown ClientFailure, None)
    /\ breakers m' !! js "main" = Some b'
    /\ state b' = OPEN /\ failureCount b' = 4%nat /\ backoffIndex b' = 2%nat
    /\ nextRetryAt b' = Some 1650%Z.
Proof.
  set (b3 := default initial_breaker (breakers (example_failures 3) !! js "main")).
  assert (L3 : breakers (example_failures 3) !! js "main" = Some b3) by (vm_compute; reflexivity).
  destruct (failed_probe_reopens true None (fun _ => []) (js "timeout")
              (example_failures 3) (js "main") (js "Checkout") VNull
              1200 (Returned ()) ClientFailure (js "2026-02-21T12:00:00.000Z") 1250 1250
              b3 1200 L3)
    as (m' & b' & e' & H & [->|He] & Hb' & Hst & _ & Hc & Hn & Hi & _);
    [reflexivity|reflexivity|lia|lia|discriminate| |discriminate].
  exists m', b'. split; [exact H|]. split; [exact Hb'|]. split; [exact Hst|].
  split; [exact Hc|]. split; [exact Hi|]. rewrite Hn. vm_compute. reflexivity.
Defined.

(** ** The mock of the library system *)

Lemma checksummed_verifies (p : jsstring) :
  verifyChecksum (p ++ js "AZ" ++ calculateChecksum (p ++ js "AZ") ++ [CR]) = Returned true.
Proof.
  destruct (calculateChecksum_facts (p ++ js "AZ")) as (Hlen & Hhex & Hup).
  rewrite (verifyChecksum_has_trailer _ p (calculateChecksum (p ++ js "AZ"))).
  - rewrite Hup. f_equal. apply bool_decide_eq_true. reflexivity.
  - split; [exact Hlen|]. split; [exact Hhex|]. right. reflexivity.
Qed.

(** The sequence character the mock echoes is one decimal digit. *)
Lemma mock_seq_digit (request : jsstring) :
  exists d, match regex_search ayaz_at 0 request with
            | Some (_, digit) => digit
            | None => js "0"
            end = [d] /\ 48 <= d <= 57.
Proof.
  destruct (regex_search ayaz_at 0 request) as [[j digit]|] eqn:E.
  - apply regex_search_Some in E as (p & t & _ & Ht & _).
    unfold ayaz_at in Ht. destruct t as [|a [|y [|d [|a' [|z t]]]]]; try discriminate.
    destruct (_ && _) eqn:Ec in Ht; [|discriminate]. injection Ht as <-.
    exists d. split; [reflexivity|].
    rewrite !andb_true_iff in Ec. destruct Ec as [[[_ Hd] _] _].
    unfold class_matches, class_digit in Hd. cbn [existsb fst snd] in Hd.
    rewrite orb_false_r, andb_true_iff, !N.leb_le in Hd. exact Hd.
  - exists 48. split; [reflexivity|lia].
Qed.

Lemma startsWith_app (p s : jsstring) : startsWith (p ++ s) p = true.
Proof.
  induction p as [|c p IH]; [apply startsWith_nil|].
  cbn [app startsWith]. rewrite N.eqb_refl, IH. reflexivity.
Qed.

(** *** The patron status exchange *)

Lemma regex_search_miss {A} (attempt : jsstring -> option A) (i : nat) (c : N)
    (s : jsstring) :
  attempt (c :: s) = None -> regex_search attempt i (c :: s) = regex_search attempt (S i) s.
Proof. intros E. cbn [regex_search]. rewrite E. reflexivity. Qed.

Lemma regex_search_hit {A} (attempt : jsstring -> option A) (i : nat) (s : jsstring) (r : A) :
  attempt s = Some r -> regex_search attempt i s = Some (i, r).
Proof. intros E. destruct s; cbn [regex_search]; rewrite E; reflexivity. Qed.

Lemma aa_search_skip_char (i : nat) (c : N) (s : jsstring) :
  c <> 65 -> regex_search aa_at i (c :: s) = regex_search aa_at (S i) s.
Proof.
  intros Hc. cbn [regex_search].
  assert (E : aa_at (c :: s) = None).
  { unfold aa_at. destruct s as [|a' rest]; [reflexivity|].
    rewrite (proj2 (N.eqb_neq c 65) Hc). reflexivity. }
  rewrite E. reflexivity.
Qed.

Lemma aa_search_skip (p : jsstring) : forall (i : nat) (s : jsstring),
  Forall (fun c => c <> 65) p ->
  regex_search aa_at i (p ++ s) = regex_search aa_at (i + length p) s.
Proof.
  induction p as [|c p IH]; intros i s Hp; cbn [app length].
  - rewrite Nat.add_0_r. reflexivity.
  - apply Forall_cons in Hp as [Hc Hp].
    rewrite aa_search_skip_char by exact Hc. rewrite IH by exact Hp. f_equal. lia.
Qed.

Lemma aa_search_skip_A (i : nat) (c : N) (s : jsstring) :
  c <> 65 -> regex_search aa_at i (65 :: c :: s) = regex_search aa_at (S i) (c :: s).
Proof.
  intros Hc. cbn [regex_search].
  assert (E : aa_at (65 :: c :: s) = None).
  { unfold aa_at. rewrite (proj2 (N.eqb_neq c 65) Hc), andb_false_r. reflexivity. }
  rewrite E. reflexivity.
Qed.

Lemma field_run_app (b rest : jsstring) :
  Forall (fun c => c <> 124) b -> field_run (b ++ 124 :: rest) = b.
Proof.
  induction b as [|c b IH]; intros Hb; cbn [app field_run]; [reflexivity|].
  apply Forall_cons in Hb as [Hc Hb].
  rewrite (proj2 (N.eqb_neq c 124) Hc), (IH Hb). reflexivity.
Qed.

Lemma field_run_all (b : jsstring) : Forall (fun c => c <> 124) b -> field_run b = b.
Proof.
  induction b as [|c b IH]; intros Hb; cbn [field_run]; [reflexivity|].
  apply Forall_cons in Hb as [Hc Hb].
  rewrite (proj2 (N.eqb_neq c 124) Hc), (IH Hb). reflexivity.
Qed.

Lemma aa_at_field (b rest : jsstring) :
  b <> [] -> Forall (fun c => c <> 124) b ->
  aa_at (65 :: 65 :: b ++ 124 :: rest) = Some b.
Proof.
  intros Hne Hb. unfold aa_at. cbn [N.eqb Pos.eqb andb]. cbv zeta.
  rewrite (field_run_app b rest Hb).
  destruct b as [|c b]; [congruence|].
  rewrite drop_app_length. reflexivity.
Qed.

Lemma aa_at_empty (rest : jsstring) : aa_at (65 :: 65 :: 124 :: rest) = None.
Proof. reflexivity. Qed.

Lemma aa_search_none (s : jsstring) : forall i : nat,
  Forall (fun c => c <> 124) s -> regex_search aa_at i s = None.
Proof.
  induction s as [|c s IH]; intros i Hs; [reflexivity|].
  cbn [regex_search].
  assert (E : aa_at (c :: s) = None).
  { apply Forall_cons in Hs as [_ Hs]. unfold aa_at.
    destruct s as [|a' rest]; [reflexivity|].
    destruct (_ && _); [|reflexivity]. cbv zeta.
    apply Forall_cons in Hs as [_ Hs].
    rewrite (field_run_all rest Hs). destruct rest as [|r rest]; [reflexivity|].
    rewrite drop_all. reflexivity. }
  rewrite E. apply IH. apply Forall_cons in Hs. tauto.
Qed.

Lemma digit_char_below d : (0 <= d < 10)%Z -> digit_char d < 65.
Proof.
  intros Hd. unfold digit_char.
  destruct (d <? 10)%Z eqn:E; [|apply Z.ltb_ge in E; lia].
  apply N2Z.inj_lt. rewrite Z2N.id by lia. lia.
Qed.

Lemma Number_toString_below n : Forall (fun c => c < 65) (Number_toString 10 n).
Proof.
  unfold Number_toString.
  destruct (Number_toString_digits 10 n) as (ds & Hds & _ & Hf); [lia|].
  rewrite Hds.
  assert (Hm : Forall (fun c => c < 65) (map digit_char ds)).
  { apply Forall_map. eapply Forall_impl; [exact Hf|]. intros d Hd. apply digit_char_below, Hd. }
  destruct (n <? 0)%Z; [|exact Hm].
  apply Forall_app_2; [|exact Hm].
  apply (bool_decide_eq_true_1 (Forall (fun c => c < 65) _)). vm_compute. reflexivity.
Qed.

(** The timestamp holds digits, spaces and signs: nothing from [A] on. *)
Lemma getSipTimestamp_below now : Forall (fun c => c < 65) (getSipTimestamp now).
Proof.
  unfold getSipTimestamp, String_of. cbv zeta.
  repeat match goal with
         | |- Forall _ (Number_toString 10 _) => apply Number_toString_below
         | |- Forall _ (js _) =>
             apply (bool_decide_eq_true_1 (Forall (fun c => c < 65) _)); vm_compute; reflexivity
         | |- Forall _ (padStart _ _ _) => apply padStart_Forall
         | |- Forall _ (_ ++ _) => apply Forall_app_2
         end.
Qed.

(** The frame of a patron status request with the defaults of the
    formatter. *)
Lemma patron_status_frame now barcode seqNum frame :
  formatPatronStatusRequest now barcode None seqNum None = Returned frame ->
  exists trailer,
    frame = (js "23001" ++ getSipTimestamp now) ++ 65 :: js "OGigaFlair|"
            ++ 65 :: 65 :: sanitizeSipField barcode ++ 124 :: 65 :: js "C|" ++ trailer
    /\ Forall (fun c => c <> 124) trailer.
Proof.
  intros Hf.
  change (formatCommand now (CmdPatronStatus barcode None None) seqNum = Returned frame) in Hf.
  apply formatCommand_frame in Hf.
  exists (wire_trailer (wire_body now (CmdPatronStatus barcode None None)) (default 0%Z seqNum)
          ++ [CR]).
  split.
  - rewrite Hf at 1. unfold wire_body. cbn [wire_header wire_values]. cbv zeta.
    cbn [default from_option id map concat wire_field fst snd].
    replace (sanitizeSipField (js "GigaFlair")) with (js "GigaFlair")
      by (vm_compute; reflexivity).
    replace (substring (js "001") 0 3) with (js "001") by (vm_compute; reflexivity).
    change (js "23") with [50; 51]. change (js "001") with [48; 48; 49].
    change (js "23001") with [50; 51; 48; 48; 49].
    change (js "AO") with [65; 79]. change (js "AA") with [65; 65].
    change (js "AC") with [65; 67]. change (js "C|") with [67; 124].
    change (js "GigaFlair") with [71; 105; 103; 97; 70; 108; 97; 105; 114].
    change (js "OGigaFlair|") with [79; 71; 105; 103; 97; 70; 108; 97; 105; 114; 124].
    repeat (rewrite <- ?app_assoc, ?app_nil_r; cbn [app]). reflexivity.
  - apply Forall_app_2.
    + eapply Forall_impl; [apply wire_trailer_clean|]. unfold clean. tauto.
    + apply Forall_cons_2; [unfold CR; lia|apply Forall_nil_2].
Qed.

(** What the mock takes for the barcode of a patron status request. *)
Lemma mock_barcode now barcode seqNum frame :
  formatPatronStatusRequest now barcode None seqNum None = Returned frame ->
  match regex_search aa_at 0 frame with
  | Some (_, group) => group
  | None => js "UNKNOWN"
  end = match sanitizeSipField barcode with
        | [] => js "UNKNOWN"
        | _ :: _ => sanitizeSipField barcode
        end.
Proof.
  intros Hf. destruct (patron_status_frame now barcode seqNum frame Hf) as (trailer & -> & Ht).
  rewrite aa_search_skip.
  2:{ apply Forall_app_2.
      - apply (bool_decide_eq_true_1 (Forall (fun c => c <> 65) _)). vm_compute. reflexivity.
      - eapply Forall_impl; [apply getSipTimestamp_below|]. intros c Hc. cbv beta in Hc |- *. lia. }
  change (js "OGigaFlair|") with (79 :: js "GigaFlair|").
  cbn [app]. rewrite aa_search_skip_A by discriminate.
  change (79 :: js "GigaFlair|" ++ ?x) with (js "OGigaFlair|" ++ x).
  rewrite aa_search_skip
    by (apply (bool_decide_eq_true_1 (Forall (fun c => c <> 65) _)); vm_compute; reflexivity).
  assert (Hb : Forall (fun c => c <> 124) (sanitizeSipField barcode)).
  { eapply Forall_impl; [apply sanitize_clean|]. unfold clean. tauto. }
  destruct (sanitizeSipField barcode) as [|c b] eqn:Eb.
  - cbn [app]. rewrite regex_search_miss by apply aa_at_empty.
    rewrite aa_search_skip_A by discriminate.
    rewrite aa_search_skip_char by discriminate.
    change (js "C|") with [67; 124]. cbn [app].
    rewrite aa_search_skip_A by discriminate.
    rewrite aa_search_skip_char by discriminate.
    rewrite aa_search_skip_char by discriminate.
    rewrite aa_search_none by exact Ht. reflexivity.
  - rewrite (regex_search_hit aa_at _ _ (c :: b)); [reflexivity|].
    apply (aa_at_field (c :: b)); [discriminate|exact Hb].
Qed.

(** The fields the parser finds in a frame whose segments after the first
    are given. *)
Lemma parseFields_of_segments (raw header : jsstring) (before after : list jsstring)
    (tag v : jsstring) :
  split_on 124 raw = header :: before ++ (tag ++ v) :: after ->
  is_tag tag = true -> tag <> js "AY" ->
  Forall (fun p => substring p 0 2 <> tag) after ->
  parseFields raw !! tag = Some v.
Proof.
  intros Hs Ht Hay Ha. unfold parseFields. cbv zeta. rewrite Hs.
  cbn [head default from_option id for_parts].
  match goal with
  | |- context [for_parts ?body 1 _ ?f0] =>
      pose proof (for_parts_field (default 15%nat
                                     (fixedFieldLengths !! substring header 0 2))
                    tag v before after 1 f0 ltac:(lia) Ht Ha) as H
  end.
  destruct (regex_search ayaz_at 0 raw) as [[j digit]|]; [|exact H].
  rewrite lookup_insert_ne by congruence. exact H.
Qed.

Lemma mock_response_parsed (b : jsstring) (d : N) :
  Forall (fun c => c <> 124) b ->
  let msg := js "24" ++ js "Y Y           " ++ js "001" ++ js "20260221    120000" ++ js "AO"
             ++ js "GigaFlair" ++ js "|AA" ++ b ++ js "|AE" ++ js "Alice Patron"
             ++ js "|BZ0002|AU0000|AY" ++ [d] ++ js "AZ" in
  let response := msg ++ calculateChecksum msg ++ [CR] in
  d <> 124 ->
  verifyChecksum response = Returned true
  /\ exists r, parsePatronStatusResponse response = Returned r
               /\ PatronStatusResponse.patronBarcode r = b
               /\ PatronStatusResponse.patronName r = js "Alice Patron".
Proof.
  intros Hb msg response Hd.
  set (header := js "24Y Y           00120260221    120000AOGigaFlair").
  set (last := js "AY" ++ [d] ++ js "AZ" ++ calculateChecksum msg ++ [CR]).
  assert (Hmsg : msg = (header ++ concat (map (fun f => [124] ++ f)
                                            [js "AA" ++ b; js "AEAlice Patron"; js "BZ0002";
                                             js "AU0000"])
                        ++ 124 :: js "AY" ++ [d]) ++ js "AZ").
  { unfold msg, header.
    change (js "24Y Y           00120260221    120000AOGigaFlair")
      with (js "24" ++ js "Y Y           " ++ js "001" ++ js "20260221    120000" ++ js "AO"
            ++ js "GigaFlair").
    change (js "|AA") with (124 :: js "AA"). change (js "|AE") with (124 :: js "AE").
    change (js "AEAlice Patron") with (js "AE" ++ js "Alice Patron").
    change (js "|BZ0002|AU0000|AY") with (124 :: js "BZ0002" ++ 124 :: js "AU0000"
                                          ++ 124 :: js "AY").
    cbn [map concat].
    repeat (rewrite <- ?app_assoc, ?app_nil_r; cbn [app]). reflexivity. }
  assert (Hresp : response
                  = header ++ concat (map (fun f => [124] ++ f)
                                        [js "AA" ++ b; js "AEAlice Patron"; js "BZ0002";
                                         js "AU0000"])
                    ++ 124 :: last).
  { unfold response, last. rewrite Hmsg at 1.
    repeat (rewrite <- ?app_assoc; cbn [app]). reflexivity. }
  assert (Hlast : Forall (fun c => c <> 124) last).
  { unfold last. apply Forall_app_2; [apply Forall_cons_2; [discriminate|
      apply Forall_cons_2; [discriminate|apply Forall_nil_2]]|].
    apply Forall_cons_2; [exact Hd|]. cbn [app].
    apply Forall_cons_2; [discriminate|]. apply Forall_cons_2; [discriminate|].
    apply Forall_app_2.
    - eapply Forall_impl; [apply calculateChecksum_clean|]. unfold clean. tauto.
    - apply Forall_cons_2; [unfold CR; lia|apply Forall_nil_2]. }
  assert (Hsplit : split_on 124 response
                   = header :: [js "AA" ++ b; js "AEAlice Patron"; js "BZ0002"; js "AU0000"]
                     ++ [last]).
  { rewrite Hresp.
    rewrite (split_on_app_first 124 header _
               ([js "AA" ++ b; js "AEAlice Patron"; js "BZ0002"; js "AU0000"] ++ [last])).
    - rewrite split_on_nosep; [reflexivity|].
      apply (bool_decide_eq_true_1 (Forall (fun c => c <> 124) _)). vm_compute. reflexivity.
    - apply split_on_fields; [|exact Hlast].
      apply Forall_cons_2.
      { apply Forall_app_2; [|exact Hb].
        apply (bool_decide_eq_true_1 (Forall (fun c => c <> 124) _)). vm_compute. reflexivity. }
      apply (bool_decide_eq_true_1 (Forall (Forall (fun c => c <> 124)) _)).
      vm_compute. reflexivity. }
  assert (Hlast2 : substring last 0 2 = js "AY").
  { unfold last. apply (substring_tag (js "AY")). reflexivity. }
  split.
  - unfold response. rewrite Hmsg.
    match goal with
    | |- context [calculateChecksum (?p' ++ js "AZ")] => set (p := p')
    end.
    rewrite <- app_assoc. apply checksummed_verifies.
  - unfold parsePatronStatusResponse.
    assert (H24 : startsWith response (js "24") = true).
    { rewrite Hresp. unfold header.
      change (js "24Y Y           00120260221    120000AOGigaFlair")
        with (js "24" ++ js "Y Y           00120260221    120000AOGigaFlair").
      rewrite <- app_assoc. apply startsWith_app. }
    rewrite H24. cbn [negb]. cbv zeta. eexists. split; [reflexivity|].
    cbn [PatronStatusResponse.patronBarcode PatronStatusResponse.patronName]. unfold field.
    split.
    + rewrite (parseFields_of_segments response header [] _ (js "AA") b Hsplit);
        [destruct b; reflexivity|reflexivity|discriminate|].
      cbn [app].
      repeat (apply Forall_cons_2; [first [rewrite Hlast2|vm_compute]; discriminate|]).
      apply Forall_nil_2.
    + rewrite (parseFields_of_segments response header [js "AA" ++ b] _ (js "AE")
                 (js "Alice Patron") Hsplit);
        [reflexivity|reflexivity|discriminate|].
      cbn [app].
      repeat (apply Forall_cons_2; [first [rewrite Hlast2|vm_compute]; discriminate|]).
      apply Forall_nil_2.
Qed.

(** ** The client in front of the mock *)

(** *** Text that is ASCII passes unchanged *)

Lemma ascii_bytes_id (s : jsstring) : Forall (fun c => c < 128) s -> ascii_bytes s = s.
Proof.
  intros H. unfold ascii_bytes. induction H as [|c s Hc _ IH]; [reflexivity|].
  cbn [map]. rewrite IH. f_equal.
  change 255 with (N.ones 8). rewrite N.land_ones. apply N.mod_small.
  change (2 ^ 8) with 256. lia.
Qed.

Lemma utf8_encode_ascii (s : jsstring) : Forall (fun c => c < 128) s -> utf8_encode s = s.
Proof.
  intros H. induction H as [|c s Hc _ IH]; [reflexivity|].
  cbn [utf8_encode].
  assert (H1 : (55296 <=? c) = false) by (apply N.leb_gt; lia).
  assert (H2 : (56320 <=? c) = false) by (apply N.leb_gt; lia).
  rewrite H1, H2. cbn [andb]. unfold utf8_of_code_point.
  rewrite (proj2 (N.ltb_lt c 128) Hc). cbn [app]. rewrite IH. reflexivity.
Qed.

(** *** The sequence pattern *)

Lemma regex_group_index {A} (attempt : jsstring -> option A) (s : jsstring) : forall i j : nat,
  snd <$> regex_search attempt i s = snd <$> regex_search attempt j s.
Proof.
  induction s as [|c s IH]; intros i j; cbn [regex_search].
  - destruct (attempt []); reflexivity.
  - destruct (attempt (c :: s)); [reflexivity|apply IH].
Qed.

Lemma ayaz_at_pipe (t y : jsstring) : ayaz_at (t ++ 124 :: y) = ayaz_at t.
Proof.
  destruct t as [|a [|b [|c [|d [|e t]]]]]; cbn [app]; [| | | | |reflexivity].
  all: destruct y as [|y1 [|y2 [|y3 [|y4 y]]]]; cbn [ayaz_at]; try reflexivity.
  all: change (124 =? 65) with false; change (124 =? 89) with false;
    change (124 =? 90) with false; change (class_matches class_digit 124) with false;
    rewrite ?andb_false_r; reflexivity.
Qed.

(** No match of the sequence pattern reaches over a [|]. *)
Lemma ayaz_search_pipe (x y : jsstring) : forall i : nat,
  snd <$> regex_search ayaz_at i (x ++ 124 :: y)
  = match snd <$> regex_search ayaz_at i x with
    | Some digit => Some digit
    | None => snd <$> regex_search ayaz_at i y
    end.
Proof.
  induction x as [|c x IH]; intros i.
  - cbn [app]. rewrite regex_search_miss by (exact (ayaz_at_pipe [] y)).
    cbn [regex_search ayaz_at fmap option_fmap option_map]. apply regex_group_index.
  - change ((c :: x) ++ 124 :: y) with (c :: (x ++ 124 :: y)).
    cbn [regex_search].
    change (c :: (x ++ 124 :: y)) with ((c :: x) ++ 124 :: y). rewrite ayaz_at_pipe.
    destruct (ayaz_at (c :: x)); [reflexivity|].
    rewrite IH. rewrite (regex_group_index ayaz_at y (S i) i). reflexivity.
Qed.

Lemma ayaz_search_skip (p : jsstring) : forall (i : nat) (s : jsstring),
  Forall (fun c => c <> 65) p ->
  snd <$> regex_search ayaz_at i (p ++ s) = snd <$> regex_search ayaz_at i s.
Proof.
  induction p as [|c p IH]; intros i s Hp; [reflexivity|].
  apply Forall_cons in Hp as [Hc Hp]. cbn [app].
  rewrite regex_search_miss.
  - rewrite (IH (S i) s Hp). apply regex_group_index.
  - unfold ayaz_at. destruct (p ++ s) as [|y [|d [|a' [|z t]]]]; try reflexivity.
    rewrite (proj2 (N.eqb_neq c 65) Hc). reflexivity.
Qed.

Lemma ayaz_search_hit (d : N) (rest : jsstring) (i : nat) :
  48 <= d <= 57 ->
  regex_search ayaz_at i (js "AY" ++ [d] ++ js "AZ" ++ rest) = Some (i, [d]).
Proof.
  intros Hd. apply regex_search_hit.
  change (js "AY" ++ [d] ++ js "AZ" ++ rest) with (65 :: 89 :: d :: 65 :: 90 :: rest).
  unfold ayaz_at.
  assert (Hm : class_matches class_digit d = true).
  { unfold class_matches, class_digit. cbn [existsb fst snd]. rewrite orb_false_r.
    apply andb_true_iff. rewrite !N.leb_le. exact Hd. }
  rewrite Hm. reflexivity.
Qed.

Lemma seq_free_group (s : jsstring) (i : nat) :
  seq_free s -> snd <$> regex_search ayaz_at i s = None.
Proof.
  intros H. rewrite (regex_group_index ayaz_at s i 0). unfold seq_free in H. rewrite H.
  reflexivity.
Qed.

(** The digit the pattern finds in a text of segments without the pattern
    followed by a trailer. *)
Lemma ayaz_search_trailer (body : jsstring) (d : N) (rest : jsstring) :
  snd <$> regex_search ayaz_at 0 body = None -> 48 <= d <= 57 ->
  exists i, regex_search ayaz_at 0 (body ++ 124 :: js "AY" ++ [d] ++ js "AZ" ++ rest)
            = Some (i, [d]).
Proof.
  intros Hb Hd.
  pose proof (ayaz_search_pipe body (js "AY" ++ [d] ++ js "AZ" ++ rest) 0) as H.
  rewrite Hb, (ayaz_search_hit d rest 0 Hd) in H.
  destruct (regex_search ayaz_at 0 (body ++ 124 :: js "AY" ++ [d] ++ js "AZ" ++ rest))
    as [[i g]|]; [|discriminate].
  cbn in H. injection H as ->. exists i. reflexivity.
Qed.

(** *** One frame in the buffer *)

Lemma processBuffer_frame (c : N) (x : jsstring) :
  Forall (fun u => u <> CR) (c :: x) -> is_space c = false ->
  processBuffer ((c :: x) ++ [CR]) = [(c :: x) ++ [CR]].
Proof.
  intros Hx Hc. unfold processBuffer.
  rewrite (split_on_app_sep CR (c :: x) []), (split_on_nosep CR (c :: x) Hx).
  cbn [split_on app removelast map trimStart]. rewrite Hc. reflexivity.
Qed.

Lemma handleMessage_resolves (checksumRequired : bool) (seqNum : Z) (message : jsstring)
    (i : nat) (d : N) :
  verifyChecksum message = Returned true ->
  regex_search ayaz_at 0 message = Some (i, [d]) ->
  48 <= d <= 57 -> (Z.of_N d - 48 = seqNum)%Z ->
  handleMessage checksumRequired seqNum message = Some (Returned message).
Proof.
  intros Hv Hs Hd Hseq. unfold handleMessage. rewrite Hv, Hs. cbn [negb andb].
  assert (Hp : parseInt [d] = Num (Z.of_N d - 48)).
  { assert (Hc : d = 48 \/ d = 49 \/ d = 50 \/ d = 51 \/ d = 52 \/ d = 53 \/ d = 54
                 \/ d = 55 \/ d = 56 \/ d = 57) by lia.
    destruct Hc as [->|[->|[->|[->|[->|[->|[->|[->|[->| ->]]]]]]]]]; reflexivity. }
  rewrite Hp, Hseq, Z.eqb_refl. reflexivity.
Qed.

(** The sequence character of a frame, for a sequence number of one
    digit. *)
Lemma sequence_digit (seqNum : Z) :
  (0 <= seqNum <= 9)%Z ->
  substring (Number_toString 10 seqNum) 0 1 = [Z.to_N (48 + seqNum)]
  /\ 48 <= Z.to_N (48 + seqNum) <= 57
  /\ (Z.of_N (Z.to_N (48 + seqNum)) - 48 = seqNum)%Z.
Proof.
  intros H.
  assert (Hc : (seqNum = 0 \/ seqNum = 1 \/ seqNum = 2 \/ seqNum = 3 \/ seqNum = 4
                \/ seqNum = 5 \/ seqNum = 6 \/ seqNum = 7 \/ seqNum = 8 \/ seqNum = 9)%Z)
    by lia.
  destruct Hc as [->|[->|[->|[->|[->|[->|[->|[->|[->| ->]]]]]]]]];
    (split; [reflexivity|split; [lia|reflexivity]]).
Qed.

(** *** What is ASCII in a frame *)

Lemma sanitize_ascii (x : jsstring) :
  Forall (fun c => c < 128) x -> Forall (fun c => c < 128) (sanitizeSipField x).
Proof.
  intros H. rewrite sanitizeSipField_filter. apply Forall_forall. intros c Hc.
  apply list_elem_of_filter in Hc as [_ Hc]. rewrite Forall_forall in H. exact (H c Hc).
Qed.

Lemma calculateChecksum_ascii (message : jsstring) :
  Forall (fun c => c < 128) (calculateChecksum message).
Proof.
  destruct (calculateChecksum_facts message) as (_ & H & _).
  eapply Forall_impl; [exact H|]. unfold is_hex. intros c Hc. lia.
Qed.

Lemma getSipTimestamp_ascii (now : Date) : Forall (fun c => c < 128) (getSipTimestamp now).
Proof.
  eapply Forall_impl; [apply getSipTimestamp_below|]. intros c Hc. cbv beta in Hc |- *. lia.
Qed.

Lemma literal_ascii (l : jsstring) :
  bool_decide (Forall (fun c => c < 128) l) = true -> Forall (fun c => c < 128) l.
Proof. apply bool_decide_eq_true_1. Qed.

Ltac solve_ascii :=
  repeat match goal with
         | |- Forall _ _ => assumption
         | |- Forall _ [] => apply Forall_nil_2
         | |- Forall _ (sanitizeSipField _) => apply sanitize_ascii
         | |- Forall _ (getSipTimestamp _) => apply getSipTimestamp_ascii
         | |- Forall _ (calculateChecksum _) => apply calculateChecksum_ascii
         | |- Forall _ (js _) => apply literal_ascii; vm_compute; reflexivity
         | |- Forall _ (_ :: _) => apply Forall_cons_2; [unfold CR; lia|]
         | |- Forall _ (_ ++ _) => apply Forall_app_2
         end.

Lemma not_CR_of_clean (s : jsstring) : Forall clean s -> Forall (fun u => u <> CR) s.
Proof. intros H. eapply Forall_impl; [exact H|]. unfold clean, CR. intros c Hc. lia. Qed.

(** *** The exchange *)

(** The mock answers a request that is ASCII as [mock_lms] says. *)
Lemma mock_peer_ascii unidecode utf8_decode (request response : jsstring) :
  (forall s, Forall (fun c => c < 128) s -> unidecode s = s) ->
  (forall s, Forall (fun c => c < 128) s -> utf8_decode s = s) ->
  Forall (fun c => c < 128) request -> mock_lms request = Some response ->
  Forall (fun c => c < 128) response ->
  mock_peer utf8_decode (ascii_bytes (unidecode request)) = Some response.
Proof.
  intros Hu Hd Hreq Hm Hresp. unfold mock_peer.
  rewrite (Hu request Hreq), (ascii_bytes_id request Hreq), (Hd request Hreq), Hm.
  cbn [fmap option_fmap option_map]. rewrite (utf8_encode_ascii response Hresp). reflexivity.
Qed.

(** The client resolves a request with the one frame that comes back when
    the frame verifies and carries the sequence digit of the request. *)
Lemma sendRaw_resolves unidecode peer (checksumRequired : bool) (raw : jsstring)
    (seqNum : Z) (c : N) (x : jsstring) (i : nat) (d : N) :
  peer (ascii_bytes (unidecode raw)) = Some ((c :: x) ++ [CR]) ->
  Forall (fun u => u <> CR) (c :: x) -> is_space c = false ->
  verifyChecksum ((c :: x) ++ [CR]) = Returned true ->
  regex_search ayaz_at 0 ((c :: x) ++ [CR]) = Some (i, [d]) ->
  48 <= d <= 57 -> (Z.of_N d - 48 = seqNum)%Z ->
  SipClient_sendRaw unidecode peer checksumRequired raw seqNum
  = Returned ((c :: x) ++ [CR]).
Proof.
  intros Hp Hx Hc Hv Hs Hd Hseq. unfold SipClient_sendRaw. cbv zeta. rewrite Hp.
  rewrite (processBuffer_frame c x Hx Hc). cbn [deliver].
  rewrite (handleMessage_resolves checksumRequired seqNum _ i d Hv Hs Hd Hseq). reflexivity.
Qed.

Lemma regex_group_Some {A} (attempt : jsstring -> option A) (s : jsstring) (g : A) :
  snd <$> regex_search attempt 0 s = Some g -> exists i, regex_search attempt 0 s = Some (i, g).
Proof.
  destruct (regex_search attempt 0 s) as [[i g']|]; [|discriminate].
  cbn. intros [= ->]. exists i. reflexivity.
Qed.

(** The login exchange. *)
Lemma login_exchange unidecode utf8_decode (checksumRequired : bool)
    (uid pwd : jsstring) (locationCode : option jsstring) (frame : jsstring) :
  (forall s, Forall (fun c => c < 128) s -> unidecode s = s) ->
  (forall s, Forall (fun c => c < 128) s -> utf8_decode s = s) ->
  Forall (fun c => c < 128) uid -> Forall (fun c => c < 128) pwd ->
  Forall (fun c => c < 128) (default [] locationCode) ->
  seq_free (sanitizeSipField uid) -> seq_free (sanitizeSipField pwd) ->
  seq_free (sanitizeSipField (default [] locationCode)) ->
  formatLoginRequest uid pwd locationCode (Some 0%Z) = Returned frame ->
  exists response,
    SipClient_sendRaw unidecode (mock_peer utf8_decode) checksumRequired frame 0
    = Returned response
    /\ startsWith response (js "941") = true
    /\ verifyChecksum response = Returned true.
Proof.
  intros Hu Hd Huid Hpwd Hloc Fu Fp Fl Hf.
  unfold formatLoginRequest in Hf. cbv zeta in Hf.
  apply appendChecksum_Returned in Hf as (seqStr & Hframe & Hseq).
  cbn [default from_option id] in Hseq.
  assert (Hs0 : seqStr = [48]) by (rewrite Hseq; reflexivity). clear Hseq. subst seqStr.
  set (u := sanitizeSipField uid) in *. set (p := sanitizeSipField pwd) in *.
  set (l := sanitizeSipField (default [] locationCode)) in *.
  set (body := (js "9300CN" ++ u) ++ 124 :: (js "CO" ++ p) ++ 124 :: (js "CP" ++ l)).
  assert (Hbody : js "9300CN" ++ u ++ js "|CO" ++ p ++ js "|CP" ++ l ++ js "|"
                  = body ++ [124]).
  { unfold body. change (js "|CO") with (124 :: js "CO").
    change (js "|CP") with (124 :: js "CP"). change (js "|") with [124].
    repeat (rewrite <- ?app_assoc; cbn [app]). reflexivity. }
  rewrite Hbody in Hframe.
  assert (Hascii : Forall (fun c => c < 128) frame).
  { rewrite Hframe. unfold body, u, p, l. solve_ascii. }
  assert (Hgroup : snd <$> regex_search ayaz_at 0 body = None).
  { unfold body. rewrite !ayaz_search_pipe.
    rewrite (ayaz_search_skip (js "9300CN") 0 u)
      by (apply (bool_decide_eq_true_1 (Forall (fun c => c <> 65) _)); vm_compute; reflexivity).
    rewrite (seq_free_group u 0 Fu).
    rewrite (ayaz_search_skip (js "CO") 0 p)
      by (apply (bool_decide_eq_true_1 (Forall (fun c => c <> 65) _)); vm_compute; reflexivity).
    rewrite (seq_free_group p 0 Fp).
    rewrite (ayaz_search_skip (js "CP") 0 l)
      by (apply (bool_decide_eq_true_1 (Forall (fun c => c <> 65) _)); vm_compute; reflexivity).
    apply (seq_free_group l 0 Fl). }
  assert (Hecho : exists i, regex_search ayaz_at 0 frame = Some (i, [48])).
  { rewrite Hframe. rewrite <- !app_assoc. cbn [app].
    apply (ayaz_search_trailer body 48 _ Hgroup). lia. }
  destruct Hecho as [i Hecho].
  set (response := (js "941AY" ++ [48] ++ js "AZ")
                   ++ calculateChecksum (js "941AY" ++ [48] ++ js "AZ") ++ [CR]).
  assert (Hmock : mock_lms frame = Some response).
  { assert (Hc : substring frame 0 2 = js "93").
    { rewrite Hframe, substring_0. unfold body. rewrite <- !app_assoc. reflexivity. }
    unfold mock_lms. cbv zeta. rewrite Hc.
    rewrite (bool_decide_eq_false_2 (js "93" = js "23")) by discriminate.
    rewrite (bool_decide_eq_true_2 (js "93" = js "93")) by reflexivity.
    rewrite Hecho. reflexivity. }
  assert (Hresp : Forall (fun c => c < 128) response) by (unfold response; solve_ascii).
  pose proof (mock_peer_ascii unidecode utf8_decode frame response Hu Hd Hascii Hmock Hresp)
    as Hpeer.
  assert (Hshape : response
                   = (57 :: js "41AY0AZ" ++ calculateChecksum (js "941AY0AZ")) ++ [CR]).
  { unfold response. change (js "941AY" ++ [48] ++ js "AZ") with (js "941AY0AZ").
    change (js "941AY0AZ") with (57 :: js "41AY0AZ") at 1.
    rewrite <- ?app_assoc. reflexivity. }
  assert (Hverify : verifyChecksum response = Returned true)
    by exact (checksummed_verifies (js "941AY" ++ [48])).
  assert (Hseq : exists j, regex_search ayaz_at 0 response = Some (j, [48])).
  { apply regex_group_Some. unfold response.
    change (js "941AY" ++ [48] ++ js "AZ") with (js "941" ++ js "AY" ++ [48] ++ js "AZ").
    rewrite <- !app_assoc.
    rewrite (ayaz_search_skip (js "941") 0)
      by (apply (bool_decide_eq_true_1 (Forall (fun c => c <> 65) _)); vm_compute; reflexivity).
    rewrite ayaz_search_hit by lia. reflexivity. }
  destruct Hseq as [j Hseq].
  exists response. split; [|split; [reflexivity|exact Hverify]].
  rewrite Hshape in Hpeer, Hverify, Hseq |- *.
  apply (sendRaw_resolves unidecode (mock_peer utf8_decode) checksumRequired frame 0 57 _ j 48
           Hpeer); [|reflexivity|exact Hverify|exact Hseq|lia|reflexivity].
  apply Forall_cons_2; [discriminate|]. apply Forall_app_2.
  - apply (bool_decide_eq_true_1 (Forall (fun c => c <> CR) _)). vm_compute. reflexivity.
  - apply not_CR_of_clean, calculateChecksum_clean.
Qed.

(** The frame of a patron status request of the client, whose institution
    is [GigaFlair] and whose language is [001]: three segments closed by
    [|], then the trailer. *)
Lemma patron_status_wire now barcode (seqNum : Z) frame :
  (0 <= seqNum <= 9)%Z ->
  formatPatronStatusRequest now barcode (Some (js "GigaFlair")) (Some seqNum)
    (Some (js "001")) = Returned frame ->
  exists cs,
    frame = ((js "23001" ++ getSipTimestamp now ++ js "AOGigaFlair")
             ++ 124 :: (js "AA" ++ sanitizeSipField barcode) ++ 124 :: js "AC")
            ++ 124 :: js "AY" ++ [Z.to_N (48 + seqNum)] ++ js "AZ" ++ cs ++ [CR]
    /\ Forall (fun c => c < 128) cs.
Proof.
  intros Hseq Hf.
  change (formatCommand now (CmdPatronStatus barcode None None) (Some seqNum) = Returned frame)
    in Hf.
  apply formatCommand_frame in Hf.
  destruct (sequence_digit seqNum Hseq) as (Hd & _ & _).
  eexists. split; [|apply calculateChecksum_ascii].
  rewrite Hf at 1. unfold wire_trailer. cbv zeta. cbn [default from_option id].
  rewrite Hd. unfold wire_body. cbn [wire_header wire_values]. cbv zeta.
  cbn [default from_option id map concat wire_field fst snd].
  replace (sanitizeSipField (js "GigaFlair")) with (js "GigaFlair")
    by (vm_compute; reflexivity).
  replace (substring (js "001") 0 3) with (js "001") by (vm_compute; reflexivity).
  change (js "23") with [50; 51]. change (js "001") with [48; 48; 49].
  change (js "23001") with [50; 51; 48; 48; 49].
  change (js "AO") with [65; 79]. change (js "AA") with [65; 65].
  change (js "AC") with [65; 67].
  change (js "GigaFlair") with [71; 105; 103; 97; 70; 108; 97; 105; 114].
  change (js "AOGigaFlair") with [65; 79; 71; 105; 103; 97; 70; 108; 97; 105; 114].
  repeat (rewrite <- ?app_assoc, ?app_nil_r; cbn [app]). reflexivity.
Qed.

Lemma literal_seq_free (l : jsstring) :
  bool_decide (regex_search ayaz_at 0 l = None) = true -> seq_free l.
Proof. apply bool_decide_eq_true_1. Qed.

(** The patron status exchange. *)
Lemma patron_status_exchange unidecode utf8_decode (checksumRequired : bool) (now : Date)
    (seqNum : Z) (barcode frame : jsstring) :
  (forall s, Forall (fun c => c < 128) s -> unidecode s = s) ->
  (forall s, Forall (fun c => c < 128) s -> utf8_decode s = s) ->
  (0 <= seqNum <= 9)%Z ->
  Forall (fun c => c < 128) barcode ->
  seq_free (js "AA" ++ sanitizeSipField barcode) ->
  formatPatronStatusRequest now barcode (Some (js "GigaFlair")) (Some seqNum)
    (Some (js "001")) = Returned frame ->
  exists response,
    SipClient_sendRaw unidecode (mock_peer utf8_decode) checksumRequired frame seqNum
    = Returned response
    /\ verifyChecksum response = Returned true
    /\ exists r, parsePatronStatusResponse response = Returned r
                 /\ PatronStatusResponse.patronBarcode r
                    = match sanitizeSipField barcode with
                      | [] => js "UNKNOWN"
                      | _ :: _ => sanitizeSipField barcode
                      end
                 /\ PatronStatusResponse.patronName r = js "Alice Patron".
Proof.
  intros Hu Hd Hseq Hbar Hfree Hf.
  destruct (sequence_digit seqNum Hseq) as (_ & Hdigit & Hback).
  set (d := Z.to_N (48 + seqNum)) in *.
  pose proof (mock_barcode now barcode (Some seqNum) frame Hf) as Hmb.
  destruct (patron_status_wire now barcode seqNum frame Hseq Hf) as (cs & Hframe & Hcs).
  fold d in Hframe.
  set (b := match sanitizeSipField barcode with [] => js "UNKNOWN" | _ :: _ => _ end) in *.
  assert (Hb : Forall (fun c => c <> 124) b).
  { subst b. destruct (sanitizeSipField barcode) as [|c s] eqn:E.
    - apply (bool_decide_eq_true_1 (Forall (fun c => c <> 124) _)). vm_compute. reflexivity.
    - rewrite <- E. eapply Forall_impl; [apply sanitize_clean|]. unfold clean. tauto. }
  assert (Hbcr : Forall (fun c => c <> CR) b).
  { subst b. destruct (sanitizeSipField barcode) as [|c s] eqn:E.
    - apply (bool_decide_eq_true_1 (Forall (fun c => c <> CR) _)). vm_compute. reflexivity.
    - rewrite <- E. apply not_CR_of_clean, sanitize_clean. }
  assert (Hbascii : Forall (fun c => c < 128) b).
  { subst b. destruct (sanitizeSipField barcode) as [|c s] eqn:E.
    - apply literal_ascii. vm_compute. reflexivity.
    - rewrite <- E. apply sanitize_ascii, Hbar. }
  assert (Hbfree : seq_free (js "AA" ++ b)).
  { subst b. destruct (sanitizeSipField barcode) as [|c s] eqn:E.
    - apply literal_seq_free. vm_compute. reflexivity.
    - exact Hfree. }
  (* the request *)
  assert (Hascii : Forall (fun c => c < 128) frame).
  { rewrite Hframe. solve_ascii. }
  assert (Hecho : exists i, regex_search ayaz_at 0 frame = Some (i, [d])).
  { rewrite Hframe. apply ayaz_search_trailer; [|exact Hdigit].
    rewrite !ayaz_search_pipe.
    rewrite (ayaz_search_skip (js "23001") 0)
      by (apply (bool_decide_eq_true_1 (Forall (fun c => c <> 65) _)); vm_compute; reflexivity).
    rewrite (ayaz_search_skip (getSipTimestamp now) 0).
    2:{ eapply Forall_impl; [apply getSipTimestamp_below|].
        intros c Hc. cbv beta in Hc |- *. lia. }
    rewrite (seq_free_group (js "AOGigaFlair") 0)
      by (apply literal_seq_free; vm_compute; reflexivity).
    rewrite (seq_free_group _ 0 Hfree).
    apply (seq_free_group (js "AC") 0). apply literal_seq_free. vm_compute. reflexivity. }
  destruct Hecho as [i Hecho].
  (* the answer of the mock *)
  set (msg := js "24" ++ js "Y Y           " ++ js "001" ++ js "20260221    120000" ++ js "AO"
              ++ js "GigaFlair" ++ js "|AA" ++ b ++ js "|AE" ++ js "Alice Patron"
              ++ js "|BZ0002|AU0000|AY" ++ [d] ++ js "AZ").
  set (response := msg ++ calculateChecksum msg ++ [CR]).
  assert (Hmock : mock_lms frame = Some response).
  { assert (Hc : substring frame 0 2 = js "23").
    { rewrite Hframe, substring_0. rewrite <- !app_assoc. reflexivity. }
    unfold mock_lms. cbv zeta. rewrite Hc.
    rewrite (bool_decide_eq_true_2 (js "23" = js "23")) by reflexivity.
    rewrite Hmb, Hecho. reflexivity. }
  assert (Hresp : Forall (fun c => c < 128) response).
  { unfold response, msg. solve_ascii. }
  pose proof (mock_peer_ascii unidecode utf8_decode frame response Hu Hd Hascii Hmock Hresp)
    as Hpeer.
  destruct (mock_response_parsed b d Hb) as (Hverify & r & Hr & H1 & H2); [lia|].
  fold msg in Hverify, Hr. fold response in Hverify, Hr.
  set (body := (((js "24Y Y           00120260221    120000AOGigaFlair"
                  ++ 124 :: (js "AA" ++ b)) ++ 124 :: js "AEAlice Patron")
                ++ 124 :: js "BZ0002") ++ 124 :: js "AU0000").
  assert (Hshape : response
                   = body ++ 124 :: js "AY" ++ [d] ++ js "AZ" ++ calculateChecksum msg ++ [CR]).
  { unfold response. generalize (calculateChecksum msg). intros cs'. unfold msg, body.
    change (js "|AA") with (124 :: js "AA"). change (js "|AE") with (124 :: js "AE").
    change (js "|BZ0002|AU0000|AY") with (js "|BZ0002|AU0000|" ++ js "AY").
    repeat (rewrite <- ?app_assoc; cbn [app]). reflexivity. }
  assert (Hgroup : snd <$> regex_search ayaz_at 0 body = None).
  { unfold body. rewrite !ayaz_search_pipe.
    rewrite (seq_free_group (js "24Y Y           00120260221    120000AOGigaFlair") 0)
      by (apply literal_seq_free; vm_compute; reflexivity).
    rewrite (seq_free_group _ 0 Hbfree).
    rewrite (seq_free_group (js "AEAlice Patron") 0)
      by (apply literal_seq_free; vm_compute; reflexivity).
    rewrite (seq_free_group (js "BZ0002") 0)
      by (apply literal_seq_free; vm_compute; reflexivity).
    apply (seq_free_group (js "AU0000") 0). apply literal_seq_free. vm_compute. reflexivity. }
  destruct (ayaz_search_trailer body d (calculateChecksum msg ++ [CR]) Hgroup Hdigit)
    as [j Hfound].
  rewrite <- Hshape in Hfound.
  assert (Hhead : response
                  = (50 :: js "4Y Y           00120260221    120000AOGigaFlair|AA" ++ b
                     ++ js "|AEAlice Patron|BZ0002|AU0000|AY" ++ [d] ++ js "AZ"
                     ++ calculateChecksum msg) ++ [CR]).
  { unfold response. generalize (calculateChecksum msg). intros cs'. unfold msg.
    repeat (rewrite <- ?app_assoc; cbn [app]). reflexivity. }
  exists response. split; [|split; [exact Hverify|exists r; auto]].
  rewrite Hhead in Hpeer, Hverify, Hfound |- *.
  apply (sendRaw_resolves unidecode (mock_peer utf8_decode) checksumRequired frame seqNum 50 _
           j d Hpeer); [|reflexivity|exact Hverify|exact Hfound|exact Hdigit|exact Hback].
  apply Forall_cons_2; [discriminate|].
  assert (Hlit : forall l : jsstring,
            bool_decide (Forall (fun c => c <> CR) l) = true -> Forall (fun c => c <> CR) l)
    by (intros l; apply bool_decide_eq_true_1).
  apply Forall_app_2; [apply Hlit; vm_compute; reflexivity|].
  apply Forall_app_2; [exact Hbcr|].
  apply Forall_app_2; [apply Hlit; vm_compute; reflexivity|].
  apply Forall_app_2; [apply Forall_cons_2; [unfold CR; lia|apply Forall_nil_2]|].
  apply Forall_app_2; [apply Hlit; vm_compute; reflexivity|].
  apply not_CR_of_clean, calculateChecksum_clean.
Qed.

(** X23. The login handshake of [performLogin] against the mock, through
    [sendRaw] of the client.  The client is connected and has nothing else
    pending; what it writes, [unidecode] of the frame as ASCII bytes, is
    what the mock reads, and both conversions leave ASCII text as it is.
    For a user, a password and a location code that are ASCII and that,
    once sanitized, hold no text [AY], digit, [AZ], the mock finds the
    sequence digit 0 of the frame and echoes it, the client resolves the
    request with the answer, which starts with [941] and whose checksum
    verifies, and [performLogin], for a profile without a status request
    after the login, returns at its first attempt. *)
Theorem mock_login_accepted (unidecode : jsstring -> jsstring)
    (utf8_decode : list N -> jsstring) (checksumRequired : bool)
    (scStatus : nat -> outcome ()) (sipUser sipPassword locationCode : jsstring)
    (retries : option nat) :
  (forall s, Forall (fun c => c < 128) s -> unidecode s = s) ->
  (forall s, Forall (fun c => c < 128) s -> utf8_decode s = s) ->
  Forall (fun c => c < 128) sipUser ->
  Forall (fun c => c < 128) sipPassword ->
  Forall (fun c => c < 128) locationCode ->
  seq_free (sanitizeSipField sipUser) ->
  seq_free (sanitizeSipField sipPassword) ->
  seq_free (sanitizeSipField locationCode) ->
  (exists frame response,
     formatLoginRequest sipUser sipPassword (Some locationCode) (Some 0%Z) = Returned frame
     /\ SipClient_sendRaw unidecode (mock_peer utf8_decode) checksumRequired frame 0
        = Returned response
     /\ startsWith response (js "941") = true
     /\ verifyChecksum response = Returned true)
  /\ performLogin (login_sendRaw unidecode (mock_peer utf8_decode) checksumRequired)
       scStatus sipUser sipPassword locationCode false retries
     = Returned ().
Proof.
  intros Hu Hd Huser Hpwd Hloc Fu Fp Fl.
  destruct (appendChecksum_frame
              (js "9300CN" ++ sanitizeSipField sipUser ++ js "|CO"
               ++ sanitizeSipField sipPassword ++ js "|CP"
               ++ sanitizeSipField locationCode ++ js "|") 0%Z) as (frame & Hf & _); [lia|].
  change (formatLoginRequest sipUser sipPassword (Some locationCode) (Some 0%Z)
          = Returned frame) in Hf.
  destruct (login_exchange unidecode utf8_decode checksumRequired sipUser sipPassword
              (Some locationCode) frame Hu Hd Huser Hpwd Hloc Fu Fp Fl Hf)
    as (response & Hsent & H941 & Hverify).
  split.
  - exists frame, response. auto.
  - unfold performLogin.
    apply (performLogin_from_spec
             (login_sendRaw unidecode (mock_peer utf8_decode) checksumRequired)
             scStatus sipUser sipPassword locationCode false frame).
    + exact Hf.
    + exists 0%nat, response. split; [lia|]. split; [exact Hsent|].
      split; [exact H941|discriminate].
Qed.

Lemma mock_login_accepted_witness :
  performLogin (login_sendRaw (fun s => s) (mock_peer (fun bytes => bytes)) true)
    (fun _ => Returned ()) (js "sip_user") (js "secret") (js "MAIN") false None
  = Returned ().
Proof.
  apply (mock_login_accepted (fun s => s) (fun bytes => bytes) true (fun _ => Returned ())
           (js "sip_user") (js "secret") (js "MAIN") None);
    try (intros s _; reflexivity);
    try (apply literal_ascii; vm_compute; reflexivity);
    apply literal_seq_free; vm_compute; reflexivity.
Defined.

(** A user name with the text of a sequence number: the mock echoes the
    digit 5 of the name, the client discards the answer at each of its
    three attempts and the login fails. *)
Example login_sequence_text_rejected :
  performLogin (login_sendRaw (fun s => s) (mock_peer (fun bytes => bytes)) true)
    (fun _ => Returned ()) (js "AY5AZ") (js "secret") (js "MAIN") false None
  = Thrown ClientFailure.
Proof. vm_compute. reflexivity. Qed.

(** X24. A patron status request of the client against the mock, end to
    end, through [patronStatus] and [sendRaw].  The client is the one of the
    default institution [GigaFlair], is connected and has nothing else
    pending, and asks with the default language; the sequence number is one
    of 0 to 9; what the client writes, [unidecode] of the frame as ASCII
    bytes, is what the mock reads, and both conversions leave ASCII text as
    it is.  For a barcode that is ASCII and whose field [AA], once
    sanitized, holds no text [AY], digit, [AZ], the call returns a record
    whose barcode is the barcode of the request as sanitized, or [UNKNOWN]
    when nothing is left of it, and whose name is the one the mock
    knows. *)
Theorem mock_patron_status_round_trip (unidecode : jsstring -> jsstring)
    (utf8_decode : list N -> jsstring) (checksumRequired : bool) (now : Date)
    (seqNum : Z) (barcode : jsstring) :
  (forall s, Forall (fun c => c < 128) s -> unidecode s = s) ->
  (forall s, Forall (fun c => c < 128) s -> utf8_decode s = s) ->
  (0 <= seqNum <= 9)%Z ->
  Forall (fun c => c < 128) barcode ->
  seq_free (js "AA" ++ sanitizeSipField barcode) ->
  exists r,
    SipClient_patronStatus unidecode (mock_peer utf8_decode) checksumRequired now
      (js "GigaFlair") seqNum barcode None = Returned r
    /\ PatronStatusResponse.patronBarcode r
       = match sanitizeSipField barcode with
         | [] => js "UNKNOWN"
         | _ :: _ => sanitizeSipField barcode
         end
    /\ PatronStatusResponse.patronName r = js "Alice Patron".
Proof.
  intros Hu Hd Hseq Hbar Hfree.
  destruct (appendChecksum_frame (wire_body now (CmdPatronStatus barcode None None)) seqNum)
    as (frame & Hf & _); [lia|].
  pose proof (formatCommand_layout now (CmdPatronStatus barcode None None) (Some seqNum))
    as Hlayout.
  cbn [default from_option id] in Hlayout. rewrite <- Hlayout in Hf. clear Hlayout.
  change (formatPatronStatusRequest now barcode (Some (js "GigaFlair")) (Some seqNum)
            (Some (js "001")) = Returned frame) in Hf.
  destruct (patron_status_exchange unidecode utf8_decode checksumRequired now seqNum barcode
              frame Hu Hd Hseq Hbar Hfree Hf)
    as (response & Hsent & _ & r & Hr & H1 & H2).
  exists r. split; [|split; [exact H1|exact H2]].
  unfold SipClient_patronStatus. cbn [default from_option id].
  rewrite Hf. cbn [mbind outcome_bind]. rewrite Hsent. cbn [mbind outcome_bind]. exact Hr.
Qed.

Lemma mock_patron_status_round_trip_witness :
  exists r,
    SipClient_patronStatus (fun s => s) (mock_peer (fun bytes => bytes)) true example_now
      (js "GigaFlair") 4 (js "P|123") None = Returned r
    /\ PatronStatusResponse.patronBarcode r = js "P123".
Proof.
  destruct (mock_patron_status_round_trip (fun s => s) (fun bytes => bytes) true example_now 4
              (js "P|123")) as (r & Hr & Hb & _).
  - intros s _. reflexivity.
  - intros s _. reflexivity.
  - lia.
  - apply literal_ascii. vm_compute. reflexivity.
  - apply literal_seq_free. vm_compute. reflexivity.
  - exists r. split; [exact Hr|]. rewrite Hb. vm_compute. reflexivity.
Defined.

(** A barcode that is not ASCII: the client sends what [unidecode] makes of
    the frame, so the barcode the mock reads and gives back is the
    transliterated one.  Here [unidecode] is taken to write [e] for [U+00E9],
    as the package does. *)
Example patron_status_transliterated :
  let unidecode := map (fun c => if c =? 233 then 101 else c) in
  exists r,
    SipClient_patronStatus unidecode (mock_peer (fun bytes => bytes)) true example_now
      (js "GigaFlair") 4 [90; 111; 233] None = Returned r
    /\ PatronStatusResponse.patronBarcode r = js "Zoe".
Proof. cbv zeta. eexists. split; vm_compute; reflexivity. Qed.

(** ** Dashboard redaction: one replacement pass *)

Lemma replace_field_from_drop field repl (s : jsstring) : forall k : nat,
  replace_field_from field repl k s = replace_field_from field repl 0 (drop k s).
Proof.
  induction s as [|c s IH]; intros k.
  - rewrite drop_nil. destruct k; reflexivity.
  - destruct k as [|k]; [reflexivity|]. cbn [replace_field_from drop]. apply IH.
Qed.

(** The pass at a match: the replacement of the run, then the pass behind
    the run. *)
Lemma replace_field_match field repl (s : jsstring) :
  field <> [] -> startsWith s field = true ->
  replace_field_g field repl s
  = repl (field_run (drop (length field) s))
    ++ replace_field_g field repl
         (drop (length field + length (field_run (drop (length field) s))) s).
Proof.
  intros Hf Hs. unfold replace_field_g.
  destruct s as [|c s].
  { destruct field; [congruence|discriminate]. }
  cbn [replace_field_from]. rewrite Hs. cbv zeta. f_equal.
  rewrite replace_field_from_drop. f_equal.
  destruct field as [|f field]; [congruence|]. cbn [length].
  cbn [Nat.add Nat.sub drop]. rewrite Nat.sub_0_r. reflexivity.
Qed.

Lemma replace_field_miss field repl (c : N) (s : jsstring) :
  startsWith (c :: s) field = false ->
  replace_field_g field repl (c :: s) = c :: replace_field_g field repl s.
Proof. intros Hs. unfold replace_field_g. cbn [replace_field_from]. rewrite Hs. reflexivity. Qed.

Lemma replace_field_absent field repl (s : jsstring) :
  includes s field = false -> replace_field_g field repl s = s.
Proof.
  induction s as [|c s IH]; intros H; [reflexivity|].
  cbn [includes] in H. apply orb_false_iff in H as [H1 H2].
  rewrite replace_field_miss by exact H1. rewrite (IH H2). reflexivity.
Qed.

Lemma field_run_pipe (a y : jsstring) : field_run (a ++ 124 :: y) = field_run a.
Proof.
  induction a as [|c a IH]; cbn [app field_run]; [reflexivity|].
  destruct (c =? 124); [reflexivity|]. rewrite IH. reflexivity.
Qed.

Lemma field_run_length (a : jsstring) : (length (field_run a) <= length a)%nat.
Proof.
  induction a as [|c a IH]; cbn [field_run length]; [lia|].
  destruct (c =? 124); cbn [length]; lia.
Qed.

Lemma startsWith_pipe (field : jsstring) : forall x y : jsstring,
  Forall (fun c => c <> 124) field ->
  startsWith (x ++ 124 :: y) field = startsWith x field.
Proof.
  induction field as [|f field IH]; intros x y Hf.
  - rewrite !startsWith_nil. reflexivity.
  - apply Forall_cons in Hf as [Hf1 Hf]. destruct x as [|c x]; cbn [app startsWith].
    + rewrite (proj2 (N.eqb_neq f 124) Hf1). reflexivity.
    + rewrite (IH x y Hf). reflexivity.
Qed.

Lemma startsWith_length (field : jsstring) : forall s : jsstring,
  startsWith s field = true -> (length field <= length s)%nat.
Proof.
  induction field as [|f field IH]; intros s H; cbn [length]; [lia|].
  destruct s as [|c s]; [discriminate|]. cbn [startsWith] in H.
  apply andb_true_iff in H as [_ H]. specialize (IH s H). cbn [length]. lia.
Qed.

(** A pass works segment by segment: no match reaches over a [|]. *)
Lemma replace_field_pipe field repl :
  field <> [] -> Forall (fun c => c <> 124) field ->
  forall x y : jsstring,
    replace_field_g field repl (x ++ 124 :: y)
    = replace_field_g field repl x ++ 124 :: replace_field_g field repl y.
Proof.
  intros Hne Hf x y.
  remember (length x) as n eqn:Hn. revert x Hn.
  induction n as [n IH] using lt_wf_ind. intros x Hn.
  destruct x as [|c x].
  - cbn [app]. rewrite replace_field_miss; [reflexivity|].
    change (124 :: y) with ([] ++ 124 :: y). rewrite (startsWith_pipe field [] y Hf).
    destruct field; [congruence|reflexivity].
  - destruct (startsWith (c :: x) field) eqn:Es.
    + pose proof (startsWith_length field _ Es) as Hlen.
      rewrite (replace_field_match field repl ((c :: x) ++ 124 :: y) Hne)
        by (rewrite startsWith_pipe by exact Hf; exact Es).
      rewrite (replace_field_match field repl (c :: x) Hne Es).
      rewrite drop_app_le by exact Hlen. rewrite field_run_pipe.
      set (value := field_run (drop (length field) (c :: x))).
      assert (Hv : (length field + length value <= length (c :: x))%nat).
      { pose proof (field_run_length (drop (length field) (c :: x))) as H.
        fold value in H. rewrite length_drop in H. lia. }
      rewrite (drop_app_le (c :: x)) by exact Hv.
      rewrite <- app_assoc. f_equal.
      apply (IH (length (drop (length field + length value) (c :: x)))); [|reflexivity].
      rewrite length_drop. subst n. destruct field; [congruence|]. cbn [length]. lia.
    + cbn [app]. rewrite replace_field_miss
        by (rewrite <- Es; apply (startsWith_pipe field (c :: x) y Hf)).
      rewrite (replace_field_miss field repl c x Es).
      cbn [app]. f_equal. apply (IH (length x)); [subst n; cbn [length]; lia|reflexivity].
Qed.

(** On a segment that starts with the field code the pass replaces the
    whole segment. *)
Lemma replace_field_segment field repl (v : jsstring) :
  field <> [] -> Forall (fun c => c <> 124) v ->
  replace_field_g field repl (field ++ v) = repl v.
Proof.
  intros Hne Hv.
  rewrite (replace_field_match field repl (field ++ v) Hne (startsWith_app field v)).
  rewrite drop_app_length, (field_run_all v Hv).
  rewrite (drop_ge (field ++ v)); [apply app_nil_r|]. rewrite length_app. lia.
Qed.

Lemma replace_field_no_pipe field repl :
  (forall v, Forall (fun c => c <> 124) v -> Forall (fun c => c <> 124) (repl v)) ->
  field <> [] ->
  forall s : jsstring,
    Forall (fun c => c <> 124) s -> Forall (fun c => c <> 124) (replace_field_g field repl s).
Proof.
  intros Hrepl Hne s. induction s as [|c s IH]; intros Hs; [apply Forall_nil_2|].
  destruct (startsWith (c :: s) field) eqn:Es.
  - rewrite (replace_field_match field repl (c :: s) Hne Es).
    rewrite (field_run_all (drop (length field) (c :: s))) by (apply Forall_drop, Hs).
    rewrite (drop_ge (c :: s) (length field + _)).
    + apply Forall_app_2; [apply Hrepl, Forall_drop, Hs|apply Forall_nil_2].
    + pose proof (startsWith_length field _ Es). rewrite length_drop. lia.
  - rewrite (replace_field_miss field repl c s Es).
    apply Forall_cons in Hs as [Hc Hs]. apply Forall_cons_2; [exact Hc|exact (IH Hs)].
Qed.

(** ** Dashboard redaction: the six passes *)

Lemma mask_shape masterKey (v m : jsstring) :
  mask masterKey v = Returned m ->
  m = [] \/ exists h, m = js "MASKED_" ++ h /\ Forall is_lower_hex h.
Proof.
  unfold mask. destruct v as [|c v]; [intros [= <-]; left; reflexivity|].
  destruct (negb (truthy masterKey)); [discriminate|].
  intros [= <-]. right. eexists. split; [reflexivity|].
  apply substring_Forall.
  set (bs := hmac_sha256 _ _).
  assert (Hb : Forall (fun b => b < 256) bs) by (unfold bs, hmac_sha256; apply sha256_bytes).
  apply (hex_encode_facts bs Hb).
Qed.

Lemma redact_credential masterKey (field v : jsstring) :
  field ∈ credentialFields -> redact masterKey field v = field ++ js "********".
Proof. intros H. unfold redact. rewrite bool_decide_eq_true_2 by exact H. reflexivity. Qed.

(** What [redact] writes after the field code: the mask, or stars. *)
Lemma redact_shape masterKey (field v : jsstring) :
  exists m, redact masterKey field v = field ++ m
            /\ (m = [] \/ m = js "********"
                \/ exists h, m = js "MASKED_" ++ h /\ Forall is_lower_hex h).
Proof.
  unfold redact. destruct (bool_decide (field ∈ credentialFields)); [eauto|].
  destruct (mask masterKey v) as [m|e] eqn:E; [|eauto].
  exists m. split; [reflexivity|]. apply mask_shape in E as [->|H]; auto.
Qed.

Lemma redact_no_pipe masterKey (field : jsstring) :
  Forall (fun c => c <> 124) field ->
  forall v, Forall (fun c => c <> 124) v -> Forall (fun c => c <> 124) (redact masterKey field v).
Proof.
  intros Hf v _. destruct (redact_shape masterKey field v) as (m & -> & Hm).
  apply Forall_app_2; [exact Hf|].
  destruct Hm as [->|[->|(h & -> & Hh)]].
  - apply Forall_nil_2.
  - apply (bool_decide_eq_true_1 (Forall (fun c => c <> 124) _)). vm_compute. reflexivity.
  - apply Forall_app_2.
    + apply (bool_decide_eq_true_1 (Forall (fun c => c <> 124) _)). vm_compute. reflexivity.
    + eapply Forall_impl; [exact Hh|]. unfold is_lower_hex. intros c Hc. lia.
Qed.

Lemma maskPii_text_passes masterKey (text : jsstring) :
  maskPii_text masterKey text
  = replace_field_g (js "AB") (redact masterKey (js "AB"))
      (replace_field_g (js "AE") (redact masterKey (js "AE"))
         (replace_field_g (js "AA") (redact masterKey (js "AA"))
            (replace_field_g (js "AD") (redact masterKey (js "AD"))
               (replace_field_g (js "CO") (redact masterKey (js "CO"))
                  (replace_field_g (js "CN") (redact masterKey (js "CN")) text))))).
Proof. reflexivity. Qed.

Lemma code_no_pipe (code : string) :
  bool_decide (Forall (fun c => c <> 124) (js code)) = true ->
  Forall (fun c => c <> 124) (js code).
Proof. apply bool_decide_eq_true_1. Qed.

Lemma maskPii_text_pipe masterKey (x y : jsstring) :
  maskPii_text masterKey (x ++ 124 :: y)
  = maskPii_text masterKey x ++ 124 :: maskPii_text masterKey y.
Proof.
  rewrite !maskPii_text_passes.
  rewrite (replace_field_pipe (js "CN")) by (discriminate || (apply code_no_pipe; reflexivity)).
  rewrite (replace_field_pipe (js "CO")) by (discriminate || (apply code_no_pipe; reflexivity)).
  rewrite (replace_field_pipe (js "AD")) by (discriminate || (apply code_no_pipe; reflexivity)).
  rewrite (replace_field_pipe (js "AA")) by (discriminate || (apply code_no_pipe; reflexivity)).
  rewrite (replace_field_pipe (js "AE")) by (discriminate || (apply code_no_pipe; reflexivity)).
  rewrite (replace_field_pipe (js "AB")) by (discriminate || (apply code_no_pipe; reflexivity)).
  reflexivity.
Qed.

(** A pass for [field] on a text that starts with two characters that are
    not the start of a match goes on behind them. *)
Lemma replace_field_behind (field : string) repl (a b : N) (v : jsstring) :
  (forall c : N, startsWith [a; b; c] (js field) = false) ->
  startsWith [b] (js field) = false -> length (js field) = 2%nat ->
  replace_field_g (js field) repl (a :: b :: v)
  = a :: replace_field_g (js field) repl (b :: v).
Proof.
  intros H1 H2 Hl. apply replace_field_miss.
  destruct (js field) as [|f1 [|f2 [|f3 f]]]; try discriminate.
  specialize (H1 0). cbn [startsWith] in H1 |- *.
  rewrite andb_true_r in H1. destruct v; cbn [startsWith]; rewrite ?andb_true_r; exact H1.
Qed.

Ltac solve_in :=
  unfold allSensitiveFields, credentialFields, piiFields; cbn [app];
  repeat first [apply list_elem_of_here | apply list_elem_of_further].

Lemma stars_segment masterKey (code : jsstring) :
  code ∈ credentialFields -> maskPii_text masterKey (code ++ js "********") = code ++ js "********"
  /\ forall v : jsstring, Forall (fun c => c <> 124) v ->
       maskPii_text masterKey (code ++ v) = code ++ js "********".
Proof.
  intros Hin.
  assert (Hpass : forall f, f ∈ allSensitiveFields ->
            forall v, Forall (fun c => c <> 124) v ->
              Forall (fun c => c <> 124) (replace_field_g f (redact masterKey f) v)).
  { intros f Hf v Hv.
    unfold allSensitiveFields, credentialFields, piiFields in Hf. cbn [app] in Hf.
    repeat (apply elem_of_cons in Hf as [->|Hf];
            [apply replace_field_no_pipe;
               [apply redact_no_pipe, code_no_pipe; reflexivity|discriminate|exact Hv]|]).
    inversion Hf. }
  assert (Hstars : forall code, code ∈ credentialFields ->
            maskPii_text masterKey (code ++ js "********") = code ++ js "********").
  { clear Hin code. intros code Hin. unfold credentialFields in Hin.
    repeat (apply elem_of_cons in Hin as [->|Hin]; [vm_compute; reflexivity|]).
    inversion Hin. }
  split; [exact (Hstars code Hin)|].
  intros v Hv. unfold credentialFields in Hin.
  apply elem_of_cons in Hin as [->|Hin].
  { rewrite maskPii_text_passes.
    rewrite (replace_field_segment (js "CN") _ v) by (discriminate || exact Hv).
    rewrite redact_credential by solve_in.
    rewrite !replace_field_absent by (vm_compute; reflexivity). reflexivity. }
  apply elem_of_cons in Hin as [->|Hin].
  { rewrite maskPii_text_passes.
    change (js "CO" ++ v) with (67 :: 79 :: v).
    rewrite (replace_field_behind "CN") by (reflexivity || (intros c; reflexivity)).
    rewrite (replace_field_miss (js "CN") _ 79 _) by reflexivity.
    set (v1 := replace_field_g (js "CN") _ v).
    assert (H1 : Forall (fun c => c <> 124) v1).
    { apply Hpass; [solve_in|exact Hv]. }
    change (67 :: 79 :: v1) with (js "CO" ++ v1).
    rewrite (replace_field_segment (js "CO") _ v1) by (discriminate || exact H1).
    rewrite redact_credential by solve_in.
    rewrite !replace_field_absent by (vm_compute; reflexivity). reflexivity. }
  apply elem_of_cons in Hin as [->|Hin]; [|inversion Hin].
  rewrite maskPii_text_passes.
  change (js "AD" ++ v) with (65 :: 68 :: v).
  rewrite (replace_field_behind "CN") by (reflexivity || (intros c; reflexivity)).
  rewrite (replace_field_miss (js "CN") _ 68 _) by reflexivity.
  set (v1 := replace_field_g (js "CN") _ v).
  assert (H1 : Forall (fun c => c <> 124) v1).
  { apply Hpass; [solve_in|exact Hv]. }
  rewrite (replace_field_behind "CO") by (reflexivity || (intros c; reflexivity)).
  rewrite (replace_field_miss (js "CO") _ 68 _) by reflexivity.
  set (v2 := replace_field_g (js "CO") _ v1).
  assert (H2 : Forall (fun c => c <> 124) v2).
  { apply Hpass; [solve_in|exact H1]. }
  change (65 :: 68 :: v2) with (js "AD" ++ v2).
  rewrite (replace_field_segment (js "AD") _ v2) by (discriminate || exact H2).
  rewrite redact_credential by solve_in.
  rewrite !replace_field_absent by (vm_compute; reflexivity). reflexivity.
Qed.

(** X25. A credential never reaches the dashboard: in a raw frame, a field
    that starts with [CN], [CO] or [AD] (login user, login password, patron
    PIN) is replaced by the code and eight stars, with or without a master
    key, and the text before and after the field is redacted on its own. *)
Theorem credential_fields_redacted (masterKey : option jsstring)
    (before after code value : jsstring) :
  code ∈ credentialFields -> Forall (fun c => c <> 124) value ->
  maskPii_text masterKey (before ++ 124 :: (code ++ value) ++ 124 :: after)
  = maskPii_text masterKey before ++ 124 :: (code ++ js "********")
    ++ 124 :: maskPii_text masterKey after.
Proof.
  intros Hin Hv. rewrite !maskPii_text_pipe.
  destruct (stars_segment masterKey code Hin) as [_ H]. rewrite (H value Hv). reflexivity.
Qed.

Lemma credential_fields_redacted_witness :
  maskPii_text None (js "11YN20260221    120000AOGigaFlair|AAP123|ABI456|AC|AD4321|AY1AZ0000")
  = maskPii_text None (js "11YN20260221    120000AOGigaFlair|AAP123|ABI456|AC")
    ++ js "|AD********|" ++ maskPii_text None (js "AY1AZ0000").
Proof.
  apply (credential_fields_redacted None
           (js "11YN20260221    120000AOGigaFlair|AAP123|ABI456|AC") (js "AY1AZ0000")
           (js "AD") (js "4321")).
  - solve_in.
  - apply (bool_decide_eq_true_1 (Forall (fun c => c <> 124) _)). vm_compute. reflexivity.
Defined.

Lemma maskPii_raw masterKey (text : jsstring) :
  maskPii masterKey (VObject [(js "raw", VString text)])
  = VObject [(js "raw", VString (maskPii_text masterKey text))].
Proof.
  unfold maskPii. cbn [truthy_value negb fold_left obj_get].
  rewrite (bool_decide_eq_true_2 (js "raw" = js "raw")) by reflexivity.
  unfold obj_set. rewrite (bool_decide_eq_false_2 (js "raw" = js "__proto__")) by discriminate.
  cbn [obj_put]. rewrite (bool_decide_eq_true_2 (js "raw" = js "raw")) by reflexivity.
  cbn [obj_get]. rewrite (bool_decide_eq_false_2 (js "raw" = js "message")) by discriminate.
  reflexivity.
Qed.

(** X26. The login frame on the dashboard: for a log entry whose [raw] is a
    frame of [formatLoginRequest], [maskPii] returns an entry whose [raw]
    starts with [9300CN********|CO********|], whatever the user id and the
    password are and whether a master key is set or not. *)
Theorem login_frame_redacted (masterKey : option jsstring) (uid pwd : jsstring)
    (locationCode : option jsstring) (seqNum : option Z) (frame : jsstring) :
  formatLoginRequest uid pwd locationCode seqNum = Returned frame ->
  exists rest,
    maskPii masterKey (VObject [(js "raw", VString frame)])
    = VObject [(js "raw", VString (js "9300CN********|CO********|" ++ rest))].
Proof.
  intros Hf. unfold formatLoginRequest in Hf. cbv zeta in Hf.
  apply appendChecksum_Returned in Hf as (seqStr & -> & _).
  rewrite maskPii_raw.
  set (u := sanitizeSipField uid). set (p := sanitizeSipField pwd).
  assert (Hu : Forall (fun c => c <> 124) u).
  { eapply Forall_impl; [apply sanitize_clean|]. unfold clean. tauto. }
  assert (Hp : Forall (fun c => c <> 124) p).
  { eapply Forall_impl; [apply sanitize_clean|]. unfold clean. tauto. }
  match goal with
  | |- context [maskPii_text masterKey ?t] =>
      replace t with ((js "9300CN" ++ u) ++ 124 :: (js "CO" ++ p) ++ 124 ::
                      (js "CP" ++ sanitizeSipField (default [] locationCode) ++ js "|"
                       ++ js "AY" ++ seqStr ++ js "AZ"
                       ++ calculateChecksum
                            ((js "9300CN" ++ u ++ js "|CO" ++ p ++ js "|CP"
                              ++ sanitizeSipField (default [] locationCode) ++ js "|")
                             ++ js "AY" ++ seqStr ++ js "AZ") ++ [CR]))
  end.
  2:{ change (js "|CO") with (124 :: js "CO"). change (js "|CP") with (124 :: js "CP").
      repeat (rewrite <- ?app_assoc; cbn [app]). reflexivity. }
  rewrite !maskPii_text_pipe.
  destruct (stars_segment masterKey (js "CO") ltac:(solve_in)) as [_ Hco].
  rewrite (Hco p Hp).
  assert (Hhead : maskPii_text masterKey (js "9300CN" ++ u) = js "9300CN********").
  { rewrite maskPii_text_passes.
    change (js "9300CN" ++ u) with (57 :: 51 :: 48 :: 48 :: js "CN" ++ u).
    rewrite !(replace_field_miss (js "CN")) by reflexivity.
    rewrite (replace_field_segment (js "CN") _ u) by (discriminate || exact Hu).
    rewrite redact_credential by solve_in.
    change (57 :: 51 :: 48 :: 48 :: js "CN" ++ js "********") with (js "9300CN********").
    rewrite !replace_field_absent by (vm_compute; reflexivity). reflexivity. }
  rewrite Hhead. eexists. reflexivity.
Qed.

Lemma login_frame_redacted_witness :
  exists frame rest,
    formatLoginRequest (js "sip_user") (js "secret") (Some (js "MAIN")) (Some 3%Z)
    = Returned frame
    /\ maskPii None (VObject [(js "raw", VString frame)])
       = VObject [(js "raw", VString (js "9300CN********|CO********|" ++ rest))].
Proof.
  destruct (formatLoginRequest (js "sip_user") (js "secret") (Some (js "MAIN")) (Some 3%Z))
    as [frame|e] eqn:E; [|vm_compute in E; discriminate].
  destruct (login_frame_redacted None _ _ _ _ frame E) as (rest & H).
  exists frame, rest. split; [reflexivity|exact H].
Defined.

Lemma includes_cons_miss (c : N) (s f : jsstring) :
  startsWith (c :: s) f = false -> includes (c :: s) f = includes s f.
Proof. intros H. cbn [includes]. rewrite H. reflexivity. Qed.

Lemma includes_no_first (f1 : N) (f s : jsstring) :
  Forall (fun c => c <> f1) s -> includes s (f1 :: f) = false.
Proof.
  induction s as [|c s IH]; intros Hs; [reflexivity|].
  apply Forall_cons in Hs as [Hc Hs]. cbn [includes startsWith].
  rewrite (proj2 (N.eqb_neq f1 c)) by congruence. cbn [andb orb]. exact (IH Hs).
Qed.

(** The pass of a later code finds nothing in what [redact] wrote for a
    patron, name or item field. *)
Lemma masked_segment_stable (code later m : jsstring) :
  (code, later) ∈ [(js "AA", js "AE"); (js "AA", js "AB"); (js "AE", js "AB")] ->
  m = [] \/ m = js "********" \/ (exists h, m = js "MASKED_" ++ h /\ Forall is_lower_hex h) ->
  includes (code ++ m) later = false.
Proof.
  intros Hin Hm.
  assert (Hh : forall h, Forall is_lower_hex h -> Forall (fun c => c <> 65) h).
  { intros h Hh. eapply Forall_impl; [exact Hh|]. unfold is_lower_hex. intros c Hc. lia. }
  repeat (apply elem_of_cons in Hin as [[= -> ->]|Hin];
          [destruct Hm as [->|[->|(h & -> & Hm)]];
             [vm_compute; reflexivity|vm_compute; reflexivity|];
           match goal with
           | |- includes (js ?a ++ js ?b ++ h) (js ?f) = false =>
               let a' := eval vm_compute in (js a ++ js b) in
               let f' := eval vm_compute in (js f) in
               change (includes (a' ++ h) f' = false)
           end;
           cbn [app];
           repeat (rewrite includes_cons_miss by (vm_compute; reflexivity));
           apply includes_no_first, Hh, Hm|]).
  inversion Hin.
Qed.

(** X27. One mask everywhere: in a raw frame, a patron, name or item field
    ([AA], [AE], [AB]) whose value holds no other sensitive code is replaced
    by the code and [MaskingService.mask] of the value, the token that
    [maskPayload] writes for the same value, or by the code and eight stars
    when no master key is set; an empty value stays empty. *)
Theorem pii_fields_masked (masterKey : option jsstring)
    (before after code value : jsstring) :
  code ∈ piiFields -> Forall (fun c => c <> 124) value ->
  (forall f, f ∈ allSensitiveFields -> f <> code -> includes (code ++ value) f = false) ->
  maskPii_text masterKey (before ++ 124 :: (code ++ value) ++ 124 :: after)
  = maskPii_text masterKey before
    ++ 124 :: (code ++ match mask masterKey value with
                       | Returned masked => masked
                       | Thrown _ => js "********"
                       end)
    ++ 124 :: maskPii_text masterKey after.
Proof.
  intros Hin Hv Hother. rewrite !maskPii_text_pipe. f_equal. f_equal. f_equal.
  assert (Hred : redact masterKey code value
                 = code ++ match mask masterKey value with
                           | Returned masked => masked
                           | Thrown _ => js "********"
                           end
                 /\ ((match mask masterKey value with
                      | Returned masked => masked
                      | Thrown _ => js "********"
                      end) = []
                     \/ (match mask masterKey value with
                         | Returned masked => masked
                         | Thrown _ => js "********"
                         end) = js "********"
                     \/ exists h, (match mask masterKey value with
                                   | Returned masked => masked
                                   | Thrown _ => js "********"
                                   end) = js "MASKED_" ++ h /\ Forall is_lower_hex h)).
  { unfold redact. rewrite bool_decide_eq_false_2.
    - destruct (mask masterKey value) as [m|e] eqn:E; [|auto].
      split; [reflexivity|]. apply mask_shape in E as [->|H]; auto.
    - unfold piiFields in Hin. unfold credentialFields. intros Hc.
      repeat (apply elem_of_cons in Hin as [->|Hin];
              [repeat (apply elem_of_cons in Hc as [Hc|Hc]; [discriminate|]); inversion Hc|]).
      inversion Hin. }
  destruct Hred as [Hred Hshape].
  set (m := match mask masterKey value with Returned masked => masked | Thrown _ => _ end) in *.
  clearbody m.
  assert (Habs : forall f, f ∈ allSensitiveFields -> f <> code ->
            replace_field_g f (redact masterKey f) (code ++ value) = code ++ value).
  { intros f Hf Hne. apply replace_field_absent, Hother; assumption. }
  rewrite maskPii_text_passes. unfold piiFields in Hin.
  apply elem_of_cons in Hin as [->|Hin].
  { rewrite (Habs (js "CN")) by (solve_in || discriminate).
    rewrite (Habs (js "CO")) by (solve_in || discriminate).
    rewrite (Habs (js "AD")) by (solve_in || discriminate).
    rewrite (replace_field_segment (js "AA") _ value) by (discriminate || exact Hv).
    rewrite Hred.
    rewrite (replace_field_absent (js "AE"))
      by (apply (masked_segment_stable (js "AA") (js "AE")); [solve_in|exact Hshape]).
    rewrite (replace_field_absent (js "AB"))
      by (apply (masked_segment_stable (js "AA") (js "AB")); [solve_in|exact Hshape]).
    reflexivity. }
  apply elem_of_cons in Hin as [->|Hin].
  { rewrite (Habs (js "CN")) by (solve_in || discriminate).
    rewrite (Habs (js "CO")) by (solve_in || discriminate).
    rewrite (Habs (js "AD")) by (solve_in || discriminate).
    rewrite (Habs (js "AA")) by (solve_in || discriminate).
    rewrite (replace_field_segment (js "AE") _ value) by (discriminate || exact Hv).
    rewrite Hred.
    rewrite (replace_field_absent (js "AB"))
      by (apply (masked_segment_stable (js "AE") (js "AB")); [solve_in|exact Hshape]).
    reflexivity. }
  apply elem_of_cons in Hin as [->|Hin]; [|inversion Hin].
  rewrite (Habs (js "CN")) by (solve_in || discriminate).
  rewrite (Habs (js "CO")) by (solve_in || discriminate).
  rewrite (Habs (js "AD")) by (solve_in || discriminate).
  rewrite (Habs (js "AA")) by (solve_in || discriminate).
  rewrite (Habs (js "AE")) by (solve_in || discriminate).
  rewrite (replace_field_segment (js "AB") _ value) by (discriminate || exact Hv).
  rewrite Hred. reflexivity.
Qed.

Lemma pii_fields_masked_witness :
  maskPii_text (Some example_key) (js "23001|AAP12345|AC")
  = maskPii_text (Some example_key) (js "23001")
    ++ js "|AAMASKED_" ++ hmac16 example_key (js "P12345")
    ++ js "|" ++ maskPii_text (Some example_key) (js "AC").
Proof.
  etransitivity;
    [apply (pii_fields_masked (Some example_key) (js "23001") (js "AC") (js "AA")
              (js "P12345"))|].
  - solve_in.
  - apply (bool_decide_eq_true_1 (Forall (fun c => c <> 124) _)). vm_compute. reflexivity.
  - intros f Hf Hne. unfold allSensitiveFields, credentialFields, piiFields in Hf.
    cbn [app] in Hf.
    repeat (apply elem_of_cons in Hf as [->|Hf];
            [first [congruence|vm_compute; reflexivity]|]).
    inversion Hf.
  - rewrite (mask_configured example_key (js "P12345")) by discriminate.
    rewrite <- !app_assoc. reflexivity.
Defined.
